(** * CuralisPatientMobile: a shallow embedding of the patient client

    The development follows the TypeScript sources file by file:
    - [Buffer]: the part of the [buffer] package the screens call;
    - [AICheckInScreen]: the real-time check-in session
      (src/patient/screens/main/AICheckInScreen.tsx);
    - [AppointmentsScreen]: optimistic booking
      (src/patient/screens/main/AppointmentsScreen.tsx);
    - [ExamDetailScreen] and [RealApi]: the exam status toggle and the
      date helpers (src/patient/screens/procedures/ExamDetailScreen.tsx,
      src/shared/api/realApi.ts);
    - [PdfGenerator]: the consent document (src/shared/utils/pdfGenerator.ts).

    React state is modelled by explicit state passing: a handler is a
    function from the component state (its [useState] cells and its refs)
    to the next state, and what it asks of a collaborator (socket, recorder,
    web view, alert) is appended to a log of effects. What a collaborator
    answers (a recorder that throws, a server that rejects) is an argument
    of the handler. *)

From stdpp Require Import gmap strings list.
From Stdlib Require Import ZArith Lia Ascii.
From Stdlib Require DecimalString HexadecimalString.

Local Open Scope Z_scope.

(** ** String helpers shared by the modules *)

(** The double quote character, and a one-character string of it. *)
Definition dquote : ascii := ascii_of_nat 34.
Definition dq : string := String dquote EmptyString.

(** Code unit of a character, as JavaScript's [charCodeAt] gives it. *)
Definition charCode (c : ascii) : Z := Z.of_nat (nat_of_ascii c).

(** [String.fromCharCode] on a code unit below 256. *)
Definition fromCharCode (z : Z) : ascii := ascii_of_nat (Z.to_nat z).

Fixpoint string_of_chars (l : list ascii) : string :=
  match l with
  | [] => EmptyString
  | c :: l' => String c (string_of_chars l')
  end.

Fixpoint chars_of_string (s : string) : list ascii :=
  match s with
  | EmptyString => []
  | String c s' => c :: chars_of_string s'
  end.

(** JavaScript truthiness of a string: the empty string is falsy. *)
Definition truthy (s : string) : bool :=
  match s with
  | EmptyString => false
  | String _ _ => true
  end.

(** [s1 || s2] on strings. *)
Definition str_or (s1 s2 : string) : string := if truthy s1 then s1 else s2.

(** [String (n)] for an integral number: its decimal digits, with a sign
    for a negative one. *)
Definition numberToString (z : Z) : string :=
  DecimalString.NilZero.string_of_int (Z.to_int z).

(** A number that need not be an integer: a measure of the window, a
    number of a stored record. The code prints such a number in a
    template literal and tests it for truth, and does nothing else with
    it, so it is held by the text [String (n)] gives: [300],
    [327.27272727272725], [1e+21], [NaN]. *)
Record JsNumber := { numberText : string }.

Global Instance JsNumber_eq_dec : EqDecision JsNumber.
Proof. solve_decision. Defined.

(** The truth value of a number: [0], [-0], which prints as [0], and
    [NaN] are falsy. *)
Definition truthyNumber (n : JsNumber) : bool :=
  negb (bool_decide (numberText n = "0"%string)
        || bool_decide (numberText n = "NaN"%string)).

(** The text of a double-quoted attribute, read from behind its opening
    quote: what stands before the next double quote. *)
Fixpoint upToQuote (s : string) : string :=
  match s with
  | EmptyString => EmptyString
  | String c s' =>
      if Ascii.eqb c dquote then EmptyString else String c (upToQuote s')
  end.

(** No double quote stands in the text. *)
Fixpoint quoteFree (s : string) : bool :=
  match s with
  | EmptyString => true
  | String c s' => negb (Ascii.eqb c dquote) && quoteFree s'
  end.

(** [n.toString (16)] for a natural number. *)
Definition toHex (n : N) : string :=
  HexadecimalString.NilZero.string_of_uint (N.to_hex_uint n).

(** [s.toUpperCase ()] on one-byte characters: a..z become A..Z. *)
Definition upperChar (c : ascii) : ascii :=
  let n := nat_of_ascii c in
  if ((97 <=? n) && (n <=? 122))%nat then ascii_of_nat (n - 32) else c.

Fixpoint toUpperCase (s : string) : string :=
  match s with
  | EmptyString => EmptyString
  | String c s' => String (upperChar c) (toUpperCase s')
  end.

(** [s] occurs in [t]: [t] is [pre ++ s ++ post]. *)
Definition occurs_in (s t : string) : Prop :=
  exists pre post : string, t = pre +:+ s +:+ post.

(** White space of [String.prototype.trim] among one-byte code units. *)
Definition isTrimSpace (c : ascii) : bool :=
  let n := nat_of_ascii c in
  (((9 <=? n) && (n <=? 13)) || (n =? 32) || (n =? 160))%nat.

Fixpoint trimStart (s : string) : string :=
  match s with
  | EmptyString => EmptyString
  | String c s' => if isTrimSpace c then trimStart s' else s
  end.

Fixpoint trimEnd (s : string) : string :=
  match s with
  | EmptyString => EmptyString
  | String c s' =>
      let r := trimEnd s' in
      if isTrimSpace c && negb (truthy r) then EmptyString else String c r
  end.

(** [s.trim ()] *)
Definition trim (s : string) : string := trimEnd (trimStart s).

(** ASCII lower case, the folding a regular expression with the [i] flag
    applies to a pattern of ASCII letters. *)
Definition lowerChar (c : ascii) : ascii :=
  let n := nat_of_ascii c in
  if ((65 <=? n) && (n <=? 90))%nat then ascii_of_nat (n + 32) else c.

Fixpoint toLowerCase (s : string) : string :=
  match s with
  | EmptyString => EmptyString
  | String c s' => String (lowerChar c) (toLowerCase s')
  end.

(** The text up to the first colon, and what follows it. *)
Fixpoint cutAtColon (s : string) : string * option string :=
  match s with
  | EmptyString => (EmptyString, None)
  | String c s' =>
      if bool_decide (c = ":"%char) then (EmptyString, Some s')
      else let (h, t) := cutAtColon s' in (String c h, t)
  end.

(** [s.split (':')[1]]: the second field, [None] when there is no colon. *)
Definition secondField (s : string) : option string :=
  match cutAtColon s with
  | (_, Some rest) => Some (cutAtColon rest).1
  | (_, None) => None
  end.

Definition digitOf (c : ascii) : option Z :=
  let n := charCode c in
  if (48 <=? n) && (n <=? 57) then Some (n - 48) else None.

Definition isDigit (c : ascii) : bool :=
  (48 <=? charCode c) && (charCode c <=? 57).

(** The value of the longest prefix of decimal digits, given the value
    [acc] of the digits read so far. *)
Fixpoint readDigits (acc : Z) (s : string) : Z :=
  match s with
  | EmptyString => acc
  | String c s' =>
      match digitOf c with
      | Some d => readDigits (10 * acc + d) s'
      | None => acc
      end
  end.

(** [parseInt (s, 10)]: leading white space, an optional sign, then
    digits; [None] is NaN. *)
Definition parseInt10 (s : string) : option Z :=
  match trimStart s with
  | EmptyString => None
  | String c s' =>
      if bool_decide (c = "-"%char) then
        match s' with
        | String d _ => if isDigit d then Some (- readDigits 0 s') else None
        | EmptyString => None
        end
      else if bool_decide (c = "+"%char) then
        match s' with
        | String d _ => if isDigit d then Some (readDigits 0 s') else None
        | EmptyString => None
        end
      else if isDigit c then Some (readDigits 0 (String c s')) else None
  end.

(** A decision procedure for [occurs_in]. *)
Fixpoint isPrefix (p s : string) : bool :=
  match p, s with
  | EmptyString, _ => true
  | String a p', String b s' => bool_decide (a = b) && isPrefix p' s'
  | String _ _, EmptyString => false
  end.

Fixpoint contains (p s : string) : bool :=
  isPrefix p s
  || match s with
     | EmptyString => false
     | String _ s' => contains p s'
     end.

(** ** The [buffer] package *)

Module Buffer.

(** A buffer is its list of bytes, each a number in 0..255. *)
Definition wf (b : list Z) : Prop := Forall (fun x => 0 <= x < 256) b.

(** [Buffer.alloc n]: [n] zero bytes. *)
Definition alloc (n : nat) : list Z := replicate n 0.

(** [Buffer.concat chunks]. *)
Definition concat (chunks : list (list Z)) : list Z := mjoin chunks.

(** [buf.slice (start, end)]. *)
Definition slice (start stop : nat) (b : list Z) : list Z :=
  take (stop - start) (drop start b).

(** Overwrite [buf] from [off] with the bytes of [src] that fit; the
    length of [buf] never changes ([write] and [copy] both truncate). *)
Definition blit (src : list Z) (off : nat) (buf : list Z) : list Z :=
  take off buf ++ take (length buf - off) src
               ++ drop (off + length src) buf.

Definition bytes_of_string (s : string) : list Z :=
  map charCode (chars_of_string s).

(** [buf.write (s, off)] for a string of one-byte characters. *)
Definition write (s : string) (off : nat) (buf : list Z) : list Z :=
  blit (bytes_of_string s) off buf.

(** [src.copy (target, off)]. *)
Definition copy (src : list Z) (off : nat) (target : list Z) : list Z :=
  blit src off target.

(** The [n] low bytes of [v], least significant first. *)
Fixpoint le_bytes (n : nat) (v : Z) : list Z :=
  match n with
  | O => []
  | S n' => Z.land v 255 :: le_bytes n' (Z.shiftr v 8)
  end.

(** The number a little-endian byte list stands for. *)
Fixpoint le_value (l : list Z) : Z :=
  match l with
  | [] => 0
  | b :: l' => b + 256 * le_value l'
  end.

(** [buf.writeUInt32LE (v, off)] and [buf.writeUInt16LE (v, off)]: a
    value or an offset out of range raises a RangeError ([None]). *)
Definition writeUIntLE (n : nat) (v : Z) (off : nat) (buf : list Z)
  : option (list Z) :=
  if bool_decide (0 <= v < 2 ^ (8 * Z.of_nat n)
                  /\ (off + n <= length buf)%nat)
  then Some (blit (le_bytes n v) off buf)
  else None.

Definition writeUInt32LE := writeUIntLE 4.
Definition writeUInt16LE := writeUIntLE 2.

Definition readUIntLE (n : nat) (off : nat) (buf : list Z) : Z :=
  le_value (slice off (off + n) buf).

(** [buf.toString ('ascii')]: the decoder of the package clears the high
    bit of every byte ([String.fromCharCode (buf[i] & 0x7F)]). *)
Definition toAscii (b : list Z) : string :=
  string_of_chars (map (fun x => fromCharCode (Z.land x 127)) b).

(** The base64 alphabet. *)
Definition alphabet : string :=
  "ABCDEFGHIJKLMNOPQRSTUVWXYZabcdefghijklmnopqrstuvwxyz0123456789+/".

Definition b64char (i : Z) : ascii :=
  match String.get (Z.to_nat (Z.land i 63)) alphabet with
  | Some c => c
  | None => "="%char
  end.

(** [buf.toString ('base64')]: three bytes make four characters, and the
    last group is padded with [=]. *)
Fixpoint toBase64 (b : list Z) : string :=
  match b with
  | [] => EmptyString
  | [x] =>
      String (b64char (Z.shiftr x 2))
        (String (b64char (Z.shiftl (Z.land x 3) 4)) "==")
  | [x; y] =>
      String (b64char (Z.shiftr x 2))
        (String (b64char (Z.lor (Z.shiftl (Z.land x 3) 4) (Z.shiftr y 4)))
           (String (b64char (Z.shiftl (Z.land y 15) 2)) "="))
  | x :: y :: z :: rest =>
      String (b64char (Z.shiftr x 2))
        (String (b64char (Z.lor (Z.shiftl (Z.land x 3) 4) (Z.shiftr y 4)))
           (String (b64char (Z.lor (Z.shiftl (Z.land y 15) 2)
                                   (Z.shiftr z 6)))
              (String (b64char (Z.land z 63)) (toBase64 rest))))
  end.

End Buffer.

(** ** The WAV container of [flushTTSBuffer] *)

Module Wav.

Definition sampleRate : Z := 24000.
Definition numChannels : Z := 1.
Definition bitsPerSample : Z := 16.
Definition byteRate : Z := (sampleRate * numChannels * bitsPerSample) / 8.
Definition blockAlign : Z := (numChannels * bitsPerSample) / 8.

(** [merged.length >= 4 && merged.slice(0, 4).toString('ascii') === 'RIFF'] *)
Definition isWav (merged : list Z) : bool :=
  bool_decide (4 <= length merged)%nat
  && bool_decide (Buffer.toAscii (Buffer.slice 0 4 merged) = "RIFF"%string).

(** The body of [if (!isWav) { ... }]: a 44-byte header, then the
    samples. [None] when one of the writes raises. *)
Definition wrap (merged : list Z) : option (list Z) :=
  let dataSize := length merged in
  let buffer := Buffer.alloc (44 + dataSize) in
  let buffer := Buffer.write "RIFF" 0 buffer in
  buffer ← Buffer.writeUInt32LE (36 + Z.of_nat dataSize) 4 buffer;
  let buffer := Buffer.write "WAVE" 8 buffer in
  let buffer := Buffer.write "fmt " 12 buffer in
  buffer ← Buffer.writeUInt32LE 16 16 buffer;
  buffer ← Buffer.writeUInt16LE 1 20 buffer;
  buffer ← Buffer.writeUInt16LE numChannels 22 buffer;
  buffer ← Buffer.writeUInt32LE sampleRate 24 buffer;
  buffer ← Buffer.writeUInt32LE byteRate 28 buffer;
  buffer ← Buffer.writeUInt16LE blockAlign 32 buffer;
  buffer ← Buffer.writeUInt16LE bitsPerSample 34 buffer;
  let buffer := Buffer.write "data" 36 buffer in
  buffer ← Buffer.writeUInt32LE (Z.of_nat dataSize) 40 buffer;
  Some (Buffer.copy merged 44 buffer).

(** What [flushTTSBuffer] hands to the player for the chunks it took
    from [ttsChunksRef]: nothing for an empty chunk list (the early
    [return]), otherwise the merged bytes, wrapped unless [isWav].
    The outer [option] is the early return, the inner one a RangeError. *)
Definition mergedAudio (chunks : list (list Z)) : option (option (list Z)) :=
  match chunks with
  | [] => None
  | _ =>
      let merged := Buffer.concat chunks in
      Some (if isWav merged then Some merged else wrap merged)
  end.

(** The header the comment of the source describes, field by field. *)
Definition header (dataSize : Z) : list Z :=
  Buffer.bytes_of_string "RIFF" ++ Buffer.le_bytes 4 (36 + dataSize)
  ++ Buffer.bytes_of_string "WAVE" ++ Buffer.bytes_of_string "fmt "
  ++ Buffer.le_bytes 4 16 ++ Buffer.le_bytes 2 1 ++ Buffer.le_bytes 2 1
  ++ Buffer.le_bytes 4 24000 ++ Buffer.le_bytes 4 48000
  ++ Buffer.le_bytes 2 2 ++ Buffer.le_bytes 2 16
  ++ Buffer.bytes_of_string "data" ++ Buffer.le_bytes 4 dataSize.

End Wav.


(** ** The consent document (src/shared/utils/pdfGenerator.ts) *)

Module PdfGenerator.

Record Dimensions := { width : JsNumber; height : JsNumber }.

Record SignatureData := {
  paths : list string;
  timestamp : string;
  dimensions : Dimensions
}.

Record PatientInfo := {
  name : string;
  dateOfBirth : string;
  patientId : string
}.

(** What the platform's [Date] makes of a timestamp string: the two
    [toLocale...String ('en-US', ...)] renderings and [getTime ()] in
    decimal and in hexadecimal. *)
Record DateView := {
  formattedDate : string;
  formattedTime : string;
  timeValue : string;
  timeValueHex : string
}.

(** The template returned when the joined path data is empty (lines 58-62). *)
Definition signaturePlaceholder (w h : string) : string :=
  "
      <div style=" +:+ dq +:+ "width:" +:+ w +:+ "px; height:" +:+ h
  +:+ "px; border:1px dashed #ccc; text-align:center; line-height:" +:+ h
  +:+ "px; color:#ccc;" +:+ dq +:+ ">
        Signature not provided
      </div>
    ".

(** [`0 0 ${dimensions.width} ${dimensions.height}`] (line 66). *)
Definition viewBoxOf (w h : string) : string :=
  "0 0 " +:+ w +:+ " " +:+ h.

(** The SVG template (lines 68-85). *)
Definition signatureSvg (w h viewBox combinedPathData : string) : string :=
  "
    <svg 
      width=" +:+ dq +:+ w +:+ dq +:+ " 
      height=" +:+ dq +:+ h +:+ dq +:+ " 
      viewBox=" +:+ dq +:+ viewBox +:+ dq +:+ " 
      xmlns=" +:+ dq +:+ "http://www.w3.org/2000/svg" +:+ dq +:+ "
      style=" +:+ dq +:+ "border: 1px solid #E5E7EB; background-color: white;" +:+ dq +:+ "
    >
      <path 
        d=" +:+ dq +:+ combinedPathData +:+ dq +:+ " 
        stroke=" +:+ dq +:+ "#2563EB" +:+ dq +:+ " 
        stroke-width=" +:+ dq +:+ "3" +:+ dq +:+ " 
        fill=" +:+ dq +:+ "none" +:+ dq +:+ " 
        stroke-linecap=" +:+ dq +:+ "round" +:+ dq +:+ " 
        stroke-linejoin=" +:+ dq +:+ "round" +:+ dq +:+ "
      />
    </svg>
  ".

(** The document template up to the signature (lines 105-295). *)
Definition consentHead (name dateOfBirth patientId formattedDate : string) : string :=
  "
    <!DOCTYPE html>
    <html>
    <head>
      <meta charset=" +:+ dq +:+ "UTF-8" +:+ dq +:+ ">
      <meta name=" +:+ dq +:+ "viewport" +:+ dq +:+ " content=" +:+ dq
  +:+ "width=device-width, initial-scale=1.0" +:+ dq +:+ ">
      <title>Digital Consent Agreement</title>
      <style>
        body {
          font-family: -apple-system, BlinkMacSystemFont, 'Segoe UI', Roboto, sans-serif;
          line-height: 1.6;
          color: #1F2937;
          max-width: 800px;
          margin: 0 auto;
          padding: 40px 20px;
          background-color: #F8FAFC;
        }
        .header {
          text-align: center;
          margin-bottom: 40px;
          padding-bottom: 20px;
          border-bottom: 2px solid #E5E7EB;
        }
        .logo {
          font-size: 24px;
          font-weight: bold;
          color: #2563EB;
          margin-bottom: 10px;
        }
        .title {
          font-size: 28px;
          font-weight: bold;
          color: #1F2937;
          margin-bottom: 10px;
        }
        .subtitle {
          font-size: 16px;
          color: #6B7280;
        }
        .patient-info {
          background-color: white;
          padding: 20px;
          border-radius: 12px;
          margin-bottom: 30px;
          border: 1px solid #E5E7EB;
        }
        .patient-info h3 {
          margin: 0 0 15px 0;
          color: #2563EB;
          font-size: 18px;
        }
        .info-grid {
          display: grid;
          grid-template-columns: 1fr 1fr;
          gap: 15px;
        }
        .info-item {
          display: flex;
          flex-direction: column;
        }
        .info-label {
          font-size: 12px;
          color: #6B7280;
          text-transform: uppercase;
          letter-spacing: 0.5px;
          margin-bottom: 5px;
        }
        .info-value {
          font-size: 16px;
          font-weight: 600;
          color: #1F2937;
        }
        .consent-text {
          background-color: white;
          padding: 30px;
          border-radius: 12px;
          margin-bottom: 30px;
          border: 1px solid #E5E7EB;
        }
        .consent-text h3 {
          margin: 0 0 20px 0;
          color: #1F2937;
          font-size: 20px;
        }
        .consent-text p {
          margin: 0 0 15px 0;
          font-size: 14px;
          color: #374151;
        }
        .signature-section {
          background-color: white;
          padding: 30px;
          border-radius: 12px;
          margin-bottom: 30px;
          border: 1px solid #E5E7EB;
        }
        .signature-section h3 {
          margin: 0 0 20px 0;
          color: #1F2937;
          font-size: 20px;
        }
        .signature-container {
          display: flex;
          justify-content: center;
          margin: 20px 0;
        }
        .signature-info {
          margin-top: 20px;
          padding-top: 20px;
          border-top: 1px solid #E5E7EB;
        }
        .signature-info p {
          margin: 5px 0;
          font-size: 14px;
          color: #6B7280;
        }
        .footer {
          text-align: center;
          margin-top: 40px;
          padding-top: 20px;
          border-top: 2px solid #E5E7EB;
          color: #6B7280;
          font-size: 12px;
        }
        @media print {
          body {
            background-color: white;
            padding: 20px;
          }
          .header, .patient-info, .consent-text, .signature-section {
            border: 1px solid #000;
            margin-bottom: 20px;
          }
        }
      </style>
    </head>
    <body>
      <div class=" +:+ dq +:+ "header" +:+ dq +:+ ">
        <div class=" +:+ dq +:+ "logo" +:+ dq +:+ ">FollowNest</div>
        <h1 class=" +:+ dq +:+ "title" +:+ dq +:+ ">Digital Consent Agreement</h1>
        <p class=" +:+ dq +:+ "subtitle" +:+ dq +:+ ">Medical Data Processing Consent</p>
      </div>
      
      <div class=" +:+ dq +:+ "patient-info" +:+ dq +:+ ">
        <h3>Patient Information</h3>
        <div class=" +:+ dq +:+ "info-grid" +:+ dq +:+ ">
          <div class=" +:+ dq +:+ "info-item" +:+ dq +:+ ">
            <span class=" +:+ dq +:+ "info-label" +:+ dq +:+ ">Patient Name</span>
            <span class=" +:+ dq +:+ "info-value" +:+ dq +:+ ">" +:+ name +:+ "</span>
          </div>
          <div class=" +:+ dq +:+ "info-item" +:+ dq +:+ ">
            <span class=" +:+ dq +:+ "info-label" +:+ dq +:+ ">Date of Birth</span>
            <span class=" +:+ dq +:+ "info-value" +:+ dq +:+ ">" +:+ dateOfBirth +:+ "</span>
          </div>
          <div class=" +:+ dq +:+ "info-item" +:+ dq +:+ ">
            <span class=" +:+ dq +:+ "info-label" +:+ dq +:+ ">Patient ID</span>
            <span class=" +:+ dq +:+ "info-value" +:+ dq +:+ ">" +:+ patientId +:+ "</span>
          </div>
          <div class=" +:+ dq +:+ "info-item" +:+ dq +:+ ">
            <span class=" +:+ dq +:+ "info-label" +:+ dq +:+ ">Consent Date</span>
            <span class=" +:+ dq +:+ "info-value" +:+ dq +:+ ">" +:+ formattedDate +:+ "</span>
          </div>
        </div>
      </div>
      
      <div class=" +:+ dq +:+ "consent-text" +:+ dq +:+ ">
        <h3>Consent Agreement</h3>
        <p>
          By signing this document, I, <strong>" +:+ name +:+ "</strong>, hereby provide my informed consent 
          for the collection, processing, and storage of my medical data for the purposes of my healthcare 
          treatment and follow-up care.
        </p>
        <p>
          I understand and agree to the following:
        </p>
        <ul>
          <li>My medical data will be collected and processed for healthcare purposes</li>
          <li>My data will be stored securely in accordance with applicable privacy laws</li>
          <li>I have the right to access, correct, or delete my data as permitted by law</li>
          <li>My data may be shared with healthcare providers involved in my care</li>
          <li>I can withdraw my consent at any time by contacting the healthcare provider</li>
        </ul>
        <p>
          I acknowledge that I have read and understood this consent agreement and voluntarily provide 
          my consent for the processing of my medical data.
        </p>
      </div>
      
      <div class=" +:+ dq +:+ "signature-section" +:+ dq +:+ ">
        <h3>Digital Signature</h3>
        <div class=" +:+ dq +:+ "signature-container" +:+ dq +:+ ">
          ".

(** The document template after the signature (lines 297-312). *)
Definition consentTail (name patientId formattedDate formattedTime signatureId timeValue : string) : string :=
  "
        </div>
        <div class=" +:+ dq +:+ "signature-info" +:+ dq +:+ ">
          <p><strong>Signed by:</strong> " +:+ name +:+ "</p>
          <p><strong>Date:</strong> " +:+ formattedDate +:+ "</p>
          <p><strong>Time:</strong> " +:+ formattedTime +:+ "</p>
          <p><strong>Digital Signature ID:</strong> " +:+ signatureId +:+ "</p>
        </div>
      </div>
      
      <div class=" +:+ dq +:+ "footer" +:+ dq +:+ ">
        <p>This document was generated electronically by FollowNest on " +:+ formattedDate +:+ " at " +:+ formattedTime +:+ "</p>
        <p>Document ID: CONSENT-" +:+ patientId +:+ "-" +:+ timeValue +:+ "</p>
      </div>
    </body>
    </html>
  ".

(** [`SIG-${pathsHash}-${timestamp}`] (line 318). *)
Definition signatureIdOf (pathsHash timestamp : string) : string :=
  "SIG-" +:+ pathsHash +:+ "-" +:+ timestamp.

(** [generateSignatureSVG] (lines 47-86). *)
Definition generateSignatureSVG (signatureData : SignatureData) : string :=
  let dims := dimensions signatureData in
  let w := numberText (width dims) in
  let h := numberText (height dims) in
  let safePaths := paths signatureData in
  let combinedPathData := String.concat " " safePaths in
  if negb (truthy combinedPathData)
  then signaturePlaceholder w h
  else
    let viewBox := viewBoxOf w h in
    signatureSvg w h viewBox combinedPathData.

Section WithDate.

(** [new Date (timestamp)] and its renderings belong to the platform. *)
Variable dateOf : string -> DateView.

(** [generateSignatureId] (lines 315-319). *)
Definition generateSignatureId (signatureData : SignatureData) : string :=
  let pathsHash :=
    toHex (N.of_nat (String.length
                       (String.concat EmptyString (paths signatureData)))) in
  let timestamp := timeValueHex (dateOf (timestamp signatureData)) in
  toUpperCase (signatureIdOf pathsHash timestamp).

(** [generateConsentHTML] (lines 88-313). *)
Definition generateConsentHTML (signatureSVG : string)
    (patientInfo : PatientInfo) (timestamp : string)
    (signatureData : SignatureData) : string :=
  let dv := dateOf timestamp in
  consentHead (name patientInfo) (dateOfBirth patientInfo)
              (patientId patientInfo) (formattedDate dv)
  +:+ signatureSVG
  +:+ consentTail (name patientInfo) (patientId patientInfo)
                  (formattedDate dv) (formattedTime dv)
                  (generateSignatureId signatureData) (timeValue dv).

(** The [htmlContent] of [generateConsentPDF] (lines 23-26). *)
Definition consentDocument (signatureData : SignatureData)
    (patientInfo : PatientInfo) : string :=
  let signatureSVG := generateSignatureSVG signatureData in
  generateConsentHTML signatureSVG patientInfo
                      (timestamp signatureData) signatureData.

End WithDate.

(** [s.replace (pattern, replacement)] for a pattern that is a string and
    a replacement without [$]: the first occurrence is replaced. *)
Fixpoint dropChars (n : nat) (s : string) : string :=
  match n, s with
  | O, _ => s
  | S n', String _ s' => dropChars n' s'
  | S _, EmptyString => EmptyString
  end.

Fixpoint replaceFirst (pattern replacement s : string) : string :=
  if isPrefix pattern s
  then replacement +:+ dropChars (String.length pattern) s
  else match s with
       | EmptyString => EmptyString
       | String c s' => String c (replaceFirst pattern replacement s')
       end.

(** The value of the first attribute of a document that opens with the
    text [opening], such as [viewBox=] and a double quote: what stands
    between that text and the next double quote. *)
Fixpoint textAfter (opening s : string) : option string :=
  if isPrefix opening s
  then Some (dropChars (String.length opening) s)
  else match s with
       | EmptyString => None
       | String _ s' => textAfter opening s'
       end.

Definition firstAttribute (opening document : string) : option string :=
  upToQuote <$> textAfter opening document.

Section Files.

Variable dateOf : string -> DateView.

(** [FileSystem.documentDirectory], as a template string prints it. *)
Variable documentDirectory : string.

(** [`consent_${patientInfo.patientId}_${new Date ().getTime ()}.pdf`]
    (line 29), for the time [now] in milliseconds. *)
Definition consentFileName (patientInfo : PatientInfo) (now : Z) : string :=
  "consent_" +:+ patientId patientInfo +:+ "_" +:+ numberToString now
  +:+ ".pdf".

(** The call of [FileSystem.writeAsStringAsync]. *)
Record FileWrite := {
  writePath : string;
  writeContent : string
}.

(** [generateConsentPDF] (lines 17-45): the file it asks the platform to
    write and the path it resolves to; [written] is whether the write
    resolves, and [None] is the error thrown from the [catch]. *)
Definition generateConsentPDF (signatureData : SignatureData)
    (patientInfo : PatientInfo) (now : Z) (written : bool)
  : FileWrite * option string :=
  let signatureSVG := generateSignatureSVG signatureData in
  let htmlContent :=
    generateConsentHTML dateOf signatureSVG patientInfo
                        (timestamp signatureData) signatureData in
  let fileName := consentFileName patientInfo now in
  let htmlFilePath :=
    documentDirectory +:+ replaceFirst ".pdf" ".html" fileName in
  ({| writePath := htmlFilePath; writeContent := htmlContent |},
   if written then Some htmlFilePath else None).

End Files.

(** [shareConsentDocument] (lines 321-335): the paths handed to
    [Sharing.shareAsync] and whether the call throws. [available] is what
    [Sharing.isAvailableAsync ()] resolves to ([None] when it rejects) and
    [shared] is whether [shareAsync] resolves. *)
Definition shareConsentDocument (filePath : string)
    (available : option bool) (shared : bool) : list string * bool :=
  match available with
  | None => ([], true)
  | Some true => ([filePath], negb shared)
  | Some false => ([], false)
  end.

End PdfGenerator.

(** ** The API service (src/shared/api/realApi.ts) *)

Module RealApi.

(** *** Dates *)

(** The local reading of a [Date]: what [getFullYear], [getMonth]
    (0..11), [getDate], [getHours], [getMinutes], [getSeconds] and
    [getMilliseconds] return. *)
Record LocalTime := {
  year : Z;
  month : Z;
  day : Z;
  hours : Z;
  minutes : Z;
  seconds : Z;
  millis : Z
}.

(** A [Date] object is a point in time or the Invalid Date. *)
Inductive JsDate :=
| DateOf (t : LocalTime)
| InvalidDate.

Definition isLeap (y : Z) : bool :=
  ((y mod 4 =? 0) && negb (y mod 100 =? 0)) || (y mod 400 =? 0).

Definition daysInMonth (y m : Z) : Z :=
  if m =? 1 then (if isLeap y then 29 else 28)
  else if (m =? 3) || (m =? 5) || (m =? 8) || (m =? 10) then 30
  else 31.

(** The fields denote a calendar day and a time of day. *)
Definition fieldsOk (t : LocalTime) : bool :=
  (0 <=? month t) && (month t <=? 11)
  && (1 <=? day t) && (day t <=? daysInMonth (year t) (month t))
  && (0 <=? hours t) && (hours t <=? 23)
  && (0 <=? minutes t) && (minutes t <=? 59)
  && (0 <=? seconds t) && (seconds t <=? 59)
  && (0 <=? millis t) && (millis t <=? 999).

(** [s.padStart (2, '0')] *)
Definition padStart2 (s : string) : string :=
  match s with
  | EmptyString => "00"
  | String c EmptyString => String "0" (String c EmptyString)
  | _ => s
  end.

(** [formatLocalISO] (lines 26-34). On the Invalid Date every getter
    returns NaN. *)
Definition formatLocalISO (date : JsDate) : string :=
  match date with
  | DateOf t =>
      let year := numberToString (year t) in
      let month := padStart2 (numberToString (month t + 1)) in
      let day := padStart2 (numberToString (day t)) in
      let hours := padStart2 (numberToString (hours t)) in
      let minutes := padStart2 (numberToString (minutes t)) in
      let seconds := padStart2 (numberToString (seconds t)) in
      year +:+ "-" +:+ month +:+ "-" +:+ day +:+ "T" +:+ hours
           +:+ ":" +:+ minutes +:+ ":" +:+ seconds
  | InvalidDate => "NaN-NaN-NaNTNaN:NaN:NaN"
  end.

Definition digitVal (c : ascii) : option Z :=
  let n := charCode c in
  if (48 <=? n) && (n <=? 57) then Some (n - 48) else None.

Definition digits2 (a b : ascii) : option Z :=
  x ← digitVal a; y ← digitVal b; Some (10 * x + y).

Definition digits3 (a b c : ascii) : option Z :=
  x ← digitVal a; y ← digits2 b c; Some (100 * x + y).

Definition digits4 (a b c d : ascii) : option Z :=
  x ← digits2 a b; y ← digits2 c d; Some (100 * x + y).

(** The seconds and milliseconds after [HH:mm]: nothing, [:ss] or
    [:ss.sss]. *)
Definition parseSeconds (rest : list ascii) : option (Z * Z) :=
  match rest with
  | [] => Some (0, 0)
  | [c; s1; s2] =>
      if bool_decide (c = ":"%char)
      then s ← digits2 s1 s2; Some (s, 0) else None
  | [c; s1; s2; p; f1; f2; f3] =>
      if bool_decide (c = ":"%char) && bool_decide (p = "."%char)
      then s ← digits2 s1 s2; f ← digits3 f1 f2 f3; Some (s, f) else None
  | _ => None
  end.

(** The date-time forms of the ECMAScript date-time string format that
    carry no UTC offset, [YYYY-MM-DDTHH:mm], [YYYY-MM-DDTHH:mm:ss] and
    [YYYY-MM-DDTHH:mm:ss.sss]: these are read as local time. *)
Definition parseLocalDateTime (s : string) : option LocalTime :=
  match chars_of_string s with
  | y1 :: y2 :: y3 :: y4 :: c1 :: m1 :: m2 :: c2 :: d1 :: d2 :: c3
      :: h1 :: h2 :: c4 :: i1 :: i2 :: rest =>
      if bool_decide (c1 = "-"%char) && bool_decide (c2 = "-"%char)
         && bool_decide (c3 = "T"%char) && bool_decide (c4 = ":"%char)
      then
        y ← digits4 y1 y2 y3 y4;
        m ← digits2 m1 m2;
        d ← digits2 d1 d2;
        h ← digits2 h1 h2;
        i ← digits2 i1 i2;
        sf ← parseSeconds rest;
        let t := {| year := y; month := m - 1; day := d; hours := h;
                    minutes := i; seconds := sf.1; millis := sf.2 |} in
        if fieldsOk t then Some t else None
      else None
  | _ => None
  end.

(** Executable checks used to validate the printer against the parser
    over a range of numbers. *)
Definition yearPrints (y : Z) : bool :=
  match numberToString y with
  | String a (String b (String c (String d EmptyString))) =>
      bool_decide (digits4 a b c d = Some y)
  | _ => false
  end.

Definition twoDigitsPrint (n : Z) : bool :=
  match padStart2 (numberToString n) with
  | String a (String b EmptyString) => bool_decide (digits2 a b = Some n)
  | _ => false
  end.

Definition allInRange (P : Z -> bool) (lo : Z) (n : nat) : bool :=
  forallb (fun i => P (lo + Z.of_nat i)) (seq 0 n).

(** The reading with the milliseconds dropped. *)
Definition wholeSecond (t : LocalTime) : LocalTime :=
  {| year := year t; month := month t; day := day t; hours := hours t;
     minutes := minutes t; seconds := seconds t; millis := 0 |}.

(** [value.endsWith ('Z')] *)
Fixpoint endsWithZ (s : string) : bool :=
  match s with
  | EmptyString => false
  | String c EmptyString => bool_decide (c = "Z"%char)
  | String _ s' => endsWithZ s'
  end.

(** [value.slice (0, -1)] *)
Fixpoint dropLast (s : string) : string :=
  match s with
  | EmptyString => EmptyString
  | String _ EmptyString => EmptyString
  | String c s' => String c (dropLast s')
  end.

(** The argument of [parseAsLocal]: [string | Date | undefined]. *)
Inductive DateInput :=
| Undefined
| Str (s : string)
| Obj (d : JsDate).

Section WithPlatform.

(** The time zone of the device: whether a local time occurs in it
    (a daylight-saving jump skips some), and the time the platform
    substitutes for one that does not. *)
Variable zoneHas : LocalTime -> bool.
Variable zoneAdjust : LocalTime -> LocalTime.

(** What the engine makes of any other string: the forms that depend
    on the zone (date only, explicit offset) and those the standard
    leaves to the implementation. *)
Variable platformParse : string -> JsDate.

(** [new Date (s)] *)
Definition newDate (s : string) : JsDate :=
  match parseLocalDateTime s with
  | Some t => DateOf (if zoneHas t then t else zoneAdjust t)
  | None => platformParse s
  end.

(** [parseAsLocal] (lines 37-43). [None] is [undefined]. *)
Definition parseAsLocal (value : DateInput) : option JsDate :=
  match value with
  | Undefined => None
  | Str s =>
      if negb (truthy s) then None
      else
        let localish := if endsWithZ s then dropLast s else s in
        Some (newDate localish)
  | Obj d => Some d
  end.

End WithPlatform.

(** *** Exams *)

Inductive ExamStatus := Pending | Uploaded | Completed.

Record Exam := {
  examId : string;
  examName : string;
  status : ExamStatus
}.

(** The uniform envelope [{success, data?, error?}]. *)
Record ApiResponse (T : Type) := {
  success : bool;
  data : option T;
  error : option string
}.
Arguments success {T}.
Arguments data {T}.
Arguments error {T}.

(** What the HTTP client does with the PATCH request: it rejects (network
    failure, timeout, a status outside 2xx), or it resolves with the body
    of the response, whose [data] may be missing. *)
Inductive HttpOutcome :=
| HttpRejects
| HttpResolves (bodySuccess : bool) (bodyData : option Exam).

(** [ApiService.updateExamStatus] (lines 500-547). Every path returns an
    envelope: the [catch] turns a rejected request into [success: false]. *)
Definition updateExamStatus (http : HttpOutcome) : ApiResponse Exam :=
  match http with
  | HttpResolves true (Some transformedExam) =>
      {| success := true; data := Some transformedExam; error := None |}
  | HttpResolves _ _ =>
      {| success := false; data := None;
         error := Some "Failed to update exam status"%string |}
  | HttpRejects =>
      {| success := false; data := None;
         error := Some "Failed to update exam status"%string |}
  end.

End RealApi.

(** ** Exam detail (src/patient/screens/procedures/ExamDetailScreen.tsx) *)

Module ExamDetailScreen.

Import RealApi.

(** The component state and the alerts it has shown. *)
Record State := {
  exam : option Exam;
  alerts : list (string * string)
}.

(** An awaited call returns a value or throws. *)
Inductive Awaited (T : Type) :=
| Returned (v : T)
| Thrown.
Arguments Returned {T}.
Arguments Thrown {T}.

Definition setStatus (s : ExamStatus) (prev : option Exam) : option Exam :=
  match prev with
  | Some e => Some {| examId := examId e; examName := examName e; status := s |}
  | None => None
  end.

Definition toggled (s : ExamStatus) : ExamStatus :=
  match s with
  | Completed => Pending
  | _ => Completed
  end.

(** [handleToggleStatus] up to the [await] (lines 48-54): the optimistic
    update. *)
Definition toggleOptimistic (st : State) : State :=
  match exam st with
  | None => st
  | Some e =>
      {| exam := setStatus (toggled (status e)) (exam st); alerts := alerts st |}
  end.

(** [handleToggleStatus] after the [await] (lines 56-64), for the exam
    [e] the handler closed over. *)
Definition toggleSettle (e : Exam) (res : Awaited (ApiResponse Exam))
    (st : State) : State :=
  match res with
  | Returned _ => st
  | Thrown =>
      {| exam := setStatus (status e) (exam st);
         alerts := alerts st
                   ++ [("Error", "Could not update the status. Please try again.")]%string |}
  end.

Definition handleToggleStatus (st : State)
    (res : Awaited (ApiResponse Exam)) : State :=
  match exam st with
  | None => st
  | Some e => toggleSettle e res (toggleOptimistic st)
  end.

(** The handler with the API service of the application behind it
    ([api] is [realApi], whose [updateExamStatus] never throws). *)
Definition toggleWithApi (st : State) (http : HttpOutcome) : State :=
  handleToggleStatus st (Returned (updateExamStatus http)).

End ExamDetailScreen.

(** ** The API service: appointments and the avatar token
    (src/shared/api/realApi.ts) *)

Module ApiService.

(** What an awaited request of the HTTP client comes to: it resolves with
    the body of the response, or it rejects. *)
Inductive Http (T : Type) :=
| Resolves (body : T)
| Rejects.
Arguments Resolves {T}.
Arguments Rejects {T}.

(** What an [async] method comes to: a returned value or an exception. *)
Inductive Result (T : Type) :=
| Returns (value : T)
| Throws.
Arguments Returns {T}.
Arguments Throws {T}.

(** An appointment as the backend sends it; [None] is a missing field. *)
Record BackendAppointment := {
  backendId : string;
  backendPatientId : string;
  backendDoctorId : string;
  backendStartTime : option string;
  backendEndTime : option string;
  backendStatus : option string;
  backendCheckInAt : option string;
  backendAppointmentType : option string
}.

(** The [Appointment] of the application. *)
Record Appointment := {
  id : string;
  patientId : string;
  doctorId : string;
  startTime : option RealApi.JsDate;
  endTime : option RealApi.JsDate;
  status : string;
  checkInAt : option RealApi.JsDate;
  appointmentType : option string
}.

(** The body of [POST /appointments/book] (lines 691-696). *)
Record BookingRequest := {
  requestDoctorId : string;
  requestStartTime : string;
  requestDurationMinutes : Z;
  requestAppointmentType : string
}.

(** The backend envelope of one appointment. *)
Record AppointmentBody := {
  bodySuccess : bool;
  bodyData : option BackendAppointment;
  bodyError : option string
}.

Definition dateInput (value : option string) : RealApi.DateInput :=
  match value with
  | Some s => RealApi.Str s
  | None => RealApi.Undefined
  end.

(** [a.status || 'SCHEDULED'] and the like. *)
Definition orDefault (value : option string) (fallback : string) : string :=
  match value with
  | Some s => str_or s fallback
  | None => fallback
  end.

Section WithPlatform.

Variable zoneHas : RealApi.LocalTime -> bool.
Variable zoneAdjust : RealApi.LocalTime -> RealApi.LocalTime.
Variable platformParse : string -> RealApi.JsDate.

Definition parseAsLocal : RealApi.DateInput -> option RealApi.JsDate :=
  RealApi.parseAsLocal zoneHas zoneAdjust platformParse.

(** [a.checkInAt ? parseAsLocal (a.checkInAt) : undefined] *)
Definition parseCheckIn (value : option string) : option RealApi.JsDate :=
  match value with
  | Some s => if truthy s then parseAsLocal (RealApi.Str s) else None
  | None => None
  end.

(** The transformation of lines 698-707. *)
Definition transformBooked (a : BackendAppointment) : Appointment :=
  {| id := backendId a;
     patientId := backendPatientId a;
     doctorId := backendDoctorId a;
     startTime := parseAsLocal (dateInput (backendStartTime a));
     endTime := parseAsLocal (dateInput (backendEndTime a));
     status := toLowerCase (orDefault (backendStatus a) "SCHEDULED");
     checkInAt := parseCheckIn (backendCheckInAt a);
     appointmentType := Some (orDefault (backendAppointmentType a) "GENERAL") |}.

(** The request [bookAppointment] sends (lines 691-696), with the
    default duration and type of its signature. *)
Definition bookingRequest (doctor : string) (start : RealApi.JsDate)
    (durationMinutes : option Z) (appointmentType : option string)
  : BookingRequest :=
  {| requestDoctorId := doctor;
     requestStartTime := RealApi.formatLocalISO start;
     requestDurationMinutes := default 30 durationMinutes;
     requestAppointmentType := default "GENERAL"%string appointmentType |}.

(** [bookAppointment] (lines 690-709), for the answer of the server to
    the request it sends; a body without [data] makes [a.id] throw. *)
Definition bookAppointment (doctor : string) (start : RealApi.JsDate)
    (durationMinutes : option Z) (appointmentType : option string)
    (server : BookingRequest -> Http AppointmentBody)
  : Result (RealApi.ApiResponse Appointment) :=
  match server (bookingRequest doctor start durationMinutes appointmentType) with
  | Rejects => Throws
  | Resolves body =>
      match bodyData body with
      | None => Throws
      | Some a =>
          Returns {| RealApi.success := bodySuccess body;
                     RealApi.data := Some (transformBooked a);
                     RealApi.error := bodyError body |}
      end
  end.

(** One item of [getMyAppointments] (lines 728-737): as [transformBooked],
    but the type of the appointment is not copied. *)
Definition transformMine (a : BackendAppointment) : Appointment :=
  {| id := backendId a;
     patientId := backendPatientId a;
     doctorId := backendDoctorId a;
     startTime := parseAsLocal (dateInput (backendStartTime a));
     endTime := parseAsLocal (dateInput (backendEndTime a));
     status := toLowerCase (orDefault (backendStatus a) "SCHEDULED");
     checkInAt := parseCheckIn (backendCheckInAt a);
     appointmentType := None |}.

End WithPlatform.

(** The body of [GET /heygen/token]: [raw?.data?.token] and
    [raw?.token]; [None] is a missing field. *)
Record TokenBody := {
  rawDataToken : option string;
  rawToken : option string
}.

(** [raw?.data?.token || raw?.token] *)
Definition tokenOf (raw : TokenBody) : option string :=
  match rawDataToken raw with
  | Some t => if truthy t then Some t else rawToken raw
  | None => rawToken raw
  end.

Definition truthyToken (token : option string) : bool :=
  match token with
  | Some t => truthy t
  | None => false
  end.

(** [getHeygenToken] (lines 882-891). *)
Definition getHeygenToken (http : Http TokenBody)
  : Result (RealApi.ApiResponse string) :=
  match http with
  | Rejects => Throws
  | Resolves raw =>
      let token := tokenOf raw in
      Returns {| RealApi.success := truthyToken token;
                 RealApi.data := if truthyToken token then token else None;
                 RealApi.error := if truthyToken token then None
                                  else Some "No token returned"%string |}
  end.

End ApiService.

(** ** My appointments (the MyAppointmentsScreen component) *)

Module MyAppointmentsScreen.

(** [getStatusText] (lines 522-531) *)
Definition getStatusText (status : string) : string :=
  let s := toUpperCase (str_or status EmptyString) in
  if bool_decide (s = "SCHEDULED"%string) then "Scheduled"
  else if bool_decide (s = "CHECKED_IN"%string) then "Checked In"
  else if bool_decide (s = "COMPLETED"%string) then "Completed"
  else if bool_decide (s = "CANCELLED"%string) then "Cancelled"
  else status.

(** [canCheckIn] (lines 533-536) *)
Definition canCheckIn (appointment : ApiService.Appointment) : bool :=
  bool_decide (toUpperCase (ApiService.status appointment) = "SCHEDULED"%string).

(** The characters are ASCII, on which [toUpperCase] and [toLowerCase]
    of the embedding are those of JavaScript. *)
Definition isAscii (s : string) : bool :=
  forallb (fun c => charCode c <? 128) (chars_of_string s).

End MyAppointmentsScreen.

(** ** Authentication (src/shared/contexts/AuthContext.tsx, the
    interceptors of src/shared/api/realApi.ts lines 60-84) *)

Module AuthContext.

Definition AUTH_TOKEN : string := "auth_token".
Definition USER_DATA : string := "user_data".

Section WithUser.

(** The values a user can be, [JSON.stringify] and [JSON.parse] on them
    ([None] is a SyntaxError), and which of them are truthy. *)
Variable User : Type.
Variable stringify : User -> string.
Variable parse : string -> option User.
Variable truthyUser : User -> bool.

(** The [useState] cells of [AuthProvider]; [None] is [null]. *)
Record State := {
  user : option User;
  token : option string;
  isLoading : bool
}.

(** The provider, the device storage behind it, and whether the logout
    handler of the API service has been set. *)
Record World := {
  state : State;
  storage : gmap string string;
  logoutHandlerSet : bool
}.

Definition initialState : State :=
  {| user := None; token := None; isLoading := true |}.

(** The application after a start on a device with storage [stored]. *)
Definition started (stored : gmap string string) : World :=
  {| state := initialState; storage := stored; logoutHandlerSet := false |}.

(** [isAuthenticated: !!token && !!user] *)
Definition isAuthenticated (s : State) : bool :=
  match token s with Some t => truthy t | None => false end
  && match user s with Some u => truthyUser u | None => false end.

(** [checkAuthState] (lines 44-58); [readable] is whether the reads of
    the storage resolve. *)
Definition checkAuthState (readable : bool) (w : World) : World :=
  let loaded (s : State) :=
    {| user := user s; token := token s; isLoading := false |} in
  let s := state w in
  let s' :=
    if readable then
      match storage w !! AUTH_TOKEN, storage w !! USER_DATA with
      | Some storedToken, Some storedUser =>
          if truthy storedToken && truthy storedUser then
            match parse storedUser with
            | Some parsed =>
                {| user := Some parsed; token := Some storedToken;
                   isLoading := false |}
            | None =>
                {| user := user s; token := Some storedToken;
                   isLoading := false |}
            end
          else loaded s
      | _, _ => loaded s
      end
    else loaded s in
  {| state := s'; storage := storage w; logoutHandlerSet := logoutHandlerSet w |}.

(** The mount effect of lines 36-42. *)
Definition mount (readable : bool) (w : World) : World :=
  checkAuthState readable
    {| state := state w; storage := storage w; logoutHandlerSet := true |}.

(** [login] (lines 60-70) and [signup] (lines 72-82), which has the same
    body; [tokenStored] and [userStored] are whether the two writes
    resolve. The second component is whether the call throws. *)
Definition login (tokenStored userStored : bool) (newToken : string)
    (newUser : User) (w : World) : World * bool :=
  if negb tokenStored then (w, true)
  else
    let stored := <[AUTH_TOKEN := newToken]> (storage w) in
    if negb userStored
    then ({| state := state w; storage := stored;
             logoutHandlerSet := logoutHandlerSet w |}, true)
    else ({| state := {| user := Some newUser; token := Some newToken;
                         isLoading := isLoading (state w) |};
             storage := <[USER_DATA := stringify newUser]> stored;
             logoutHandlerSet := logoutHandlerSet w |}, false).

Definition signup := login.

(** [logout] (lines 84-96); [removed] is whether [multiRemove]
    resolves. *)
Definition logout (removed : bool) (w : World) : World * bool :=
  if removed
  then ({| state := {| user := None; token := None;
                       isLoading := isLoading (state w) |};
           storage := delete USER_DATA (delete AUTH_TOKEN (storage w));
           logoutHandlerSet := logoutHandlerSet w |}, false)
  else (w, true).

(** The request interceptor (realApi.ts lines 62-71): the Authorization
    header it sets, if any. *)
Definition authorization (w : World) : option string :=
  match storage w !! AUTH_TOKEN with
  | Some t => if truthy t then Some ("Bearer " +:+ t) else None
  | None => None
  end.

(** The response interceptor (realApi.ts lines 74-83), for the status of
    the response of a failed request, if there was one: the handler set
    by [setLogoutHandler] is called on 401 and 403. The error is passed
    on in every case. *)
Definition onResponseError (status : option Z) (removed : bool)
    (w : World) : World :=
  let expired :=
    match status with
    | Some code => (code =? 401) || (code =? 403)
    | None => false
    end in
  if expired && logoutHandlerSet w then (logout removed w).1 else w.

End WithUser.

Arguments Build_State {User}.
Arguments user {User}.
Arguments token {User}.
Arguments isLoading {User}.
Arguments Build_World {User}.
Arguments state {User}.
Arguments storage {User}.
Arguments logoutHandlerSet {User}.
Arguments initialState {User}.
Arguments started {User}.
Arguments isAuthenticated {User}.
Arguments checkAuthState {User}.
Arguments mount {User}.
Arguments login {User}.
Arguments signup {User}.
Arguments logout {User}.
Arguments authorization {User}.
Arguments onResponseError {User}.

End AuthContext.

(** ** The calendar of the built-in [Date]

    The part of [Date] the appointment screens call, on local calendar
    fields: the constructor with year, month and day, [setMonth],
    [setDate], [getDay] and [toISOString]. A daylight-saving jump moves
    the time of day, not the day, so the fields of the day are those of
    the proleptic Gregorian calendar. *)

Module DateObject.

(** A calendar day as the getters give it: [getFullYear], [getMonth]
    (0..11), [getDate]. *)
Record CivilDate := {
  fullYear : Z;
  monthIndex : Z;
  dayOfMonth : Z
}.

Global Instance civil_eq_dec : EqDecision CivilDate.
Proof. solve_decision. Defined.

(** The fields denote a day of the calendar. *)
Definition validDay (c : CivilDate) : bool :=
  (0 <=? monthIndex c) && (monthIndex c <=? 11)
  && (1 <=? dayOfMonth c)
  && (dayOfMonth c <=? RealApi.daysInMonth (fullYear c) (monthIndex c)).

(** A month outside 0..11 carries into the year. *)
Definition carryMonth (year month : Z) : Z * Z :=
  (year + month / 12, month mod 12).

(** One step towards a day of the calendar: a date past the end of the
    month counts on into the next month, a date before the first counts
    back from the end of the previous one. *)
Definition stepDay (c : CivilDate) : CivilDate :=
  if dayOfMonth c <? 1 then
    let (yr, mn) := carryMonth (fullYear c) (monthIndex c - 1) in
    {| fullYear := yr; monthIndex := mn;
       dayOfMonth := dayOfMonth c + RealApi.daysInMonth yr mn |}
  else if RealApi.daysInMonth (fullYear c) (monthIndex c) <? dayOfMonth c then
    let (yr, mn) := carryMonth (fullYear c) (monthIndex c + 1) in
    {| fullYear := yr; monthIndex := mn;
       dayOfMonth := dayOfMonth c
                     - RealApi.daysInMonth (fullYear c) (monthIndex c) |}
  else c.

Fixpoint settle (fuel : nat) (c : CivilDate) : CivilDate :=
  match fuel with
  | O => c
  | S fuel' => settle fuel' (stepDay c)
  end.

(** [MakeDay (year, month, date)] read back as a calendar day: every
    step moves the date by at least 28, so the fuel is enough. *)
Definition civil (year month date : Z) : CivilDate :=
  let (yr, mn) := carryMonth year month in
  settle (Z.to_nat (Z.abs date) + 1)
         {| fullYear := yr; monthIndex := mn; dayOfMonth := date |}.

(** The constructor reads a year from 0 to 99 as 1900 to 1999. *)
Definition constructorYear (year : Z) : Z :=
  if (0 <=? year) && (year <=? 99) then 1900 + year else year.

(** [new Date (year, month, date)] *)
Definition newDate (year month date : Z) : CivilDate :=
  civil (constructorYear year) month date.

(** [d.setMonth (month)] *)
Definition setMonth (month : Z) (c : CivilDate) : CivilDate :=
  civil (fullYear c) month (dayOfMonth c).

(** [d.setDate (date)] *)
Definition setDate (date : Z) (c : CivilDate) : CivilDate :=
  civil (fullYear c) (monthIndex c) date.

(** [DayFromYear]: the number of the first day of the year, counted from
    1 January 1970. *)
Definition dayFromYear (year : Z) : Z :=
  365 * (year - 1970) + (year - 1969) / 4 - (year - 1901) / 100
  + (year - 1601) / 400.

(** The days of the year before the month. *)
Fixpoint daysBefore (year : Z) (month : nat) : Z :=
  match month with
  | O => 0
  | S k => daysBefore year k + RealApi.daysInMonth year (Z.of_nat k)
  end.

(** [MakeDay]: the number of a day, with a date that counts on from the
    first of the month. *)
Definition makeDay (year month date : Z) : Z :=
  let (yr, mn) := carryMonth year month in
  dayFromYear yr + daysBefore yr (Z.to_nat mn) + date - 1.

Definition dayNumber (c : CivilDate) : Z :=
  makeDay (fullYear c) (monthIndex c) (dayOfMonth c).

(** [WeekDay]: 0 is Sunday; 1 January 1970 was a Thursday. *)
Definition weekDay (day : Z) : Z := (day + 4) mod 7.

(** [d.getDay ()] *)
Definition getDay (c : CivilDate) : Z := weekDay (dayNumber c).

(** [String (n).padStart (4, '0')] for the year of [toISOString]. *)
Definition padStart4 (s : string) : string :=
  match String.length s with
  | 0%nat => "0000" +:+ s
  | 1%nat => "000" +:+ s
  | 2%nat => "00" +:+ s
  | 3%nat => "0" +:+ s
  | _ => s
  end.

Definition padStart6 (s : string) : string :=
  match String.length s with
  | 0%nat => "000000" +:+ s
  | 1%nat => "00000" +:+ s
  | 2%nat => "0000" +:+ s
  | 3%nat => "000" +:+ s
  | 4%nat => "00" +:+ s
  | 5%nat => "0" +:+ s
  | _ => s
  end.

(** The year of the ISO format: four digits from 0 to 9999, a sign and
    six digits otherwise. *)
Definition isoYear (year : Z) : string :=
  if (0 <=? year) && (year <=? 9999) then padStart4 (numberToString year)
  else if year <? 0 then "-" +:+ padStart6 (numberToString (- year))
  else "+" +:+ padStart6 (numberToString year).

(** The date part of [toISOString] for a day in UTC. *)
Definition isoDate (c : CivilDate) : string :=
  isoYear (fullYear c) +:+ "-"
  +:+ RealApi.padStart2 (numberToString (monthIndex c + 1)) +:+ "-"
  +:+ RealApi.padStart2 (numberToString (dayOfMonth c)).

(** [String (n).padStart (3, '0')] *)
Definition padStart3 (s : string) : string :=
  match String.length s with
  | 0%nat => "000" +:+ s
  | 1%nat => "00" +:+ s
  | 2%nat => "0" +:+ s
  | _ => s
  end.

(** [toISOString ()] of the instant [minuteOfDay] minutes, [seconds]
    seconds and [millis] milliseconds into the UTC day [c]. *)
Definition toISOString (c : CivilDate) (minuteOfDay seconds millis : Z) : string :=
  isoDate c +:+ "T"
  +:+ RealApi.padStart2 (numberToString (minuteOfDay / 60)) +:+ ":"
  +:+ RealApi.padStart2 (numberToString (minuteOfDay mod 60)) +:+ ":"
  +:+ RealApi.padStart2 (numberToString seconds) +:+ "."
  +:+ padStart3 (numberToString millis) +:+ "Z".

(** The UTC day and minute of the local time [minuteOfDay] minutes into
    the day [c], where local time is [offset] minutes ahead of UTC. *)
Definition utcOfLocal (offset : Z) (c : CivilDate) (minuteOfDay : Z)
  : CivilDate * Z :=
  (setDate (dayOfMonth c + (minuteOfDay - offset) / 1440) c,
   (minuteOfDay - offset) mod 1440).

End DateObject.

(** ** Booking (src/patient/screens/main/AppointmentsScreen.tsx) *)

Module AppointmentsScreen.

(** A slot; the two dates are held by their time values ([getTime ()]). *)
Record AvailabilitySlot := {
  startTime : Z;
  endTime : Z;
  available : bool
}.

Global Instance slot_eq_dec : EqDecision AvailabilitySlot.
Proof. solve_decision. Defined.

Inductive Effect :=
| Alert (title message : string)
| BookRequest (doctor : string) (start : Z)
| RefreshIn500ms.

Record State := {
  doctorId : option string;
  selectedDate : string;
  slots : list AvailabilitySlot;
  monthSlots : gmap string (list AvailabilitySlot);
  booking : bool;
  effects : list Effect
}.

(** What [await api.bookAppointment (...)] comes to: an envelope with
    [success] true or false, or an exception carrying the message of the
    response body and its own message (either may be empty). *)
Inductive BookResult :=
| Accepted
| Rejected
| Threw (responseMessage message : string).

(** [s => s.startTime.getTime() !== slot.startTime.getTime()] *)
Definition otherStart (slot s : AvailabilitySlot) : bool :=
  negb (startTime s =? startTime slot).

(** The filter of lines 107-109 and 116-118. *)
Definition keepOthers (slot : AvailabilitySlot)
    (l : list AvailabilitySlot) : list AvailabilitySlot :=
  filter (fun s => otherStart slot s = true) l.

(** The updater of lines 112-126. *)
Definition removeFromMonth (date : string) (slot : AvailabilitySlot)
    (prev : gmap string (list AvailabilitySlot))
  : gmap string (list AvailabilitySlot) :=
  match prev !! date with
  | Some daySlots =>
      let updatedDaySlots := keepOthers slot daySlots in
      if bool_decide (0 < length updatedDaySlots)%nat
      then <[date := updatedDaySlots]> prev
      else delete date prev
  | None => prev
  end.

(** The updater of lines 146-151 and 166-171. *)
Definition restoreToMonth (date : string) (slot : AvailabilitySlot)
    (prev : gmap string (list AvailabilitySlot))
  : gmap string (list AvailabilitySlot) :=
  let daySlots := default [] (prev !! date) in
  <[date := daySlots ++ [slot]]> prev.

(** Lines 104-128: the optimistic removal and the request. *)
Definition bookOptimistic (doctor : string) (slot : AvailabilitySlot)
    (st : State) : State :=
  {| doctorId := doctorId st;
     selectedDate := selectedDate st;
     slots := keepOthers slot (slots st);
     monthSlots := removeFromMonth (selectedDate st) slot (monthSlots st);
     booking := true;
     effects := effects st ++ [BookRequest doctor (startTime slot)] |}.

(** The restoration shared by the [else] branch and the [catch]. *)
Definition restore (date : string) (slot : AvailabilitySlot)
    (message : string) (st : State) : State :=
  {| doctorId := doctorId st;
     selectedDate := selectedDate st;
     slots := slots st ++ [slot];
     monthSlots := restoreToMonth date slot (monthSlots st);
     booking := booking st;
     effects := effects st ++ [Alert "Error" message] |}.

Definition setBooking (b : bool) (st : State) : State :=
  {| doctorId := doctorId st; selectedDate := selectedDate st;
     slots := slots st; monthSlots := monthSlots st;
     booking := b; effects := effects st |}.

Definition addEffects (es : list Effect) (st : State) : State :=
  {| doctorId := doctorId st; selectedDate := selectedDate st;
     slots := slots st; monthSlots := monthSlots st;
     booking := booking st; effects := effects st ++ es |}.

(** Lines 130-178, for the date [selectedDateISO] read before the [try]. *)
Definition bookSettle (selectedDateISO : string) (slot : AvailabilitySlot)
    (res : BookResult) (st : State) : State :=
  let st' :=
    match res with
    | Accepted =>
        addEffects [Alert "Success" "Appointment booked successfully!";
                    RefreshIn500ms] st
    | Rejected =>
        restore selectedDateISO slot
                "Failed to book appointment. Please try again." st
    | Threw responseMessage message =>
        let errorMessage :=
          str_or responseMessage
            (str_or message "Failed to book appointment. Please try again.") in
        restore selectedDateISO slot errorMessage st
    end in
  setBooking false st'.

(** What the other handlers of the screen write into the state while
    [await api.bookAppointment (...)] (line 128) is pending. [booking]
    disables the slot buttons only (line 341): a day load and a month
    load may resolve, and the calendar, the day chevrons and the doctor
    list stay in use. *)
Inductive Meanwhile :=
| SlotsLoaded (data : list AvailabilitySlot)
    (* [setSlots (res.data)], line 48 *)
| MonthLoaded (newMonthSlots : gmap string (list AvailabilitySlot))
    (* [setMonthSlots (newMonthSlots)], line 77 *)
| DateSelected (date : string)
    (* [setSelectedDate], lines 304, 314 and 322 *)
| DoctorSelected (id : string).
    (* [setDoctorId], lines 86, 225 and 257 *)

Definition meanwhile (st : State) (w : Meanwhile) : State :=
  match w with
  | SlotsLoaded data =>
      {| doctorId := doctorId st; selectedDate := selectedDate st;
         slots := data; monthSlots := monthSlots st;
         booking := booking st; effects := effects st |}
  | MonthLoaded newMonthSlots =>
      {| doctorId := doctorId st; selectedDate := selectedDate st;
         slots := slots st; monthSlots := newMonthSlots;
         booking := booking st; effects := effects st |}
  | DateSelected date =>
      {| doctorId := doctorId st; selectedDate := date;
         slots := slots st; monthSlots := monthSlots st;
         booking := booking st; effects := effects st |}
  | DoctorSelected id =>
      {| doctorId := Some id; selectedDate := selectedDate st;
         slots := slots st; monthSlots := monthSlots st;
         booking := booking st; effects := effects st |}
  end.

(** [confirmBook] (lines 99-179). The updaters of lines 107-126 are
    applied to the state of the press; [during] is what is written while
    the request is awaited, in order; and the updaters of lines 144-151
    and 164-171 are applied to the state as it is when the request
    settles, with the date read at line 101. *)
Definition confirmBook (slot : AvailabilitySlot) (during : list Meanwhile)
    (res : BookResult) (st : State) : State :=
  match doctorId st with
  | None => st
  | Some doctor =>
      let selectedDateISO := selectedDate st in
      bookSettle selectedDateISO slot res
                 (foldl meanwhile (bookOptimistic doctor slot st) during)
  end.

(** The slots of a list that the filter of lines 107-109 drops. *)
Definition sameStart (slot : AvailabilitySlot)
    (l : list AvailabilitySlot) : list AvailabilitySlot :=
  filter (fun s => otherStart slot s = false) l.


(** *** The month calendar *)

(** The key of a day (lines 63 and 379):
    [`${year}-${String(month + 1).padStart(2, '0')}-${String(day).padStart(2, '0')}`]. *)
Definition dateISO (year month day : Z) : string :=
  numberToString year +:+ "-"
  +:+ RealApi.padStart2 (numberToString (month + 1)) +:+ "-"
  +:+ RealApi.padStart2 (numberToString day).

(** [new Date (year, month + 1, 0).getDate ()] (lines 57 and 370). *)
Definition monthLength (year month : Z) : Z :=
  DateObject.dayOfMonth (DateObject.newDate year (month + 1) 0).

(** The days [1 .. n] a [for] loop visits. *)
Definition daysUpTo (n : Z) : list Z := map Z.of_nat (seq 1 (Z.to_nat n)).

(** What [await api.getDoctorAvailability (...)] comes to for one day. *)
Inductive AvailabilityAnswer :=
| AnswerThrows
| AnswerEnvelope (success : bool) (data : option (list AvailabilitySlot)).

(** The body of the loop of lines 62-75. *)
Definition loadDay (year month : Z) (answers : Z -> AvailabilityAnswer)
    (newMonthSlots : gmap string (list AvailabilitySlot)) (day : Z)
  : gmap string (list AvailabilitySlot) :=
  match answers day with
  | AnswerEnvelope true (Some data) =>
      if bool_decide (0 < length data)%nat
      then <[dateISO year month day := data]> newMonthSlots
      else newMonthSlots
  | _ => newMonthSlots
  end.

(** The map [loadMonthAvailability] builds (lines 55-77). *)
Definition loadMonthSlots (currentMonth : DateObject.CivilDate)
    (answers : Z -> AvailabilityAnswer)
  : gmap string (list AvailabilitySlot) :=
  let year := DateObject.fullYear currentMonth in
  let month := DateObject.monthIndex currentMonth in
  foldl (loadDay year month answers) ∅ (daysUpTo (monthLength year month)).

(** [loadMonthAvailability] (lines 52-78), for the month on display. *)
Definition loadMonthAvailability (currentMonth : DateObject.CivilDate)
    (answers : Z -> AvailabilityAnswer) (st : State) : State :=
  match doctorId st with
  | None => st
  | Some _ =>
      {| doctorId := doctorId st; selectedDate := selectedDate st;
         slots := slots st;
         monthSlots := loadMonthSlots currentMonth answers;
         booking := booking st; effects := effects st |}
  end.

(** [changeMonth] (lines 191-199). *)
Inductive Direction := Prev | Next.

Definition changeMonth (direction : Direction)
    (currentMonth : DateObject.CivilDate) : DateObject.CivilDate :=
  match direction with
  | Prev => DateObject.setMonth (DateObject.monthIndex currentMonth - 1) currentMonth
  | Next => DateObject.setMonth (DateObject.monthIndex currentMonth + 1) currentMonth
  end.

(** A cell of [EnhancedMonthGrid] (lines 359-388). *)
Record DayCell := {
  key : string;
  label : string;
  date : string;
  isSelected : bool;
  hasSlots : bool
}.

(** The array [days] of [EnhancedMonthGrid]: [None] is an empty cell. *)
Definition monthGrid (currentMonth : DateObject.CivilDate)
    (selected : string) (month_slots : gmap string (list AvailabilitySlot))
  : list (option DayCell) :=
  let year := DateObject.fullYear currentMonth in
  let month := DateObject.monthIndex currentMonth in
  let first := DateObject.newDate year month 1 in
  let startWeekday := DateObject.getDay first in
  replicate (Z.to_nat startWeekday) None
  ++ map (fun d =>
            let dateISO := dateISO year month d in
            Some {| key := dateISO; label := numberToString d; date := dateISO;
                    isSelected := bool_decide (dateISO = selected);
                    hasSlots := bool_decide (is_Some (month_slots !! dateISO)) |})
         (daysUpTo (monthLength year month)).

(** No entry of the month map is an empty list, so that
    [monthSlots.has (date)] means that the day has a slot. *)
Definition noEmptyDay (month_slots : gmap string (list AvailabilitySlot)) : Prop :=
  forall k l, month_slots !! k = Some l -> l <> [].

(** Whether a write is that of a month load. *)
Definition isMonthLoad (w : Meanwhile) : bool :=
  match w with
  | MonthLoaded _ => true
  | _ => false
  end.

(** A write that leaves no empty list in the month map: any write but a
    month load, and a month load of a map that holds none. *)
Definition keepsDays (w : Meanwhile) : Prop :=
  match w with
  | MonthLoaded newMonthSlots => noEmptyDay newMonthSlots
  | _ => True
  end.

(** What [loadDay] stores for a day: the data of a successful answer that
    lists at least one slot. *)
Definition storedFor (answers : Z -> AvailabilityAnswer) (day : Z)
  : option (list AvailabilitySlot) :=
  match answers day with
  | AnswerEnvelope true (Some data) =>
      if bool_decide (0 < length data)%nat then Some data else None
  | _ => None
  end.

(** *** The day navigator (lines 309-326) *)

Section Navigator.

Variable zoneHas : RealApi.LocalTime -> bool.
Variable zoneAdjust : RealApi.LocalTime -> RealApi.LocalTime.
Variable platformParse : string -> RealApi.JsDate.

(** The handler of a chevron: [delta] is -1 or 1, [offset] the minutes
    local time is ahead of UTC at the new local time, which is taken to
    exist. [None] is the RangeError of [toISOString] on the Invalid Date. *)
Definition shiftSelectedDate (delta offset : Z) (selected : string)
  : option string :=
  match RealApi.newDate zoneHas zoneAdjust platformParse
          (selected +:+ "T00:00:00") with
  | RealApi.InvalidDate => None
  | RealApi.DateOf t =>
      let d := {| DateObject.fullYear := RealApi.year t;
                  DateObject.monthIndex := RealApi.month t;
                  DateObject.dayOfMonth := RealApi.day t |} in
      let d := DateObject.setDate (DateObject.dayOfMonth d + delta) d in
      let minute := 60 * RealApi.hours t + RealApi.minutes t in
      let (utcDay, utcMinute) := DateObject.utcOfLocal offset d minute in
      Some (String.substring 0 10
              (DateObject.toISOString utcDay utcMinute
                 (RealApi.seconds t) (RealApi.millis t)))
  end.

End Navigator.

End AppointmentsScreen.

(** ** The check-in session (src/patient/screens/main/AICheckInScreen.tsx) *)

Module AICheckInScreen.

(** What the handlers ask of their collaborators. *)
Inductive Effect :=
| EmitStart
| EmitAudioChunk (base64 mimeType : string) (isFinal : bool)
| InjectSpeak (text : string)
| HeygenTask (sessionId text : string)
| BackendTask (sessionId text : string)
| RecorderRecord
| RecorderStop
| WriteAudioFile (wav : list Z)
| PlayAudio (wav : list Z)
| Alert (title message : string).

(** [typeInfoRef]: the text being typed, the duration, the start time. *)
Record TypeInfo := {
  infoText : string;
  infoDuration : Z;
  infoStartedAt : Z
}.

(** Where the asynchronous [startInterviewFlow] stands: not called, at
    [await api.getHeygenToken ()], in the wait loop entered at [start], or
    returned. *)
Inductive FlowPhase :=
| FlowIdle
| FlowAwaitToken
| FlowPolling (start : Z)
| FlowDone.

(** The [useState] cells and the refs of the component (lines 22-60), the
    control state of [startInterviewFlow], the number of pending
    end-of-speech timeouts, and the log of effects. [socketRef] is whether
    the socket exists. *)
Record Session := {
  recording : bool;
  question : string;
  transcript : string;
  isDone : bool;
  finishedMessage : option string;
  isConnecting : bool;
  interviewStarted : bool;
  socketRef : bool;
  streamingRef : bool;
  ttsChunksRef : list (list Z);
  ttsFlushTimerRef : bool;
  isAssistantSpeakingRef : bool;
  assistantSpeaking : bool;
  isPressing : bool;
  creatingSession : bool;
  avatarStatus : string;
  heygenToken : option string;
  avatarReady : bool;
  avatarReadyRef : bool;
  pendingSpeakQueueRef : list string;
  heygenEnabledRef : bool;
  avatarSessionIdRef : option string;
  lastSpokenTextRef : string;
  lastSpeakAtRef : Z;
  canSpeak : bool;
  awaitingAvatarTaskRef : bool;
  syncedTranscript : string;
  pendingAssistantTextRef : string;
  typeTimerRef : bool;
  typeInfoRef : option TypeInfo;
  preparing : bool;
  step : nat;
  speakingTimeouts : nat;
  flow : FlowPhase;
  effects : list Effect
}.

Definition etaSession (s : Session) : Session :=
  Build_Session (recording s) (question s) (transcript s) (isDone s)
    (finishedMessage s) (isConnecting s) (interviewStarted s) (socketRef s)
    (streamingRef s) (ttsChunksRef s) (ttsFlushTimerRef s)
    (isAssistantSpeakingRef s) (assistantSpeaking s) (isPressing s)
    (creatingSession s) (avatarStatus s) (heygenToken s) (avatarReady s)
    (avatarReadyRef s) (pendingSpeakQueueRef s) (heygenEnabledRef s)
    (avatarSessionIdRef s) (lastSpokenTextRef s) (lastSpeakAtRef s)
    (canSpeak s) (awaitingAvatarTaskRef s) (syncedTranscript s)
    (pendingAssistantTextRef s) (typeTimerRef s) (typeInfoRef s)
    (preparing s) (step s) (speakingTimeouts s) (flow s) (effects s).

(** [setter x] builds the update of the cell [x]: the record with every
    field copied but that one. *)
Ltac setter proj :=
  let s := fresh "s" in
  let v := fresh "v" in
  refine (fun v s => _);
  let e := eval cbv [etaSession] in (etaSession s) in
  match eval pattern (proj s) in e with
  | ?f _ => let r := eval cbv beta in (f v) in exact r
  end.

Definition set_recording : bool -> Session -> Session := ltac:(setter recording).
Definition set_question : string -> Session -> Session := ltac:(setter question).
Definition set_transcript : string -> Session -> Session := ltac:(setter transcript).
Definition set_isDone : bool -> Session -> Session := ltac:(setter isDone).
Definition set_finishedMessage : option string -> Session -> Session :=
  ltac:(setter finishedMessage).
Definition set_isConnecting : bool -> Session -> Session := ltac:(setter isConnecting).
Definition set_interviewStarted : bool -> Session -> Session :=
  ltac:(setter interviewStarted).
Definition set_socketRef : bool -> Session -> Session := ltac:(setter socketRef).
Definition set_streamingRef : bool -> Session -> Session := ltac:(setter streamingRef).
Definition set_ttsChunksRef : list (list Z) -> Session -> Session :=
  ltac:(setter ttsChunksRef).
Definition set_ttsFlushTimerRef : bool -> Session -> Session :=
  ltac:(setter ttsFlushTimerRef).
Definition set_isAssistantSpeakingRef : bool -> Session -> Session :=
  ltac:(setter isAssistantSpeakingRef).
Definition set_assistantSpeaking : bool -> Session -> Session :=
  ltac:(setter assistantSpeaking).
Definition set_isPressing : bool -> Session -> Session := ltac:(setter isPressing).
Definition set_creatingSession : bool -> Session -> Session :=
  ltac:(setter creatingSession).
Definition set_avatarStatus : string -> Session -> Session := ltac:(setter avatarStatus).
Definition set_heygenToken : option string -> Session -> Session :=
  ltac:(setter heygenToken).
Definition set_avatarReady : bool -> Session -> Session := ltac:(setter avatarReady).
Definition set_avatarReadyRef : bool -> Session -> Session :=
  ltac:(setter avatarReadyRef).
Definition set_pendingSpeakQueueRef : list string -> Session -> Session :=
  ltac:(setter pendingSpeakQueueRef).
Definition set_heygenEnabledRef : bool -> Session -> Session :=
  ltac:(setter heygenEnabledRef).
Definition set_avatarSessionIdRef : option string -> Session -> Session :=
  ltac:(setter avatarSessionIdRef).
Definition set_lastSpokenTextRef : string -> Session -> Session :=
  ltac:(setter lastSpokenTextRef).
Definition set_lastSpeakAtRef : Z -> Session -> Session := ltac:(setter lastSpeakAtRef).
Definition set_canSpeak : bool -> Session -> Session := ltac:(setter canSpeak).
Definition set_awaitingAvatarTaskRef : bool -> Session -> Session :=
  ltac:(setter awaitingAvatarTaskRef).
Definition set_syncedTranscript : string -> Session -> Session :=
  ltac:(setter syncedTranscript).
Definition set_pendingAssistantTextRef : string -> Session -> Session :=
  ltac:(setter pendingAssistantTextRef).
Definition set_typeTimerRef : bool -> Session -> Session := ltac:(setter typeTimerRef).
Definition set_typeInfoRef : option TypeInfo -> Session -> Session :=
  ltac:(setter typeInfoRef).
Definition set_preparing : bool -> Session -> Session := ltac:(setter preparing).
Definition set_step : nat -> Session -> Session := ltac:(setter step).
Definition set_speakingTimeouts : nat -> Session -> Session :=
  ltac:(setter speakingTimeouts).
Definition set_flow : FlowPhase -> Session -> Session := ltac:(setter flow).
Definition set_effects : list Effect -> Session -> Session := ltac:(setter effects).

(** Statements in sequence: [s |> f |> g] is [g (f s)]. *)
Notation "s |> f" := (f s) (at level 45, left associativity, only parsing).

Definition emit (e : Effect) (s : Session) : Session :=
  set_effects (effects s ++ [e]) s.

(** [socketRef.current?.emit (...)] *)
Definition socketEmit (e : Effect) (s : Session) : Session :=
  if socketRef s then emit e s else s.

(** The state of a freshly mounted screen (the initial values of lines
    22-60). *)
Definition initialSession : Session :=
  {| recording := false; question := EmptyString; transcript := EmptyString;
     isDone := false; finishedMessage := None; isConnecting := true;
     interviewStarted := false; socketRef := false; streamingRef := false;
     ttsChunksRef := []; ttsFlushTimerRef := false;
     isAssistantSpeakingRef := false; assistantSpeaking := false;
     isPressing := false; creatingSession := false;
     avatarStatus := EmptyString; heygenToken := None; avatarReady := false;
     avatarReadyRef := false; pendingSpeakQueueRef := [];
     heygenEnabledRef := false; avatarSessionIdRef := None;
     lastSpokenTextRef := EmptyString; lastSpeakAtRef := 0;
     canSpeak := false; awaitingAvatarTaskRef := false;
     syncedTranscript := EmptyString; pendingAssistantTextRef := EmptyString;
     typeTimerRef := false; typeInfoRef := None; preparing := false;
     step := 1; speakingTimeouts := 0; flow := FlowIdle; effects := [] |}.

(** The web view is rendered, and [webSdkRef.current] is set, exactly when
    the condition of lines 583 and 593 holds. *)
Definition webViewMounted (s : Session) : bool :=
  (step s =? 2)%nat && (interviewStarted s || preparing s)
  && match heygenToken s with Some t => truthy t | None => false end.

(** [detachFromHeygen] (lines 62-69). *)
Definition detachFromHeygen (s : Session) : Session :=
  s |> set_heygenEnabledRef false
    |> set_heygenToken None
    |> set_avatarReady false
    |> set_avatarReadyRef false
    |> set_awaitingAvatarTaskRef false
    |> set_typeTimerRef false.

(** [startTypewriter] (lines 71-86), called at time [now]. *)
Definition startTypewriter (text : string) (durationMs now : Z)
    (s : Session) : Session :=
  if negb (truthy text) then set_syncedTranscript EmptyString s
  else
    let safeDur := Z.max 300 (Z.min 180000 durationMs) in
    s |> set_typeTimerRef false
      |> set_typeInfoRef (Some {| infoText := text; infoDuration := safeDur;
                                  infoStartedAt := now |})
      |> set_syncedTranscript EmptyString
      |> set_typeTimerRef true.

(** One tick of the interval of lines 78-85: [chars] is the number of
    characters the elapsed time has reached, [finished] is [p >= 1]. *)
Definition typewriterTick (chars : nat) (finished : bool)
    (s : Session) : Session :=
  if typeTimerRef s then
    match typeInfoRef s with
    | None => s
    | Some info =>
        let s := set_syncedTranscript
                   (String.substring 0 chars (infoText info)) s in
        if finished then set_typeTimerRef false s else s
    end
  else s.

(** [cleanupStreaming] (lines 425-430). *)
Definition cleanupStreaming (s : Session) : Session :=
  s |> set_streamingRef false
    |> set_ttsFlushTimerRef false
    |> set_typeTimerRef false.

(** [speakViaPlayer] (lines 228-247), called at time [now] with
    [webSdkRef.current] set or not. *)
Definition speakViaPlayer (text : string) (now : Z) (webSdk : bool)
    (s : Session) : bool * Session :=
  let normalized := trim text in
  if negb (truthy normalized) then (false, s)
  else if bool_decide (normalized = lastSpokenTextRef s)
          && (now - lastSpeakAtRef s <? 2000)
  then (true, set_avatarStatus "skipped duplicate" s)
  else
    let s := s |> set_lastSpokenTextRef normalized
               |> set_lastSpeakAtRef now in
    if webSdk
    then (true, s |> emit (InjectSpeak normalized)
                  |> set_avatarStatus "sent via player")
    else (false, s).

(** What the direct call to the avatar service comes to: a 2xx response,
    another response (with the text the status line is built from, and
    whether the backend proxy then succeeds), or an exception. *)
Inductive RestOutcome :=
| RestOk
| RestNotOk (statusAndBody : string) (backendSuccess : bool)
| RestThrows (message : string).

(** [speakToAvatar] (lines 249-298); [injectJavaScript] is taken not to
    throw, so the third fallback is never reached. *)
Definition speakToAvatar (text : string) (now : Z) (webSdk : bool)
    (rest : RestOutcome) (s : Session) : bool * Session :=
  let normalized := trim text in
  if negb (truthy normalized) then (false, s)
  else if bool_decide (normalized = lastSpokenTextRef s)
          && (now - lastSpeakAtRef s <? 2000)
  then (true, set_avatarStatus "skipped duplicate" s)
  else
    let s := s |> set_lastSpokenTextRef normalized
               |> set_lastSpeakAtRef now in
    let fallback (s : Session) :=
      if webSdk then (true, emit (InjectSpeak normalized) s) else (false, s) in
    match heygenToken s, avatarSessionIdRef s with
    | Some tok, Some sid =>
        if truthy tok && truthy sid then
          let s := s |> set_avatarStatus "sending task"
                     |> emit (HeygenTask sid normalized) in
          match rest with
          | RestOk => (true, set_avatarStatus "task ok" s)
          | RestNotOk statusAndBody backendSuccess =>
              let s := s |> set_avatarStatus ("task error " +:+ statusAndBody)
                         |> emit (BackendTask sid normalized) in
              if backendSuccess
              then (true, set_avatarStatus "task ok (backend)" s)
              else fallback s
          | RestThrows message =>
              fallback (set_avatarStatus ("task err " +:+ message) s)
          end
        else fallback s
    | _, _ => fallback s
    end.

(** The two speak functions under one name. *)
Inductive SpeakPath :=
| ViaPlayer
| ToAvatar (rest : RestOutcome).

Definition speak (p : SpeakPath) (text : string) (now : Z) (webSdk : bool)
    (s : Session) : bool * Session :=
  match p with
  | ViaPlayer => speakViaPlayer text now webSdk s
  | ToAvatar rest => speakToAvatar text now webSdk rest s
  end.


(** [flushPendingSpeaks] (lines 219-226). *)
Definition flushPendingSpeaks (now : Z) (webSdk : bool) (s : Session) : Session :=
  if negb (avatarReadyRef s) then s
  else
    match pendingSpeakQueueRef s with
    | [] => s
    | items =>
        foldl (fun s t => (speakViaPlayer t now webSdk s).2)
              (set_pendingSpeakQueueRef [] s) items
    end.

(** [flushTTSBuffer] up to its [await] (lines 300-335): the chunks are
    taken, the timer is cleared and the merged audio is handed to
    [FileSystem.writeAsStringAsync]. *)
Definition flushTTSBuffer (s : Session) : Session :=
  let chunks := ttsChunksRef s in
  let s := s |> set_ttsChunksRef [] |> set_ttsFlushTimerRef false in
  match Wav.mergedAudio chunks with
  | None => s
  | Some None => s
  | Some (Some merged) => emit (WriteAudioFile merged) s
  end.

(** [flushTTSBuffer] from its [await] on (lines 335-346), when the write
    of [merged] settles: [written] is whether it resolved. When it
    rejects, the promise of [flushTTSBuffer] rejects and nothing more is
    done. *)
Definition playWritten (merged : list Z) (written : bool)
    (s : Session) : Session :=
  if written
  then s |> emit (PlayAudio merged)
         |> set_isAssistantSpeakingRef true
         |> set_assistantSpeaking true
         |> set_speakingTimeouts (S (speakingTimeouts s))
  else s.

(** The timeout of line 346. *)
Definition speakingTimeout (s : Session) : Session :=
  match speakingTimeouts s with
  | O => s
  | S n =>
      s |> set_speakingTimeouts n
        |> set_isAssistantSpeakingRef false
        |> set_assistantSpeaking false
  end.

(** [startRecording] (lines 349-360), for the value of [interviewStarted]
    its closure holds. *)
Definition startRecording (startedInClosure : bool) (s : Session) : Session :=
  if negb startedInClosure
  then s |> set_interviewStarted true |> socketEmit EmitStart
  else s.

(** [pressIn] (lines 362-378); [prepared] is whether
    [recorder.prepareToRecordAsync ()] resolved. *)
Definition pressIn (prepared : bool) (s : Session) : Session :=
  if isAssistantSpeakingRef s || awaitingAvatarTaskRef s
  then set_canSpeak false s
  else
    let s := set_isPressing true s in
    if negb (interviewStarted s) then s
    else if negb (recording s) then
      if prepared
      then s |> emit RecorderRecord
             |> set_recording true
             |> set_streamingRef true
      else s
    else s.

(** What stopping the recorder and reading the file comes to. *)
Inductive Capture :=
| StopThrows
| NoUri
| FetchThrows
| Captured (bytes : list Z).

(** The guard of lines 393-396. *)
Definition minTurnLength : Z := 1500.

Definition emitTurn (base64 : string) (s : Session) : Session :=
  if truthy base64 && (minTurnLength <? Z.of_nat (String.length base64))
  then socketEmit (EmitAudioChunk base64 "audio/wav" true) s
  else s.

(** [pressOut] (lines 380-401). *)
Definition pressOut (capture : Capture) (s : Session) : Session :=
  if negb (recording s) then s
  else
    let s := s |> set_streamingRef false |> set_isPressing false in
    let s :=
      match capture with
      | StopThrows => s
      | FetchThrows => emit RecorderStop s
      | NoUri => s |> emit RecorderStop |> emitTurn EmptyString
      | Captured bytes =>
          s |> emit RecorderStop |> emitTurn (Buffer.toBase64 bytes)
      end in
    set_recording false s.

(** *** The socket handlers (lines 110-184) *)

(** The two [assistant_text_delta] handlers, in the order they were
    registered. *)
Definition onAssistantTextDelta (text : string) (s : Session) : Session :=
  s |> set_pendingAssistantTextRef (str_or text (pendingAssistantTextRef s))
    |> set_canSpeak false
    |> (if heygenEnabledRef s then set_awaitingAvatarTaskRef true
        else fun s => s).

(** Lines 129-143 of [final_transcript]: the routing of the text. *)
Definition routeTranscript (text : string) (now : Z) (webSdk : bool)
    (s : Session) : Session :=
  if heygenEnabledRef s then
    if negb (avatarReadyRef s)
    then set_pendingSpeakQueueRef
           (pendingSpeakQueueRef s ++ [str_or text EmptyString]) s
    else
      (speakViaPlayer text now webSdk
         (s |> set_awaitingAvatarTaskRef true |> set_canSpeak false)).2
  else
    s |> set_syncedTranscript (str_or text EmptyString)
      |> set_canSpeak false.

(** [final_transcript] (lines 126-144). *)
Definition onFinalTranscript (text : string) (now : Z) (webSdk : bool)
    (s : Session) : Session :=
  s |> set_transcript text
    |> set_pendingAssistantTextRef (str_or text (pendingAssistantTextRef s))
    |> routeTranscript text now webSdk.

(** [turn_ready] (line 145). *)
Definition onTurnReady (s : Session) : Session :=
  if negb (heygenEnabledRef s) || negb (awaitingAvatarTaskRef s)
  then set_canSpeak true s else s.

(** [ai_audio_chunk] (lines 146-154); [None] is a chunk that does not
    decode. *)
Definition onAiAudioChunk (bytes : option (list Z)) (s : Session) : Session :=
  if heygenEnabledRef s then s
  else
    match bytes with
    | Some b => set_ttsChunksRef (ttsChunksRef s ++ [b]) s
    | None => s
    end.

(** [ai_audio_done] (lines 155-164). *)
Definition onAiAudioDone (s : Session) : Session :=
  if heygenEnabledRef s then s
  else
    s |> set_ttsFlushTimerRef false
      |> flushTTSBuffer
      |> set_canSpeak true.

(** [tts] (lines 176-183). *)
Definition onTts (bytes : option (list Z)) (s : Session) : Session :=
  if heygenEnabledRef s then s
  else
    let s := match bytes with
             | Some b => set_ttsChunksRef (ttsChunksRef s ++ [b]) s
             | None => s
             end in
    if negb (ttsFlushTimerRef s) then set_ttsFlushTimerRef true s else s.

(** The timer armed by [tts] fires. *)
Definition onTtsFlushTimer (s : Session) : Session :=
  if ttsFlushTimerRef s then flushTTSBuffer s else s.

(** [done] (lines 165-169). *)
Definition onDone (s : Session) : Session :=
  s |> set_isDone true
    |> set_finishedMessage
         (Some "Interview finished. Your answers have been saved."%string)
    |> cleanupStreaming.

(** [disconnect] (lines 170-174); the handler closed over the [isDone] of
    the first render, which is false. *)
Definition onDisconnect (s : Session) : Session :=
  s |> set_isDone true
    |> set_finishedMessage
         (Some "Interview finished. Your answers have been saved."%string).

(** [error] (line 175). *)
Definition onError (message : string) (s : Session) : Session :=
  emit (Alert "Error" (str_or message "Connection error")) s.

(** *** The messages of the player (lines 601-641) *)

Definition isSessionIdMessage (m : string) : bool := isPrefix "session_id:" m.

(** [/sdk ready|unmuted|video track|STREAM_READY/i] *)
Definition isReadyMessage (m : string) : bool :=
  let l := toLowerCase m in
  contains "sdk ready" l || contains "unmuted" l
  || contains "video track" l || contains "stream_ready" l.

Definition isTaskOk (m : string) : bool := isPrefix "task_ok:" (toLowerCase m).

Definition isTaskDone (m : string) : bool :=
  bool_decide (toLowerCase m = "task_done"%string).

Definition isTaskError (m : string) : bool :=
  isPrefix "task_error:" (toLowerCase m).

(** [/ws error|ws close|start err|create session err/i] *)
Definition isConnectionError (m : string) : bool :=
  let l := toLowerCase m in
  contains "ws error" l || contains "ws close" l
  || contains "start err" l || contains "create session err" l.

(** The handler detaches on this message. *)
Definition isDetachMessage (m : string) : bool :=
  negb (isTaskOk m) && negb (isTaskDone m)
  && (isTaskError m || isConnectionError m).

(** Lines 604-606: a session id is kept. *)
Definition noteSessionId (m : string) (s : Session) : Session :=
  if isSessionIdMessage m
  then set_avatarSessionIdRef (secondField m) s else s.

(** Lines 608-610: readiness, and the queued texts are spoken. *)
Definition noteReady (m : string) (now : Z) (webSdk : bool)
    (s : Session) : Session :=
  if isReadyMessage m
  then s |> set_avatarReady true |> set_avatarReadyRef true
         |> flushPendingSpeaks now webSdk
  else s.

(** Lines 616-619: the duration after the colon, 0 when it is not a
    number. *)
Definition taskDuration (m : string) : Z :=
  match parseInt10 (str_or (default EmptyString (secondField m)) "0") with
  | Some n => n
  | None => 0
  end.

(** Lines 612-636: the life of an avatar task. *)
Definition taskLifecycle (m : string) (now : Z) (s : Session) : Session :=
  if isTaskOk m then
    s |> set_awaitingAvatarTaskRef true |> set_canSpeak false
      |> startTypewriter (str_or (pendingAssistantTextRef s) EmptyString)
                         (taskDuration m) now
  else if isTaskDone m then
    s |> set_awaitingAvatarTaskRef false |> set_canSpeak true
      |> set_typeTimerRef false
      |> (if truthy (pendingAssistantTextRef s)
          then set_syncedTranscript (pendingAssistantTextRef s)
          else fun s => s)
  else if isTaskError m then
    s |> detachFromHeygen |> set_canSpeak true |> set_typeTimerRef false
  else if isConnectionError m then
    s |> detachFromHeygen |> set_canSpeak true
  else s.

(** Lines 638-640: a session id that arrives after readiness. *)
Definition flushOnSessionId (m : string) (now : Z) (webSdk : bool)
    (s : Session) : Session :=
  if isSessionIdMessage m && avatarReadyRef s
  then flushPendingSpeaks now webSdk s else s.

(** [onMessage] (lines 601-641), at time [now]. *)
Definition onMessage (m : string) (now : Z) (webSdk : bool)
    (s : Session) : Session :=
  s |> noteSessionId m
    |> noteReady m now webSdk
    |> taskLifecycle m now
    |> flushOnSessionId m now webSdk.

(** *** Starting the interview (lines 464-513) *)

(** The answer of [api.getHeygenToken ()]: a token, an envelope without
    one, or an exception. *)
Inductive TokenResult :=
| TokenOk (token : string)
| TokenMissing
| TokenThrows.

(** [avatarSessionIdRef.current] is truthy. *)
Definition hasSessionId (s : Session) : bool :=
  match avatarSessionIdRef s with
  | Some sid => truthy sid
  | None => false
  end.

Definition timeoutMs : Z := 45000.
Definition pollMs : Z := 120.

(** The condition of the [while] of line 493. *)
Definition stillWaiting (start now : Z) (s : Session) : bool :=
  (negb (avatarReadyRef s) || negb (hasSessionId s))
  && (now - start <? timeoutMs).

(** Lines 465-471, up to the first [await]. *)
Definition flowBegin (s : Session) : Session :=
  let s := if (step s =? 1)%nat then set_step 2%nat s else s in
  s |> set_preparing true
    |> set_creatingSession true
    |> set_avatarStatus "fetching sdk token"
    |> set_flow FlowAwaitToken.

(** Lines 473-492 and the [catch] of lines 507-512: what the flow does
    when the token request settles, at time [now]. [started] is the
    [interviewStarted] of the closure. *)
Definition flowToken (r : TokenResult) (now : Z) (started : bool)
    (s : Session) : Session :=
  match r with
  | TokenOk tok =>
      if truthy tok then
        s |> set_heygenToken (Some tok)
          |> set_avatarStatus "sdk token ok"
          |> set_avatarReady false
          |> set_avatarReadyRef false
          |> set_heygenEnabledRef true
          |> set_creatingSession false
          |> set_avatarStatus "waiting for avatar ready + session id"
          |> set_flow (FlowPolling now)
      else
        s |> set_heygenEnabledRef false
          |> set_heygenToken None
          |> set_creatingSession false
          |> startRecording started
          |> set_preparing false
          |> set_flow FlowDone
  | TokenMissing =>
      s |> set_heygenEnabledRef false
        |> set_heygenToken None
        |> set_creatingSession false
        |> startRecording started
        |> set_preparing false
        |> set_flow FlowDone
  | TokenThrows =>
      s |> set_creatingSession false
        |> set_preparing false
        |> set_heygenEnabledRef false
        |> set_heygenToken None
        |> startRecording started
        |> set_flow FlowDone
  end.

(** Lines 496-506: what follows the loop. *)
Definition flowFinish (started : bool) (s : Session) : Session :=
  if negb (avatarReadyRef s) || negb (hasSessionId s)
  then
    s |> set_heygenEnabledRef false
      |> set_heygenToken None
      |> startRecording started
      |> set_preparing false
      |> set_flow FlowDone
  else
    s |> startRecording started
      |> set_preparing false
      |> set_flow FlowDone.

(** *** Events *)

(** What can happen to a mounted screen from outside
    [startInterviewFlow]: the mount effect, the socket events, the timers,
    the write of an audio file that settles, the messages of the player,
    and the microphone button. *)
Inductive External :=
| MountEffect (permissionGranted : bool)
| SocketConnect
| SocketQuestion (text : string)
| SocketClarify (text : string)
| SocketTextDelta (text : string)
| SocketFinalTranscript (text : string) (now : Z)
| SocketTurnReady
| SocketAiAudioChunk (bytes : option (list Z))
| SocketAiAudioDone
| SocketTts (bytes : option (list Z))
| SocketDone
| SocketDisconnect
| SocketError (message : string)
| TtsFlushTimer
| AudioFileWritten (wav : list Z) (written : bool)
| SpeakingTimeout
| TypewriterTick (chars : nat) (finished : bool)
| WebViewMessage (m : string) (now : Z)
| MicPressIn (prepared : bool)
| MicPressOut (capture : Capture).

(** The overlay of lines 708-713 covers the screen. *)
Definition overlayShown (s : Session) : bool := (step s =? 2)%nat && preparing s.

(** The microphone button is rendered (line 689). *)
Definition micRendered (s : Session) : bool := (step s =? 2)%nat && interviewStarted s.

(** Its [disabled] property (line 694). *)
Definition micDisabled (s : Session) : bool :=
  isDone s || isConnecting s || negb (interviewStarted s) || negb (canSpeak s).

(** The press reaches [pressIn]: the button is there, not covered and not
    disabled. *)
Definition micPressable (s : Session) : bool :=
  micRendered s && negb (overlayShown s) && negb (micDisabled s).

(** The mount effect of lines 98-195: without the permission an alert, with
    it the socket and its handlers. *)
Definition mountEffect (permissionGranted : bool) (s : Session) : Session :=
  if socketRef s then s
  else if permissionGranted then set_socketRef true s
  else emit (Alert "Permission required" "Microphone permission is needed.") s.

(** The handler of a socket event runs once the socket exists. *)
Definition onSocket (h : Session -> Session) (s : Session) : Session :=
  if socketRef s then h s else s.

Definition handle (e : External) (s : Session) : Session :=
  match e with
  | MountEffect granted => mountEffect granted s
  | SocketConnect => onSocket (set_isConnecting false) s
  | SocketQuestion text => onSocket (set_question text) s
  | SocketClarify text => onSocket (set_question text) s
  | SocketTextDelta text => onSocket (onAssistantTextDelta text) s
  | SocketFinalTranscript text now =>
      onSocket (onFinalTranscript text now (webViewMounted s)) s
  | SocketTurnReady => onSocket onTurnReady s
  | SocketAiAudioChunk bytes => onSocket (onAiAudioChunk bytes) s
  | SocketAiAudioDone => onSocket onAiAudioDone s
  | SocketTts bytes => onSocket (onTts bytes) s
  | SocketDone => onSocket onDone s
  | SocketDisconnect => onSocket onDisconnect s
  | SocketError message => onSocket (onError message) s
  | TtsFlushTimer => onTtsFlushTimer s
  | AudioFileWritten wav written => playWritten wav written s
  | SpeakingTimeout => speakingTimeout s
  | TypewriterTick chars finished => typewriterTick chars finished s
  | WebViewMessage m now =>
      if webViewMounted s then onMessage m now true s else s
  | MicPressIn prepared => if micPressable s then pressIn prepared s else s
  | MicPressOut capture => if micRendered s then pressOut capture s else s
  end.

Definition handleAll (es : list External) (s : Session) : Session :=
  foldl (fun s e => handle e s) s es.

(** The button of lines 668-677 can be pressed. *)
Definition startEnabled (s : Session) : bool :=
  (step s =? 2)%nat && negb (interviewStarted s)
  && negb (isDone s || isConnecting s || creatingSession s)
  && negb (overlayShown s).

(** Everything that can happen: an external event, the two buttons, and
    the two points at which [startInterviewFlow] resumes. *)
Inductive Event :=
| Ext (e : External)
| PressContinue
| PressStart
| TokenArrives (r : TokenResult) (now : Z)
| PollWake (now : Z).

Definition react (ev : Event) (s : Session) : Session :=
  match ev with
  | Ext e => handle e s
  | PressContinue => if (step s =? 1)%nat then set_step 2%nat s else s
  | PressStart => if startEnabled s then flowBegin s else s
  | TokenArrives r now =>
      match flow s with
      | FlowAwaitToken => flowToken r now false s
      | _ => s
      end
  | PollWake now =>
      match flow s with
      | FlowPolling start =>
          if stillWaiting start now s then s else flowFinish false s
      | _ => s
      end
  end.

Definition run (evs : list Event) (s : Session) : Session :=
  foldl (fun s ev => react ev s) s evs.

(** The requests to make the avatar speak among the effects. *)
Definition isSpeakRequest (e : Effect) : bool :=
  match e with
  | InjectSpeak _ | HeygenTask _ _ | BackendTask _ _ => true
  | _ => false
  end.

Definition speakRequests (s : Session) : list Effect :=
  List.filter isSpeakRequest (effects s).


Definition isAudioChunk (e : Effect) : bool :=
  match e with
  | EmitAudioChunk _ _ _ => true
  | _ => false
  end.

(** The audio chunks sent to the server so far. *)
Definition audioChunks (s : Session) : list Effect :=
  List.filter isAudioChunk (effects s).

(** *** [startInterviewFlow] as one function *)

(** The wait loop of lines 491-495. Sleep [k] begins at [now]; while it
    lasts the events [(env k).1] are handled, and it ends [(env k).2]
    milliseconds late. The result is the number of sleeps, the time of
    the last test and the state then; [None] is fuel exhausted. *)
Fixpoint awaitAvatar (fuel k : nat) (env : nat -> list External * nat)
    (start now : Z) (s : Session) : option (nat * Z * Session) :=
  if stillWaiting start now s then
    match fuel with
    | O => None
    | S fuel' =>
        awaitAvatar fuel' (S k) env start
                    (now + pollMs + Z.of_nat (env k).2)
                    (handleAll (env k).1 s)
    end
  else Some (k, now, s).

(** By how much the first [k] sleeps were late, in all. *)
Fixpoint lateSum (env : nat -> list External * nat) (k : nat) : Z :=
  match k with
  | O => 0
  | S k' => lateSum env k' + Z.of_nat (env k').2
  end.

(** [startInterviewFlow] (lines 464-513) from the press of the button:
    [during] are the events handled while the token request is in flight,
    [now] is the time it settles. *)
Definition startInterviewFlow (fuel : nat) (r : TokenResult)
    (during : list External) (env : nat -> list External * nat) (now : Z)
    (s : Session) : option Session :=
  let started := interviewStarted s in
  let s := flowBegin s in
  let s := handleAll during s in
  let s := flowToken r now started s in
  match flow s with
  | FlowPolling start =>
      match awaitAvatar fuel 0 env start start s with
      | Some (_, _, s') => Some (flowFinish started s')
      | None => None
      end
  | _ => Some s
  end.

(** *** Invariants *)

(** The cells that decide whether the avatar is in use and whether the
    flow can be started again. *)
Definition core (s : Session)
  : FlowPhase * bool * bool * option string * bool :=
  (flow s, preparing s, interviewStarted s, heygenToken s, heygenEnabledRef s).

(** What holds of the flow in every state the screen can reach. *)
Definition flowInvariant (s : Session) : Prop :=
  match flow s with
  | FlowIdle => heygenToken s = None
  | FlowAwaitToken => heygenToken s = None /\ preparing s = true
  | FlowPolling _ => preparing s = true
  | FlowDone => interviewStarted s = true
  end.

(** The avatar has been detached, and the flow has got past the token. *)
Definition detached (s : Session) : Prop :=
  heygenEnabledRef s = false /\ heygenToken s = None
  /\ match flow s with
     | FlowPolling _ => preparing s = true
     | FlowDone => interviewStarted s = true
     | _ => False
     end.

(** The core with the avatar switched off. *)
Definition avatarOff (c : FlowPhase * bool * bool * option string * bool)
  : FlowPhase * bool * bool * option string * bool :=
  let '(f, p, i, _, _) := c in (f, p, i, None, false).

(** Proof steps shared by the frame lemmas. [strip_core] removes the
    updates of cells outside the core from under [core]; [strip_speak]
    removes the updates of cells other than the effects from under
    [speakRequests]. *)
Ltac outside_core f :=
  first
    [ constr_eq f set_recording
    | constr_eq f set_question
    | constr_eq f set_transcript
    | constr_eq f set_isDone
    | constr_eq f set_finishedMessage
    | constr_eq f set_isConnecting
    | constr_eq f set_socketRef
    | constr_eq f set_streamingRef
    | constr_eq f set_ttsChunksRef
    | constr_eq f set_ttsFlushTimerRef
    | constr_eq f set_isAssistantSpeakingRef
    | constr_eq f set_assistantSpeaking
    | constr_eq f set_isPressing
    | constr_eq f set_creatingSession
    | constr_eq f set_avatarStatus
    | constr_eq f set_avatarReady
    | constr_eq f set_avatarReadyRef
    | constr_eq f set_pendingSpeakQueueRef
    | constr_eq f set_avatarSessionIdRef
    | constr_eq f set_lastSpokenTextRef
    | constr_eq f set_lastSpeakAtRef
    | constr_eq f set_canSpeak
    | constr_eq f set_awaitingAvatarTaskRef
    | constr_eq f set_syncedTranscript
    | constr_eq f set_pendingAssistantTextRef
    | constr_eq f set_typeTimerRef
    | constr_eq f set_typeInfoRef
    | constr_eq f set_step
    | constr_eq f set_speakingTimeouts
    | constr_eq f set_effects ].

Ltac outside_effects f :=
  first
    [ constr_eq f set_recording
    | constr_eq f set_question
    | constr_eq f set_transcript
    | constr_eq f set_isDone
    | constr_eq f set_finishedMessage
    | constr_eq f set_isConnecting
    | constr_eq f set_interviewStarted
    | constr_eq f set_socketRef
    | constr_eq f set_streamingRef
    | constr_eq f set_ttsChunksRef
    | constr_eq f set_ttsFlushTimerRef
    | constr_eq f set_isAssistantSpeakingRef
    | constr_eq f set_assistantSpeaking
    | constr_eq f set_isPressing
    | constr_eq f set_creatingSession
    | constr_eq f set_avatarStatus
    | constr_eq f set_heygenToken
    | constr_eq f set_avatarReady
    | constr_eq f set_avatarReadyRef
    | constr_eq f set_pendingSpeakQueueRef
    | constr_eq f set_heygenEnabledRef
    | constr_eq f set_avatarSessionIdRef
    | constr_eq f set_lastSpokenTextRef
    | constr_eq f set_lastSpeakAtRef
    | constr_eq f set_canSpeak
    | constr_eq f set_awaitingAvatarTaskRef
    | constr_eq f set_syncedTranscript
    | constr_eq f set_pendingAssistantTextRef
    | constr_eq f set_typeTimerRef
    | constr_eq f set_typeInfoRef
    | constr_eq f set_preparing
    | constr_eq f set_step
    | constr_eq f set_speakingTimeouts
    | constr_eq f set_flow ].

Ltac strip_core :=
  repeat match goal with
         | |- context [core (?f ?v ?x)] =>
             outside_core f;
             let H := constr:(fun s : Session =>
                                eq_refl (core s) : core (f v s) = core s) in
             rewrite (H x)
         end.

Ltac strip_speak :=
  repeat match goal with
         | |- context [speakRequests (?f ?v ?x)] =>
             outside_effects f;
             let H := constr:(fun s : Session =>
                                eq_refl (speakRequests s)
                                : speakRequests (f v s) = speakRequests s) in
             rewrite (H x)
         end.

Ltac strip_effects :=
  repeat match goal with
         | |- context [effects (?f ?v ?x)] =>
             outside_effects f;
             let E := fresh "E" in
             pose proof ((fun s : Session =>
                            eq_refl (effects s)
                            : effects (f v s) = effects s) x) as E;
             rewrite E; clear E
         end.

(** [effects_norm] brings [effects] of a chain of updates and [emit]s to
    the log of the state underneath, followed by what was emitted. *)
Ltac effects_norm :=
  repeat first
    [ progress strip_effects
    | match goal with
      | |- context [effects (emit ?e ?x)] =>
          let E := fresh "E" in
          pose proof ((fun s : Session =>
                         eq_refl (effects (emit e s))
                         : effects (emit e s) = effects s ++ [e]) x) as E;
          rewrite E; clear E
      end ].

(** *** What the handlers may ask for *)

Definition isEmitStart (e : Effect) : bool :=
  match e with
  | EmitStart => true
  | _ => false
  end.

(** How often the server has been told to start the interview. *)
Definition startsSent (s : Session) : nat :=
  length (List.filter isEmitStart (effects s)).

(** An effect of a handler outside [startInterviewFlow]: anything but
    [start], and an audio chunk only as a final WAV turn of more than
    [minTurnLength] characters that encodes a capture. *)
Definition handlerEffect (e : Effect) : Prop :=
  match e with
  | EmitStart => False
  | EmitAudioChunk base64 mimeType isFinal =>
      mimeType = "audio/wav"%string /\ isFinal = true
      /\ minTurnLength < Z.of_nat (String.length base64)
      /\ exists bytes, base64 = Buffer.toBase64 bytes
  | _ => True
  end.

(** [l'] is [l] followed by effects that satisfy [P]. *)
Definition grows (P : Effect -> Prop) (l l' : list Effect) : Prop :=
  exists added, l' = l ++ added /\ Forall P added.

(** The test of line 472 on what [await api.getHeygenToken ()] comes to,
    and the token handed to [setHeygenToken]. *)
Definition tokenResult
    (answer : ApiService.Result (RealApi.ApiResponse string)) : TokenResult :=
  match answer with
  | ApiService.Throws => TokenThrows
  | ApiService.Returns tk =>
      if RealApi.success tk && ApiService.truthyToken (RealApi.data tk)
      then TokenOk (default EmptyString (RealApi.data tk))
      else TokenMissing
  end.

(** The flow has sent [start] at most once, and not before it is over. *)
Definition startInvariant (s : Session) : Prop :=
  flowInvariant s
  /\ match flow s with
     | FlowDone => (startsSent s <= 1)%nat
     | _ => startsSent s = 0%nat
     end.

(** *** Recordings and turns *)

Definition isRecorderRecord (e : Effect) : bool :=
  match e with RecorderRecord => true | _ => false end.

(** The recordings started and the turns sent so far. *)
Definition recordingsStarted (s : Session) : nat :=
  length (List.filter isRecorderRecord (effects s)).

Definition turnsSent (s : Session) : nat := length (audioChunks s).

(** An effect that does not touch the recorder and sends no audio. *)
Definition offMic (e : Effect) : Prop :=
  match e with
  | RecorderRecord | RecorderStop | EmitAudioChunk _ _ _ => False
  | _ => True
  end.

(** A step that leaves the recording as it is. *)
Definition quiet (s s' : Session) : Prop :=
  recording s' = recording s /\ grows offMic (effects s) (effects s').

(** Every turn sent belongs to a recording of its own that is over. *)
Definition turnInvariant (s : Session) : Prop :=
  (turnsSent s + (if recording s then 1 else 0) <= recordingsStarted s)%nat.

Ltac strip_recording :=
  repeat match goal with
         | |- context [recording (?f ?v ?x)] =>
             tryif constr_eq f set_recording then fail else outside_effects f;
             let E := fresh "E" in
             pose proof ((fun s : Session => eq_refl (recording s)
                            : recording (f v s) = recording s) x) as E;
             rewrite E; clear E
         | |- context [recording (emit ?e ?x)] =>
             let E := fresh "E" in
             pose proof ((fun s : Session => eq_refl (recording s)
                            : recording (emit e s) = recording s) x) as E;
             rewrite E; clear E
         end.

End AICheckInScreen.

(** ** The signature pad (the DigitalSignature component, lines 122-208) *)

Module DigitalSignature.

Definition SIGNATURE_HEIGHT : JsNumber := {| numberText := "200" |}.

Section Component.

(** The coordinates of a gesture event and their form in a template
    string. *)
Variable Coordinate : Type.
Variable show : Coordinate -> string.

(** [width - SPACING.lg * 2] for the width of the window, which need
    not be an integer. *)
Variable SIGNATURE_WIDTH : JsNumber.

(** The [useState] cells and [pathRef.current]. *)
Record State := {
  paths : list string;
  currentPath : string;
  hasSignature : bool;
  pathRef : string
}.

Definition initialState : State :=
  {| paths := []; currentPath := EmptyString; hasSignature := false;
     pathRef := EmptyString |}.

(** The states of the gesture handler. *)
Inductive GestureState :=
| UNDETERMINED | FAILED | BEGAN | CANCELLED | ACTIVE | END.

(** [handleGestureEvent] (lines 140-150) *)
Definition handleGestureEvent (x y : Coordinate) (s : State) : State :=
  if negb (truthy (pathRef s)) then s
  else
    let p := pathRef s +:+ " L" +:+ show x +:+ "," +:+ show y in
    {| paths := paths s; currentPath := p; hasSignature := hasSignature s;
       pathRef := p |}.

(** [handleStateChange] (lines 156-178) *)
Definition handleStateChange (state : GestureState) (x y : Coordinate)
    (s : State) : State :=
  let s :=
    match state with
    | BEGAN =>
        let p := "M" +:+ show x +:+ "," +:+ show y in
        {| paths := paths s; currentPath := p;
           hasSignature := if negb (hasSignature s) then true
                           else hasSignature s;
           pathRef := p |}
    | _ => s
    end in
  match state with
  | END | CANCELLED | FAILED =>
      if truthy (pathRef s) then
        let pathToSave := pathRef s in
        {| paths := paths s ++ [pathToSave]; currentPath := EmptyString;
           hasSignature := hasSignature s; pathRef := EmptyString |}
      else s
  | _ => s
  end.

(** [clearSignature] (lines 180-186); the screen passes no [onClear]. *)
Definition clearSignature (s : State) : State :=
  {| paths := []; currentPath := EmptyString; hasSignature := false;
     pathRef := EmptyString |}.

(** What [saveSignature] does: an alert, or a call of
    [onSignatureComplete]. The argument of the call is the object that
    [JSON.stringify] is applied to; [JSON.parse] gives it back. *)
Inductive Saved :=
| Alert (title message : string)
| Complete (signatureData : PdfGenerator.SignatureData).

(** [saveSignature] (lines 188-208), for [new Date ().toISOString ()]
    equal to [now]. *)
Definition saveSignature (now : string) (s : State) : Saved :=
  if negb (hasSignature s)
  then Alert "No Signature"
             "Please provide your signature before continuing."
  else
    let finalPaths :=
      if truthy (pathRef s) then paths s ++ [pathRef s] else paths s in
    if (length finalPaths =? 0)%nat
    then Alert "No Signature" "Please draw your signature before saving."
    else
      Complete {| PdfGenerator.paths := finalPaths;
                  PdfGenerator.timestamp := now;
                  PdfGenerator.dimensions :=
                    {| PdfGenerator.width := SIGNATURE_WIDTH;
                       PdfGenerator.height := SIGNATURE_HEIGHT |} |}.

(** What the user does to the pad; the Clear button is disabled while
    there is no signature or the screen is processing. *)
Inductive Event :=
| Gesture (x y : Coordinate)
| StateChange (state : GestureState) (x y : Coordinate)
| PressClear (isProcessing : bool).

Definition handle (e : Event) (s : State) : State :=
  match e with
  | Gesture x y => handleGestureEvent x y s
  | StateChange state x y => handleStateChange state x y s
  | PressClear isProcessing =>
      if negb (hasSignature s) || isProcessing then s else clearSignature s
  end.

Definition run (events : list Event) : State :=
  fold_left (fun s e => handle e s) events initialState.

(** The path data of one stroke that begins at [start] and passes
    through [points]. *)
Definition lineTo (point : Coordinate * Coordinate) : string :=
  " L" +:+ show point.1 +:+ "," +:+ show point.2.

Definition stroke (start : Coordinate * Coordinate)
    (points : list (Coordinate * Coordinate)) : string :=
  fold_left (fun p point => p +:+ lineTo point) points
            ("M" +:+ show start.1 +:+ "," +:+ show start.2).

(** The paths are strokes, and the path under the finger is a stroke or
    empty. *)
Definition drawn (l : list string) : Prop :=
  exists strokes, l = map (fun st => stroke st.1 st.2) strokes.

Definition drawing (p : string) : Prop :=
  p = EmptyString \/ exists start points, p = stroke start points.

(** What the handlers keep. *)
Definition padInvariant (s : State) : Prop :=
  currentPath s = pathRef s
  /\ drawn (paths s)
  /\ drawing (pathRef s)
  /\ (hasSignature s = false -> paths s = [] /\ pathRef s = EmptyString)
  /\ (hasSignature s = true -> paths s <> [] \/ pathRef s <> EmptyString).

End Component.

Arguments drawn {Coordinate}.
Arguments drawing {Coordinate}.
Arguments padInvariant {Coordinate}.
Arguments handleGestureEvent {Coordinate}.
Arguments handleStateChange {Coordinate}.
Arguments Gesture {Coordinate}.
Arguments StateChange {Coordinate}.
Arguments PressClear {Coordinate}.
Arguments handle {Coordinate}.
Arguments run {Coordinate}.
Arguments lineTo {Coordinate}.
Arguments stroke {Coordinate}.

End DigitalSignature.

(** ** The signature screen (DigitalSignatureScreen) *)

Module DigitalSignatureScreen.

(** The fields of [patientData] that the handler reads. [emailVerified]
    is the truth value of the field, and [createdAt] is what
    [patientData.createdAt.toLocaleDateString ()] returns, [None] when
    the call throws because the field holds no [Date]. *)
Record Patient := {
  id : string;
  firstName : string;
  lastName : string;
  emailVerified : bool;
  createdAt : option string
}.

(** What the handler does to the outside. *)
Inductive Effect :=
| AlertShown (title message : string)
| SubmitDigitalSignature (signatureData : PdfGenerator.SignatureData)
| UpdateConsentStatus (digitalSignature emailVerified isComplete : bool)
| WriteFile (file : PdfGenerator.FileWrite)
| ShareFile (path : string).

(** The body of an answer of the API: [success] and [error]. *)
Record Envelope := {
  success : bool;
  error : option string
}.

(** How the outside answers: the two requests, the clock, the write of
    the file and the sharing. *)
Record Answers := {
  submitted : ApiService.Result Envelope;
  updated : ApiService.Result Envelope;
  now : Z;
  written : bool;
  sharingAvailable : option bool;
  shared : bool
}.

Section Handler.

Variable dateOf : string -> PdfGenerator.DateView.
Variable documentDirectory : string.

Definition unexpected : Effect :=
  AlertShown "Error" "An unexpected error occurred. Please try again.".

(** Lines 74-84 of the handler: the document and the last alert. *)
Definition shareDocument (patientData : Patient)
    (signatureData : PdfGenerator.SignatureData) (env : Answers)
  : list Effect :=
  match createdAt patientData with
  | None => [unexpected]
  | Some dateOfBirth =>
      let patientInfo :=
        {| PdfGenerator.name :=
             firstName patientData +:+ " " +:+ lastName patientData;
           PdfGenerator.dateOfBirth := dateOfBirth;
           PdfGenerator.patientId := id patientData |} in
      let generated :=
        PdfGenerator.generateConsentPDF dateOf documentDirectory
          signatureData patientInfo (now env) (written env) in
      WriteFile generated.1
      :: match generated.2 with
         | None => [unexpected]
         | Some filePath =>
             let sharing :=
               PdfGenerator.shareConsentDocument filePath
                 (sharingAvailable env) (shared env) in
             map ShareFile sharing.1
             ++ [if sharing.2 then unexpected
                 else AlertShown "Signature Submitted"
                        "Your digital signature has been successfully submitted and your consent status has been updated."]
         end
  end.

(** [handleSignatureComplete] (lines 58-109), for the signature that the
    string it is given stands for: what it does and the value of
    [isSubmitting] it leaves. *)
Definition handleSignatureComplete (patientData : option Patient)
    (signatureData : PdfGenerator.SignatureData) (env : Answers)
    (isSubmitting : bool) : list Effect * bool :=
  match patientData with
  | None =>
      ([AlertShown "Error"
          "Patient data is not loaded yet. Please try again in a moment."],
       isSubmitting)
  | Some patient =>
      (SubmitDigitalSignature signatureData
       :: match submitted env with
          | ApiService.Throws => [unexpected]
          | ApiService.Returns apiResponse =>
              if success apiResponse then
                UpdateConsentStatus true (emailVerified patient || false) true
                :: match updated env with
                   | ApiService.Throws => [unexpected]
                   | ApiService.Returns consentUpdateResponse =>
                       if success consentUpdateResponse
                       then shareDocument patient signatureData env
                       else [AlertShown "Warning"
                               "Signature was saved but consent status could not be updated. Please check your profile."]
                   end
              else [AlertShown "Error"
                      (str_or (default EmptyString (error apiResponse))
                              "Failed to submit signature")]
          end,
       false)
  end.

End Handler.

Definition isAlert (e : Effect) : bool :=
  match e with AlertShown _ _ => true | _ => false end.

(** The request came back with [success] set. *)
Definition succeeded (answer : ApiService.Result Envelope) : bool :=
  match answer with
  | ApiService.Returns body => success body
  | ApiService.Throws => false
  end.

(** The sharing did not throw. *)
Definition sharingPassed (env : Answers) : bool :=
  match sharingAvailable env with
  | Some true => shared env
  | Some false => true
  | None => false
  end.

Definition submittedAlert : Effect :=
  AlertShown "Signature Submitted"
    "Your digital signature has been successfully submitted and your consent status has been updated.".

(** Membership in a list that is written out. *)
Ltac listed :=
  rewrite ?elem_of_cons, ?elem_of_nil;
  intuition (try discriminate; try congruence).

End DigitalSignatureScreen.

(** ** The stored signature (realApi.ts submitDigitalSignature, lines
    146-160; pdfGenerator.ts generateConsentDocumentFromSignature, lines
    337-426) *)

Module StoredSignature.

(** The values of JavaScript that JSON can hold, and [undefined]. *)
Unset Elimination Schemes.
Inductive Json :=
| JUndefined
| JNull
| JBool (b : bool)
| JNumber (n : JsNumber)
| JString (s : string)
| JArray (items : list Json)
| JObject (fields : list (string * Json)).
Set Elimination Schemes.

(** The truth value of a condition. *)
Definition truthyJson (v : Json) : bool :=
  match v with
  | JUndefined | JNull => false
  | JBool b => b
  | JNumber n => truthyNumber n
  | JString s => truthy s
  | JArray _ | JObject _ => true
  end.

(** [Array.isArray (v)] and [typeof v === 'object']. *)
Definition isArray (v : Json) : bool :=
  match v with JArray _ => true | _ => false end.

Definition isObjectType (v : Json) : bool :=
  match v with JNull | JArray _ | JObject _ => true | _ => false end.

(** The field [k] of an object literal or of a parsed object. *)
Fixpoint field (k : string) (fields : list (string * Json)) : Json :=
  match fields with
  | [] => JUndefined
  | (k', v) :: rest => if bool_decide (k' = k) then v else field k rest
  end.

(** [v.k] for one of the names [svgPaths], [paths], [dimensions],
    [timestamp], [width] and [height], which no string, number, boolean
    or array has; [None] is the TypeError on [undefined] and [null]. *)
Definition get (k : string) (v : Json) : option Json :=
  match v with
  | JUndefined | JNull => None
  | JObject fields => Some (field k fields)
  | _ => Some JUndefined
  end.

(** The two parts of the payload of [submitDigitalSignature] (lines
    150-156) for the signature that [saveSignature] hands over. *)
Definition svgPathsOf (signatureData : PdfGenerator.SignatureData) : Json :=
  JObject [("paths"%string,
            JArray (map JString (PdfGenerator.paths signatureData)));
           ("timestamp"%string,
            JString (PdfGenerator.timestamp signatureData))].

Definition dimensionsOf (signatureData : PdfGenerator.SignatureData) : Json :=
  JObject [("width"%string,
            JNumber (PdfGenerator.width
                       (PdfGenerator.dimensions signatureData)));
           ("height"%string,
            JNumber (PdfGenerator.height
                       (PdfGenerator.dimensions signatureData)))].

Definition payload (signatureData : PdfGenerator.SignatureData) : Json :=
  JObject [("svgPaths"%string, svgPathsOf signatureData);
           ("dimensions"%string, dimensionsOf signatureData)].

(** [formattedSignatureData] (lines 399-403). *)
Record Formatted := {
  formattedPaths : Json;
  formattedDimensions : Json;
  formattedTimestamp : Json
}.

(** The formatted data as a value of the type [SignatureData], when it is
    one: an array of strings, a width and a height that are numbers, a
    timestamp that is a string. *)
Definition asString (v : Json) : option string :=
  match v with JString s => Some s | _ => None end.

Definition asNumber (v : Json) : option JsNumber :=
  match v with JNumber n => Some n | _ => None end.

Definition asStrings (v : Json) : option (list string) :=
  match v with
  | JArray items => mapM asString items
  | _ => None
  end.

Definition asDimensions (v : Json) : option PdfGenerator.Dimensions :=
  match v with
  | JObject fields =>
      match asNumber (field "width" fields), asNumber (field "height" fields) with
      | Some w, Some h =>
          Some {| PdfGenerator.width := w; PdfGenerator.height := h |}
      | _, _ => None
      end
  | _ => None
  end.

Definition asSignatureData (f : Formatted) : option PdfGenerator.SignatureData :=
  match asStrings (formattedPaths f), asString (formattedTimestamp f),
        asDimensions (formattedDimensions f) with
  | Some paths, Some timestamp, Some dimensions =>
      Some {| PdfGenerator.paths := paths;
              PdfGenerator.timestamp := timestamp;
              PdfGenerator.dimensions := dimensions |}
  | _, _, _ => None
  end.

(** What the call comes to: an exception, a file handed to the platform
    with whether the write resolved, or signature data that is not of
    the declared type, which is not followed further here. *)
Inductive Generated :=
| Throws
| Writes (file : PdfGenerator.FileWrite) (resolved : bool)
| Untyped.

Section Generator.

(** [JSON.parse]; [None] is a SyntaxError. *)
Variable parseJson : string -> option Json.

Variable dateOf : string -> PdfGenerator.DateView.
Variable documentDirectory : string.

(** Lines 350-358 and 377-387: a string is parsed, and becomes [null]
    when it does not parse. *)
Definition parsedIfString (v : Json) : Json :=
  match v with
  | JString s => default JNull (parseJson s)
  | _ => v
  end.

(** Lines 345-403 of [generateConsentDocumentFromSignature], for
    [new Date ().toISOString ()] equal to [nowText]: the signature data
    the document is made from. [None] is the TypeError of line 350. *)
Definition formatSignatureData (nowText : string) (signatureData : Json)
  : option Formatted :=
  match get "svgPaths" signatureData with
  | None => None
  | Some svgPaths =>
      let svgPaths := parsedIfString svgPaths in
      let nested := default JUndefined (get "paths" svgPaths) in
      let own := default JUndefined (get "paths" signatureData) in
      let paths :=
        if truthyJson svgPaths && isArray svgPaths then svgPaths
        else if truthyJson svgPaths && isObjectType svgPaths
                && truthyJson nested && isArray nested
        then nested
        else if truthyJson own && isArray own then own
        else JArray [] in
      let dims :=
        parsedIfString (default JUndefined (get "dimensions" signatureData)) in
      let dimensions :=
        if truthyJson dims && isObjectType dims then dims
        else JObject [("width"%string, JNumber {| numberText := "300" |});
                      ("height"%string, JNumber {| numberText := "150" |})] in
      let stamp := default JUndefined (get "timestamp" signatureData) in
      let timestamp := if truthyJson stamp then stamp else JString nowText in
      Some {| formattedPaths := paths; formattedDimensions := dimensions;
              formattedTimestamp := timestamp |}
  end.

(** [generateConsentDocumentFromSignature] (lines 337-426); [now] is
    [new Date ().getTime ()] and [written] whether the write resolves. *)
Definition generateConsentDocumentFromSignature (signatureData : Json)
    (patientInfo : PdfGenerator.PatientInfo) (nowText : string) (now : Z)
    (written : bool) : Generated :=
  match formatSignatureData nowText signatureData with
  | None => Throws
  | Some formatted =>
      match asSignatureData formatted with
      | None => Untyped
      | Some formattedSignatureData =>
          let signatureSVG :=
            PdfGenerator.generateSignatureSVG formattedSignatureData in
          let htmlContent :=
            PdfGenerator.generateConsentHTML dateOf signatureSVG patientInfo
              (PdfGenerator.timestamp formattedSignatureData)
              formattedSignatureData in
          let fileName :=
            "consent_" +:+ PdfGenerator.patientId patientInfo +:+ "_"
            +:+ numberToString now +:+ ".html" in
          let filePath := documentDirectory +:+ fileName in
          Writes {| PdfGenerator.writePath := filePath;
                    PdfGenerator.writeContent := htmlContent |} written
      end
  end.

End Generator.

(** The record has none of the fields the generator reads. *)
Definition unrelated (fields : list (string * Json)) : Prop :=
  Forall (fun kv => kv.1 <> "svgPaths"%string /\ kv.1 <> "paths"%string
                    /\ kv.1 <> "dimensions"%string
                    /\ kv.1 <> "timestamp"%string) fields.

(** A value as the backend may hand it back: as it was sent, or as the
    JSON text of it. *)
Definition storedAs (parseJson : string -> option Json) (sent stored : Json)
  : Prop :=
  stored = sent
  \/ exists text, stored = JString text /\ parseJson text = Some sent.

End StoredSignature.

(** ** The validation of an email address (VALIDATION.EMAIL_REGEX of the
    constants, tested by handleLogin and handleSignup) *)

Module Validation.

(** Regular expressions without groups or look-around, over characters
    given by a test. *)
Inductive Regex :=
| Void
| Eps
| Class (p : ascii -> bool)
| Seq (r1 r2 : Regex)
| Alt (r1 r2 : Regex)
| Star (r : Regex).

(** [r+] *)
Definition plus (r : Regex) : Regex := Seq r (Star r).

(** The expression matches the empty string. *)
Fixpoint nullable (r : Regex) : bool :=
  match r with
  | Void => false
  | Eps => true
  | Class _ => false
  | Seq r1 r2 => nullable r1 && nullable r2
  | Alt r1 r2 => nullable r1 || nullable r2
  | Star _ => true
  end.

(** What is left to match after the character [c]. *)
Fixpoint derive (c : ascii) (r : Regex) : Regex :=
  match r with
  | Void => Void
  | Eps => Void
  | Class p => if p c then Eps else Void
  | Seq r1 r2 =>
      if nullable r1
      then Alt (Seq (derive c r1) r2) (derive c r2)
      else Seq (derive c r1) r2
  | Alt r1 r2 => Alt (derive c r1) (derive c r2)
  | Star r1 => Seq (derive c r1) (Star r1)
  end.

Fixpoint matchesAll (r : Regex) (s : list ascii) : bool :=
  match s with
  | [] => nullable r
  | c :: s' => matchesAll (derive c r) s'
  end.

(** [/^r$/.test (s)] *)
Definition test (r : Regex) (s : string) : bool :=
  matchesAll r (chars_of_string s).

(** [[^\s@]]; the white space of [\s] is that of [trim]. *)
Definition notSpaceOrAt (c : ascii) : bool :=
  negb (isTrimSpace c) && negb (Ascii.eqb c "@").

(** [EMAIL_REGEX: /^[^\s@]+@[^\s@]+\.[^\s@]+$/] *)
Definition EMAIL_REGEX : Regex :=
  Seq (plus (Class notSpaceOrAt))
      (Seq (Class (Ascii.eqb "@"))
           (Seq (plus (Class notSpaceOrAt))
                (Seq (Class (Ascii.eqb "."))
                     (plus (Class notSpaceOrAt))))).

(** The strings an expression stands for. *)
Inductive lang : Regex -> list ascii -> Prop :=
| lang_eps : lang Eps []
| lang_class p c : p c = true -> lang (Class p) [c]
| lang_seq r1 r2 s1 s2 :
    lang r1 s1 -> lang r2 s2 -> lang (Seq r1 r2) (s1 ++ s2)
| lang_alt_l r1 r2 s : lang r1 s -> lang (Alt r1 r2) s
| lang_alt_r r1 r2 s : lang r2 s -> lang (Alt r1 r2) s
| lang_star_nil r : lang (Star r) []
| lang_star_cons r s1 s2 :
    lang r s1 -> lang (Star r) s2 -> lang (Star r) (s1 ++ s2).

End Validation.
(** * Theorems *)

(** ** Strings *)

Section StringFacts.

Lemma append_assoc (a b c : string) : (a +:+ b) +:+ c = a +:+ (b +:+ c).
Proof.
  induction a as [|x a IH]; [done|].
  change (String x ((a +:+ b) +:+ c) = String x (a +:+ (b +:+ c))).
  by rewrite IH.
Qed.

Lemma append_nil_r (a : string) : a +:+ EmptyString = a.
Proof.
  induction a as [|x a IH]; [done|].
  change (String x (a +:+ EmptyString) = String x a). by rewrite IH.
Qed.

Lemma occurs_in_refl (s : string) : occurs_in s s.
Proof.
  exists EmptyString, EmptyString.
  change (s = s +:+ EmptyString). by rewrite append_nil_r.
Qed.

Lemma occurs_in_middle (pre s post : string) :
  occurs_in s (pre +:+ s +:+ post).
Proof. by exists pre, post. Qed.

Lemma occurs_in_trans (a b c : string) :
  occurs_in a b -> occurs_in b c -> occurs_in a c.
Proof.
  intros (p1 & q1 & ->) (p2 & q2 & ->).
  exists (p2 +:+ p1), (q1 +:+ q2).
  by rewrite !append_assoc.
Qed.

Lemma isPrefix_spec (p s : string) :
  isPrefix p s = true <-> exists post, s = p +:+ post.
Proof.
  revert s; induction p as [|a p IH]; intros s.
  - split; [intros _; by exists s|done].
  - destruct s as [|b s].
    + split; [done|]. intros (post & H). discriminate H.
    + change (isPrefix (String a p) (String b s))
        with (bool_decide (a = b) && isPrefix p s).
      rewrite andb_true_iff, bool_decide_eq_true, IH. split.
      * intros (-> & post & ->). by exists post.
      * intros (post & H).
        change (String b s = String a (p +:+ post)) in H.
        injection H as -> ->. split; [done|by exists post].
Qed.

Lemma contains_spec (p s : string) :
  contains p s = true <-> occurs_in p s.
Proof.
  induction s as [|b s IH].
  - change (contains p EmptyString) with (isPrefix p EmptyString || false).
    rewrite orb_false_r, isPrefix_spec. split.
    + intros (post & H). by exists EmptyString, post.
    + intros (pre & post & H). destruct pre; [by exists post|discriminate H].
  - change (contains p (String b s))
      with (isPrefix p (String b s) || contains p s).
    rewrite orb_true_iff, IH, isPrefix_spec. split.
    + intros [(post & H)|(pre & post & H)].
      * by exists EmptyString, post.
      * exists (String b pre), post.
        change (String b s = String b (pre +:+ p +:+ post)). by rewrite H.
    + intros (pre & post & H). destruct pre as [|c pre].
      * left. by exists post.
      * right. change (String b s = String c (pre +:+ p +:+ post)) in H.
        injection H as _ H. by exists pre, post.
Qed.

Lemma not_occurs_in (p s : string) : contains p s = false -> ~ occurs_in p s.
Proof. intros H Ho. apply contains_spec in Ho. congruence. Qed.

End StringFacts.

Example ex_wrap_small :
  Wav.wrap [1; 2] =
  Some [82; 73; 70; 70; 38; 0; 0; 0; 87; 65; 86; 69; 102; 109; 116; 32;
        16; 0; 0; 0; 1; 0; 1; 0; 192; 93; 0; 0; 128; 187; 0; 0; 2; 0; 16; 0;
        100; 97; 116; 97; 2; 0; 0; 0; 1; 2].
Proof. vm_compute. reflexivity. Qed.

Example ex_base64 :
  Buffer.toBase64 (Buffer.bytes_of_string "Many hands") = "TWFueSBoYW5kcw=="%string.
Proof. vm_compute. reflexivity. Qed.

(** ** Facts about buffers *)

Section BufferFacts.

Import Buffer.

Lemma length_le_bytes n v : length (le_bytes n v) = n.
Proof. revert v; induction n as [|n IH]; intros v; simpl; [done|]. by rewrite IH. Qed.

Lemma length_blit src off buf :
  (off <= length buf)%nat -> length (blit src off buf) = length buf.
Proof.
  intros H. unfold blit.
  rewrite !length_app, length_take, length_take, length_drop. lia.
Qed.

(** A write that ends inside the first part of a buffer leaves the
    second part alone. *)
Lemma blit_app_l src off l1 l2 :
  (off + length src <= length l1)%nat ->
  blit src off (l1 ++ l2) = blit src off l1 ++ l2.
Proof.
  intros H. unfold blit.
  rewrite length_app.
  rewrite (take_app_le l1 l2 off) by lia.
  rewrite (take_ge src (length l1 + length l2 - off)) by lia.
  rewrite (take_ge src (length l1 - off)) by lia.
  rewrite (drop_app_le l1 l2) by lia.
  by rewrite <- !app_assoc.
Qed.

(** Copying over the whole second part replaces it. *)
Lemma blit_app_r src l1 l2 :
  length src = length l2 ->
  blit src (length l1) (l1 ++ l2) = l1 ++ src.
Proof.
  intros H. unfold blit.
  rewrite length_app.
  rewrite take_app_length.
  rewrite take_ge by lia.
  rewrite drop_ge by (rewrite length_app; lia).
  by rewrite app_nil_r.
Qed.

Lemma writeUIntLE_app n v off l1 l2 :
  0 <= v < 2 ^ (8 * Z.of_nat n) ->
  (off + n <= length l1)%nat ->
  writeUIntLE n v off (l1 ++ l2) = Some (blit (le_bytes n v) off l1 ++ l2).
Proof.
  intros Hv Hoff. unfold writeUIntLE.
  rewrite bool_decide_eq_true_2.
  - rewrite blit_app_l; [done|]. rewrite length_le_bytes. lia.
  - split; [done|]. rewrite length_app. lia.
Qed.

Lemma writeUInt32LE_app v off l1 l2 :
  0 <= v < 4294967296 ->
  (off + 4 <= length l1)%nat ->
  writeUInt32LE v off (l1 ++ l2) = Some (blit (le_bytes 4 v) off l1 ++ l2).
Proof. intros Hv Hoff. by apply writeUIntLE_app. Qed.

Lemma writeUInt16LE_app v off l1 l2 :
  0 <= v < 65536 ->
  (off + 2 <= length l1)%nat ->
  writeUInt16LE v off (l1 ++ l2) = Some (blit (le_bytes 2 v) off l1 ++ l2).
Proof. intros Hv Hoff. by apply writeUIntLE_app. Qed.

Lemma write_app_l s off l1 l2 :
  (off + length (bytes_of_string s) <= length l1)%nat ->
  write s off (l1 ++ l2) = write s off l1 ++ l2.
Proof. apply blit_app_l. Qed.

Lemma mbind_Some {A B : Type} (f : A -> option B) (x : A) :
  (Some x ≫= f) = f x.
Proof. reflexivity. Qed.

(** A write of as many bytes as there are keeps the length. *)
Lemma length_write s off buf :
  (off <= length buf)%nat -> length (write s off buf) = length buf.
Proof. apply length_blit. Qed.

Lemma le_value_le_bytes n v :
  0 <= v < 2 ^ (8 * Z.of_nat n) -> le_value (le_bytes n v) = v.
Proof.
  revert v; induction n as [|n IH]; intros v Hv; simpl.
  - change (2 ^ (8 * Z.of_nat 0)) with 1 in Hv. lia.
  - rewrite IH.
    + change 255 with (Z.ones 8). rewrite Z.land_ones, Z.shiftr_div_pow2 by lia.
      change (2 ^ 8) with 256. pose proof (Z.div_mod v 256). lia.
    + rewrite Z.shiftr_div_pow2 by lia. change (2 ^ 8) with 256.
      replace (2 ^ (8 * Z.of_nat (S n))) with (256 * 2 ^ (8 * Z.of_nat n)) in Hv.
      * split; [apply Z.div_pos; lia|].
        apply Z.div_lt_upper_bound; lia.
      * replace (8 * Z.of_nat (S n)) with (8 + 8 * Z.of_nat n) by lia.
        rewrite Z.pow_add_r by lia. done.
Qed.

Lemma le_bytes_wf n v : wf (le_bytes n v).
Proof.
  revert v; induction n as [|n IH]; intros v; simpl; constructor; [|apply IH].
  change 255 with (Z.ones 8). rewrite Z.land_ones by lia.
  apply Z.mod_pos_bound. lia.
Qed.

End BufferFacts.

Section WavFacts.

Import Buffer Wav.

(** With a data size that a 32-bit field holds, [wrap] returns the header
    followed by the samples. *)
Lemma wrap_layout (merged : list Z) :
  36 + Z.of_nat (length merged) < 2 ^ 32 ->
  wrap merged = Some (header (Z.of_nat (length merged)) ++ merged).
Proof.
  intros Hsz. change (2 ^ 32) with 4294967296 in Hsz.
  unfold wrap, alloc. rewrite replicate_add.
  assert (Htl : length (replicate (length merged) 0) = length merged)
    by apply length_replicate.
  revert Htl. generalize (replicate (length merged) 0). intros tl Htl.
  unfold copy, byteRate, blockAlign.
  unfold numChannels, sampleRate, bitsPerSample.
  change (24000 * 1 * 16 / 8) with 48000. change (1 * 16 / 8) with 2.
  set (n := Z.of_nat (length merged)) in *.
  set (v := 36 + n).
  assert (Hv : 0 <= v < 4294967296) by (unfold v, n; lia).
  assert (Hn : 0 <= n < 4294967296) by (unfold n; lia).
  rewrite write_app_l by (vm_compute; lia).
  rewrite writeUInt32LE_app, mbind_Some;
    [|exact Hv|rewrite length_write; vm_compute; lia].
  rewrite write_app_l
    by (rewrite length_blit, length_write; vm_compute; lia).
  rewrite write_app_l
    by (rewrite length_write, length_blit, length_write; vm_compute; lia).
  repeat (first
    [ rewrite writeUInt32LE_app, mbind_Some;
        [|first [exact Hv|exact Hn|lia]
         |rewrite ?length_blit, ?length_write; vm_compute; lia]
    | rewrite writeUInt16LE_app, mbind_Some;
        [|lia|rewrite ?length_blit, ?length_write; vm_compute; lia]
    | rewrite write_app_l
        by (rewrite ?length_blit, ?length_write; vm_compute; lia) ]).
  f_equal.
  match goal with
  | |- blit merged 44 (?P ++ tl) = _ =>
      assert (HP : P = header n);
      [|rewrite HP; change 44%nat with (length (header n));
        by rewrite blit_app_r by done]
  end.
  unfold header. fold v. cbn [le_bytes]. clearbody v n.
  generalize (Z.land v 255) (Z.land (v ≫ 8) 255) (Z.land ((v ≫ 8) ≫ 8) 255)
    (Z.land (((v ≫ 8) ≫ 8) ≫ 8) 255).
  generalize (Z.land n 255) (Z.land (n ≫ 8) 255) (Z.land ((n ≫ 8) ≫ 8) 255)
    (Z.land (((n ≫ 8) ≫ 8) ≫ 8) 255).
  intros. vm_compute. reflexivity.
Qed.

Lemma length_header n : length (header n) = 44%nat.
Proof. reflexivity. Qed.

(** Reading the fields of the header back. *)
Lemma header_fields (n : Z) (rest : list Z) :
  0 <= n -> 36 + n < 2 ^ 32 ->
  let out := header n ++ rest in
  slice 0 4 out = bytes_of_string "RIFF"
  /\ readUIntLE 4 4 out = 36 + n
  /\ slice 8 12 out = bytes_of_string "WAVE"
  /\ slice 12 16 out = bytes_of_string "fmt "
  /\ readUIntLE 4 16 out = 16
  /\ readUIntLE 2 20 out = 1
  /\ readUIntLE 2 22 out = 1
  /\ readUIntLE 4 24 out = 24000
  /\ readUIntLE 4 28 out = 48000
  /\ readUIntLE 2 32 out = 2
  /\ readUIntLE 2 34 out = 16
  /\ slice 36 40 out = bytes_of_string "data"
  /\ readUIntLE 4 40 out = n
  /\ drop 44 out = rest.
Proof.
  intros Hn Hb out.
  assert (H1 : readUIntLE 4 4 out = le_value (le_bytes 4 (36 + n))) by reflexivity.
  assert (H2 : readUIntLE 4 40 out = le_value (le_bytes 4 n)) by reflexivity.
  rewrite H1, H2, !le_value_le_bytes by (simpl; lia).
  repeat split; reflexivity.
Qed.

Lemma mergedAudio_wrapped (chunks : list (list Z)) :
  chunks <> [] ->
  isWav (concat chunks) = false ->
  36 + Z.of_nat (length (concat chunks)) < 2 ^ 32 ->
  mergedAudio chunks
  = Some (Some (header (Z.of_nat (length (concat chunks))) ++ concat chunks)).
Proof.
  intros Hne Hw Hb. destruct chunks as [|c cs]; [done|].
  unfold mergedAudio. rewrite Hw. by rewrite wrap_layout.
Qed.

Lemma mergedAudio_passthrough (chunks : list (list Z)) :
  chunks <> [] ->
  isWav (concat chunks) = true ->
  mergedAudio chunks = Some (Some (concat chunks)).
Proof.
  intros Hne Hw. destruct chunks as [|c cs]; [done|].
  unfold mergedAudio. by rewrite Hw.
Qed.

(** Bytes that do begin with the marker are recognised. *)
Lemma isWav_of_marker (merged : list Z) :
  take 4 merged = bytes_of_string "RIFF" -> isWav merged = true.
Proof.
  intros H. unfold isWav, slice.
  assert (Hl : (4 <= length merged)%nat).
  { apply (f_equal length) in H. rewrite length_take in H.
    change (length (bytes_of_string "RIFF")) with 4%nat in H. lia. }
  rewrite bool_decide_eq_true_2 by done.
  change (4 - 0)%nat with 4%nat. rewrite drop_0, H. reflexivity.
Qed.

Lemma fromCharCode_7bit (x : Z) (c : ascii) :
  0 <= x < 128 -> fromCharCode (Z.land x 127) = c -> x = charCode c.
Proof.
  intros Hx H. unfold fromCharCode, charCode in *.
  change 127 with (Z.ones 7) in H. rewrite Z.land_ones in H by lia.
  rewrite Z.mod_small in H by (change (2 ^ 7) with 128; lia).
  subst c. rewrite nat_ascii_embedding by lia. lia.
Qed.

(** On 7-bit bytes the test is exactly "begins with RIFF". *)
Lemma isWav_7bit (merged : list Z) :
  Forall (fun x => 0 <= x < 128) merged ->
  isWav merged = true -> take 4 merged = bytes_of_string "RIFF".
Proof.
  intros H7 H. unfold isWav in H. apply andb_true_iff in H as [_ H].
  apply bool_decide_eq_true_1 in H. unfold slice in H.
  change (4 - 0)%nat with 4%nat in H. rewrite drop_0 in H.
  destruct merged as [|a [|b [|c [|d m]]]]; try discriminate H.
  simpl in H. injection H as Ha Hb Hc Hd.
  inversion H7 as [|? ? A H7a]; subst.
  inversion H7a as [|? ? B H7b]; subst.
  inversion H7b as [|? ? C H7c]; subst.
  inversion H7c as [|? ? D _]; subst.
  apply fromCharCode_7bit in Ha, Hb, Hc, Hd; try done.
  simpl. by rewrite Ha, Hb, Hc, Hd.
Qed.

End WavFacts.

(** C9 (flushTTSBuffer, lines 300-347). The test for an existing container
    decodes the first four bytes with [toString ('ascii')], which clears
    the high bit of each byte. Raw PCM that begins with the bytes D2 49 C6
    46 does not begin with the ASCII marker RIFF, yet it is taken for a
    WAV file and handed on without a header: the result has the length of
    the input, not 44 more. *)
Theorem flushTTS_high_bit_marker_not_wrapped :
  let merged := [210; 73; 198; 70; 1; 2] in
  Buffer.wf merged
  /\ take 4 merged <> Buffer.bytes_of_string "RIFF"
  /\ Wav.isWav merged = true
  /\ Wav.mergedAudio [merged] = Some (Some merged)
  /\ Wav.mergedAudio [merged]
     <> Some (Some (Wav.header (Z.of_nat (length merged)) ++ merged)).
Proof.
  simpl. repeat split.
  - unfold Buffer.wf. repeat constructor; lia.
  - discriminate.
  - discriminate.
Qed.

(** ** The consent document *)

Section PdfFacts.

Import PdfGenerator.

Variable dateOf : string -> DateView.

(** The document is the head of the template, the signature markup, and
    the tail. *)
Lemma consentDocument_embeds (sd : SignatureData) (info : PatientInfo) :
  occurs_in (generateSignatureSVG sd) (consentDocument dateOf sd info).
Proof. unfold consentDocument, generateConsentHTML. apply occurs_in_middle. Qed.

Lemma generateSignatureSVG_nonempty (sd : SignatureData) :
  String.concat " " (paths sd) <> EmptyString ->
  generateSignatureSVG sd
  = signatureSvg (numberText (width (dimensions sd)))
                 (numberText (height (dimensions sd)))
                 ("0 0 " +:+ numberText (width (dimensions sd))
                  +:+ " " +:+ numberText (height (dimensions sd)))
                 (String.concat " " (paths sd)).
Proof.
  intros H. unfold generateSignatureSVG.
  destruct (String.concat " " (paths sd)) eqn:E; [done|reflexivity].
Qed.

Lemma generateSignatureSVG_empty (sd : SignatureData) :
  String.concat " " (paths sd) = EmptyString ->
  generateSignatureSVG sd
  = signaturePlaceholder (numberText (width (dimensions sd)))
                         (numberText (height (dimensions sd))).
Proof. intros H. unfold generateSignatureSVG. by rewrite H. Qed.

(** The attributes of the [svg] and [path] elements, as they stand in
    the template. *)
Lemma signatureSvg_attributes (w h vb d : string) :
  occurs_in ("<svg 
      width=" +:+ dq +:+ w +:+ dq +:+ " 
      height=" +:+ dq +:+ h +:+ dq +:+ " 
      viewBox=" +:+ dq +:+ vb +:+ dq) (signatureSvg w h vb d)
  /\ occurs_in ("<path 
        d=" +:+ dq +:+ d +:+ dq) (signatureSvg w h vb d).
Proof.
  split.
  - eexists "
    "%string, _. unfold signatureSvg.
    rewrite !append_assoc. reflexivity.
  - eexists ("
    <svg 
      width=" +:+ dq +:+ w +:+ dq +:+ " 
      height=" +:+ dq +:+ h +:+ dq +:+ " 
      viewBox=" +:+ dq +:+ vb +:+ dq +:+ " 
      xmlns=" +:+ dq +:+ "http://www.w3.org/2000/svg" +:+ dq +:+ "
      style=" +:+ dq +:+ "border: 1px solid #E5E7EB; background-color: white;" +:+ dq +:+ "
    >
      "), _. unfold signatureSvg.
    rewrite !append_assoc. reflexivity.
Qed.

(** Reading an attribute stops at the quote that closes it. *)
Lemma upToQuote_closed (v rest : string) :
  quoteFree v = true -> upToQuote (v +:+ dq +:+ rest) = v.
Proof.
  induction v as [|c v IH]; intros H.
  - reflexivity.
  - cbn in H. apply andb_true_iff in H as [Hc Hv].
    change (String c v +:+ dq +:+ rest) with (String c (v +:+ dq +:+ rest)).
    cbn [upToQuote]. apply negb_true_iff in Hc. rewrite Hc.
    by rewrite IH.
Qed.

(** A quote inside the value ends the reading before the value does. *)
Lemma upToQuote_cut (a b rest : string) :
  quoteFree a = true -> upToQuote (a +:+ dq +:+ b +:+ dq +:+ rest) = a.
Proof. intros H. by apply (upToQuote_closed a (b +:+ dq +:+ rest)). Qed.

(** The template up to the opening quote of the [d] attribute, and
    behind its closing quote. *)
Lemma signatureSvg_path (w h vb d : string) :
  exists pre post,
    signatureSvg w h vb d
    = pre +:+ ("<path 
        d=" +:+ dq) +:+ d +:+ dq +:+ post.
Proof.
  eexists ("
    <svg 
      width=" +:+ dq +:+ w +:+ dq +:+ " 
      height=" +:+ dq +:+ h +:+ dq +:+ " 
      viewBox=" +:+ dq +:+ vb +:+ dq +:+ " 
      xmlns=" +:+ dq +:+ "http://www.w3.org/2000/svg" +:+ dq +:+ "
      style=" +:+ dq +:+ "border: 1px solid #E5E7EB; background-color: white;" +:+ dq +:+ "
    >
      "), _. unfold signatureSvg.
  rewrite !append_assoc. reflexivity.
Qed.

Lemma consentDocument_path (sd : SignatureData) (info : PatientInfo) :
  String.concat " " (paths sd) <> EmptyString ->
  exists pre post,
    consentDocument dateOf sd info
    = pre +:+ ("<path 
        d=" +:+ dq) +:+ String.concat " " (paths sd) +:+ dq +:+ post.
Proof.
  intros Hne. unfold consentDocument, generateConsentHTML.
  rewrite (generateSignatureSVG_nonempty sd Hne).
  destruct (signatureSvg_path
              (numberText (width (dimensions sd)))
              (numberText (height (dimensions sd)))
              ("0 0 " +:+ numberText (width (dimensions sd))
               +:+ " " +:+ numberText (height (dimensions sd)))
              (String.concat " " (paths sd))) as (pre & post & ->).
  set (head := consentHead _ _ _ _). set (tail := consentTail _ _ _ _ _ _).
  exists (head +:+ pre), (post +:+ tail).
  by rewrite !append_assoc.
Qed.

End PdfFacts.

(** C6, amended (generateSignatureSVG lines 47-86, generateConsentHTML lines
    88-313). Whenever the space-joined path string is not empty, the consent
    document contains the SVG template instantiated with the width and the
    height as JavaScript prints them, the view box [0 0 <width> <height>]
    and the joined paths between the quotes of the [d] attribute of its
    path element. Read from its opening quote to the next double quote,
    that attribute is the joined string when the joined string holds no
    double quote; when it holds one, the attribute ends at the first. *)
Theorem consent_document_embeds_signature
    (dateOf : string -> PdfGenerator.DateView)
    (sd : PdfGenerator.SignatureData) (info : PdfGenerator.PatientInfo) :
  String.concat " " (PdfGenerator.paths sd) <> EmptyString ->
  let w := numberText (PdfGenerator.width (PdfGenerator.dimensions sd)) in
  let h := numberText (PdfGenerator.height (PdfGenerator.dimensions sd)) in
  let d := String.concat " " (PdfGenerator.paths sd) in
  let viewBox := "0 0 " +:+ w +:+ " " +:+ h in
  let html := PdfGenerator.consentDocument dateOf sd info in
  PdfGenerator.generateSignatureSVG sd = PdfGenerator.signatureSvg w h viewBox d
  /\ occurs_in (PdfGenerator.signatureSvg w h viewBox d) html
  /\ occurs_in ("<svg 
      width=" +:+ dq +:+ w +:+ dq +:+ " 
      height=" +:+ dq +:+ h +:+ dq +:+ " 
      viewBox=" +:+ dq +:+ viewBox +:+ dq) html
  /\ occurs_in ("<path 
        d=" +:+ dq +:+ d +:+ dq) html
  /\ exists pre value,
       html = pre +:+ ("<path 
        d=" +:+ dq) +:+ value
       /\ (quoteFree d = true -> upToQuote value = d)
       /\ (forall a b, d = a +:+ dq +:+ b -> quoteFree a = true ->
             upToQuote value = a).
Proof.
  intros Hne w h d viewBox html.
  pose proof (generateSignatureSVG_nonempty sd Hne) as Hsvg.
  pose proof (consentDocument_embeds dateOf sd info) as Hin.
  rewrite Hsvg in Hin.
  destruct (signatureSvg_attributes w h viewBox d) as [Ha Hd].
  destruct (consentDocument_path dateOf sd info Hne) as (pre & post & Hp).
  split; [exact Hsvg|]. split; [exact Hin|].
  split; [eapply occurs_in_trans; eauto|].
  split; [eapply occurs_in_trans; eauto|].
  exists pre, (d +:+ dq +:+ post). split; [exact Hp|]. split.
  - intros Hq. by apply upToQuote_closed.
  - intros a b Hd' Hq. rewrite Hd'. rewrite !append_assoc.
    by apply upToQuote_closed.
Qed.

(** The instance of the specification: one stroke on a 300 by 150 canvas. *)
Lemma consent_document_embeds_signature_witness :
  let sd := {| PdfGenerator.paths := ["M10,10 L20,20"%string];
               PdfGenerator.timestamp := "2024-06-01T10:00:00.000Z";
               PdfGenerator.dimensions :=
                 {| PdfGenerator.width := {| numberText := "300" |};
                    PdfGenerator.height := {| numberText := "150" |} |} |} in
  let info := {| PdfGenerator.name := "Ana Diaz";
                 PdfGenerator.dateOfBirth := "1990-01-01";
                 PdfGenerator.patientId := "p1" |} in
  let dateOf := fun _ : string =>
    {| PdfGenerator.formattedDate := "June 1, 2024";
       PdfGenerator.formattedTime := "10:00 AM";
       PdfGenerator.timeValue := "1717236000000";
       PdfGenerator.timeValueHex := "18fd2e8a100" |} in
  let html := PdfGenerator.consentDocument dateOf sd info in
  String.concat " " (PdfGenerator.paths sd) <> EmptyString
  /\ occurs_in ("<svg 
      width=" +:+ dq +:+ "300" +:+ dq +:+ " 
      height=" +:+ dq +:+ "150" +:+ dq +:+ " 
      viewBox=" +:+ dq +:+ "0 0 300 150" +:+ dq) html
  /\ occurs_in ("<path 
        d=" +:+ dq +:+ "M10,10 L20,20" +:+ dq) html.
Proof.
  intros sd info dateOf html.
  assert (Hne : String.concat " " (PdfGenerator.paths sd) <> EmptyString)
    by discriminate.
  split; [exact Hne|].
  destruct (consent_document_embeds_signature dateOf sd info Hne)
    as (_ & _ & Hsvg & Hpath & _).
  split; [exact Hsvg|exact Hpath].
Defined.

(** The same instance for any patient and any rendering of the date. *)
Example consent_document_300_150
    (dateOf : string -> PdfGenerator.DateView) (info : PdfGenerator.PatientInfo)
    (ts : string) :
  let sd := {| PdfGenerator.paths := ["M10,10 L20,20"%string];
               PdfGenerator.timestamp := ts;
               PdfGenerator.dimensions :=
                 {| PdfGenerator.width := {| numberText := "300" |};
                    PdfGenerator.height := {| numberText := "150" |} |} |} in
  let html := PdfGenerator.consentDocument dateOf sd info in
  occurs_in ("<svg 
      width=" +:+ dq +:+ "300" +:+ dq +:+ " 
      height=" +:+ dq +:+ "150" +:+ dq +:+ " 
      viewBox=" +:+ dq +:+ "0 0 300 150" +:+ dq) html
  /\ occurs_in ("<path 
        d=" +:+ dq +:+ "M10,10 L20,20" +:+ dq) html.
Proof.
  intros sd html.
  assert (Hne : String.concat " " (PdfGenerator.paths sd) <> EmptyString)
    by discriminate.
  pose proof (consentDocument_embeds dateOf sd info) as Hin.
  rewrite (generateSignatureSVG_nonempty sd Hne) in Hin.
  destruct (signatureSvg_attributes "300" "150" "0 0 300 150" "M10,10 L20,20")
    as [Ha Hd].
  split; eapply occurs_in_trans; eauto.
Qed.

(** In the document of that instance for one patient, the first
    attributes of those names read 300, 150, 0 0 300 150 and the joined
    path; a size that is no integer, or is too large for decimal digits,
    is printed as JavaScript prints it; and a double quote in a path
    ends the [d] attribute. *)
Example consent_document_attributes :
  let info := {| PdfGenerator.name := "Ana Diaz";
                 PdfGenerator.dateOfBirth := "1990-01-01";
                 PdfGenerator.patientId := "p1" |} in
  let dateOf := fun _ : string =>
    {| PdfGenerator.formattedDate := "June 1, 2024";
       PdfGenerator.formattedTime := "10:00 AM";
       PdfGenerator.timeValue := "1717236000000";
       PdfGenerator.timeValueHex := "18fd2e8a100" |} in
  let document paths w h :=
    PdfGenerator.consentDocument dateOf
      {| PdfGenerator.paths := paths;
         PdfGenerator.timestamp := "2024-06-01T10:00:00.000Z";
         PdfGenerator.dimensions :=
           {| PdfGenerator.width := {| numberText := w |};
              PdfGenerator.height := {| numberText := h |} |} |} info in
  let html := document ["M10,10 L20,20"%string] "300"%string "150"%string in
  let wide := document ["M10,10 L20,20"%string] "1e+21"%string "327.5"%string in
  let quoted :=
    document ["M10,10"%string; "L" +:+ dq +:+ "20,20"] "300"%string "150"%string in
  PdfGenerator.firstAttribute ("<svg 
      width=" +:+ dq) html = Some "300"%string
  /\ PdfGenerator.firstAttribute ("height=" +:+ dq) html = Some "150"%string
  /\ PdfGenerator.firstAttribute ("viewBox=" +:+ dq) html
     = Some "0 0 300 150"%string
  /\ PdfGenerator.firstAttribute ("<path 
        d=" +:+ dq) html = Some "M10,10 L20,20"%string
  /\ PdfGenerator.firstAttribute ("viewBox=" +:+ dq) wide
     = Some "0 0 1e+21 327.5"%string
  /\ PdfGenerator.firstAttribute ("<path 
        d=" +:+ dq) quoted = Some "M10,10 L"%string.
Proof. vm_compute. repeat split. Qed.

(** C6 as stated fails for a path list that is not empty but joins to the
    empty string: the generator emits the placeholder, and the document has
    no [svg] element, no view box and no path. *)
Lemma blank_path_list_has_no_svg :
  let sd := {| PdfGenerator.paths := [EmptyString];
               PdfGenerator.timestamp := "2024-06-01T10:00:00.000Z";
               PdfGenerator.dimensions :=
                 {| PdfGenerator.width := {| numberText := "300" |};
                    PdfGenerator.height := {| numberText := "150" |} |} |} in
  let info := {| PdfGenerator.name := "Ana Diaz";
                 PdfGenerator.dateOfBirth := "1990-01-01";
                 PdfGenerator.patientId := "p1" |} in
  let dateOf := fun _ : string =>
    {| PdfGenerator.formattedDate := "June 1, 2024";
       PdfGenerator.formattedTime := "10:00 AM";
       PdfGenerator.timeValue := "1717236000000";
       PdfGenerator.timeValueHex := "18fd2e8a100" |} in
  let html := PdfGenerator.consentDocument dateOf sd info in
  PdfGenerator.paths sd <> []
  /\ PdfGenerator.generateSignatureSVG sd
     = PdfGenerator.signaturePlaceholder "300" "150"
  /\ ~ occurs_in "<svg" html
  /\ ~ occurs_in "viewBox" html
  /\ ~ occurs_in "<path" html.
Proof.
  intros sd info dateOf html.
  split; [discriminate|]. split; [reflexivity|].
  repeat split; apply not_occurs_in; vm_compute; reflexivity.
Qed.
(** ** Dates *)

Example ex_formatLocalISO :
  RealApi.formatLocalISO
    (RealApi.DateOf {| RealApi.year := 2024; RealApi.month := 5; RealApi.day := 1;
                       RealApi.hours := 9; RealApi.minutes := 30;
                       RealApi.seconds := 0; RealApi.millis := 120 |})
  = "2024-06-01T09:30:00"%string.
Proof. vm_compute. reflexivity. Qed.

Example ex_parseLocalDateTime :
  RealApi.parseLocalDateTime "2024-06-01T09:30:00.000"
  = Some {| RealApi.year := 2024; RealApi.month := 5; RealApi.day := 1;
            RealApi.hours := 9; RealApi.minutes := 30;
            RealApi.seconds := 0; RealApi.millis := 0 |}.
Proof. vm_compute. reflexivity. Qed.

Example ex_parse_short_year :
  RealApi.formatLocalISO
    (RealApi.DateOf {| RealApi.year := 999; RealApi.month := 0; RealApi.day := 1;
                       RealApi.hours := 0; RealApi.minutes := 0;
                       RealApi.seconds := 0; RealApi.millis := 0 |})
  = "999-01-01T00:00:00"%string
  /\ RealApi.parseLocalDateTime "999-01-01T00:00:00" = None.
Proof. vm_compute. split; reflexivity. Qed.

Section DateFacts.

Import RealApi.

Lemma allInRange_spec (P : Z -> bool) (lo : Z) (n : nat) :
  allInRange P lo n = true ->
  forall z, lo <= z < lo + Z.of_nat n -> P z = true.
Proof.
  unfold allInRange. rewrite forallb_forall. intros H z Hz.
  replace z with (lo + Z.of_nat (Z.to_nat (z - lo))) by lia.
  apply H. apply in_seq. lia.
Qed.

Lemma year_prints (y : Z) :
  1000 <= y <= 9999 ->
  exists a b c d,
    numberToString y = String a (String b (String c (String d EmptyString)))
    /\ digits4 a b c d = Some y.
Proof.
  intros Hy.
  assert (H : yearPrints y = true).
  { apply (allInRange_spec yearPrints 1000 (Z.to_nat 9000));
    [vm_compute; reflexivity|lia]. }
  unfold yearPrints in H.
  destruct (numberToString y) as [|a [|b [|c [|d [|? ?]]]]]; try discriminate H.
  apply bool_decide_eq_true_1 in H. by exists a, b, c, d.
Qed.

Lemma two_digits_print (n : Z) :
  0 <= n <= 99 ->
  exists a b,
    padStart2 (numberToString n) = String a (String b EmptyString)
    /\ digits2 a b = Some n.
Proof.
  intros Hn.
  assert (H : twoDigitsPrint n = true).
  { apply (allInRange_spec twoDigitsPrint 0 (Z.to_nat 100));
    [vm_compute; reflexivity|lia]. }
  unfold twoDigitsPrint in H.
  destruct (padStart2 (numberToString n)) as [|a [|b [|? ?]]]; try discriminate H.
  apply bool_decide_eq_true_1 in H. by exists a, b.
Qed.

Lemma digits2_not_Z (a b : ascii) (n : Z) :
  digits2 a b = Some n -> b <> "Z"%char.
Proof.
  intros H ->. unfold digits2 in H.
  destruct (digitVal a); [|discriminate H]. discriminate H.
Qed.

Lemma fieldsOk_bounds (t : LocalTime) :
  fieldsOk t = true ->
  0 <= month t <= 11 /\ 1 <= day t <= 31 /\ 0 <= hours t <= 23
  /\ 0 <= minutes t <= 59 /\ 0 <= seconds t <= 59.
Proof.
  unfold fieldsOk. rewrite !andb_true_iff, !Z.leb_le.
  intros H. assert (daysInMonth (year t) (month t) <= 31).
  { unfold daysInMonth. repeat case_match; lia. }
  lia.
Qed.

Lemma fieldsOk_wholeSecond (t : LocalTime) :
  fieldsOk t = true -> fieldsOk (wholeSecond t) = true.
Proof.
  unfold fieldsOk, wholeSecond. simpl. rewrite !andb_true_iff.
  intros H. repeat split; try tauto.
Qed.

(** The string [formatLocalISO] prints for a four-digit year is read
    back, field by field, with the milliseconds gone. *)
Lemma parse_format (t : LocalTime) :
  fieldsOk t = true -> 1000 <= year t <= 9999 ->
  parseLocalDateTime (formatLocalISO (DateOf t)) = Some (wholeSecond t)
  /\ endsWithZ (formatLocalISO (DateOf t)) = false
  /\ truthy (formatLocalISO (DateOf t)) = true.
Proof.
  intros Hok Hy.
  pose proof (fieldsOk_wholeSecond t Hok) as Hok'.
  destruct (fieldsOk_bounds t Hok) as (Hm & Hd & Hh & Hi & Hs).
  destruct (year_prints (year t) Hy) as (y1 & y2 & y3 & y4 & Ey & Py).
  destruct (two_digits_print (month t + 1)) as (m1 & m2 & Em & Pm); [lia|].
  destruct (two_digits_print (day t)) as (d1 & d2 & Ed & Pd); [lia|].
  destruct (two_digits_print (hours t)) as (h1 & h2 & Eh & Ph); [lia|].
  destruct (two_digits_print (minutes t)) as (i1 & i2 & Ei & Pi); [lia|].
  destruct (two_digits_print (seconds t)) as (s1 & s2 & Es & Ps); [lia|].
  unfold formatLocalISO. rewrite Ey, Em, Ed, Eh, Ei, Es.
  cbv [String.append].
  split; [|split; [|reflexivity]].
  - unfold parseLocalDateTime. cbn [chars_of_string].
    rewrite !bool_decide_eq_true_2 by reflexivity. cbn [andb].
    rewrite Py, Pm, Pd, Ph, Pi. cbn [mbind option_bind].
    unfold parseSeconds. rewrite bool_decide_eq_true_2 by reflexivity.
    rewrite Ps. cbn [mbind option_bind fst snd].
    replace (month t + 1 - 1) with (month t) by lia.
    change {| year := year t; month := month t; day := day t;
              hours := hours t; minutes := minutes t;
              seconds := seconds t; millis := 0 |} with (wholeSecond t).
    by rewrite Hok'.
  - cbn [endsWithZ]. apply bool_decide_eq_false_2.
    eapply digits2_not_Z; eauto.
Qed.

Lemma endsWithZ_snoc (s : string) : endsWithZ (s +:+ "Z") = true.
Proof.
  induction s as [|c s IH]; [reflexivity|].
  change (String c s +:+ "Z") with (String c (s +:+ "Z")).
  destruct s; [reflexivity|exact IH].
Qed.

Lemma dropLast_snoc (s : string) : dropLast (s +:+ "Z") = s.
Proof.
  induction s as [|c s IH]; [reflexivity|].
  change (String c s +:+ "Z") with (String c (s +:+ "Z")).
  destruct s as [|c' s]; [reflexivity|].
  change (String c (dropLast (String c' s +:+ "Z")) = String c (String c' s)).
  by rewrite IH.
Qed.

End DateFacts.

(** C10, amended (formatLocalISO lines 26-34, parseAsLocal lines 37-43).
    For a Date whose local year has four digits, [parseAsLocal] reads the
    string of [formatLocalISO] back to the same local year, month, day,
    hours, minutes and seconds (the milliseconds are dropped); only the
    month, day, hours, minutes and seconds are padded, the year is printed
    as it is. [parseAsLocal] returns undefined exactly on undefined and on
    the empty string, returns a Date argument unchanged, and removes one
    trailing Z, not more, before it parses. *)
Theorem parseAsLocal_formatLocalISO
    (zoneHas : RealApi.LocalTime -> bool)
    (zoneAdjust : RealApi.LocalTime -> RealApi.LocalTime)
    (platformParse : string -> RealApi.JsDate)
    (t : RealApi.LocalTime) :
  RealApi.fieldsOk t = true ->
  1000 <= RealApi.year t <= 9999 ->
  zoneHas (RealApi.wholeSecond t) = true ->
  let parse := RealApi.parseAsLocal zoneHas zoneAdjust platformParse in
  parse (RealApi.Str (RealApi.formatLocalISO (RealApi.DateOf t)))
  = Some (RealApi.DateOf (RealApi.wholeSecond t))
  /\ (forall v, parse v = None
                <-> v = RealApi.Undefined \/ v = RealApi.Str EmptyString)
  /\ (forall d, parse (RealApi.Obj d) = Some d)
  /\ (forall s, s <> EmptyString ->
        parse (RealApi.Str (s +:+ "Z"))
        = Some (RealApi.newDate zoneHas zoneAdjust platformParse s)).
Proof.
  intros Hok Hy Hz parse.
  destruct (parse_format t Hok Hy) as (Hp & He & Ht).
  repeat split.
  - unfold parse, RealApi.parseAsLocal, RealApi.newDate.
    by rewrite Ht, He, Hp, Hz.
  - destruct v as [|s|d]; simpl; [by left| |discriminate].
    destruct s; simpl; [by right|discriminate].
  - intros [->| ->]; reflexivity.
  - intros s Hs. unfold parse, RealApi.parseAsLocal.
    rewrite endsWithZ_snoc, dropLast_snoc.
    destruct s; [done|reflexivity].
Qed.

Lemma parseAsLocal_formatLocalISO_witness :
  let t := {| RealApi.year := 2024; RealApi.month := 5; RealApi.day := 1;
              RealApi.hours := 9; RealApi.minutes := 30;
              RealApi.seconds := 7; RealApi.millis := 120 |} in
  RealApi.fieldsOk t = true
  /\ 1000 <= RealApi.year t <= 9999
  /\ RealApi.parseAsLocal (fun _ => true) (fun x => x)
       (fun _ => RealApi.InvalidDate)
       (RealApi.Str (RealApi.formatLocalISO (RealApi.DateOf t)))
     = Some (RealApi.DateOf (RealApi.wholeSecond t)).
Proof.
  intros t.
  assert (Hok : RealApi.fieldsOk t = true) by reflexivity.
  assert (Hy : 1000 <= RealApi.year t <= 9999) by (simpl; lia).
  split; [exact Hok|]. split; [exact Hy|].
  exact (proj1 (parseAsLocal_formatLocalISO (fun _ => true) (fun x => x)
                  (fun _ => RealApi.InvalidDate) t Hok Hy eq_refl)).
Defined.

(** C10 as stated fails for a year of fewer than four digits: the year is
    printed without padding, the string is not a date-time string of the
    standard, and a strict engine answers with the Invalid Date. *)
Lemma short_year_is_not_read_back :
  let t := {| RealApi.year := 999; RealApi.month := 0; RealApi.day := 1;
              RealApi.hours := 0; RealApi.minutes := 0;
              RealApi.seconds := 0; RealApi.millis := 0 |} in
  RealApi.fieldsOk t = true
  /\ RealApi.formatLocalISO (RealApi.DateOf t) = "999-01-01T00:00:00"%string
  /\ RealApi.parseLocalDateTime (RealApi.formatLocalISO (RealApi.DateOf t)) = None
  /\ RealApi.parseAsLocal (fun _ => true) (fun x => x)
       (fun _ => RealApi.InvalidDate)
       (RealApi.Str (RealApi.formatLocalISO (RealApi.DateOf t)))
     = Some RealApi.InvalidDate
  /\ RealApi.parseAsLocal (fun _ => true) (fun x => x)
       (fun _ => RealApi.InvalidDate)
       (RealApi.Str (RealApi.formatLocalISO (RealApi.DateOf t)))
     <> Some (RealApi.DateOf t).
Proof.
  intros t. repeat split; try (vm_compute; reflexivity).
  vm_compute. discriminate.
Qed.

(** ** Booking *)

Section BookingFacts.

Import AppointmentsScreen.

Implicit Types (slot s : AvailabilitySlot) (l : list AvailabilitySlot).
Implicit Types (m : gmap string (list AvailabilitySlot)).

Lemma otherStart_self slot : otherStart slot slot = false.
Proof. unfold otherStart. by rewrite Z.eqb_refl. Qed.

Lemma not_in_keepOthers slot l : slot ∉ keepOthers slot l.
Proof.
  unfold keepOthers. rewrite list_elem_of_filter. intros [H _].
  by rewrite otherStart_self in H.
Qed.

Lemma keepOthers_id slot l :
  startTime slot ∉ startTime <$> l -> keepOthers slot l = l.
Proof.
  unfold keepOthers. induction l as [|s l IH]; intros H; [done|].
  rewrite fmap_cons, not_elem_of_cons in H. destruct H as [Hs Hl].
  rewrite filter_cons_True.
  - by rewrite IH.
  - unfold otherStart. apply negb_true_iff, Z.eqb_neq. congruence.
Qed.

(** The filter of lines 107-109 splits a list into the slots it keeps
    and the slots it drops. *)
Lemma keepOthers_sameStart_perm slot l :
  keepOthers slot l ++ sameStart slot l ≡ₚ l.
Proof.
  unfold keepOthers, sameStart. induction l as [|s l IH]; [done|].
  destruct (otherStart slot s) eqn:E.
  - rewrite filter_cons_True by done.
    rewrite filter_cons_False by (rewrite E; discriminate).
    simpl. by f_equiv.
  - rewrite filter_cons_False by (rewrite E; discriminate).
    rewrite filter_cons_True by done.
    rewrite <- Permutation_middle. by f_equiv.
Qed.

(** Removing and appending again gives the same slots in another order,
    provided the slot was the only one listed with its start time. *)
Lemma keepOthers_restore_perm slot l :
  sameStart slot l = [slot] -> keepOthers slot l ++ [slot] ≡ₚ l.
Proof. intros <-. apply keepOthers_sameStart_perm. Qed.

(** Removal followed by restoration, on the month map. *)
Lemma restore_remove_month date slot m :
  restoreToMonth date slot (removeFromMonth date slot m)
  = <[date := keepOthers slot (default [] (m !! date)) ++ [slot]]> m.
Proof.
  unfold restoreToMonth, removeFromMonth.
  destruct (m !! date) as [daySlots|] eqn:E; simpl.
  - case_bool_decide as Hlen.
    + rewrite lookup_insert_eq. simpl. by rewrite insert_insert_eq.
    + rewrite lookup_delete_eq. simpl.
      assert (keepOthers slot daySlots = []) as ->.
      { destruct (keepOthers slot daySlots); [done|simpl in Hlen; lia]. }
      by rewrite insert_delete_eq.
  - by rewrite E.
Qed.

Lemma removeFromMonth_lookup date slot m l :
  removeFromMonth date slot m !! date = Some l -> slot ∉ l.
Proof.
  unfold removeFromMonth.
  destruct (m !! date) as [daySlots|] eqn:E.
  - case_bool_decide.
    + rewrite lookup_insert_eq. intros [= <-]. apply not_in_keepOthers.
    + by rewrite lookup_delete_eq.
  - by rewrite E.
Qed.

End BookingFacts.

(** C1, amended (confirmBook, lines 99-179). With a doctor selected, the
    slot is first taken out of the day list and out of the month entry of
    the selected date. When the booking does not succeed (a non-success
    envelope or an exception) the slot is appended to the end of the day
    list and to the end of the month entry of the date that was selected
    at the press, both taken as they are when the request settles, that
    is after whatever was written while it was awaited; the entry is
    created if there is none, the other entries are left alone, [booking]
    is cleared and one error alert follows the request. When nothing was
    written meanwhile, the day list is the list of the press without the
    slots that start when the slot does, then the slot; and so is the
    month entry. It holds the slots of the press again, in a possibly
    different order, when the slot was the only one listed with its
    start time. *)
Theorem confirmBook_failure_restores
    (doctor : string) (slot : AppointmentsScreen.AvailabilitySlot)
    (during : list AppointmentsScreen.Meanwhile)
    (res : AppointmentsScreen.BookResult) (st : AppointmentsScreen.State) :
  AppointmentsScreen.doctorId st = Some doctor ->
  res <> AppointmentsScreen.Accepted ->
  let date := AppointmentsScreen.selectedDate st in
  let mid := AppointmentsScreen.bookOptimistic doctor slot st in
  let settled := foldl AppointmentsScreen.meanwhile mid during in
  let st' := AppointmentsScreen.confirmBook slot during res st in
  let before := default [] (AppointmentsScreen.monthSlots st !! date) in
  ((slot ∉ AppointmentsScreen.slots mid)
   /\ forall l, AppointmentsScreen.monthSlots mid !! date = Some l -> slot ∉ l)
  /\ AppointmentsScreen.slots st' = AppointmentsScreen.slots settled ++ [slot]
  /\ AppointmentsScreen.monthSlots st'
     = <[date := default [] (AppointmentsScreen.monthSlots settled !! date)
                 ++ [slot]]>
         (AppointmentsScreen.monthSlots settled)
  /\ slot ∈ AppointmentsScreen.slots st'
  /\ (exists l, AppointmentsScreen.monthSlots st' !! date = Some l /\ slot ∈ l)
  /\ (forall other, other <> date ->
        AppointmentsScreen.monthSlots st' !! other
        = AppointmentsScreen.monthSlots settled !! other)
  /\ AppointmentsScreen.booking st' = false
  /\ (exists message,
       AppointmentsScreen.effects st'
       = AppointmentsScreen.effects st
         ++ [AppointmentsScreen.BookRequest doctor (AppointmentsScreen.startTime slot);
             AppointmentsScreen.Alert "Error" message])
  /\ (during = [] ->
      AppointmentsScreen.slots st'
      = AppointmentsScreen.keepOthers slot (AppointmentsScreen.slots st) ++ [slot]
      /\ AppointmentsScreen.monthSlots st'
         = <[date := AppointmentsScreen.keepOthers slot before ++ [slot]]>
             (AppointmentsScreen.monthSlots st)
      /\ (AppointmentsScreen.sameStart slot (AppointmentsScreen.slots st) = [slot] ->
          AppointmentsScreen.slots st' ≡ₚ AppointmentsScreen.slots st)
      /\ (forall l, AppointmentsScreen.monthSlots st !! date = Some l ->
            AppointmentsScreen.sameStart slot l = [slot] ->
            exists l', AppointmentsScreen.monthSlots st' !! date = Some l'
                       /\ l' ≡ₚ l)).
Proof.
  intros Hdoc Hres date mid settled st' before.
  assert (Hfx : forall ws s,
             AppointmentsScreen.effects (foldl AppointmentsScreen.meanwhile s ws)
             = AppointmentsScreen.effects s).
  { induction ws as [|w ws IH]; intros s; [done|]. simpl. rewrite IH.
    by destruct w. }
  assert (Hs : AppointmentsScreen.slots st'
               = AppointmentsScreen.slots settled ++ [slot]).
  { unfold st', AppointmentsScreen.confirmBook. rewrite Hdoc.
    destruct res; [done|reflexivity|reflexivity]. }
  assert (Hm : AppointmentsScreen.monthSlots st'
               = <[date := default [] (AppointmentsScreen.monthSlots settled !! date)
                           ++ [slot]]>
                   (AppointmentsScreen.monthSlots settled)).
  { unfold st', AppointmentsScreen.confirmBook. rewrite Hdoc.
    destruct res; [done|reflexivity|reflexivity]. }
  split; [split|].
  - apply not_in_keepOthers.
  - intros l. apply removeFromMonth_lookup.
  - split; [exact Hs|]. split; [exact Hm|].
    split; [rewrite Hs; set_solver|].
    split.
    { eexists. rewrite Hm, lookup_insert_eq. split; [done|set_solver]. }
    split.
    { intros other Hne. rewrite Hm. by rewrite lookup_insert_ne. }
    split.
    { unfold st', AppointmentsScreen.confirmBook. rewrite Hdoc.
      by destruct res. }
    split.
    { unfold st', AppointmentsScreen.confirmBook. rewrite Hdoc.
      fold mid. fold settled.
      destruct res as [| |rm msg]; [done| |]; simpl;
        eexists; unfold settled; rewrite Hfx; simpl;
        by rewrite <- app_assoc. }
    intros ->. simpl in settled.
    assert (Hm' : AppointmentsScreen.monthSlots st'
                  = <[date := AppointmentsScreen.keepOthers slot before ++ [slot]]>
                      (AppointmentsScreen.monthSlots st)).
    { rewrite Hm. apply restore_remove_month. }
    split; [exact Hs|]. split; [exact Hm'|].
    split.
    { intros Hone. rewrite Hs. by apply keepOthers_restore_perm. }
    intros l Hl Hone. eexists. rewrite Hm', lookup_insert_eq.
    split; [done|]. unfold before. rewrite Hl. simpl.
    by apply keepOthers_restore_perm.
Qed.

Lemma confirmBook_failure_restores_witness :
  let a := {| AppointmentsScreen.startTime := 1717232400000;
              AppointmentsScreen.endTime := 1717234200000;
              AppointmentsScreen.available := true |} in
  let b := {| AppointmentsScreen.startTime := 1717234200000;
              AppointmentsScreen.endTime := 1717236000000;
              AppointmentsScreen.available := true |} in
  let st := {| AppointmentsScreen.doctorId := Some "D1"%string;
               AppointmentsScreen.selectedDate := "2024-06-01";
               AppointmentsScreen.slots := [a; b];
               AppointmentsScreen.monthSlots := {[ "2024-06-01"%string := [a; b] ]};
               AppointmentsScreen.booking := false;
               AppointmentsScreen.effects := [] |} in
  AppointmentsScreen.doctorId st = Some "D1"%string
  /\ AppointmentsScreen.Threw EmptyString "Network Error" <> AppointmentsScreen.Accepted
  /\ AppointmentsScreen.slots
       (AppointmentsScreen.confirmBook a []
          (AppointmentsScreen.Threw EmptyString "Network Error") st)
     = [b; a]
  /\ a ∈ AppointmentsScreen.slots
           (AppointmentsScreen.confirmBook a []
              (AppointmentsScreen.Threw EmptyString "Network Error") st).
Proof.
  intros a b st.
  assert (Hd : AppointmentsScreen.doctorId st = Some "D1"%string) by reflexivity.
  assert (Hr : AppointmentsScreen.Threw EmptyString "Network Error"
               <> AppointmentsScreen.Accepted) by discriminate.
  pose proof (confirmBook_failure_restores "D1" a []
                (AppointmentsScreen.Threw EmptyString "Network Error") st Hd Hr)
    as (_ & Hs & _ & Hin & _).
  split; [exact Hd|]. split; [exact Hr|]. split; [exact Hs|exact Hin].
Defined.

(** C1 as stated fails: after a rejected booking of the first of two
    slots the day list and the month entry hold the slots in another
    order, so the availability state is not the state before the booking;
    a date the month map did not list has an entry afterwards; and when
    the day list of the next day is loaded while the request is awaited,
    the slot is appended to that list. *)
Lemma confirmBook_failure_changes_state :
  let a := {| AppointmentsScreen.startTime := 1717232400000;
              AppointmentsScreen.endTime := 1717234200000;
              AppointmentsScreen.available := true |} in
  let b := {| AppointmentsScreen.startTime := 1717234200000;
              AppointmentsScreen.endTime := 1717236000000;
              AppointmentsScreen.available := true |} in
  let c := {| AppointmentsScreen.startTime := 1717318800000;
              AppointmentsScreen.endTime := 1717320600000;
              AppointmentsScreen.available := true |} in
  let st := {| AppointmentsScreen.doctorId := Some "D1"%string;
               AppointmentsScreen.selectedDate := "2024-06-01";
               AppointmentsScreen.slots := [a; b];
               AppointmentsScreen.monthSlots := {[ "2024-06-01"%string := [a; b] ]};
               AppointmentsScreen.booking := false;
               AppointmentsScreen.effects := [] |} in
  let st0 := {| AppointmentsScreen.doctorId := Some "D1"%string;
                AppointmentsScreen.selectedDate := "2024-06-01";
                AppointmentsScreen.slots := [a; b];
                AppointmentsScreen.monthSlots := ∅;
                AppointmentsScreen.booking := false;
                AppointmentsScreen.effects := [] |} in
  let st' := AppointmentsScreen.confirmBook a [] AppointmentsScreen.Rejected st in
  let st0' := AppointmentsScreen.confirmBook a [] AppointmentsScreen.Rejected st0 in
  let st1' :=
    AppointmentsScreen.confirmBook a
      [AppointmentsScreen.DateSelected "2024-06-02";
       AppointmentsScreen.SlotsLoaded [c]]
      AppointmentsScreen.Rejected st in
  AppointmentsScreen.slots st' = [b; a]
  /\ AppointmentsScreen.slots st' <> AppointmentsScreen.slots st
  /\ AppointmentsScreen.monthSlots st' !! "2024-06-01"%string = Some [b; a]
  /\ AppointmentsScreen.monthSlots st' <> AppointmentsScreen.monthSlots st
  /\ AppointmentsScreen.monthSlots st0 !! "2024-06-01"%string = None
  /\ AppointmentsScreen.monthSlots st0' !! "2024-06-01"%string = Some [a]
  /\ AppointmentsScreen.selectedDate st1' = "2024-06-02"%string
  /\ AppointmentsScreen.slots st1' = [c; a].
Proof.
  intros a b c st st0 st' st0' st1'.
  assert (Hm : AppointmentsScreen.monthSlots st' !! "2024-06-01"%string
               = Some [b; a]) by (vm_compute; reflexivity).
  repeat split; try (vm_compute; reflexivity).
  - vm_compute. discriminate.
  - intros E. rewrite E in Hm. vm_compute in Hm. discriminate Hm.
Qed.
(** ** Exam status *)

Section ExamFacts.

Import RealApi ExamDetailScreen.

(** The displayed status changes before the call is settled. *)
Lemma toggle_is_optimistic (st : State) (e : Exam) :
  exam st = Some e ->
  exam (toggleOptimistic st)
  = Some {| examId := examId e; examName := examName e;
            status := toggled (status e) |}.
Proof. intros H. unfold toggleOptimistic. by rewrite H. Qed.

(** Had the call thrown, the handler would have put the old status back
    and shown the alert. *)
Lemma toggle_thrown_reverts (st : State) (e : Exam) :
  exam st = Some e ->
  handleToggleStatus st Thrown
  = {| exam := Some e;
       alerts := alerts st
                 ++ [("Error", "Could not update the status. Please try again.")]%string |}.
Proof.
  intros H. unfold handleToggleStatus, toggleOptimistic. rewrite H. simpl.
  by destruct e.
Qed.

(** [updateExamStatus] reports every failure through the envelope. *)
Lemma updateExamStatus_failure (http : HttpOutcome) :
  (forall e, http <> HttpResolves true (Some e)) ->
  success (updateExamStatus http) = false.
Proof.
  intros H. destruct http as [|[] [e|]]; try reflexivity.
  by destruct (H e).
Qed.

(** With the API service behind it the handler never reaches its
    [catch]: whatever the request does, the toggled status stays and no
    alert is shown. *)
Lemma toggleWithApi_keeps_toggled (st : State) (e : Exam) (http : HttpOutcome) :
  exam st = Some e ->
  toggleWithApi st http
  = {| exam := Some {| examId := examId e; examName := examName e;
                       status := toggled (status e) |};
       alerts := alerts st |}.
Proof.
  intros H. unfold toggleWithApi, handleToggleStatus, toggleOptimistic.
  by rewrite H.
Qed.

End ExamFacts.

(** C7 (handleToggleStatus lines 48-65, ApiService.updateExamStatus lines
    500-547). A pending exam is toggled and the request is rejected: the
    status shown is completed at once, and it stays completed, with no
    alert, because the service has turned the failure into an envelope and
    the handler reverts only in its [catch]. *)
Theorem toggle_failure_is_not_reverted :
  let e := {| RealApi.examId := "e1"; RealApi.examName := "Blood count";
              RealApi.status := RealApi.Pending |} in
  let st := {| ExamDetailScreen.exam := Some e; ExamDetailScreen.alerts := [] |} in
  let st' := ExamDetailScreen.toggleWithApi st RealApi.HttpRejects in
  RealApi.success (RealApi.updateExamStatus RealApi.HttpRejects) = false
  /\ RealApi.status <$> ExamDetailScreen.exam (ExamDetailScreen.toggleOptimistic st)
     = Some RealApi.Completed
  /\ RealApi.status <$> ExamDetailScreen.exam st' = Some RealApi.Completed
  /\ RealApi.status <$> ExamDetailScreen.exam st' <> Some RealApi.Pending
  /\ ExamDetailScreen.alerts st' = [].
Proof. simpl. repeat split. discriminate. Qed.

Example ex_trim : trim "  hello there 
 " = "hello there"%string /\ trim "   " = EmptyString.
Proof. split; reflexivity. Qed.

Example ex_secondField :
  secondField "TASK_OK:1500" = Some "1500"%string
  /\ secondField "session_id:abc:def" = Some "abc"%string
  /\ secondField "TASK_DONE" = None.
Proof. repeat split; reflexivity. Qed.

Example ex_parseInt10 :
  parseInt10 "1500ms" = Some 1500 /\ parseInt10 " -12" = Some (-12)
  /\ parseInt10 "ms" = None.
Proof. repeat split; reflexivity. Qed.

(** ** The check-in session: push to talk *)

Section Base64Facts.

Import Buffer.

(** Four characters for every three bytes begun. *)
Lemma length_toBase64_aux (n : nat) : forall b : list Z,
  (length b < n)%nat ->
  Z.of_nat (String.length (toBase64 b)) = 4 * ((Z.of_nat (length b) + 2) / 3).
Proof.
  induction n as [|n IH]; intros b Hn; [lia|].
  destruct b as [|x [|y [|z rest]]]; try reflexivity.
  change (toBase64 (x :: y :: z :: rest))
    with (String (b64char (Z.shiftr x 2))
           (String (b64char (Z.lor (Z.shiftl (Z.land x 3) 4) (Z.shiftr y 4)))
             (String (b64char (Z.lor (Z.shiftl (Z.land y 15) 2) (Z.shiftr z 6)))
               (String (b64char (Z.land z 63)) (toBase64 rest))))).
  cbn [String.length length]. cbn [length] in Hn.
  rewrite !Nat2Z.inj_succ. rewrite IH by lia.
  replace (Z.succ (Z.succ (Z.succ (Z.of_nat (length rest)))) + 2)
    with ((Z.of_nat (length rest) + 2) + 1 * 3) by lia.
  rewrite Z.div_add by lia. lia.
Qed.

Lemma length_toBase64 (b : list Z) :
  Z.of_nat (String.length (toBase64 b)) = 4 * ((Z.of_nat (length b) + 2) / 3).
Proof. apply (length_toBase64_aux (S (length b))). lia. Qed.

(** The threshold in bytes: more than 1500 characters is more than 1125
    bytes. *)
Lemma base64_over_threshold (b : list Z) :
  1500 < Z.of_nat (String.length (toBase64 b)) <-> (1125 < length b)%nat.
Proof.
  rewrite length_toBase64.
  pose proof (Z.div_mod (Z.of_nat (length b) + 2) 3 ltac:(lia)) as Hd.
  pose proof (Z.mod_pos_bound (Z.of_nat (length b) + 2) 3 ltac:(lia)) as Hm.
  lia.
Qed.

End Base64Facts.

Section PushToTalk.

Import AICheckInScreen.

Lemma effects_emit (e : Effect) (s : Session) :
  effects (emit e s) = effects s ++ [e].
Proof. reflexivity. Qed.

(** What [emitTurn] adds to the effects: one chunk when the socket exists
    and the text is longer than the threshold, nothing otherwise. *)
Lemma emitTurn_effects (base64 : string) (s : Session) :
  effects (emitTurn base64 s)
  = effects s
    ++ (if socketRef s && (1500 <? Z.of_nat (String.length base64))
        then [EmitAudioChunk base64 "audio/wav" true] else []).
Proof.
  unfold emitTurn, socketEmit, minTurnLength.
  destruct base64 as [|c b].
  - simpl. rewrite andb_false_r. by rewrite app_nil_r.
  - cbn [truthy andb].
    destruct (1500 <? _); [|by rewrite andb_false_r, app_nil_r].
    destruct (socketRef s); [reflexivity|by rewrite app_nil_r].
Qed.

Lemma audioChunks_app (s s' : Session) (added : list Effect) :
  effects s' = effects s ++ added ->
  audioChunks s' = audioChunks s ++ List.filter isAudioChunk added.
Proof. unfold audioChunks. intros ->. apply List.filter_app. Qed.

(** The effects of [pressOut], case by case. *)
Lemma pressOut_effects (capture : Capture) (s : Session) :
  effects (pressOut capture s)
  = effects s
    ++ (if recording s then
          match capture with
          | StopThrows => []
          | FetchThrows => [RecorderStop]
          | NoUri => [RecorderStop]
          | Captured bytes =>
              RecorderStop
              :: (if socketRef s
                     && (1500 <? Z.of_nat (String.length (Buffer.toBase64 bytes)))
                  then [EmitAudioChunk (Buffer.toBase64 bytes) "audio/wav" true]
                  else [])
          end
        else []).
Proof.
  unfold pressOut. destruct (recording s) eqn:Hr; simpl; [|by rewrite app_nil_r].
  destruct capture as [| | |bytes]; cbn [set_recording effects].
  - by rewrite app_nil_r.
  - rewrite emitTurn_effects. simpl. rewrite andb_false_r.
    by rewrite app_nil_r.
  - reflexivity.
  - rewrite emitTurn_effects. simpl. by rewrite <- app_assoc.
Qed.


(** The handler's own guard: no recording while the assistant speaks or
    an avatar task is awaited. *)
Lemma pressIn_barge_in (prepared : bool) (s : Session) :
  isAssistantSpeakingRef s || awaitingAvatarTaskRef s = true ->
  pressIn prepared s = set_canSpeak false s.
Proof. intros H. unfold pressIn. by rewrite H. Qed.

(** When a press begins a recording. *)
Lemma pressIn_starts (prepared : bool) (s : Session) :
  recording s = false ->
  (recording (handle (MicPressIn prepared) s) = true
   <-> micPressable s = true
       /\ isAssistantSpeakingRef s || awaitingAvatarTaskRef s = false
       /\ prepared = true).
Proof.
  intros Hr. unfold handle, pressIn, micPressable, micRendered, micDisabled.
  destruct (step s =? 2)%nat eqn:E1, (interviewStarted s) eqn:E2,
    (overlayShown s) eqn:E3, (isDone s), (isConnecting s), (canSpeak s),
    (isAssistantSpeakingRef s), (awaitingAvatarTaskRef s), prepared;
    simpl; rewrite ?E2, ?Hr; simpl; rewrite ?Hr; intuition congruence.
Qed.

End PushToTalk.

(** C2 (pressOut, lines 380-401). On release the recording is encoded, and
    the only audio chunk [pressOut] ever sends is the encoding of the
    capture when that is longer than 1500 characters; a capture whose
    encoding has 1500 characters or fewer (the empty one among them), a
    missing file, or a failure of the recorder sends none. *)
Theorem pressOut_sends_only_above_threshold
    (capture : AICheckInScreen.Capture) (s : AICheckInScreen.Session) :
  let s' := AICheckInScreen.pressOut capture s in
  let len64 b := Z.of_nat (String.length (Buffer.toBase64 b)) in
  (forall bytes,
      capture = AICheckInScreen.Captured bytes ->
      AICheckInScreen.recording s = true ->
      AICheckInScreen.socketRef s = true ->
      1500 < len64 bytes ->
      AICheckInScreen.audioChunks s'
      = AICheckInScreen.audioChunks s
        ++ [AICheckInScreen.EmitAudioChunk (Buffer.toBase64 bytes) "audio/wav" true])
  /\ (forall bytes,
        capture = AICheckInScreen.Captured bytes ->
        len64 bytes <= 1500 ->
        AICheckInScreen.audioChunks s' = AICheckInScreen.audioChunks s)
  /\ ((forall bytes, capture <> AICheckInScreen.Captured bytes) ->
      AICheckInScreen.audioChunks s' = AICheckInScreen.audioChunks s)
  /\ (capture = AICheckInScreen.Captured [] ->
      AICheckInScreen.audioChunks s' = AICheckInScreen.audioChunks s)
  /\ (forall base64 mime fin,
        In (AICheckInScreen.EmitAudioChunk base64 mime fin)
           (AICheckInScreen.audioChunks s') ->
        In (AICheckInScreen.EmitAudioChunk base64 mime fin)
           (AICheckInScreen.audioChunks s)
        \/ 1500 < Z.of_nat (String.length base64)).
Proof.
  intros s' len64.
  pose proof (audioChunks_app s s' _ (pressOut_effects capture s)) as H.
  assert (Hsmall : forall bytes, capture = AICheckInScreen.Captured bytes ->
                     len64 bytes <= 1500 ->
                     AICheckInScreen.audioChunks s' = AICheckInScreen.audioChunks s).
  { intros bytes -> Hlen. rewrite H.
    destruct (AICheckInScreen.recording s); simpl; [|by rewrite app_nil_r].
    replace (1500 <? _) with false by (symmetry; apply Z.ltb_ge; exact Hlen).
    rewrite andb_false_r. simpl. by rewrite app_nil_r. }
  split; [|split; [exact Hsmall|split; [|split]]].
  - intros bytes -> Hr Hs Hlen. rewrite H, Hr, Hs. simpl.
    apply Z.ltb_lt in Hlen. unfold len64 in Hlen. by rewrite Hlen.
  - intros Hne. rewrite H.
    destruct (AICheckInScreen.recording s); simpl; [|by rewrite app_nil_r].
    destruct capture as [| | |bytes]; simpl; try by rewrite app_nil_r.
    by destruct (Hne bytes).
  - intros ->. apply (Hsmall []); [done|]. unfold len64. simpl. lia.
  - intros base64 mime fin Hin. rewrite H in Hin.
    apply in_app_or in Hin as [Hin|Hin]; [by left|right].
    destruct (AICheckInScreen.recording s); [|by destruct Hin].
    destruct capture as [| | |bytes]; simpl in Hin; try by destruct Hin.
    destruct (AICheckInScreen.socketRef s); simpl in Hin; [|by destruct Hin].
    destruct (1500 <? _) eqn:E; simpl in Hin; [|by destruct Hin].
    destruct Hin as [[= <- _ _]|[]]. by apply Z.ltb_lt.
Qed.



(** ** The check-in session: the duplicate guard *)

Section DuplicateGuard.

Import AICheckInScreen.



(** An empty text (after trimming) is never spoken and leaves no trace. *)
Lemma speak_empty (p : SpeakPath) (text : string) (now : Z)
    (webSdk : bool) (s : Session) :
  trim text = EmptyString -> speak p text now webSdk s = (false, s).
Proof.
  intros H. destruct p; simpl; unfold speakViaPlayer, speakToAvatar;
    by rewrite H.
Qed.



End DuplicateGuard.



(** ** The check-in session: waiting for the avatar *)

Section AvatarWait.

Import AICheckInScreen.

(** The loop ends within the fuel that the remaining time asks for, one
    sleep of at least 120 ms at a time; it has lasted as long as its
    sleeps, and its last sleep began before the time was up. *)
Lemma awaitAvatar_ends (env : nat -> list External * nat) (start : Z) :
  forall (fuel k : nat) (now : Z) (s : Session),
    timeoutMs - (now - start) <= pollMs * Z.of_nat fuel ->
    exists k' t s',
      awaitAvatar fuel k env start now s = Some (k', t, s')
      /\ stillWaiting start t s' = false
      /\ (k <= k')%nat
      /\ pollMs * (Z.of_nat k' - Z.of_nat k)
         <= Z.max 0 (timeoutMs - (now - start) + 119)
      /\ t = now + pollMs * (Z.of_nat k' - Z.of_nat k)
             + (lateSum env k' - lateSum env k)
      /\ ((k < k')%nat ->
          t - pollMs - Z.of_nat (env (Nat.pred k')).2 - start < timeoutMs).
Proof.
  unfold timeoutMs, pollMs.
  induction fuel as [|fuel IH]; intros k now s Hfuel.
  - assert (Hw : stillWaiting start now s = false).
    { unfold stillWaiting, timeoutMs.
      replace (now - start <? 45000) with false
        by (symmetry; apply Z.ltb_ge; lia).
      apply andb_false_r. }
    exists k, now, s. simpl. rewrite Hw. repeat split; try lia.
  - simpl. destruct (stillWaiting start now s) eqn:Hw.
    + assert (Hlt : now - start < 45000).
      { unfold stillWaiting, timeoutMs in Hw.
        apply andb_true_iff in Hw as [_ Hw]. by apply Z.ltb_lt. }
      destruct (IH (S k) (now + 120 + Z.of_nat (env k).2)
                   (handleAll (env k).1 s))
        as (k' & t & s' & E & Hs & Hk & Hb & Ht & Hlast);
        [unfold pollMs; lia|].
      exists k', t, s'. unfold pollMs in *.
      split; [exact E|]. split; [exact Hs|]. split; [lia|]. split; [lia|].
      split.
      * rewrite Ht. cbn [lateSum]. lia.
      * intros _. destruct (decide (k' = S k)) as [->|Hne].
        -- rewrite Ht. cbn [Nat.pred lateSum]. lia.
        -- apply Hlast. lia.
    + exists k, now, s. repeat split; try lia. exact Hw.
Qed.

Lemma lateSum_punctual (env : nat -> list External * nat) (k : nat) :
  (forall i, (env i).2 = 0%nat) -> lateSum env k = 0.
Proof.
  intros H. induction k as [|k IH]; [done|].
  cbn [lateSum]. rewrite IH, H. lia.
Qed.

(** What the flow leaves behind once the loop is over. *)
Lemma flowFinish_starts (s : Session) :
  let s' := flowFinish false s in
  interviewStarted s' = true /\ preparing s' = false /\ flow s' = FlowDone
  /\ (socketRef s' = true -> In EmitStart (effects s'))
  /\ (avatarReadyRef s' && hasSessionId s' = false ->
      heygenEnabledRef s' = false /\ heygenToken s' = None).
Proof.
  destruct s. unfold flowFinish, hasSessionId.
  destruct avatarReadyRef0, avatarSessionIdRef0 as [[|c sid]|], socketRef0;
    cbn -[In]; repeat split; try done;
    intros _; apply in_or_app; right; by left.
Qed.

Lemma flowToken_missing (now : Z) (s : Session) :
  let s' := flowToken TokenMissing now false s in
  flow s' = FlowDone /\ interviewStarted s' = true /\ preparing s' = false
  /\ (socketRef s' = true -> In EmitStart (effects s'))
  /\ heygenEnabledRef s' = false /\ heygenToken s' = None.
Proof.
  destruct s. destruct socketRef0; cbn -[In]; repeat split; try done.
  intros _. apply in_or_app. right. by left.
Qed.

Lemma flowToken_throws (now : Z) (s : Session) :
  let s' := flowToken TokenThrows now false s in
  flow s' = FlowDone /\ interviewStarted s' = true /\ preparing s' = false
  /\ (socketRef s' = true -> In EmitStart (effects s'))
  /\ heygenEnabledRef s' = false /\ heygenToken s' = None.
Proof.
  destruct s. destruct socketRef0; cbn -[In]; repeat split; try done.
  intros _. apply in_or_app. right. by left.
Qed.

Lemma flowToken_ok (tok : string) (now : Z) (s : Session) :
  let s' := flowToken (TokenOk tok) now false s in
  (truthy tok = true /\ flow s' = FlowPolling now)
  \/ (flow s' = FlowDone /\ interviewStarted s' = true /\ preparing s' = false
      /\ (socketRef s' = true -> In EmitStart (effects s'))
      /\ heygenEnabledRef s' = false /\ heygenToken s' = None).
Proof.
  unfold flowToken. destruct (truthy tok) eqn:Ht.
  - left. split; [done|]. by destruct s.
  - right. destruct s. destruct socketRef0; cbn -[In]; repeat split; try done.
    intros _. apply in_or_app. right. by left.
Qed.

(** When the token request settles the flow is in the wait loop or over. *)
Lemma flowToken_settles (r : TokenResult) (now : Z) (s : Session) :
  let s' := flowToken r now false s in
  (exists tok, r = TokenOk tok /\ truthy tok = true
               /\ flow s' = FlowPolling now)
  \/ (flow s' = FlowDone /\ interviewStarted s' = true /\ preparing s' = false
      /\ (socketRef s' = true -> In EmitStart (effects s'))
      /\ heygenEnabledRef s' = false /\ heygenToken s' = None).
Proof.
  destruct r as [tok| |].
  - destruct (flowToken_ok tok now s) as [[Ht Hf]|H]; [left|by right].
    by exists tok.
  - right. apply flowToken_missing.
  - right. apply flowToken_throws.
Qed.

End AvatarWait.

(** C8, amended (startInterviewFlow, lines 464-513). With a clock that
    advances by at least the 120 ms of each sleep, the wait for the avatar
    makes at most 375 sleeps, whatever happens meanwhile, and then ends.
    It lasts as long as its sleeps: 120 ms for each and what each was
    late by; so it runs past the 45000 ms by less than the length of its
    last sleep, and ends within 45000 ms when every timer is punctual.
    The flow then returns, and in every case the interview has been
    started. When the avatar is not ready, or has no session id, at that
    point, the avatar is off ([heygenEnabledRef] false, token cleared). *)
Theorem startInterviewFlow_never_blocks
    (r : AICheckInScreen.TokenResult)
    (during : list AICheckInScreen.External)
    (env : nat -> list AICheckInScreen.External * nat)
    (now : Z) (s : AICheckInScreen.Session) :
  AICheckInScreen.startEnabled s = true ->
  (forall start s0,
      exists k t s',
        AICheckInScreen.awaitAvatar 376 0 env start start s0 = Some (k, t, s')
        /\ (k <= 375)%nat
        /\ AICheckInScreen.stillWaiting start t s' = false
        /\ t = start + 120 * Z.of_nat k + AICheckInScreen.lateSum env k
        /\ (k <> 0%nat ->
            t - start < 45000 + 120 + Z.of_nat (env (Nat.pred k)).2)
        /\ ((forall i, (env i).2 = 0%nat) -> t - start <= 45000))
  /\ exists s',
      AICheckInScreen.startInterviewFlow 376 r during env now s = Some s'
      /\ AICheckInScreen.interviewStarted s' = true
      /\ AICheckInScreen.preparing s' = false
      /\ AICheckInScreen.flow s' = AICheckInScreen.FlowDone
      /\ (AICheckInScreen.socketRef s' = true ->
          In AICheckInScreen.EmitStart (AICheckInScreen.effects s'))
      /\ (AICheckInScreen.avatarReadyRef s' && AICheckInScreen.hasSessionId s'
          = false ->
          AICheckInScreen.heygenEnabledRef s' = false
          /\ AICheckInScreen.heygenToken s' = None).
Proof.
  intros Hen.
  assert (Hst : AICheckInScreen.interviewStarted s = false).
  { unfold AICheckInScreen.startEnabled in Hen.
    destruct (AICheckInScreen.interviewStarted s); [|done].
    simpl in Hen. by rewrite andb_false_r in Hen. }
  assert (Hwait : forall start s0,
      exists k t s',
        AICheckInScreen.awaitAvatar 376 0 env start start s0 = Some (k, t, s')
        /\ (k <= 375)%nat
        /\ AICheckInScreen.stillWaiting start t s' = false
        /\ t = start + 120 * Z.of_nat k + AICheckInScreen.lateSum env k
        /\ (k <> 0%nat ->
            t - start < 45000 + 120 + Z.of_nat (env (Nat.pred k)).2)
        /\ ((forall i, (env i).2 = 0%nat) -> t - start <= 45000)).
  { intros start s0.
    destruct (awaitAvatar_ends env start 376 0 start s0)
      as (k & t & s' & E & Hs & _ & Hb & Ht & Hlast).
    { unfold AICheckInScreen.timeoutMs, AICheckInScreen.pollMs. lia. }
    unfold AICheckInScreen.timeoutMs, AICheckInScreen.pollMs in *.
    cbn [AICheckInScreen.lateSum] in Ht.
    exists k, t, s'. split; [exact E|]. split; [lia|]. split; [exact Hs|].
    split; [lia|]. split.
    - intros Hk. assert (0 < k)%nat as Hpos by lia. specialize (Hlast Hpos). lia.
    - intros Hpunct. rewrite (lateSum_punctual env k Hpunct) in Ht. lia. }
  split; [exact Hwait|].
  unfold AICheckInScreen.startInterviewFlow. rewrite Hst.
  set (s1 := AICheckInScreen.handleAll during (AICheckInScreen.flowBegin s)).
  destruct (flowToken_settles r now s1) as [(tok & -> & Ht & Hf)|Hdone].
  - rewrite Hf.
    destruct (Hwait now (AICheckInScreen.flowToken (AICheckInScreen.TokenOk tok)
                           now false s1)) as (k & t & s' & E & _).
    rewrite E. eexists. split; [reflexivity|].
    destruct (flowFinish_starts s') as (H1 & H2 & H3 & H4 & H5).
    split; [exact H1|]. split; [exact H2|]. split; [exact H3|].
    split; [exact H4|exact H5].
  - destruct Hdone as (Hf & H1 & H2 & H3 & H4 & H5).
    rewrite Hf. eexists. split; [reflexivity|]. repeat split; try done.
Qed.

Lemma startInterviewFlow_never_blocks_witness :
  let s := AICheckInScreen.run
             [AICheckInScreen.Ext (AICheckInScreen.MountEffect true);
              AICheckInScreen.Ext AICheckInScreen.SocketConnect;
              AICheckInScreen.PressContinue]
             AICheckInScreen.initialSession in
  AICheckInScreen.startEnabled s = true
  /\ exists s',
      AICheckInScreen.startInterviewFlow 376 (AICheckInScreen.TokenOk "tok") []
        (fun _ => ([], 0%nat)) 1000 s = Some s'
      /\ AICheckInScreen.interviewStarted s' = true.
Proof.
  intros s.
  assert (Hen : AICheckInScreen.startEnabled s = true) by reflexivity.
  split; [exact Hen|].
  destruct (proj2 (startInterviewFlow_never_blocks
                     (AICheckInScreen.TokenOk "tok") []
                     (fun _ => ([], 0%nat)) 1000 s Hen))
    as (s' & E & Hs & _).
  exists s'. split; [exact E|exact Hs].
Defined.

(** C8 as stated fails: the wait is not over within the 45000 ms when a
    timer is late. With every sleep 1 ms late the loop, begun at 1000,
    makes its last test at 46012, 45012 ms after it began; and when the
    sleep that begins at 44880 ms is four seconds late, the wait lasts
    49000 ms. In both runs the avatar is never ready and the flow starts
    the interview without it. *)
Lemma late_timer_outlasts_timeout :
  let s := AICheckInScreen.run
             [AICheckInScreen.Ext (AICheckInScreen.MountEffect true);
              AICheckInScreen.Ext AICheckInScreen.SocketConnect;
              AICheckInScreen.PressContinue]
             AICheckInScreen.initialSession in
  let late := fun _ : nat => ([] : list AICheckInScreen.External, 1%nat) in
  let stalled :=
    fun i : nat =>
      ([] : list AICheckInScreen.External,
       if (i =? 374)%nat then 4000%nat else 0%nat) in
  (exists s',
      AICheckInScreen.awaitAvatar 376 0 late 1000 1000 s
      = Some (372%nat, 46012, s')
      /\ 45000 < 46012 - 1000)
  /\ (exists s',
        AICheckInScreen.awaitAvatar 376 0 stalled 1000 1000 s
        = Some (375%nat, 50000, s')
        /\ 45000 < 50000 - 1000)
  /\ (exists s',
        AICheckInScreen.startInterviewFlow 376 (AICheckInScreen.TokenOk "tok") []
          late 1000 s = Some s'
        /\ AICheckInScreen.interviewStarted s' = true
        /\ AICheckInScreen.heygenEnabledRef s' = false)
  /\ exists s',
       AICheckInScreen.startInterviewFlow 376 (AICheckInScreen.TokenOk "tok") []
         stalled 1000 s = Some s'
       /\ AICheckInScreen.interviewStarted s' = true
       /\ AICheckInScreen.heygenEnabledRef s' = false.
Proof.
  intros s late stalled. split; [|split; [|split]].
  - eexists. split; [vm_compute; reflexivity|lia].
  - eexists. split; [vm_compute; reflexivity|lia].
  - eexists. split; [vm_compute; reflexivity|]. split; reflexivity.
  - eexists. split; [vm_compute; reflexivity|]. split; reflexivity.
Qed.

Example ex_avatar_timeout :
  let s := AICheckInScreen.run
             [AICheckInScreen.Ext (AICheckInScreen.MountEffect true);
              AICheckInScreen.Ext AICheckInScreen.SocketConnect;
              AICheckInScreen.PressContinue]
             AICheckInScreen.initialSession in
  match AICheckInScreen.startInterviewFlow 376 (AICheckInScreen.TokenOk "tok") []
          (fun _ => ([], 0%nat)) 1000 s with
  | Some s' =>
      AICheckInScreen.heygenEnabledRef s' = false
      /\ AICheckInScreen.heygenToken s' = None
      /\ AICheckInScreen.interviewStarted s' = true
      /\ AICheckInScreen.effects s' = [AICheckInScreen.EmitStart]
  | None => False
  end.
Proof. vm_compute. repeat split. Qed.

Example ex_avatar_wait_length :
  exists s',
    AICheckInScreen.awaitAvatar 376 0 (fun _ => ([], 0%nat)) 1000 1000
      AICheckInScreen.initialSession
    = Some (375%nat, 46000, s').
Proof. eexists. vm_compute. reflexivity. Qed.

(** ** The check-in session: detaching the avatar *)

Section Detach.

Import AICheckInScreen.

(** *** The core cells under each handler *)

Lemma core_detachFromHeygen (s : Session) :
  core (detachFromHeygen s) = avatarOff (core s).
Proof. reflexivity. Qed.

Lemma core_emit (e : Effect) (s : Session) : core (emit e s) = core s.
Proof. reflexivity. Qed.

Lemma core_socketEmit (e : Effect) (s : Session) : core (socketEmit e s) = core s.
Proof. unfold socketEmit. by case_match. Qed.

Lemma core_speakViaPlayer (text : string) (now : Z) (webSdk : bool) (s : Session) :
  core (speakViaPlayer text now webSdk s).2 = core s.
Proof. unfold speakViaPlayer. cbv zeta. by repeat case_match. Qed.

Lemma core_speak_all (now : Z) (webSdk : bool) (items : list string) :
  forall s, core (foldl (fun s t => (speakViaPlayer t now webSdk s).2) s items)
            = core s.
Proof.
  induction items as [|t items IH]; intros s; [done|].
  cbn [foldl]. by rewrite IH, core_speakViaPlayer.
Qed.

Lemma core_flushPendingSpeaks (now : Z) (webSdk : bool) (s : Session) :
  core (flushPendingSpeaks now webSdk s) = core s.
Proof.
  unfold flushPendingSpeaks. destruct (avatarReadyRef s); [|done].
  destruct (pendingSpeakQueueRef s) as [|t items]; [done|].
  cbn [negb]. by rewrite core_speak_all.
Qed.

Lemma core_flushTTSBuffer (s : Session) : core (flushTTSBuffer s) = core s.
Proof. unfold flushTTSBuffer. cbv zeta. by repeat case_match. Qed.

Lemma core_startTypewriter (text : string) (d now : Z) (s : Session) :
  core (startTypewriter text d now s) = core s.
Proof. unfold startTypewriter. cbv zeta. by repeat case_match. Qed.

Lemma core_pressIn (prepared : bool) (s : Session) :
  core (pressIn prepared s) = core s.
Proof. unfold pressIn. cbv zeta. by repeat case_match. Qed.

Lemma core_emitTurn (base64 : string) (s : Session) :
  core (emitTurn base64 s) = core s.
Proof. unfold emitTurn. case_match; [apply core_socketEmit|done]. Qed.

Lemma core_pressOut (capture : Capture) (s : Session) :
  core (pressOut capture s) = core s.
Proof.
  unfold pressOut. cbv zeta. destruct (recording s); [|done]. cbn [negb].
  destruct capture; strip_core; rewrite ?core_emitTurn; done.
Qed.

Lemma core_noteSessionId (m : string) (s : Session) :
  core (noteSessionId m s) = core s.
Proof. unfold noteSessionId. by case_match. Qed.

Lemma core_noteReady (m : string) (now : Z) (webSdk : bool) (s : Session) :
  core (noteReady m now webSdk s) = core s.
Proof.
  unfold noteReady. case_match; [|done].
  by rewrite core_flushPendingSpeaks.
Qed.

Lemma core_taskLifecycle (m : string) (now : Z) (s : Session) :
  core (taskLifecycle m now s)
  = if isDetachMessage m then avatarOff (core s) else core s.
Proof.
  unfold taskLifecycle, isDetachMessage.
  destruct (isTaskOk m); [by rewrite core_startTypewriter|].
  destruct (isTaskDone m); [by case_match|].
  destruct (isTaskError m); [done|].
  by destruct (isConnectionError m).
Qed.

Lemma core_flushOnSessionId (m : string) (now : Z) (webSdk : bool) (s : Session) :
  core (flushOnSessionId m now webSdk s) = core s.
Proof.
  unfold flushOnSessionId. case_match; [|done]. apply core_flushPendingSpeaks.
Qed.

(** The core after a message of the player: untouched, or with the avatar
    off. *)
Lemma core_onMessage (m : string) (now : Z) (webSdk : bool) (s : Session) :
  core (onMessage m now webSdk s)
  = if isDetachMessage m then avatarOff (core s) else core s.
Proof.
  unfold onMessage.
  rewrite core_flushOnSessionId, core_taskLifecycle, core_noteReady,
    core_noteSessionId.
  reflexivity.
Qed.

Lemma core_routeTranscript (text : string) (now : Z) (webSdk : bool) (s : Session) :
  core (routeTranscript text now webSdk s) = core s.
Proof.
  unfold routeTranscript. repeat case_match; try done.
  by rewrite core_speakViaPlayer.
Qed.

Lemma core_onSocket (h : Session -> Session) (s : Session) :
  (forall s, core (h s) = core s) -> core (onSocket h s) = core s.
Proof. intros H. unfold onSocket. by case_match. Qed.

(** An external event leaves the core alone, unless it is a message of the
    player that detaches. *)
Lemma core_handle (e : External) (s : Session) :
  core (handle e s) = core s \/ core (handle e s) = avatarOff (core s).
Proof.
  destruct e; cbv beta iota delta [handle];
    try (left; apply core_onSocket; intros s0).
  - unfold mountEffect. left. by repeat case_match.
  - done.
  - done.
  - done.
  - unfold onAssistantTextDelta. by case_match.
  - unfold onFinalTranscript. by rewrite core_routeTranscript.
  - unfold onTurnReady. by case_match.
  - unfold onAiAudioChunk. by repeat case_match.
  - unfold onAiAudioDone. case_match; [done|].
    strip_core. by rewrite core_flushTTSBuffer.
  - unfold onTts. cbv zeta. by repeat case_match.
  - done.
  - done.
  - done.
  - left. unfold onTtsFlushTimer. case_match; [|done]. apply core_flushTTSBuffer.
  - left. unfold playWritten. by case_match.
  - left. unfold speakingTimeout. by case_match.
  - left. unfold typewriterTick. cbv zeta. by repeat case_match.
  - destruct (webViewMounted s); [|by left].
    rewrite core_onMessage. destruct (isDetachMessage m); [by right|by left].
  - left. case_match; [apply core_pressIn|done].
  - left. case_match; [apply core_pressOut|done].
Qed.

(** *** The invariant of the flow *)

Lemma core_components (s : Session)
    (c : FlowPhase * bool * bool * option string * bool) :
  core s = c ->
  flow s = c.1.1.1.1 /\ preparing s = c.1.1.1.2 /\ interviewStarted s = c.1.1.2
  /\ heygenToken s = c.1.2 /\ heygenEnabledRef s = c.2.
Proof. by intros <-. Qed.

Lemma flowInvariant_core (s s' : Session) :
  core s' = core s \/ core s' = avatarOff (core s) ->
  flowInvariant s -> flowInvariant s'.
Proof.
  unfold core, avatarOff, flowInvariant.
  intros [[= Hf Hp Hi Ht He]|[= Hf Hp Hi Ht He]]; rewrite Hf, ?Hp, ?Hi, ?Ht;
    [done|].
  destruct (flow s); intuition.
Qed.

Lemma startEnabled_idle (s : Session) :
  startEnabled s = true ->
  interviewStarted s = false /\ preparing s = false.
Proof.
  unfold startEnabled, overlayShown.
  destruct (step s =? 2)%nat, (interviewStarted s), (preparing s),
    (isDone s), (isConnecting s), (creatingSession s); cbn; intuition.
Qed.

Lemma core_flowBegin (s : Session) :
  core (flowBegin s)
  = (FlowAwaitToken, true, interviewStarted s, heygenToken s, heygenEnabledRef s).
Proof. unfold flowBegin. cbv zeta. by case_match. Qed.

Lemma core_startRecording (s : Session) :
  core (startRecording false s)
  = (flow s, preparing s, true, heygenToken s, heygenEnabledRef s).
Proof. unfold startRecording, socketEmit. cbn [negb]. by case_match. Qed.

(** The core after the token request has settled. *)
Lemma core_flowToken (r : TokenResult) (now : Z) (s : Session) :
  core (flowToken r now false s)
  = match r with
    | TokenOk tok =>
        if truthy tok
        then (FlowPolling now, preparing s, interviewStarted s, Some tok, true)
        else (FlowDone, false, true, None, false)
    | _ => (FlowDone, false, true, None, false)
    end.
Proof.
  unfold flowToken, startRecording, socketEmit. cbn [negb].
  destruct r as [tok| |]; repeat case_match; reflexivity.
Qed.

(** The core after the wait. *)
Lemma core_flowFinish (s : Session) :
  core (flowFinish false s)
  = if negb (avatarReadyRef s) || negb (hasSessionId s)
    then (FlowDone, false, true, None, false)
    else (FlowDone, false, true, heygenToken s, heygenEnabledRef s).
Proof.
  unfold flowFinish, startRecording, socketEmit. cbn [negb].
  repeat case_match; reflexivity.
Qed.

(** Every event preserves the invariant of the flow. *)
Lemma flowInvariant_react (ev : Event) (s : Session) :
  flowInvariant s -> flowInvariant (react ev s).
Proof.
  intros Hinv. destruct ev as [e| | |r now|now]; cbv beta iota delta [react].
  - eapply flowInvariant_core; [apply core_handle|done].
  - case_match; [|done]. exact Hinv.
  - destruct (startEnabled s) eqn:Hen; [|done].
    apply startEnabled_idle in Hen as (Hs & Hp).
    destruct (core_components _ _ (core_flowBegin s)) as (Hf & Hp' & Hi & Ht & He).
    cbn [fst snd] in *.
    unfold flowInvariant in *. rewrite Hf, Hp', Ht.
    destruct (flow s); intuition congruence.
  - destruct (flow s) eqn:Hfl; try done.
    destruct (core_components _ _ (core_flowToken r now s))
      as (Hf & Hp' & Hi & Ht' & He).
    unfold flowInvariant in *. rewrite Hfl in Hinv. destruct Hinv as [Ht Hp].
    destruct r as [tok| |]; [destruct (truthy tok)|..];
      cbn [fst snd] in *; rewrite Hf; congruence.
  - destruct (flow s) eqn:Hfl; try done.
    destruct (stillWaiting start now s); [done|].
    destruct (core_components _ _ (core_flowFinish s))
      as (Hf & Hp' & Hi & Ht' & He).
    unfold flowInvariant.
    destruct (negb (avatarReadyRef s) || negb (hasSessionId s));
      cbn [fst snd] in *; by rewrite Hf.
Qed.

Lemma flowInvariant_run (evs : list Event) :
  forall s, flowInvariant s -> flowInvariant (run evs s).
Proof.
  induction evs as [|ev evs IH]; intros s H; [done|].
  unfold run. cbn [foldl]. apply IH. by apply flowInvariant_react.
Qed.

Lemma flowInvariant_initial : flowInvariant initialSession.
Proof. reflexivity. Qed.

(** *** Speak requests *)

Lemma speakRequests_emit (e : Effect) (s : Session) :
  speakRequests (emit e s)
  = speakRequests s ++ (if isSpeakRequest e then [e] else []).
Proof.
  unfold speakRequests, emit. cbn [effects set_effects].
  rewrite List.filter_app. cbn [List.filter]. by destruct (isSpeakRequest e).
Qed.

Lemma speakRequests_other (e : Effect) (s : Session) :
  isSpeakRequest e = false -> speakRequests (emit e s) = speakRequests s.
Proof. intros H. rewrite speakRequests_emit, H. apply app_nil_r. Qed.

Lemma speakRequests_socketEmit (e : Effect) (s : Session) :
  isSpeakRequest e = false -> speakRequests (socketEmit e s) = speakRequests s.
Proof.
  intros H. unfold socketEmit. case_match; [|done].
  by apply speakRequests_other.
Qed.

Lemma speakRequests_flushTTSBuffer (s : Session) :
  speakRequests (flushTTSBuffer s) = speakRequests s.
Proof.
  unfold flushTTSBuffer. cbv zeta. repeat case_match; strip_speak; try done.
  by rewrite speakRequests_other.
Qed.

Lemma speakRequests_pressIn (prepared : bool) (s : Session) :
  speakRequests (pressIn prepared s) = speakRequests s.
Proof.
  unfold pressIn. cbv zeta. repeat case_match; strip_speak; try done.
  by rewrite speakRequests_other.
Qed.

Lemma speakRequests_emitTurn (base64 : string) (s : Session) :
  speakRequests (emitTurn base64 s) = speakRequests s.
Proof.
  unfold emitTurn. case_match; [|done]. by apply speakRequests_socketEmit.
Qed.

Lemma speakRequests_pressOut (capture : Capture) (s : Session) :
  speakRequests (pressOut capture s) = speakRequests s.
Proof.
  unfold pressOut. cbv zeta. destruct (recording s); [|done]. cbn [negb].
  destruct capture; strip_speak; rewrite ?speakRequests_emitTurn;
    rewrite ?speakRequests_other by done; by strip_speak.
Qed.

Lemma webView_unmounted (s : Session) :
  heygenToken s = None -> webViewMounted s = false.
Proof. intros H. unfold webViewMounted. rewrite H. apply andb_false_r. Qed.

(** With the avatar off a final transcript is shown at once. *)
Lemma routeTranscript_off (text : string) (now : Z) (webSdk : bool) (s : Session) :
  heygenEnabledRef s = false ->
  routeTranscript text now webSdk s
  = set_canSpeak false (set_syncedTranscript (str_or text EmptyString) s).
Proof. intros H. unfold routeTranscript. by rewrite H. Qed.

Lemma onFinalTranscript_off (text : string) (now : Z) (webSdk : bool) (s : Session) :
  heygenEnabledRef s = false ->
  onFinalTranscript text now webSdk s
  = set_canSpeak false
      (set_syncedTranscript (str_or text EmptyString)
         (set_pendingAssistantTextRef (str_or text (pendingAssistantTextRef s))
            (set_transcript text s))).
Proof.
  intros H. unfold onFinalTranscript. by rewrite routeTranscript_off.
Qed.

Lemma speakRequests_onSocket (h : Session -> Session) (s : Session) :
  speakRequests (h s) = speakRequests s ->
  speakRequests (onSocket h s) = speakRequests s.
Proof. intros H. unfold onSocket. by case_match. Qed.

(** With the avatar off no external event asks the avatar to speak. *)
Lemma speakRequests_handle_off (e : External) (s : Session) :
  heygenEnabledRef s = false -> heygenToken s = None ->
  speakRequests (handle e s) = speakRequests s.
Proof.
  intros He Ht. pose proof (webView_unmounted s Ht) as Hm.
  destruct e; cbv beta iota delta [handle];
    try apply speakRequests_onSocket.
  - unfold mountEffect. repeat case_match; try done.
    by apply speakRequests_other.
  - done.
  - done.
  - done.
  - unfold onAssistantTextDelta. by rewrite He.
  - by rewrite onFinalTranscript_off.
  - unfold onTurnReady. by case_match.
  - unfold onAiAudioChunk. by repeat case_match.
  - unfold onAiAudioDone. rewrite He. strip_speak.
    by rewrite speakRequests_flushTTSBuffer.
  - unfold onTts. cbv zeta. by repeat case_match.
  - done.
  - done.
  - unfold onError. by apply speakRequests_other.
  - unfold onTtsFlushTimer. case_match; [|done].
    apply speakRequests_flushTTSBuffer.
  - unfold playWritten. case_match; [|done]. strip_speak.
    by rewrite speakRequests_other.
  - unfold speakingTimeout. by case_match.
  - unfold typewriterTick. cbv zeta. by repeat case_match.
  - by rewrite Hm.
  - case_match; [apply speakRequests_pressIn|done].
  - case_match; [apply speakRequests_pressOut|done].
Qed.

(** *** Once detached *)

Lemma detached_core (s s' : Session) :
  core s' = core s \/ core s' = avatarOff (core s) ->
  detached s -> detached s'.
Proof.
  unfold core, avatarOff, detached.
  intros [[= Hf Hp Hi Ht He]|[= Hf Hp Hi Ht He]];
    rewrite Hf, Hp, Hi, Ht, He; intuition.
Qed.

(** Once detached, always detached, and no further speak request. *)
Lemma detached_react (ev : Event) (s : Session) :
  detached s ->
  detached (react ev s) /\ speakRequests (react ev s) = speakRequests s.
Proof.
  intros Hd. pose proof Hd as (He & Ht & Hf).
  destruct ev as [e| | |r now|now]; cbv beta iota delta [react].
  - split; [exact (detached_core s _ (core_handle e s) Hd)|].
    by apply speakRequests_handle_off.
  - destruct (step s =? 1)%nat; [|done]. split; [exact Hd|done].
  - destruct (startEnabled s) eqn:Hen; [|done].
    apply startEnabled_idle in Hen as (Hs & Hp).
    destruct (flow s); congruence || done.
  - destruct (flow s); done.
  - destruct (flow s) eqn:Hfl; try done.
    destruct (stillWaiting start now s); [done|].
    split.
    + destruct (core_components _ _ (core_flowFinish s))
        as (Hf' & Hp' & Hi & Ht' & He').
      unfold detached.
      destruct (negb (avatarReadyRef s) || negb (hasSessionId s));
        cbn [fst snd] in *; rewrite Hf', Hi, Ht', He'; done.
    + unfold flowFinish, startRecording. cbn [negb].
      case_match; strip_speak; by rewrite speakRequests_socketEmit.
Qed.

Lemma detached_run (evs : list Event) :
  forall s, detached s ->
    detached (run evs s) /\ speakRequests (run evs s) = speakRequests s.
Proof.
  induction evs as [|ev evs IH]; intros s H; [done|].
  unfold run. cbn [foldl]. fold (run evs (react ev s)).
  destruct (detached_react ev s H) as [Hd Hq].
  destruct (IH _ Hd) as [Hd' Hq']. split; [done|congruence].
Qed.

(** The message that detaches puts the session into [detached]. *)
Lemma detach_message_detaches (m : string) (now : Z) (s : Session) :
  flowInvariant s -> webViewMounted s = true -> isDetachMessage m = true ->
  detached (handle (WebViewMessage m now) s).
Proof.
  intros Hinv Hm Hdm. cbv beta iota delta [handle]. rewrite Hm.
  pose proof (core_onMessage m now true s) as Hc. rewrite Hdm in Hc.
  apply core_components in Hc as (Hf & Hp & Hi & Ht & He).
  unfold core, avatarOff in *. cbn [fst snd] in *.
  unfold detached. rewrite He, Ht, Hf, Hp, Hi.
  split; [done|]. split; [done|].
  unfold webViewMounted in Hm. unfold flowInvariant in Hinv.
  destruct (flow s); [|destruct Hinv as [Hinv _]|done|done];
    rewrite Hinv in Hm; by rewrite andb_false_r in Hm.
Qed.

Lemma str_or_empty (text : string) : str_or text EmptyString = text.
Proof. by destruct text. Qed.

(** A final transcript that arrives with the avatar off is shown at once,
    and the avatar is not asked to speak. *)
Lemma final_transcript_local (text : string) (now : Z) (s : Session) :
  heygenEnabledRef s = false -> socketRef s = true ->
  let s' := handle (SocketFinalTranscript text now) s in
  syncedTranscript s' = text /\ transcript s' = text /\ canSpeak s' = false
  /\ effects s' = effects s
  /\ pendingSpeakQueueRef s' = pendingSpeakQueueRef s.
Proof.
  intros He Hs. cbv beta iota zeta delta [handle onSocket]. rewrite Hs.
  rewrite onFinalTranscript_off by done.
  cbn [syncedTranscript transcript canSpeak effects pendingSpeakQueueRef
       set_canSpeak set_syncedTranscript set_pendingAssistantTextRef
       set_transcript].
  by rewrite str_or_empty.
Qed.

End Detach.

(** C4 (detachFromHeygen lines 62-69, the final_transcript handler lines
    126-144, the player messages lines 601-641). Take any run of the
    screen up to a message of the player that makes the handler detach (a
    task error or a transport failure), and any events after it. At the
    end [heygenEnabledRef] is false, the token is cleared, the web view is
    gone, and no request to make the avatar speak has been added since the
    detaching message was handled; and a final transcript arriving then is
    put on the screen at once, with the microphone closed, and is neither
    sent to the avatar nor queued for it. *)
Theorem detach_is_permanent
    (before : list AICheckInScreen.Event) (m : string) (now : Z)
    (after : list AICheckInScreen.Event) :
  let s1 := AICheckInScreen.run before AICheckInScreen.initialSession in
  AICheckInScreen.webViewMounted s1 = true ->
  AICheckInScreen.isDetachMessage m = true ->
  let s2 := AICheckInScreen.react
              (AICheckInScreen.Ext (AICheckInScreen.WebViewMessage m now)) s1 in
  let s3 := AICheckInScreen.run after s2 in
  AICheckInScreen.heygenEnabledRef s3 = false
  /\ AICheckInScreen.heygenToken s3 = None
  /\ AICheckInScreen.webViewMounted s3 = false
  /\ AICheckInScreen.speakRequests s3 = AICheckInScreen.speakRequests s2
  /\ forall text now',
       AICheckInScreen.socketRef s3 = true ->
       let s4 := AICheckInScreen.react
                   (AICheckInScreen.Ext
                      (AICheckInScreen.SocketFinalTranscript text now')) s3 in
       AICheckInScreen.syncedTranscript s4 = text
       /\ AICheckInScreen.canSpeak s4 = false
       /\ AICheckInScreen.speakRequests s4 = AICheckInScreen.speakRequests s3
       /\ AICheckInScreen.pendingSpeakQueueRef s4
          = AICheckInScreen.pendingSpeakQueueRef s3
       /\ AICheckInScreen.heygenEnabledRef s4 = false.
Proof.
  intros s1 Hm Hdm s2 s3.
  assert (Hinv : AICheckInScreen.flowInvariant s1)
    by (apply flowInvariant_run, flowInvariant_initial).
  assert (Hd2 : AICheckInScreen.detached s2)
    by (by apply detach_message_detaches).
  destruct (detached_run after s2 Hd2) as [Hd3 Hq3].
  fold s3 in Hd3, Hq3. pose proof Hd3 as (He & Ht & _).
  split; [exact He|]. split; [exact Ht|].
  split; [by apply webView_unmounted|]. split; [exact Hq3|].
  intros text now' Hs s4.
  destruct (final_transcript_local text now' s3 He Hs) as (H1 & _ & H3 & H4 & H5).
  destruct (detached_react
              (AICheckInScreen.Ext
                 (AICheckInScreen.SocketFinalTranscript text now')) s3 Hd3)
    as [(He4 & _) Hq4].
  split; [exact H1|]. split; [exact H3|]. split; [exact Hq4|].
  split; [exact H5|exact He4].
Qed.

Lemma detach_is_permanent_witness :
  let before := [AICheckInScreen.Ext (AICheckInScreen.MountEffect true);
                 AICheckInScreen.Ext AICheckInScreen.SocketConnect;
                 AICheckInScreen.PressContinue;
                 AICheckInScreen.PressStart;
                 AICheckInScreen.TokenArrives (AICheckInScreen.TokenOk "tok") 1000;
                 AICheckInScreen.Ext (AICheckInScreen.WebViewMessage "session_id:s1" 1500);
                 AICheckInScreen.Ext (AICheckInScreen.WebViewMessage "STREAM_READY" 1600);
                 AICheckInScreen.PollWake 1720;
                 AICheckInScreen.Ext (AICheckInScreen.SocketFinalTranscript "Hello" 5000)] in
  let after := [AICheckInScreen.Ext AICheckInScreen.SocketTurnReady;
                AICheckInScreen.Ext (AICheckInScreen.SocketFinalTranscript "How are you" 9000);
                AICheckInScreen.PressStart] in
  let s1 := AICheckInScreen.run before AICheckInScreen.initialSession in
  let s2 := AICheckInScreen.react
              (AICheckInScreen.Ext
                 (AICheckInScreen.WebViewMessage "TASK_ERROR:quota" 6000)) s1 in
  let s3 := AICheckInScreen.run after s2 in
  AICheckInScreen.webViewMounted s1 = true
  /\ AICheckInScreen.isDetachMessage "TASK_ERROR:quota" = true
  /\ AICheckInScreen.speakRequests s2 = [AICheckInScreen.InjectSpeak "Hello"]
  /\ AICheckInScreen.heygenEnabledRef s3 = false
  /\ AICheckInScreen.speakRequests s3 = AICheckInScreen.speakRequests s2.
Proof.
  intros before after s1 s2 s3.
  assert (Hm : AICheckInScreen.webViewMounted s1 = true)
    by (vm_compute; reflexivity).
  assert (Hd : AICheckInScreen.isDetachMessage "TASK_ERROR:quota" = true)
    by (vm_compute; reflexivity).
  pose proof (detach_is_permanent before "TASK_ERROR:quota" 6000 after Hm Hd)
    as (He & _ & _ & Hq & _).
  split; [exact Hm|]. split; [exact Hd|].
  split; [vm_compute; reflexivity|].
  split; [exact He|exact Hq].
Defined.

(** ** The check-in session: what is sent to the server *)

Section Effects.

Import AICheckInScreen.

Implicit Types (P : Effect -> Prop) (l : list Effect) (s : Session).

Lemma grows_refl P l : grows P l l.
Proof. exists []. by rewrite app_nil_r. Qed.

Lemma grows_trans P l1 l2 l3 : grows P l1 l2 -> grows P l2 l3 -> grows P l1 l3.
Proof.
  intros (a & -> & Ha) (b & -> & Hb). exists (a ++ b).
  split; [by rewrite app_assoc|by apply Forall_app].
Qed.

Lemma grows_one P l e : P e -> grows P l (l ++ [e]).
Proof. intros H. exists [e]. split; [done|by constructor]. Qed.

Lemma grows_two P l e1 e2 : P e1 -> P e2 -> grows P l ((l ++ [e1]) ++ [e2]).
Proof.
  intros H1 H2. exists [e1; e2].
  split; [by rewrite <- app_assoc|by repeat constructor].
Qed.

Lemma grows_socketEmit P e s :
  P e -> grows P (effects s) (effects (socketEmit e s)).
Proof.
  intros H. unfold socketEmit. case_match; [|apply grows_refl].
  effects_norm. by apply grows_one.
Qed.

Lemma grows_speakViaPlayer text now webSdk s :
  grows handlerEffect (effects s) (effects (speakViaPlayer text now webSdk s).2).
Proof.
  unfold speakViaPlayer. cbv zeta.
  repeat case_match; cbn [snd]; effects_norm;
    first [apply grows_refl|by apply grows_one].
Qed.

Lemma grows_speak_all now webSdk (items : list string) :
  forall s,
    grows handlerEffect (effects s)
      (effects (foldl (fun s t => (speakViaPlayer t now webSdk s).2) s items)).
Proof.
  induction items as [|t items IH]; intros s; [apply grows_refl|].
  cbn [foldl]. eapply grows_trans; [apply grows_speakViaPlayer|apply IH].
Qed.

Lemma grows_flushPendingSpeaks now webSdk s :
  grows handlerEffect (effects s) (effects (flushPendingSpeaks now webSdk s)).
Proof.
  unfold flushPendingSpeaks. repeat case_match; try apply grows_refl.
  eapply grows_trans; [|apply grows_speak_all].
  effects_norm. apply grows_refl.
Qed.

Lemma grows_flushTTSBuffer s :
  grows handlerEffect (effects s) (effects (flushTTSBuffer s)).
Proof.
  unfold flushTTSBuffer. cbv zeta.
  repeat case_match; effects_norm; first [apply grows_refl|by apply grows_one].
Qed.

Lemma grows_startTypewriter text dur now s :
  grows handlerEffect (effects s) (effects (startTypewriter text dur now s)).
Proof.
  unfold startTypewriter. cbv zeta.
  repeat case_match; effects_norm; apply grows_refl.
Qed.

Lemma grows_pressIn prepared s :
  grows handlerEffect (effects s) (effects (pressIn prepared s)).
Proof.
  unfold pressIn. cbv zeta.
  repeat case_match; effects_norm; first [apply grows_refl|by apply grows_one].
Qed.

Lemma grows_emitTurn (base64 : string) s :
  (exists bytes, base64 = Buffer.toBase64 bytes) ->
  grows handlerEffect (effects s) (effects (emitTurn base64 s)).
Proof.
  intros Hb. unfold emitTurn.
  destruct (truthy base64 && (minTurnLength <? _)) eqn:E; [|apply grows_refl].
  apply andb_true_iff in E as [_ E]. apply Z.ltb_lt in E.
  apply grows_socketEmit. by repeat split.
Qed.

Lemma emitTurn_empty s : emitTurn EmptyString s = s.
Proof. reflexivity. Qed.

Lemma grows_pressOut capture s :
  grows handlerEffect (effects s) (effects (pressOut capture s)).
Proof.
  unfold pressOut. cbv zeta. destruct (recording s); [|apply grows_refl].
  cbn [negb]. destruct capture as [| | |bytes]; effects_norm.
  - apply grows_refl.
  - rewrite emitTurn_empty. effects_norm. by apply grows_one.
  - by apply grows_one.
  - eapply grows_trans; [|apply grows_emitTurn; by eexists].
    effects_norm. by apply grows_one.
Qed.

Lemma grows_noteSessionId m s :
  grows handlerEffect (effects s) (effects (noteSessionId m s)).
Proof. unfold noteSessionId. case_match; effects_norm; apply grows_refl. Qed.

Lemma grows_noteReady m now webSdk s :
  grows handlerEffect (effects s) (effects (noteReady m now webSdk s)).
Proof.
  unfold noteReady. case_match; [|apply grows_refl].
  eapply grows_trans; [|apply grows_flushPendingSpeaks].
  effects_norm. apply grows_refl.
Qed.

Lemma effects_detachFromHeygen s : effects (detachFromHeygen s) = effects s.
Proof. reflexivity. Qed.

Lemma effects_cleanupStreaming s : effects (cleanupStreaming s) = effects s.
Proof. reflexivity. Qed.

Lemma grows_taskLifecycle m now s :
  grows handlerEffect (effects s) (effects (taskLifecycle m now s)).
Proof.
  unfold taskLifecycle.
  destruct (isTaskOk m).
  { eapply grows_trans; [|apply grows_startTypewriter].
    effects_norm. apply grows_refl. }
  destruct (isTaskDone m).
  { destruct (truthy (pendingAssistantTextRef s)); cbv beta; effects_norm;
      apply grows_refl. }
  destruct (isTaskError m).
  { effects_norm. rewrite effects_detachFromHeygen. apply grows_refl. }
  destruct (isConnectionError m); [|apply grows_refl].
  effects_norm. rewrite effects_detachFromHeygen. apply grows_refl.
Qed.

Lemma grows_flushOnSessionId m now webSdk s :
  grows handlerEffect (effects s) (effects (flushOnSessionId m now webSdk s)).
Proof.
  unfold flushOnSessionId. case_match; [|apply grows_refl].
  apply grows_flushPendingSpeaks.
Qed.

Lemma grows_onMessage m now webSdk s :
  grows handlerEffect (effects s) (effects (onMessage m now webSdk s)).
Proof.
  unfold onMessage.
  eapply grows_trans; [apply grows_noteSessionId|].
  eapply grows_trans; [apply grows_noteReady|].
  eapply grows_trans; [apply grows_taskLifecycle|].
  apply grows_flushOnSessionId.
Qed.

Lemma grows_routeTranscript text now webSdk s :
  grows handlerEffect (effects s) (effects (routeTranscript text now webSdk s)).
Proof.
  unfold routeTranscript. repeat case_match; effects_norm; try apply grows_refl.
  eapply grows_trans; [|apply grows_speakViaPlayer].
  effects_norm. apply grows_refl.
Qed.

Lemma grows_onFinalTranscript text now webSdk s :
  grows handlerEffect (effects s) (effects (onFinalTranscript text now webSdk s)).
Proof.
  unfold onFinalTranscript.
  eapply grows_trans; [|apply grows_routeTranscript].
  effects_norm. apply grows_refl.
Qed.

Lemma grows_onSocket (h : Session -> Session) s :
  grows handlerEffect (effects s) (effects (h s)) ->
  grows handlerEffect (effects s) (effects (onSocket h s)).
Proof. intros H. unfold onSocket. case_match; [exact H|apply grows_refl]. Qed.

(** No handler outside [startInterviewFlow] sends [start], and the only
    audio chunks are the turns [pressOut] lets through. *)
Lemma grows_handle (e : External) s :
  grows handlerEffect (effects s) (effects (handle e s)).
Proof.
  destruct e; cbv beta iota delta [handle];
    try apply grows_onSocket.
  - unfold mountEffect. repeat case_match; effects_norm;
      first [apply grows_refl|by apply grows_one].
  - apply grows_refl.
  - apply grows_refl.
  - apply grows_refl.
  - unfold onAssistantTextDelta. case_match; effects_norm; apply grows_refl.
  - apply grows_onFinalTranscript.
  - unfold onTurnReady. case_match; effects_norm; apply grows_refl.
  - unfold onAiAudioChunk. repeat case_match; effects_norm; apply grows_refl.
  - unfold onAiAudioDone. case_match; [apply grows_refl|].
    effects_norm. eapply grows_trans; [|apply grows_flushTTSBuffer].
    effects_norm. apply grows_refl.
  - unfold onTts. cbv zeta. repeat case_match; effects_norm; apply grows_refl.
  - unfold onDone. rewrite effects_cleanupStreaming. effects_norm.
    apply grows_refl.
  - unfold onDisconnect. effects_norm. apply grows_refl.
  - unfold onError. effects_norm. by apply grows_one.
  - unfold onTtsFlushTimer. case_match; [|apply grows_refl].
    apply grows_flushTTSBuffer.
  - unfold playWritten. case_match; [|apply grows_refl].
    effects_norm. by apply grows_one.
  - unfold speakingTimeout. case_match; effects_norm; apply grows_refl.
  - unfold typewriterTick. cbv zeta. repeat case_match; effects_norm;
      apply grows_refl.
  - case_match; [apply grows_onMessage|apply grows_refl].
  - case_match; [apply grows_pressIn|apply grows_refl].
  - case_match; [apply grows_pressOut|apply grows_refl].
Qed.

End Effects.

(** ** The check-in session: invariants of every run *)

Section Runs.

Import AICheckInScreen.

Implicit Types (s : Session) (ev : Event) (evs : list Event).

Lemma grows_impl (P Q : Effect -> Prop) (l l' : list Effect) :
  (forall e, P e -> Q e) -> grows P l l' -> grows Q l l'.
Proof.
  intros H (a & -> & Ha). exists a. split; [done|].
  eapply Forall_impl; [exact Ha|exact H].
Qed.

(** What [startRecording] sends when the interview has not started. *)
Lemma effects_startRecording s :
  effects (startRecording false s)
  = effects s ++ (if socketRef s then [EmitStart] else []).
Proof.
  unfold startRecording, socketEmit. cbn [negb].
  change (socketRef (set_interviewStarted true s)) with (socketRef s).
  destruct (socketRef s); effects_norm; [done|by rewrite app_nil_r].
Qed.

Lemma effects_flowBegin s : effects (flowBegin s) = effects s.
Proof. unfold flowBegin. cbv zeta. by case_match. Qed.

Lemma effects_flowToken (r : TokenResult) (now : Z) s :
  exists added,
    effects (flowToken r now false s) = effects s ++ added
    /\ (added = [] \/ added = [EmitStart])
    /\ (flow (flowToken r now false s) <> FlowDone -> added = []).
Proof.
  unfold flowToken.
  destruct r as [tok| |]; [destruct (truthy tok)|..]; effects_norm;
    rewrite ?effects_startRecording; effects_norm.
  - exists []. rewrite app_nil_r. split; [done|]. split; [by left|done].
  - eexists. split; [reflexivity|]. split; [case_match; [by right|by left]|].
    intros H. by destruct H.
  - eexists. split; [reflexivity|]. split; [case_match; [by right|by left]|].
    intros H. by destruct H.
  - eexists. split; [reflexivity|]. split; [case_match; [by right|by left]|].
    intros H. by destruct H.
Qed.

Lemma effects_flowFinish s :
  exists added,
    effects (flowFinish false s) = effects s ++ added
    /\ (added = [] \/ added = [EmitStart]).
Proof.
  unfold flowFinish.
  destruct (negb (avatarReadyRef s) || negb (hasSessionId s)); effects_norm;
    rewrite effects_startRecording; effects_norm;
    (eexists; split; [reflexivity|case_match; [by right|by left]]).
Qed.

(** Every event adds to the log only [start], from the flow, and what the
    handlers may send. *)
Lemma grows_react ev s :
  grows (fun e => e = EmitStart \/ handlerEffect e)
        (effects s) (effects (react ev s)).
Proof.
  destruct ev as [e| | |r now|now]; cbv beta iota delta [react].
  - eapply grows_impl; [|apply grows_handle]. by right.
  - destruct (step s =? 1)%nat; effects_norm; apply grows_refl.
  - destruct (startEnabled s); [|apply grows_refl].
    rewrite effects_flowBegin. apply grows_refl.
  - destruct (flow s); try apply grows_refl.
    destruct (effects_flowToken r now s) as (a & -> & [->| ->] & _).
    + rewrite app_nil_r. apply grows_refl.
    + apply grows_one. by left.
  - destruct (flow s); try apply grows_refl.
    destruct (stillWaiting start now s); [apply grows_refl|].
    destruct (effects_flowFinish s) as (a & -> & [->| ->]).
    + rewrite app_nil_r. apply grows_refl.
    + apply grows_one. by left.
Qed.

Lemma grows_run evs :
  forall s,
    grows (fun e => e = EmitStart \/ handlerEffect e)
          (effects s) (effects (run evs s)).
Proof.
  induction evs as [|ev evs IH]; intros s; [apply grows_refl|].
  unfold run. cbn [foldl]. fold (run evs (react ev s)).
  eapply grows_trans; [apply grows_react|apply IH].
Qed.

Lemma startsSent_grows s s' :
  grows handlerEffect (effects s) (effects s') -> startsSent s' = startsSent s.
Proof.
  intros (a & E & Ha). unfold startsSent. rewrite E, List.filter_app, length_app.
  assert (List.filter isEmitStart a = []) as ->.
  { clear E. induction Ha as [|e l He _ IH]; [done|].
    cbn [List.filter]. destruct e; first [exact IH|destruct He]. }
  simpl. lia.
Qed.

Lemma flow_handle (e : External) s : flow (handle e s) = flow s.
Proof.
  destruct (core_handle e s) as [H|H];
    apply core_components in H as (Hf & _); rewrite Hf; [done|].
  unfold core, avatarOff. reflexivity.
Qed.

Lemma startsSent_added s s' (added : list Effect) :
  effects s' = effects s ++ added ->
  added = [] \/ added = [EmitStart] ->
  (startsSent s <= startsSent s' <= startsSent s + 1)%nat.
Proof.
  intros E Ha. unfold startsSent. rewrite E, List.filter_app, length_app.
  destruct Ha as [->| ->]; simpl; lia.
Qed.

(** Every event preserves [startInvariant]. *)
Lemma startInvariant_react ev s : startInvariant s -> startInvariant (react ev s).
Proof.
  intros [Hinv Hst]. split; [by apply flowInvariant_react|].
  destruct ev as [e| | |r now|now]; cbv beta iota delta [react].
  - rewrite flow_handle, (startsSent_grows s _ (grows_handle e s)). exact Hst.
  - destruct (step s =? 1)%nat; exact Hst.
  - destruct (startEnabled s) eqn:Hen; [|exact Hst].
    apply startEnabled_idle in Hen as (Hs & Hp).
    destruct (core_components _ _ (core_flowBegin s)) as (Hf & _).
    cbn [fst snd] in Hf. rewrite Hf.
    unfold startsSent in *. rewrite effects_flowBegin.
    unfold flowInvariant in Hinv.
    destruct (flow s); try done; congruence.
  - destruct (flow s) eqn:Hfl; try (rewrite Hfl; exact Hst).
    destruct (effects_flowToken r now s) as (a & E & Ha & Hnd).
    pose proof (startsSent_added s _ a E Ha) as Hb.
    destruct (flow (flowToken r now false s)) eqn:Hf'; try lia;
      rewrite (Hnd ltac:(done)) in E;
      unfold startsSent in *; rewrite E, app_nil_r; exact Hst.
  - destruct (flow s) eqn:Hfl; try (rewrite Hfl; exact Hst).
    destruct (stillWaiting start now s); [by rewrite Hfl|].
    destruct (effects_flowFinish s) as (a & E & Ha).
    pose proof (startsSent_added s _ a E Ha) as Hb.
    destruct (core_components _ _ (core_flowFinish s)) as (Hf & _).
    assert (Hd : flow (flowFinish false s) = FlowDone)
      by (rewrite Hf; by case_match).
    rewrite Hd. lia.
Qed.

Lemma startInvariant_run evs :
  forall s, startInvariant s -> startInvariant (run evs s).
Proof.
  induction evs as [|ev evs IH]; intros s H; [done|].
  unfold run. cbn [foldl]. apply IH. by apply startInvariant_react.
Qed.

Lemma startInvariant_initial : startInvariant initialSession.
Proof. split; reflexivity. Qed.

End Runs.

(** X1 (startInterviewFlow lines 464-513, startRecording lines 349-360,
    the Start button of lines 668-677). Whatever happens on the screen,
    the server is told to start the interview at most once, never before
    the flow has returned, and once it has been told the interview counts
    as started. *)
Theorem interview_started_at_most_once (evs : list AICheckInScreen.Event) :
  let s := AICheckInScreen.run evs AICheckInScreen.initialSession in
  (AICheckInScreen.startsSent s <= 1)%nat
  /\ (AICheckInScreen.flow s <> AICheckInScreen.FlowDone ->
      AICheckInScreen.startsSent s = 0%nat)
  /\ (AICheckInScreen.startsSent s = 1%nat ->
      AICheckInScreen.interviewStarted s = true).
Proof.
  intros s.
  destruct (startInvariant_run evs _ startInvariant_initial) as [Hinv Hst].
  fold s in Hinv, Hst. unfold AICheckInScreen.flowInvariant in Hinv.
  destruct (AICheckInScreen.flow s); repeat split; try done; lia.
Qed.

Example ex_interview_started_once :
  let s := AICheckInScreen.run
             [AICheckInScreen.Ext (AICheckInScreen.MountEffect true);
              AICheckInScreen.Ext AICheckInScreen.SocketConnect;
              AICheckInScreen.PressContinue;
              AICheckInScreen.PressStart;
              AICheckInScreen.PressStart;
              AICheckInScreen.TokenArrives AICheckInScreen.TokenMissing 1000;
              AICheckInScreen.PressStart;
              AICheckInScreen.TokenArrives (AICheckInScreen.TokenOk "tok") 2000]
             AICheckInScreen.initialSession in
  AICheckInScreen.startsSent s = 1%nat
  /\ AICheckInScreen.flow s = AICheckInScreen.FlowDone.
Proof. vm_compute. split; reflexivity. Qed.

(** X2 (pressOut lines 380-401, and every other place that writes to the
    socket). In every run of the screen, each audio chunk sent to the
    server is a final WAV turn that encodes a capture of more than 1125
    bytes, which is what 1500 characters of base64 come to. *)
Theorem audio_chunks_are_full_turns (evs : list AICheckInScreen.Event) :
  Forall (fun e =>
            exists bytes,
              e = AICheckInScreen.EmitAudioChunk (Buffer.toBase64 bytes)
                    "audio/wav" true
              /\ (1125 < length bytes)%nat)
         (AICheckInScreen.audioChunks
            (AICheckInScreen.run evs AICheckInScreen.initialSession)).
Proof.
  destruct (grows_run evs AICheckInScreen.initialSession) as (a & E & Ha).
  unfold AICheckInScreen.audioChunks. rewrite E.
  change (AICheckInScreen.effects AICheckInScreen.initialSession) with (@nil AICheckInScreen.Effect).
  rewrite app_nil_l. clear E.
  induction Ha as [|e a He _ IH]; [constructor|].
  cbn [List.filter]. destruct (AICheckInScreen.isAudioChunk e) eqn:Hc; [|exact IH].
  constructor; [|exact IH].
  destruct e; try discriminate Hc. destruct He as [He|He]; [discriminate He|].
  destruct He as (-> & -> & Hlen & bytes & ->).
  exists bytes. split; [done|].
  apply base64_over_threshold. exact Hlen.
Qed.

Example ex_audio_chunk_sent :
  let s := AICheckInScreen.run
             [AICheckInScreen.Ext (AICheckInScreen.MountEffect true);
              AICheckInScreen.Ext AICheckInScreen.SocketConnect;
              AICheckInScreen.PressContinue;
              AICheckInScreen.PressStart;
              AICheckInScreen.TokenArrives AICheckInScreen.TokenMissing 1000;
              AICheckInScreen.Ext AICheckInScreen.SocketTurnReady;
              AICheckInScreen.Ext (AICheckInScreen.MicPressIn true);
              AICheckInScreen.Ext (AICheckInScreen.MicPressOut
                                     (AICheckInScreen.Captured (replicate 1126 7)));
              AICheckInScreen.Ext (AICheckInScreen.MicPressIn true);
              AICheckInScreen.Ext (AICheckInScreen.MicPressOut
                                     (AICheckInScreen.Captured (replicate 1125 7)))]
             AICheckInScreen.initialSession in
  length (AICheckInScreen.audioChunks s) = 1%nat.
Proof. vm_compute. reflexivity. Qed.

(** ** The check-in session: local playback *)

Section LocalPlayback.

Import AICheckInScreen.

Implicit Types (s : Session).

(** What [flushTTSBuffer] leaves behind, whatever it plays. *)
Lemma flushTTSBuffer_state s :
  ttsChunksRef (flushTTSBuffer s) = []
  /\ ttsFlushTimerRef (flushTTSBuffer s) = false
  /\ canSpeak (flushTTSBuffer s) = canSpeak s
  /\ socketRef (flushTTSBuffer s) = socketRef s
  /\ heygenEnabledRef (flushTTSBuffer s) = heygenEnabledRef s.
Proof.
  unfold flushTTSBuffer. cbv zeta.
  destruct (Wav.mergedAudio (ttsChunksRef s)) as [[m|]|]; repeat split.
Qed.

Lemma effects_flushTTSBuffer s :
  effects (flushTTSBuffer s)
  = effects s
    ++ match Wav.mergedAudio (ttsChunksRef s) with
       | Some (Some wav) => [WriteAudioFile wav]
       | _ => []
       end.
Proof.
  unfold flushTTSBuffer. cbv zeta.
  destruct (Wav.mergedAudio (ttsChunksRef s)) as [[m|]|]; effects_norm;
    by rewrite ?app_nil_r.
Qed.

(** Nothing is played, and the assistant is not marked as speaking,
    before the write has settled. *)
Lemma speaking_flushTTSBuffer s :
  isAssistantSpeakingRef (flushTTSBuffer s) = isAssistantSpeakingRef s
  /\ assistantSpeaking (flushTTSBuffer s) = assistantSpeaking s
  /\ speakingTimeouts (flushTTSBuffer s) = speakingTimeouts s.
Proof.
  unfold flushTTSBuffer. cbv zeta.
  destruct (Wav.mergedAudio (ttsChunksRef s)) as [[m|]|]; repeat split.
Qed.

(** What follows a write that resolved, in whatever state the screen is
    by then; and a write that was rejected. *)
Lemma playWritten_resolved (wav : list Z) s :
  let s' := playWritten wav true s in
  effects s' = effects s ++ [PlayAudio wav]
  /\ isAssistantSpeakingRef s' = true
  /\ assistantSpeaking s' = true
  /\ speakingTimeouts s' = S (speakingTimeouts s)
  /\ canSpeak s' = canSpeak s
  /\ ttsChunksRef s' = ttsChunksRef s.
Proof. cbv zeta. unfold playWritten. split; [by effects_norm|]. repeat split. Qed.

Lemma playWritten_rejected (wav : list Z) s : playWritten wav false s = s.
Proof. reflexivity. Qed.

(** A decodable chunk that arrives with the avatar off is buffered. *)
Lemma onAiAudioChunk_buffers (b : list Z) s :
  heygenEnabledRef s = false -> socketRef s = true ->
  handle (SocketAiAudioChunk (Some b)) s
  = set_ttsChunksRef (ttsChunksRef s ++ [b]) s.
Proof.
  intros He Hs. cbv beta iota delta [handle onSocket onAiAudioChunk].
  by rewrite Hs, He.
Qed.

Lemma audio_chunks_buffered (bs : list (list Z)) :
  forall s,
    heygenEnabledRef s = false -> socketRef s = true ->
    let s1 := handleAll (map (fun b => SocketAiAudioChunk (Some b)) bs) s in
    ttsChunksRef s1 = ttsChunksRef s ++ bs
    /\ effects s1 = effects s
    /\ heygenEnabledRef s1 = false /\ socketRef s1 = true.
Proof.
  induction bs as [|b bs IH]; intros s He Hs.
  - cbn. by rewrite app_nil_r.
  - cbn zeta. unfold handleAll. cbn [map foldl].
    fold (handleAll (map (fun b => SocketAiAudioChunk (Some b)) bs)
            (handle (SocketAiAudioChunk (Some b)) s)).
    rewrite onAiAudioChunk_buffers by done.
    destruct (IH (set_ttsChunksRef (ttsChunksRef s ++ [b]) s) He Hs)
      as (H1 & H2 & H3 & H4).
    rewrite H1, H2. split; [|done].
    change (ttsChunksRef (set_ttsChunksRef (ttsChunksRef s ++ [b]) s))
      with (ttsChunksRef s ++ [b]).
    by rewrite <- app_assoc.
Qed.

End LocalPlayback.

(** X3 (flushTTSBuffer, lines 300-347). When the buffered chunks do not
    pass the container test and the data size fits the 32-bit field,
    [flushTTSBuffer] hands to the file system one buffer of 44 bytes more
    than the chunks together: the markers RIFF, WAVE, fmt and data, the
    chunk sizes 36 + n and n, PCM format 1, one channel, 24000 Hz, 48000
    bytes a second, block align 2, 16 bits, then the chunks in the order
    they came. The chunk list is emptied and the flush timer cleared at
    once; nothing is played and the assistant is not marked as speaking
    before the write has settled. When the write resolves, in whatever
    state the screen is by then, that buffer is played, the assistant is
    marked as speaking and the timeout that ends the speech is armed;
    when it is rejected, nothing is played and nothing changes. *)
Theorem flushTTSBuffer_wraps_raw_pcm (s : AICheckInScreen.Session) :
  let merged := Buffer.concat (AICheckInScreen.ttsChunksRef s) in
  let n := Z.of_nat (length merged) in
  AICheckInScreen.ttsChunksRef s <> [] ->
  Wav.isWav merged = false ->
  36 + n < 2 ^ 32 ->
  let s' := AICheckInScreen.flushTTSBuffer s in
  exists wav,
    AICheckInScreen.effects s'
    = AICheckInScreen.effects s ++ [AICheckInScreen.WriteAudioFile wav]
    /\ length wav = (44 + length merged)%nat
    /\ Buffer.slice 0 4 wav = Buffer.bytes_of_string "RIFF"
    /\ Buffer.readUIntLE 4 4 wav = 36 + n
    /\ Buffer.slice 8 12 wav = Buffer.bytes_of_string "WAVE"
    /\ Buffer.slice 12 16 wav = Buffer.bytes_of_string "fmt "
    /\ Buffer.readUIntLE 4 16 wav = 16
    /\ Buffer.readUIntLE 2 20 wav = 1
    /\ Buffer.readUIntLE 2 22 wav = 1
    /\ Buffer.readUIntLE 4 24 wav = 24000
    /\ Buffer.readUIntLE 4 28 wav = 48000
    /\ Buffer.readUIntLE 2 32 wav = 2
    /\ Buffer.readUIntLE 2 34 wav = 16
    /\ Buffer.slice 36 40 wav = Buffer.bytes_of_string "data"
    /\ Buffer.readUIntLE 4 40 wav = n
    /\ drop 44 wav = merged
    /\ AICheckInScreen.ttsChunksRef s' = []
    /\ AICheckInScreen.ttsFlushTimerRef s' = false
    /\ AICheckInScreen.isAssistantSpeakingRef s'
       = AICheckInScreen.isAssistantSpeakingRef s
    /\ (forall later,
          let played :=
            AICheckInScreen.handle (AICheckInScreen.AudioFileWritten wav true)
              later in
          AICheckInScreen.effects played
          = AICheckInScreen.effects later ++ [AICheckInScreen.PlayAudio wav]
          /\ AICheckInScreen.isAssistantSpeakingRef played = true
          /\ AICheckInScreen.assistantSpeaking played = true
          /\ AICheckInScreen.speakingTimeouts played
             = S (AICheckInScreen.speakingTimeouts later))
    /\ (forall later,
          AICheckInScreen.handle (AICheckInScreen.AudioFileWritten wav false)
            later = later).
Proof.
  intros merged n Hne Hw Hb s'.
  pose proof (mergedAudio_wrapped _ Hne Hw Hb) as Hm.
  fold merged n in Hm.
  exists (Wav.header n ++ merged).
  split; [unfold s'; by rewrite effects_flushTTSBuffer, Hm|].
  split; [by rewrite length_app|].
  destruct (header_fields n merged ltac:(unfold n; lia) Hb)
    as (F1 & F2 & F3 & F4 & F5 & F6 & F7 & F8 & F9 & F10 & F11 & F12 & F13 & F14).
  destruct (flushTTSBuffer_state s) as (S1 & S2 & _).
  destruct (speaking_flushTTSBuffer s) as (S3 & _).
  do 14 (split; [assumption|]).
  split; [exact S1|]. split; [exact S2|]. split; [exact S3|].
  split.
  - intros later.
    destruct (playWritten_resolved (Wav.header n ++ merged) later)
      as (P1 & P2 & P3 & P4 & _).
    cbv zeta. cbv beta iota delta [AICheckInScreen.handle].
    split; [exact P1|]. split; [exact P2|]. split; [exact P3|exact P4].
  - intros later. reflexivity.
Qed.

Lemma flushTTSBuffer_wraps_raw_pcm_witness :
  let s := AICheckInScreen.set_ttsChunksRef [[1; 2]; [3; 4; 5; 6]]
             AICheckInScreen.initialSession in
  exists wav,
    AICheckInScreen.effects (AICheckInScreen.flushTTSBuffer s)
    = [AICheckInScreen.WriteAudioFile wav]
    /\ length wav = 50%nat
    /\ Buffer.readUIntLE 4 40 wav = 6
    /\ drop 44 wav = [1; 2; 3; 4; 5; 6].
Proof.
  intros s.
  destruct (flushTTSBuffer_wraps_raw_pcm s ltac:(discriminate)
              ltac:(vm_compute; reflexivity) ltac:(vm_compute; reflexivity))
    as (wav & H1 & H2 & _ & _ & _ & _ & _ & _ & _ & _ & _ & _ & _ & _ & H3 & H4 & _).
  exists wav. split; [exact H1|]. split; [exact H2|]. split; [exact H3|exact H4].
Defined.

(** X4 (the ai_audio_chunk and ai_audio_done handlers, lines 146-164,
    with flushTTSBuffer). With the avatar off, chunks that arrive one
    after the other are only buffered, in their order of arrival; at
    ai_audio_done they are merged and handed to the file system as one
    buffer, the chunk list is empty again and the microphone is enabled,
    before anything is played; a second ai_audio_done asks for nothing
    more. The buffer is played when its write resolves, once, in
    whatever state the screen is by then; when the write is rejected
    nothing is played, although the microphone has been enabled. *)
Theorem tts_turn_is_played_once
    (bs : list (list Z)) (s : AICheckInScreen.Session) :
  AICheckInScreen.heygenEnabledRef s = false ->
  AICheckInScreen.socketRef s = true ->
  let s1 := AICheckInScreen.handleAll
              (map (fun b => AICheckInScreen.SocketAiAudioChunk (Some b)) bs) s in
  let s2 := AICheckInScreen.handle AICheckInScreen.SocketAiAudioDone s1 in
  let s3 := AICheckInScreen.handle AICheckInScreen.SocketAiAudioDone s2 in
  AICheckInScreen.ttsChunksRef s1 = AICheckInScreen.ttsChunksRef s ++ bs
  /\ AICheckInScreen.effects s1 = AICheckInScreen.effects s
  /\ AICheckInScreen.effects s2
     = AICheckInScreen.effects s
       ++ match Wav.mergedAudio (AICheckInScreen.ttsChunksRef s ++ bs) with
          | Some (Some wav) => [AICheckInScreen.WriteAudioFile wav]
          | _ => []
          end
  /\ AICheckInScreen.ttsChunksRef s2 = []
  /\ AICheckInScreen.canSpeak s2 = true
  /\ AICheckInScreen.isAssistantSpeakingRef s2
     = AICheckInScreen.isAssistantSpeakingRef s1
  /\ AICheckInScreen.effects s3 = AICheckInScreen.effects s2
  /\ (forall wav later,
        let played :=
          AICheckInScreen.handle (AICheckInScreen.AudioFileWritten wav true)
            later in
        AICheckInScreen.effects played
        = AICheckInScreen.effects later ++ [AICheckInScreen.PlayAudio wav]
        /\ AICheckInScreen.isAssistantSpeakingRef played = true
        /\ AICheckInScreen.canSpeak played = AICheckInScreen.canSpeak later
        /\ AICheckInScreen.ttsChunksRef played = AICheckInScreen.ttsChunksRef later)
  /\ (forall wav later,
        AICheckInScreen.handle (AICheckInScreen.AudioFileWritten wav false) later
        = later).
Proof.
  intros He Hs s1 s2 s3.
  destruct (audio_chunks_buffered bs s He Hs) as (H1 & H2 & H3 & H4).
  fold s1 in H1, H2, H3, H4.
  assert (E2 : s2 = AICheckInScreen.set_canSpeak true
                      (AICheckInScreen.flushTTSBuffer
                         (AICheckInScreen.set_ttsFlushTimerRef false s1))).
  { unfold s2. cbv beta iota delta [AICheckInScreen.handle
      AICheckInScreen.onSocket AICheckInScreen.onAiAudioDone].
    by rewrite H4, H3. }
  set (t1 := AICheckInScreen.set_ttsFlushTimerRef false s1) in E2.
  destruct (flushTTSBuffer_state t1) as (F1 & F2 & F3 & F4 & F5).
  destruct (speaking_flushTTSBuffer t1) as (F6 & _).
  assert (C2 : AICheckInScreen.ttsChunksRef s2 = []) by (rewrite E2; exact F1).
  assert (X2 : AICheckInScreen.effects s2
               = AICheckInScreen.effects s
                 ++ match Wav.mergedAudio (AICheckInScreen.ttsChunksRef s ++ bs) with
                    | Some (Some wav) => [AICheckInScreen.WriteAudioFile wav]
                    | _ => []
                    end).
  { rewrite E2.
    change (AICheckInScreen.effects
              (AICheckInScreen.set_canSpeak true (AICheckInScreen.flushTTSBuffer t1)))
      with (AICheckInScreen.effects (AICheckInScreen.flushTTSBuffer t1)).
    rewrite effects_flushTTSBuffer.
    change (AICheckInScreen.ttsChunksRef t1) with (AICheckInScreen.ttsChunksRef s1).
    change (AICheckInScreen.effects t1) with (AICheckInScreen.effects s1).
    by rewrite H1, H2. }
  split; [exact H1|]. split; [exact H2|]. split; [exact X2|].
  split; [exact C2|]. split; [by rewrite E2|].
  split.
  { rewrite E2.
    change (AICheckInScreen.isAssistantSpeakingRef
              (AICheckInScreen.set_canSpeak true (AICheckInScreen.flushTTSBuffer t1)))
      with (AICheckInScreen.isAssistantSpeakingRef
              (AICheckInScreen.flushTTSBuffer t1)).
    by rewrite F6. }
  assert (S2 : AICheckInScreen.socketRef s2 = true).
  { rewrite E2.
    change (AICheckInScreen.socketRef
              (AICheckInScreen.set_canSpeak true (AICheckInScreen.flushTTSBuffer t1)))
      with (AICheckInScreen.socketRef (AICheckInScreen.flushTTSBuffer t1)).
    rewrite F4. exact H4. }
  assert (G2 : AICheckInScreen.heygenEnabledRef s2 = false).
  { rewrite E2.
    change (AICheckInScreen.heygenEnabledRef
              (AICheckInScreen.set_canSpeak true (AICheckInScreen.flushTTSBuffer t1)))
      with (AICheckInScreen.heygenEnabledRef (AICheckInScreen.flushTTSBuffer t1)).
    rewrite F5. exact H3. }
  split.
  { unfold s3. cbv beta iota delta [AICheckInScreen.handle
      AICheckInScreen.onSocket AICheckInScreen.onAiAudioDone].
    rewrite S2, G2.
    change (AICheckInScreen.effects
              (AICheckInScreen.set_canSpeak true
                 (AICheckInScreen.flushTTSBuffer
                    (AICheckInScreen.set_ttsFlushTimerRef false s2))))
      with (AICheckInScreen.effects
              (AICheckInScreen.flushTTSBuffer
                 (AICheckInScreen.set_ttsFlushTimerRef false s2))).
    rewrite effects_flushTTSBuffer.
    change (AICheckInScreen.ttsChunksRef
              (AICheckInScreen.set_ttsFlushTimerRef false s2))
      with (AICheckInScreen.ttsChunksRef s2).
    rewrite C2. cbn [Wav.mergedAudio]. by rewrite app_nil_r. }
  split.
  - intros wav later.
    destruct (playWritten_resolved wav later) as (P1 & P2 & _ & _ & P5 & P6).
    cbv zeta. cbv beta iota delta [AICheckInScreen.handle].
    split; [exact P1|]. split; [exact P2|]. split; [exact P5|exact P6].
  - intros wav later. reflexivity.
Qed.

Lemma tts_turn_is_played_once_witness :
  let s := AICheckInScreen.handleAll
             [AICheckInScreen.MountEffect true; AICheckInScreen.SocketConnect]
             AICheckInScreen.initialSession in
  let s2 := AICheckInScreen.handleAll
              [AICheckInScreen.SocketAiAudioChunk (Some [1; 2]);
               AICheckInScreen.SocketAiAudioChunk (Some [3; 4]);
               AICheckInScreen.SocketAiAudioDone] s in
  AICheckInScreen.heygenEnabledRef s = false
  /\ AICheckInScreen.socketRef s = true
  /\ AICheckInScreen.ttsChunksRef s2 = []
  /\ AICheckInScreen.canSpeak s2 = true.
Proof.
  intros s s2.
  assert (He : AICheckInScreen.heygenEnabledRef s = false) by reflexivity.
  assert (Hs : AICheckInScreen.socketRef s = true) by reflexivity.
  destruct (tts_turn_is_played_once [[1; 2]; [3; 4]] s He Hs)
    as (_ & _ & _ & H4 & H5 & _).
  split; [exact He|]. split; [exact Hs|]. split; [exact H4|exact H5].
Defined.

(** A turn of two chunks with the avatar off: the audio is written when
    the turn ends and played when the write has resolved; when the write
    is rejected the screen stays silent with the microphone enabled. *)
Example ex_tts_turn :
  let s := AICheckInScreen.handleAll
             [AICheckInScreen.MountEffect true; AICheckInScreen.SocketConnect]
             AICheckInScreen.initialSession in
  let turn :=
    [AICheckInScreen.SocketAiAudioChunk (Some [1; 2]);
     AICheckInScreen.SocketAiAudioChunk (Some [3; 4]);
     AICheckInScreen.SocketAiAudioDone] in
  let wav := Wav.header 4 ++ [1; 2; 3; 4] in
  let resolved :=
    AICheckInScreen.handleAll
      (turn ++ [AICheckInScreen.AudioFileWritten wav true]) s in
  let rejected :=
    AICheckInScreen.handleAll
      (turn ++ [AICheckInScreen.AudioFileWritten wav false]) s in
  AICheckInScreen.effects resolved
  = [AICheckInScreen.WriteAudioFile wav; AICheckInScreen.PlayAudio wav]
  /\ AICheckInScreen.isAssistantSpeakingRef resolved = true
  /\ AICheckInScreen.effects rejected = [AICheckInScreen.WriteAudioFile wav]
  /\ AICheckInScreen.isAssistantSpeakingRef rejected = false
  /\ AICheckInScreen.canSpeak rejected = true.
Proof. vm_compute. repeat split. Qed.

(** ** The calendar of [Date] *)

Section CalendarFacts.

Import DateObject.

Implicit Types (c : CivilDate) (y m d : Z).

Lemma daysInMonth_bounds y m : 28 <= RealApi.daysInMonth y m <= 31.
Proof. unfold RealApi.daysInMonth. repeat case_match; lia. Qed.

Lemma carryMonth_in_range y m : 0 <= m <= 11 -> carryMonth y m = (y, m).
Proof.
  intros H. unfold carryMonth.
  rewrite Z.div_small, Z.mod_small by lia. f_equal. lia.
Qed.

Lemma carryMonth_next y m :
  0 <= m <= 11 ->
  carryMonth y (m + 1) = if m =? 11 then (y + 1, 0) else (y, m + 1).
Proof.
  intros H. destruct (m =? 11) eqn:E.
  - apply Z.eqb_eq in E. subst m. reflexivity.
  - apply Z.eqb_neq in E. apply carryMonth_in_range. lia.
Qed.

Lemma carryMonth_prev y m :
  0 <= m <= 11 ->
  carryMonth y (m - 1) = if m =? 0 then (y - 1, 11) else (y, m - 1).
Proof.
  intros H. destruct (m =? 0) eqn:E.
  - apply Z.eqb_eq in E. subst m. reflexivity.
  - apply Z.eqb_neq in E. apply carryMonth_in_range. lia.
Qed.

Lemma validDay_spec c :
  validDay c = true
  <-> 0 <= monthIndex c <= 11
      /\ 1 <= dayOfMonth c <= RealApi.daysInMonth (fullYear c) (monthIndex c).
Proof. unfold validDay. rewrite !andb_true_iff, !Z.leb_le. tauto. Qed.

Lemma stepDay_valid c : validDay c = true -> stepDay c = c.
Proof.
  intros H. apply validDay_spec in H as (_ & H1 & H2). unfold stepDay.
  rewrite (proj2 (Z.ltb_ge _ _)) by lia.
  by rewrite (proj2 (Z.ltb_ge _ _)) by lia.
Qed.

Lemma settle_valid (n : nat) c : validDay c = true -> settle n c = c.
Proof.
  intros H. induction n as [|n IH]; [done|].
  cbn [settle]. by rewrite stepDay_valid.
Qed.

(** A day of the calendar is read back as it is. *)
Lemma civil_valid c :
  validDay c = true -> civil (fullYear c) (monthIndex c) (dayOfMonth c) = c.
Proof.
  intros H. unfold civil.
  rewrite carryMonth_in_range by (apply validDay_spec in H; lia).
  rewrite settle_valid; by destruct c.
Qed.

Lemma civil_day y m d :
  0 <= m <= 11 -> 1 <= d <= RealApi.daysInMonth y m ->
  civil y m d = {| fullYear := y; monthIndex := m; dayOfMonth := d |}.
Proof.
  intros Hm Hd.
  apply (civil_valid {| fullYear := y; monthIndex := m; dayOfMonth := d |}).
  by apply validDay_spec.
Qed.

(** A date of up to 28 days past the end of the month is a day of the
    next month. *)
Lemma civil_overflow y m d :
  0 <= m <= 11 ->
  RealApi.daysInMonth y m < d <= RealApi.daysInMonth y m + 28 ->
  civil y m d
  = {| fullYear := (carryMonth y (m + 1)).1;
       monthIndex := (carryMonth y (m + 1)).2;
       dayOfMonth := d - RealApi.daysInMonth y m |}.
Proof.
  intros Hm Hd. unfold civil. rewrite carryMonth_in_range by done.
  rewrite Nat.add_1_r. cbn [settle].
  pose proof (daysInMonth_bounds y m) as Hb.
  assert (E : stepDay {| fullYear := y; monthIndex := m; dayOfMonth := d |}
              = {| fullYear := (carryMonth y (m + 1)).1;
                   monthIndex := (carryMonth y (m + 1)).2;
                   dayOfMonth := d - RealApi.daysInMonth y m |}).
  { unfold stepDay. cbn [fullYear monthIndex dayOfMonth].
    rewrite (proj2 (Z.ltb_ge _ _)) by lia.
    rewrite (proj2 (Z.ltb_lt _ _)) by lia.
    by destruct (carryMonth y (m + 1)). }
  rewrite E. apply settle_valid. apply validDay_spec.
  cbn [fullYear monthIndex dayOfMonth].
  rewrite carryMonth_next by done.
  pose proof (daysInMonth_bounds (y + 1) 0).
  pose proof (daysInMonth_bounds y (m + 1)).
  destruct (m =? 11) eqn:E11; cbn [fst snd]; [lia|].
  apply Z.eqb_neq in E11. lia.
Qed.

(** A date of up to 27 days before the first is a day of the previous
    month. *)
Lemma civil_underflow y m d :
  0 <= m <= 11 -> -27 <= d <= 0 ->
  civil y m d
  = {| fullYear := (carryMonth y (m - 1)).1;
       monthIndex := (carryMonth y (m - 1)).2;
       dayOfMonth := d + RealApi.daysInMonth (carryMonth y (m - 1)).1
                                             (carryMonth y (m - 1)).2 |}.
Proof.
  intros Hm Hd. unfold civil. rewrite carryMonth_in_range by done.
  rewrite Nat.add_1_r. cbn [settle].
  assert (E : stepDay {| fullYear := y; monthIndex := m; dayOfMonth := d |}
              = {| fullYear := (carryMonth y (m - 1)).1;
                   monthIndex := (carryMonth y (m - 1)).2;
                   dayOfMonth := d + RealApi.daysInMonth (carryMonth y (m - 1)).1
                                                         (carryMonth y (m - 1)).2 |}).
  { unfold stepDay. cbn [fullYear monthIndex dayOfMonth].
    rewrite (proj2 (Z.ltb_lt _ _)) by lia.
    by destruct (carryMonth y (m - 1)). }
  rewrite E. apply settle_valid. apply validDay_spec.
  cbn [fullYear monthIndex dayOfMonth].
  rewrite carryMonth_prev by done.
  pose proof (daysInMonth_bounds (y - 1) 11).
  pose proof (daysInMonth_bounds y (m - 1)).
  destruct (m =? 0) eqn:E0; cbn [fst snd]; [lia|].
  apply Z.eqb_neq in E0. lia.
Qed.

(** The first day of the next year is 365 or 366 days on. *)
Lemma dayFromYear_succ y :
  dayFromYear (y + 1)
  = dayFromYear y + (if RealApi.isLeap y then 366 else 365).
Proof.
  unfold dayFromYear, RealApi.isLeap.
  destruct (y mod 4 =? 0) eqn:E4, (y mod 100 =? 0) eqn:E100,
    (y mod 400 =? 0) eqn:E400; cbn [andb orb negb];
    rewrite ?Z.eqb_eq, ?Z.eqb_neq in *;
    Z.div_mod_to_equations; lia.
Qed.

Lemma daysBefore_12 y :
  daysBefore y 11 + RealApi.daysInMonth y 11
  = if RealApi.isLeap y then 366 else 365.
Proof.
  unfold daysBefore, RealApi.daysInMonth. cbn [Z.of_nat Pos.of_succ_nat Pos.succ].
  cbn [Z.eqb Pos.eqb orb]. destruct (RealApi.isLeap y); reflexivity.
Qed.

(** The model agrees with [MakeDay]: a step of the normalisation keeps
    the number of the day. *)
Lemma dayNumber_stepDay c :
  0 <= monthIndex c <= 11 -> dayNumber (stepDay c) = dayNumber c.
Proof.
  intros Hm. destruct c as [y m d]. cbn [monthIndex] in Hm.
  unfold stepDay, dayNumber, makeDay. cbn [fullYear monthIndex dayOfMonth].
  rewrite (carryMonth_in_range y m) by done.
  destruct (d <? 1).
  - rewrite carryMonth_prev by done. destruct (m =? 0) eqn:E0.
    + apply Z.eqb_eq in E0. subst m. cbn [fullYear monthIndex dayOfMonth].
      rewrite (carryMonth_in_range (y - 1) 11) by lia.
      change (Z.to_nat 11) with 11%nat. change (Z.to_nat 0) with 0%nat.
      change (daysBefore y 0) with 0.
      pose proof (dayFromYear_succ (y - 1)) as Hs.
      replace (y - 1 + 1) with y in Hs by lia.
      pose proof (daysBefore_12 (y - 1)) as H12.
      destruct (RealApi.isLeap (y - 1)); lia.
    + apply Z.eqb_neq in E0. cbn [fullYear monthIndex dayOfMonth].
      rewrite (carryMonth_in_range y (m - 1)) by lia.
      replace (Z.to_nat m) with (S (Z.to_nat (m - 1))) by lia.
      cbn [daysBefore]. rewrite Z2Nat.id by lia. lia.
  - destruct (RealApi.daysInMonth y m <? d); [|by rewrite carryMonth_in_range].
    rewrite carryMonth_next by done. destruct (m =? 11) eqn:E11.
    + apply Z.eqb_eq in E11. subst m. cbn [fullYear monthIndex dayOfMonth].
      rewrite (carryMonth_in_range (y + 1) 0) by lia.
      change (Z.to_nat 11) with 11%nat. change (Z.to_nat 0) with 0%nat.
      change (daysBefore (y + 1) 0) with 0.
      pose proof (dayFromYear_succ y) as Hs.
      pose proof (daysBefore_12 y) as H12.
      destruct (RealApi.isLeap y); lia.
    + apply Z.eqb_neq in E11. cbn [fullYear monthIndex dayOfMonth].
      rewrite (carryMonth_in_range y (m + 1)) by lia.
      replace (Z.to_nat (m + 1)) with (S (Z.to_nat m)) by lia.
      cbn [daysBefore]. rewrite Z2Nat.id by lia. lia.
Qed.

Lemma carryMonth_range y m : 0 <= (carryMonth y m).2 <= 11.
Proof. unfold carryMonth. cbn [snd]. pose proof (Z.mod_pos_bound m 12). lia. Qed.

(** A month outside 0..11 is carried into the year first. *)
Lemma civil_carry y m d :
  civil y m d = civil (carryMonth y m).1 (carryMonth y m).2 d.
Proof.
  unfold civil at 2.
  rewrite (carryMonth_in_range _ _ (carryMonth_range y m)).
  unfold civil. by destruct (carryMonth y m).
Qed.

Lemma carryMonth_next_prev y m :
  0 <= m <= 11 ->
  carryMonth (carryMonth y (m + 1)).1 ((carryMonth y (m + 1)).2 - 1) = (y, m).
Proof.
  intros H. rewrite carryMonth_next by done.
  destruct (m =? 11) eqn:E; cbn [fst snd].
  - apply Z.eqb_eq in E. subst m. unfold carryMonth.
    change ((0 - 1) / 12) with (-1). change ((0 - 1) mod 12) with 11.
    f_equal. lia.
  - apply Z.eqb_neq in E. rewrite carryMonth_in_range by lia. f_equal. lia.
Qed.

Lemma carryMonth_prev_next y m :
  0 <= m <= 11 ->
  carryMonth (carryMonth y (m - 1)).1 ((carryMonth y (m - 1)).2 + 1) = (y, m).
Proof.
  intros H. rewrite carryMonth_prev by done.
  destruct (m =? 0) eqn:E; cbn [fst snd].
  - apply Z.eqb_eq in E. subst m. unfold carryMonth.
    change ((11 + 1) / 12) with 1. change ((11 + 1) mod 12) with 0.
    f_equal. lia.
  - apply Z.eqb_neq in E. rewrite carryMonth_in_range by lia. f_equal. lia.
Qed.

(** [setMonth] when the day exists in the month aimed at, and when it
    does not. *)
Lemma setMonth_fits c (month : Z) :
  1 <= dayOfMonth c
       <= RealApi.daysInMonth (carryMonth (fullYear c) month).1
                              (carryMonth (fullYear c) month).2 ->
  setMonth month c
  = {| fullYear := (carryMonth (fullYear c) month).1;
       monthIndex := (carryMonth (fullYear c) month).2;
       dayOfMonth := dayOfMonth c |}.
Proof.
  intros H. unfold setMonth.
  rewrite (civil_carry (fullYear c) month (dayOfMonth c)).
  assert (Hv : validDay {| fullYear := (carryMonth (fullYear c) month).1;
                           monthIndex := (carryMonth (fullYear c) month).2;
                           dayOfMonth := dayOfMonth c |} = true).
  { apply validDay_spec. cbn [fullYear monthIndex dayOfMonth].
    split; [apply carryMonth_range|exact H]. }
  exact (civil_valid _ Hv).
Qed.

Lemma setMonth_spills c (month : Z) :
  RealApi.daysInMonth (carryMonth (fullYear c) month).1
                      (carryMonth (fullYear c) month).2
  < dayOfMonth c <= 31 ->
  setMonth month c
  = {| fullYear := (carryMonth (carryMonth (fullYear c) month).1
                               ((carryMonth (fullYear c) month).2 + 1)).1;
       monthIndex := (carryMonth (carryMonth (fullYear c) month).1
                                 ((carryMonth (fullYear c) month).2 + 1)).2;
       dayOfMonth := dayOfMonth c
                     - RealApi.daysInMonth (carryMonth (fullYear c) month).1
                                           (carryMonth (fullYear c) month).2 |}.
Proof.
  intros H. unfold setMonth.
  rewrite (civil_carry (fullYear c) month (dayOfMonth c)).
  apply civil_overflow; [apply carryMonth_range|].
  pose proof (daysInMonth_bounds (carryMonth (fullYear c) month).1
                (carryMonth (fullYear c) month).2). lia.
Qed.

End CalendarFacts.

(** X5 (changeMonth, lines 191-199). The arrows of the calendar call
    [setMonth] on a copy of the date on display, which keeps the day of
    the month. When that day exists in the month aimed at, the arrow
    shows that month; when it does not (the 29th to the 31st before a
    shorter month), [setMonth] runs over: the forward arrow skips a
    month and the backward arrow stays in the month on display. From a
    day up to the 28th the two arrows undo each other. *)
Theorem changeMonth_keeps_day_or_runs_over (c : DateObject.CivilDate) :
  DateObject.validDay c = true ->
  let y := DateObject.fullYear c in
  let m := DateObject.monthIndex c in
  let d := DateObject.dayOfMonth c in
  let next := DateObject.carryMonth y (m + 1) in
  let prev := DateObject.carryMonth y (m - 1) in
  let afterNext := DateObject.carryMonth next.1 (next.2 + 1) in
  (d <= RealApi.daysInMonth next.1 next.2 ->
   AppointmentsScreen.changeMonth AppointmentsScreen.Next c
   = {| DateObject.fullYear := next.1; DateObject.monthIndex := next.2;
        DateObject.dayOfMonth := d |})
  /\ (RealApi.daysInMonth next.1 next.2 < d ->
      AppointmentsScreen.changeMonth AppointmentsScreen.Next c
      = {| DateObject.fullYear := afterNext.1;
           DateObject.monthIndex := afterNext.2;
           DateObject.dayOfMonth := d - RealApi.daysInMonth next.1 next.2 |})
  /\ (d <= RealApi.daysInMonth prev.1 prev.2 ->
      AppointmentsScreen.changeMonth AppointmentsScreen.Prev c
      = {| DateObject.fullYear := prev.1; DateObject.monthIndex := prev.2;
           DateObject.dayOfMonth := d |})
  /\ (RealApi.daysInMonth prev.1 prev.2 < d ->
      AppointmentsScreen.changeMonth AppointmentsScreen.Prev c
      = {| DateObject.fullYear := y; DateObject.monthIndex := m;
           DateObject.dayOfMonth := d - RealApi.daysInMonth prev.1 prev.2 |})
  /\ (d <= 28 ->
      AppointmentsScreen.changeMonth AppointmentsScreen.Prev
        (AppointmentsScreen.changeMonth AppointmentsScreen.Next c) = c
      /\ AppointmentsScreen.changeMonth AppointmentsScreen.Next
           (AppointmentsScreen.changeMonth AppointmentsScreen.Prev c) = c).
Proof.
  intros Hv y m d next prev afterNext.
  apply validDay_spec in Hv as (Hm & Hd). fold y m d in Hm, Hd.
  pose proof (daysInMonth_bounds y m) as Hb.
  pose proof (daysInMonth_bounds next.1 next.2) as Hbn.
  pose proof (daysInMonth_bounds prev.1 prev.2) as Hbp.
  assert (Hn : d <= RealApi.daysInMonth next.1 next.2 ->
               AppointmentsScreen.changeMonth AppointmentsScreen.Next c
               = {| DateObject.fullYear := next.1; DateObject.monthIndex := next.2;
                    DateObject.dayOfMonth := d |}).
  { intros H. apply setMonth_fits. fold y m d next. lia. }
  assert (Hp : d <= RealApi.daysInMonth prev.1 prev.2 ->
               AppointmentsScreen.changeMonth AppointmentsScreen.Prev c
               = {| DateObject.fullYear := prev.1; DateObject.monthIndex := prev.2;
                    DateObject.dayOfMonth := d |}).
  { intros H. apply setMonth_fits. fold y m d prev. lia. }
  split; [exact Hn|]. split.
  { intros H. apply setMonth_spills. fold y m d next. lia. }
  split; [exact Hp|]. split.
  { intros H. unfold AppointmentsScreen.changeMonth.
    rewrite setMonth_spills by (fold y m d prev; lia).
    fold y m d prev. unfold prev. by rewrite carryMonth_prev_next. }
  intros H28. split.
  - rewrite Hn by lia. unfold AppointmentsScreen.changeMonth.
    rewrite setMonth_fits; cbn [DateObject.fullYear DateObject.monthIndex
                                  DateObject.dayOfMonth];
      unfold next; rewrite carryMonth_next_prev by done; cbn [fst snd].
    + by destruct c.
    + fold y m d. lia.
  - rewrite Hp by lia. unfold AppointmentsScreen.changeMonth.
    rewrite setMonth_fits; cbn [DateObject.fullYear DateObject.monthIndex
                                  DateObject.dayOfMonth];
      unfold prev; rewrite carryMonth_prev_next by done; cbn [fst snd].
    + by destruct c.
    + fold y m d. lia.
Qed.

Lemma changeMonth_keeps_day_or_runs_over_witness :
  let jan31 := {| DateObject.fullYear := 2025; DateObject.monthIndex := 0;
                  DateObject.dayOfMonth := 31 |} in
  let mar31 := {| DateObject.fullYear := 2025; DateObject.monthIndex := 2;
                  DateObject.dayOfMonth := 31 |} in
  DateObject.validDay jan31 = true
  /\ AppointmentsScreen.changeMonth AppointmentsScreen.Next jan31
     = {| DateObject.fullYear := 2025; DateObject.monthIndex := 2;
          DateObject.dayOfMonth := 3 |}
  /\ AppointmentsScreen.changeMonth AppointmentsScreen.Prev mar31
     = {| DateObject.fullYear := 2025; DateObject.monthIndex := 2;
          DateObject.dayOfMonth := 3 |}.
Proof.
  intros jan31 mar31.
  assert (H1 : DateObject.validDay jan31 = true) by reflexivity.
  assert (H2 : DateObject.validDay mar31 = true) by reflexivity.
  split; [exact H1|]. split.
  - exact (proj1 (proj2 (changeMonth_keeps_day_or_runs_over jan31 H1))
             ltac:(vm_compute; reflexivity)).
  - exact (proj1 (proj2 (proj2 (proj2
             (changeMonth_keeps_day_or_runs_over mar31 H2))))
             ltac:(vm_compute; reflexivity)).
Defined.

(** ** The month calendar of the appointments screen *)

Section MonthCalendar.

Import DateObject AppointmentsScreen.

Implicit Types (answers : Z -> AvailabilityAnswer).
Implicit Types (acc : gmap string (list AvailabilitySlot)).

Lemma append_inj_l (a b c : string) : a +:+ b = a +:+ c -> b = c.
Proof.
  induction a as [|x a IH]; [done|].
  change (String x a +:+ b) with (String x (a +:+ b)).
  change (String x a +:+ c) with (String x (a +:+ c)).
  intros [= H]. by apply IH.
Qed.

(** Different days of a month have different keys. *)
Lemma dateISO_inj (year month d1 d2 : Z) :
  0 <= d1 <= 99 -> 0 <= d2 <= 99 ->
  dateISO year month d1 = dateISO year month d2 -> d1 = d2.
Proof.
  intros H1 H2 E. unfold dateISO in E.
  do 4 apply append_inj_l in E.
  destruct (two_digits_print d1 H1) as (a1 & b1 & E1 & P1).
  destruct (two_digits_print d2 H2) as (a2 & b2 & E2 & P2).
  rewrite E1, E2 in E. injection E as -> ->. congruence.
Qed.

Lemma elem_of_daysUpTo (n d : Z) : d ∈ daysUpTo n <-> 1 <= d <= n.
Proof.
  unfold daysUpTo. rewrite list_elem_of_fmap. split.
  - intros (k & -> & Hk). apply elem_of_seq in Hk. lia.
  - intros H. exists (Z.to_nat d). split; [lia|]. apply elem_of_seq. lia.
Qed.

Lemma NoDup_daysUpTo (n : Z) : NoDup (daysUpTo n).
Proof.
  unfold daysUpTo. apply NoDup_fmap_2; [|apply NoDup_seq].
  intros a b. lia.
Qed.

Lemma length_daysUpTo (n : Z) : length (daysUpTo n) = Z.to_nat n.
Proof. unfold daysUpTo. by rewrite length_fmap, length_seq. Qed.

Lemma lookup_daysUpTo (n d : Z) :
  1 <= d <= n -> daysUpTo n !! Z.to_nat (d - 1) = Some d.
Proof.
  intros H. unfold daysUpTo. rewrite list_lookup_fmap.
  rewrite lookup_seq_lt by lia. cbn. f_equal. lia.
Qed.

(** The day 0 of the next month is the last day of this one. *)
Lemma monthLength_spec (year month : Z) :
  0 <= month <= 11 ->
  monthLength year month = RealApi.daysInMonth (constructorYear year) month.
Proof.
  intros Hm. unfold monthLength, newDate.
  rewrite (civil_carry (constructorYear year) (month + 1) 0).
  rewrite civil_underflow by (try apply carryMonth_range; lia).
  cbn [dayOfMonth]. rewrite carryMonth_next_prev by done. cbn [fst snd]. lia.
Qed.

Lemma loadDay_lookup year month answers acc (day : Z) (k : string) :
  loadDay year month answers acc day !! k
  = if bool_decide (k = dateISO year month day)
    then match storedFor answers day with
         | Some data => Some data
         | None => acc !! k
         end
    else acc !! k.
Proof.
  unfold loadDay, storedFor.
  destruct (answers day) as [|[] [data|]]; try by case_bool_decide.
  destruct (bool_decide (0 < length data)%nat); [|by case_bool_decide].
  case_bool_decide as E.
  - subst k. by rewrite lookup_insert_eq.
  - by rewrite lookup_insert_ne.
Qed.

(** What the loop leaves under the key of a day, and under any other
    key. *)
Lemma loadDays_lookup year month answers (l : list Z) :
  forall acc (k : string),
    NoDup l -> (forall d, d ∈ l -> 0 <= d <= 99) ->
    foldl (loadDay year month answers) acc l !! k
    = match list_find (fun d => k = dateISO year month d) l with
      | Some (_, d) =>
          match storedFor answers d with
          | Some data => Some data
          | None => acc !! k
          end
      | None => acc !! k
      end.
Proof.
  induction l as [|d l IH]; intros acc k Hnd Hr; [done|].
  apply NoDup_cons in Hnd as [Hd Hnd].
  cbn [foldl]. rewrite IH by (try done; intros; apply Hr; by right).
  cbn [list_find]. rewrite loadDay_lookup.
  destruct (decide (k = dateISO year month d)) as [->|Hk].
  - rewrite bool_decide_eq_true_2 by done.
    destruct (list_find _ l) as [[i d']|] eqn:F; cbn [fmap option_fmap option_map];
      [|done].
    apply list_find_Some in F as (Hl & E & _).
    apply dateISO_inj in E; [|apply Hr; by left|apply Hr; right; by eapply list_elem_of_lookup_2].
    subst d'. destruct Hd. by eapply list_elem_of_lookup_2.
  - rewrite bool_decide_eq_false_2 by done.
    by destruct (list_find _ l) as [[i d']|].
Qed.

Lemma getDay_range c : 0 <= getDay c <= 6.
Proof. unfold getDay, weekDay. pose proof (Z.mod_pos_bound (dayNumber c + 4) 7). lia. Qed.

(** The cell of day [d] in the grid. *)
Lemma monthGrid_lookup (c : CivilDate) (sel : string) acc (d : Z) :
  0 <= monthIndex c <= 11 ->
  1 <= d <= RealApi.daysInMonth (constructorYear (fullYear c)) (monthIndex c) ->
  monthGrid c sel acc
    !! Z.to_nat (getDay (newDate (fullYear c) (monthIndex c) 1) + d - 1)
  = Some (Some {| key := dateISO (fullYear c) (monthIndex c) d;
                  label := numberToString d;
                  date := dateISO (fullYear c) (monthIndex c) d;
                  isSelected :=
                    bool_decide (dateISO (fullYear c) (monthIndex c) d = sel);
                  hasSlots :=
                    bool_decide
                      (is_Some (acc !! dateISO (fullYear c) (monthIndex c) d)) |}).
Proof.
  intros Hm Hd. unfold monthGrid. cbv zeta.
  pose proof (getDay_range (newDate (fullYear c) (monthIndex c) 1)) as Hw.
  rewrite lookup_app_r by (rewrite length_replicate; lia).
  rewrite length_replicate.
  replace (Z.to_nat (getDay (newDate (fullYear c) (monthIndex c) 1) + d - 1)
           - Z.to_nat (getDay (newDate (fullYear c) (monthIndex c) 1)))%nat
    with (Z.to_nat (d - 1)) by lia.
  rewrite list_lookup_fmap, monthLength_spec by done.
  by rewrite lookup_daysUpTo.
Qed.

(** The weekday of a day of the month, from that of the first. *)
Lemma getDay_of_month (year month d : Z) :
  0 <= month <= 11 ->
  1 <= d <= RealApi.daysInMonth (constructorYear year) month ->
  getDay (newDate year month d)
  = (getDay (newDate year month 1) + d - 1) mod 7.
Proof.
  intros Hm Hd. pose proof (daysInMonth_bounds (constructorYear year) month) as Hb.
  unfold newDate.
  rewrite !civil_day by lia.
  unfold getDay, weekDay, dayNumber, makeDay.
  cbn [fullYear monthIndex dayOfMonth].
  destruct (carryMonth (constructorYear year) month) as [yr mn].
  generalize (dayFromYear yr + daysBefore yr (Z.to_nat mn)). intros a.
  replace ((a + 1 - 1 + 4) mod 7 + d - 1) with ((a + 1 - 1 + 4) mod 7 + (d - 1))
    by lia.
  rewrite Z.add_mod_idemp_l by lia. f_equal. lia.
Qed.

Lemma loadMonthSlots_lookup (c : CivilDate) answers (k : string) :
  0 <= monthIndex c <= 11 ->
  loadMonthSlots c answers !! k
  = match list_find (fun d => k = dateISO (fullYear c) (monthIndex c) d)
            (daysUpTo (RealApi.daysInMonth (constructorYear (fullYear c))
                                           (monthIndex c))) with
    | Some (_, d) => storedFor answers d
    | None => None
    end.
Proof.
  intros Hm. unfold loadMonthSlots. cbv zeta. rewrite monthLength_spec by done.
  rewrite loadDays_lookup.
  - destruct (list_find _ _) as [[i d]|]; [|done]. by destruct (storedFor answers d).
  - apply NoDup_daysUpTo.
  - intros d Hd. apply elem_of_daysUpTo in Hd.
    pose proof (daysInMonth_bounds (constructorYear (fullYear c)) (monthIndex c)).
    lia.
Qed.

Lemma storedFor_Some answers (d : Z) (data : list AvailabilitySlot) :
  storedFor answers d = Some data
  <-> answers d = AnswerEnvelope true (Some data) /\ data <> [].
Proof.
  unfold storedFor. destruct (answers d) as [|[] [l|]]; try (split; [done|by intros [? ?]]).
  case_bool_decide as E.
  - split.
    + intros [= ->]. split; [done|]. intros ->. cbn in E. lia.
    + by intros [[= ->] _].
  - split; [done|]. intros [[= ->] Hne]. destruct data; [done|]. cbn in E. lia.
Qed.

End MonthCalendar.

(** X6 (EnhancedMonthGrid, lines 359-388). The grid of a month begins
    with as many empty cells as the weekday of the first, and then has a
    cell for each day of the month, labelled with the day and keyed by
    its date. The cell of a day stands under the header of its weekday:
    its index, counted in rows of seven, is the weekday of that date. It
    is selected exactly when its date is the selected one, and has a dot
    exactly when the month map has an entry for its date. *)
Theorem month_grid_puts_days_under_their_weekday
    (c : DateObject.CivilDate) (selected : string)
    (month_slots : gmap string (list AppointmentsScreen.AvailabilitySlot)) :
  0 <= DateObject.monthIndex c <= 11 ->
  let year := DateObject.fullYear c in
  let month := DateObject.monthIndex c in
  let w := DateObject.getDay (DateObject.newDate year month 1) in
  let n := RealApi.daysInMonth (DateObject.constructorYear year) month in
  let g := AppointmentsScreen.monthGrid c selected month_slots in
  0 <= w <= 6
  /\ length g = Z.to_nat (w + n)
  /\ (forall i, (i < Z.to_nat w)%nat -> g !! i = Some None)
  /\ forall d, 1 <= d <= n ->
       exists cell,
         g !! Z.to_nat (w + d - 1) = Some (Some cell)
         /\ AppointmentsScreen.label cell = numberToString d
         /\ AppointmentsScreen.key cell = AppointmentsScreen.dateISO year month d
         /\ AppointmentsScreen.date cell = AppointmentsScreen.dateISO year month d
         /\ (AppointmentsScreen.isSelected cell = true
             <-> AppointmentsScreen.dateISO year month d = selected)
         /\ (AppointmentsScreen.hasSlots cell = true
             <-> is_Some (month_slots !! AppointmentsScreen.dateISO year month d))
         /\ (w + d - 1) mod 7
            = DateObject.getDay (DateObject.newDate year month d).
Proof.
  intros Hm year month w n g.
  pose proof (getDay_range (DateObject.newDate year month 1)) as Hw. fold w in Hw.
  pose proof (daysInMonth_bounds (DateObject.constructorYear year) month) as Hb.
  fold n in Hb.
  split; [exact Hw|]. split.
  { unfold g, AppointmentsScreen.monthGrid. cbv zeta.
    rewrite length_app, length_replicate, length_fmap, length_daysUpTo.
    rewrite monthLength_spec by done. fold year month w n. lia. }
  split.
  { intros i Hi. unfold g, AppointmentsScreen.monthGrid. cbv zeta.
    rewrite lookup_app_l by (rewrite length_replicate; exact Hi).
    by apply lookup_replicate_2. }
  intros d Hd. eexists. split; [by apply monthGrid_lookup|].
  cbn [AppointmentsScreen.label AppointmentsScreen.key AppointmentsScreen.date
       AppointmentsScreen.isSelected AppointmentsScreen.hasSlots].
  split; [done|]. split; [done|]. split; [done|].
  split; [apply bool_decide_eq_true|]. split; [apply bool_decide_eq_true|].
  symmetry. by apply getDay_of_month.
Qed.

Lemma month_grid_puts_days_under_their_weekday_witness :
  let june := {| DateObject.fullYear := 2024; DateObject.monthIndex := 5;
                 DateObject.dayOfMonth := 17 |} in
  let g := AppointmentsScreen.monthGrid june "2024-06-03" ∅ in
  0 <= DateObject.monthIndex june <= 11
  /\ DateObject.getDay (DateObject.newDate 2024 5 1) = 6
  /\ length g = 36%nat
  /\ (6 + 3 - 1) mod 7 = DateObject.getDay (DateObject.newDate 2024 5 3).
Proof.
  intros june g.
  assert (Hm : 0 <= DateObject.monthIndex june <= 11) by (cbn; lia).
  destruct (month_grid_puts_days_under_their_weekday june "2024-06-03" ∅ Hm)
    as (_ & Hl & _ & Hd).
  destruct (Hd 3 ltac:(vm_compute; split; discriminate))
    as (cell & _ & _ & _ & _ & _ & _ & Hc).
  split; [exact Hm|]. split; [vm_compute; reflexivity|].
  split; [exact Hl|exact Hc].
Defined.

(** X7 (loadMonthAvailability lines 52-78, with EnhancedMonthGrid). The
    month map that [loadMonthAvailability] builds has an entry exactly
    for the days of the month whose request succeeded with at least one
    slot, under the key of the day, and holds no empty list; a day whose
    request failed, was refused or came back empty has none. So in the
    grid drawn from that map a day has a dot exactly when slots were
    loaded for it. *)
Theorem loaded_month_marks_days_with_slots
    (c : DateObject.CivilDate) (selected : string)
    (answers : Z -> AppointmentsScreen.AvailabilityAnswer) :
  0 <= DateObject.monthIndex c <= 11 ->
  let year := DateObject.fullYear c in
  let month := DateObject.monthIndex c in
  let n := RealApi.daysInMonth (DateObject.constructorYear year) month in
  let loaded := AppointmentsScreen.loadMonthSlots c answers in
  let w := DateObject.getDay (DateObject.newDate year month 1) in
  (forall d, 1 <= d <= n ->
     loaded !! AppointmentsScreen.dateISO year month d
     = AppointmentsScreen.storedFor answers d)
  /\ (forall k data,
        loaded !! k = Some data ->
        data <> []
        /\ exists d, 1 <= d <= n
             /\ k = AppointmentsScreen.dateISO year month d
             /\ answers d = AppointmentsScreen.AnswerEnvelope true (Some data))
  /\ AppointmentsScreen.noEmptyDay loaded
  /\ (forall d, 1 <= d <= n ->
        exists cell,
          AppointmentsScreen.monthGrid c selected loaded !! Z.to_nat (w + d - 1)
          = Some (Some cell)
          /\ (AppointmentsScreen.hasSlots cell = true
              <-> exists data,
                    answers d = AppointmentsScreen.AnswerEnvelope true (Some data)
                    /\ data <> [])).
Proof.
  intros Hm year month n loaded w.
  pose proof (daysInMonth_bounds (DateObject.constructorYear year) month) as Hb.
  fold n in Hb.
  assert (H1 : forall d, 1 <= d <= n ->
                 loaded !! AppointmentsScreen.dateISO year month d
                 = AppointmentsScreen.storedFor answers d).
  { intros d Hd. unfold loaded. rewrite loadMonthSlots_lookup by done.
    fold year month n.
    destruct (list_find _ _) as [[i d']|] eqn:F.
    - apply list_find_Some in F as (Hl & E & _).
      apply list_elem_of_lookup_2, elem_of_daysUpTo in Hl.
      apply dateISO_inj in E; [by subst d'|lia|lia].
    - apply list_find_None in F. rewrite Forall_forall in F.
      destruct (F d); [by apply elem_of_daysUpTo|done]. }
  assert (H2 : forall k data,
                 loaded !! k = Some data ->
                 data <> []
                 /\ exists d, 1 <= d <= n
                      /\ k = AppointmentsScreen.dateISO year month d
                      /\ answers d
                         = AppointmentsScreen.AnswerEnvelope true (Some data)).
  { intros k data. unfold loaded. rewrite loadMonthSlots_lookup by done.
    fold year month n.
    destruct (list_find _ _) as [[i d]|] eqn:F; [|done].
    apply list_find_Some in F as (Hl & E & _).
    apply list_elem_of_lookup_2, elem_of_daysUpTo in Hl.
    intros Hs. apply storedFor_Some in Hs as [Ha Hne].
    split; [exact Hne|]. by exists d. }
  split; [exact H1|]. split; [exact H2|]. split.
  { intros k l Hl. by destruct (H2 k l Hl). }
  intros d Hd. eexists. split; [by apply monthGrid_lookup|].
  cbn [AppointmentsScreen.hasSlots]. rewrite bool_decide_eq_true.
  fold year month. rewrite H1 by done. unfold is_Some.
  split; intros [data Hs]; exists data; by apply storedFor_Some.
Qed.

Lemma loaded_month_marks_days_with_slots_witness :
  let june := {| DateObject.fullYear := 2024; DateObject.monthIndex := 5;
                 DateObject.dayOfMonth := 17 |} in
  let slot := {| AppointmentsScreen.startTime := 1717405200000;
                 AppointmentsScreen.endTime := 1717407000000;
                 AppointmentsScreen.available := true |} in
  let answers d :=
    if d =? 3 then AppointmentsScreen.AnswerEnvelope true (Some [slot])
    else if d =? 4 then AppointmentsScreen.AnswerEnvelope true (Some [])
    else if d =? 5 then AppointmentsScreen.AnswerThrows
    else AppointmentsScreen.AnswerEnvelope false None in
  let loaded := AppointmentsScreen.loadMonthSlots june answers in
  0 <= DateObject.monthIndex june <= 11
  /\ loaded !! "2024-06-03"%string = Some [slot]
  /\ loaded !! "2024-06-04"%string = None
  /\ AppointmentsScreen.noEmptyDay loaded.
Proof.
  intros june slot answers loaded.
  assert (Hm : 0 <= DateObject.monthIndex june <= 11) by (cbn; lia).
  destruct (loaded_month_marks_days_with_slots june EmptyString answers Hm)
    as (H1 & _ & H3 & _).
  split; [exact Hm|]. split; [|split; [|exact H3]].
  - exact (H1 3 ltac:(vm_compute; split; discriminate)).
  - exact (H1 4 ltac:(vm_compute; split; discriminate)).
Defined.

(** ** Booking: the month map *)

Section MonthMap.

Import AppointmentsScreen.

Implicit Types (slot : AvailabilitySlot) (m : gmap string (list AvailabilitySlot)).

Lemma noEmptyDay_removeFromMonth (day : string) slot m :
  noEmptyDay m -> noEmptyDay (removeFromMonth day slot m).
Proof.
  intros H k l. unfold removeFromMonth.
  destruct (m !! day) as [daySlots|] eqn:E; [|apply H].
  case_bool_decide as Hlen.
  - destruct (decide (k = day)) as [->|Hk].
    + rewrite lookup_insert_eq. intros [= <-] Hnil. rewrite Hnil in Hlen.
      cbn in Hlen. lia.
    + rewrite lookup_insert_ne by done. apply H.
  - destruct (decide (k = day)) as [->|Hk].
    + by rewrite lookup_delete_eq.
    + rewrite lookup_delete_ne by done. apply H.
Qed.

Lemma noEmptyDay_restoreToMonth (day : string) slot m :
  noEmptyDay m -> noEmptyDay (restoreToMonth day slot m).
Proof.
  intros H k l. unfold restoreToMonth.
  destruct (decide (k = day)) as [->|Hk].
  - rewrite lookup_insert_eq. intros [= <-]. by destruct (default [] (m !! day)).
  - rewrite lookup_insert_ne by done. apply H.
Qed.

Lemma noEmptyDay_meanwhile (ws : list Meanwhile) (st : State) :
  Forall keepsDays ws -> noEmptyDay (monthSlots st) ->
  noEmptyDay (monthSlots (foldl meanwhile st ws)).
Proof.
  intros Hws. revert st. induction Hws as [|w ws Hw _ IH]; intros st H; [done|].
  simpl. apply IH. destruct w; try exact H. exact Hw.
Qed.

Lemma monthSlots_meanwhile (ws : list Meanwhile) (st : State) :
  forallb (fun w => negb (isMonthLoad w)) ws = true ->
  monthSlots (foldl meanwhile st ws) = monthSlots st.
Proof.
  revert st. induction ws as [|w ws IH]; intros st H; [done|].
  simpl in H. apply andb_true_iff in H as [Hw H]. simpl.
  rewrite IH by done. by destruct w.
Qed.

Lemma monthSlots_bookSettle (day : string) slot (res : BookResult) (st : State) :
  monthSlots (bookSettle day slot res st)
  = match res with
    | Accepted => monthSlots st
    | _ => restoreToMonth day slot (monthSlots st)
    end.
Proof. by destruct res. Qed.

Lemma monthSlots_confirmBook slot (during : list Meanwhile) (res : BookResult)
    (st : State) :
  monthSlots (confirmBook slot during res st)
  = match doctorId st with
    | None => monthSlots st
    | Some doctor =>
        monthSlots (bookSettle (selectedDate st) slot res
                      (foldl meanwhile (bookOptimistic doctor slot st) during))
    end.
Proof. unfold confirmBook. by destruct (doctorId st). Qed.

End MonthMap.

(** X8 (confirmBook lines 99-179, the updaters of lines 112-126, 146-151
    and 166-171). The month map never comes to hold an empty list: when
    no entry is an empty list, none is after the optimistic removal, none
    after the updaters that follow the request, whatever its outcome and
    whatever the date, and so none after [confirmBook], provided that
    the month loads that land while the request is awaited bring no
    empty list either. The removal deletes the entry of the day when the
    slot was its last, so that a day whose last slot was booked has no
    entry, and no dot in the calendar, unless a month load landed while
    the request was awaited. *)
Theorem month_map_has_no_empty_day
    (slot : AppointmentsScreen.AvailabilitySlot)
    (st : AppointmentsScreen.State) :
  AppointmentsScreen.noEmptyDay (AppointmentsScreen.monthSlots st) ->
  (forall doctor,
      AppointmentsScreen.noEmptyDay
        (AppointmentsScreen.monthSlots
           (AppointmentsScreen.bookOptimistic doctor slot st)))
  /\ (forall day res,
        AppointmentsScreen.noEmptyDay
          (AppointmentsScreen.monthSlots
             (AppointmentsScreen.bookSettle day slot res st)))
  /\ (forall during res,
        Forall AppointmentsScreen.keepsDays during ->
        AppointmentsScreen.noEmptyDay
          (AppointmentsScreen.monthSlots
             (AppointmentsScreen.confirmBook slot during res st)))
  /\ (forall doctor l during,
        AppointmentsScreen.doctorId st = Some doctor ->
        AppointmentsScreen.monthSlots st !! AppointmentsScreen.selectedDate st
        = Some l ->
        AppointmentsScreen.keepOthers slot l = [] ->
        forallb (fun w => negb (AppointmentsScreen.isMonthLoad w)) during = true ->
        AppointmentsScreen.monthSlots
          (AppointmentsScreen.confirmBook slot during AppointmentsScreen.Accepted st)
        !! AppointmentsScreen.selectedDate st = None).
Proof.
  intros H.
  assert (Hsettle : forall day res s,
             AppointmentsScreen.noEmptyDay (AppointmentsScreen.monthSlots s) ->
             AppointmentsScreen.noEmptyDay
               (AppointmentsScreen.monthSlots
                  (AppointmentsScreen.bookSettle day slot res s))).
  { intros day res s Hs. rewrite monthSlots_bookSettle.
    destruct res; try apply noEmptyDay_restoreToMonth; exact Hs. }
  split; [|split; [|split]].
  - intros doctor. by apply noEmptyDay_removeFromMonth.
  - intros day res. by apply Hsettle.
  - intros during res Hd. rewrite monthSlots_confirmBook.
    destruct (AppointmentsScreen.doctorId st) as [doctor|]; [|done].
    apply Hsettle, noEmptyDay_meanwhile; [done|].
    by apply noEmptyDay_removeFromMonth.
  - intros doctor l during Hd Hl Hk Hq.
    rewrite monthSlots_confirmBook, Hd, monthSlots_bookSettle.
    rewrite monthSlots_meanwhile by done. simpl.
    unfold AppointmentsScreen.removeFromMonth. rewrite Hl, Hk.
    rewrite bool_decide_eq_false_2 by (cbn; lia).
    apply lookup_delete_eq.
Qed.

Lemma month_map_has_no_empty_day_witness :
  let a := {| AppointmentsScreen.startTime := 1717232400000;
              AppointmentsScreen.endTime := 1717234200000;
              AppointmentsScreen.available := true |} in
  let st := {| AppointmentsScreen.doctorId := Some "D1"%string;
               AppointmentsScreen.selectedDate := "2024-06-01";
               AppointmentsScreen.slots := [a];
               AppointmentsScreen.monthSlots := {[ "2024-06-01"%string := [a] ]};
               AppointmentsScreen.booking := false;
               AppointmentsScreen.effects := [] |} in
  AppointmentsScreen.noEmptyDay (AppointmentsScreen.monthSlots st)
  /\ AppointmentsScreen.monthSlots
       (AppointmentsScreen.confirmBook a
          [AppointmentsScreen.DateSelected "2024-06-02"]
          AppointmentsScreen.Accepted st)
     !! "2024-06-01"%string = None.
Proof.
  intros a st.
  assert (H : AppointmentsScreen.noEmptyDay (AppointmentsScreen.monthSlots st)).
  { intros k l. cbn [AppointmentsScreen.monthSlots st].
    intros Hl%lookup_singleton_Some. destruct Hl as [_ <-]. discriminate. }
  split; [exact H|].
  exact (proj2 (proj2 (proj2 (month_map_has_no_empty_day a st H))) "D1"%string [a]
           [AppointmentsScreen.DateSelected "2024-06-02"]
           eq_refl ltac:(vm_compute; reflexivity) ltac:(vm_compute; reflexivity)
           eq_refl).
Defined.

(** A month load that lands while the request is awaited brings the
    entry of the booked day back. *)
Example month_load_during_booking_brings_entry_back :
  let a := {| AppointmentsScreen.startTime := 1717232400000;
              AppointmentsScreen.endTime := 1717234200000;
              AppointmentsScreen.available := true |} in
  let st := {| AppointmentsScreen.doctorId := Some "D1"%string;
               AppointmentsScreen.selectedDate := "2024-06-01";
               AppointmentsScreen.slots := [a];
               AppointmentsScreen.monthSlots := {[ "2024-06-01"%string := [a] ]};
               AppointmentsScreen.booking := false;
               AppointmentsScreen.effects := [] |} in
  AppointmentsScreen.monthSlots
    (AppointmentsScreen.confirmBook a
       [AppointmentsScreen.MonthLoaded {[ "2024-06-01"%string := [a] ]}]
       AppointmentsScreen.Accepted st)
  !! "2024-06-01"%string = Some [a].
Proof. vm_compute. reflexivity. Qed.

(** ** The day navigator of the appointments screen *)

Section DayNavigator.

Import DateObject AppointmentsScreen.

Implicit Types (c : CivilDate).

(** One day on or back from a day of the calendar is a day of the
    calendar, in the same year or the one next to it. *)
Lemma setDate_near c (k : Z) :
  validDay c = true -> -1 <= k <= 1 ->
  validDay (setDate (dayOfMonth c + k) c) = true
  /\ fullYear c - 1 <= fullYear (setDate (dayOfMonth c + k) c) <= fullYear c + 1.
Proof.
  intros Hv Hk. apply validDay_spec in Hv as (Hm & Hd).
  pose proof (daysInMonth_bounds (fullYear c) (monthIndex c)) as Hb.
  unfold setDate.
  destruct (Z_lt_le_dec (dayOfMonth c + k) 1) as [Hlo|Hlo];
    [|destruct (Z_lt_le_dec (RealApi.daysInMonth (fullYear c) (monthIndex c))
                  (dayOfMonth c + k)) as [Hhi|Hhi]].
  - rewrite civil_underflow by lia. rewrite carryMonth_prev by done.
    pose proof (daysInMonth_bounds (fullYear c - 1) 11).
    pose proof (daysInMonth_bounds (fullYear c) (monthIndex c - 1)).
    destruct (monthIndex c =? 0) eqn:E; cbn [fst snd fullYear];
      (split; [apply validDay_spec; cbn [fullYear monthIndex dayOfMonth]|]);
      rewrite ?Z.eqb_neq in E; lia.
  - rewrite civil_overflow by lia. rewrite carryMonth_next by done.
    pose proof (daysInMonth_bounds (fullYear c + 1) 0).
    pose proof (daysInMonth_bounds (fullYear c) (monthIndex c + 1)).
    destruct (monthIndex c =? 11) eqn:E; cbn [fst snd fullYear];
      (split; [apply validDay_spec; cbn [fullYear monthIndex dayOfMonth]|]);
      rewrite ?Z.eqb_neq in E; lia.
  - rewrite civil_day by lia. cbn [fullYear].
    split; [apply validDay_spec; cbn [fullYear monthIndex dayOfMonth]|]; lia.
Qed.

(** The day before the day after is the day itself. *)
Lemma setDate_succ_pred c :
  validDay c = true ->
  setDate (dayOfMonth (setDate (dayOfMonth c + 1) c) - 1)
          (setDate (dayOfMonth c + 1) c) = c.
Proof.
  intros Hv. apply validDay_spec in Hv as (Hm & Hd).
  pose proof (daysInMonth_bounds (fullYear c) (monthIndex c)) as Hb.
  unfold setDate at 2 3.
  destruct (Z_lt_le_dec (RealApi.daysInMonth (fullYear c) (monthIndex c))
              (dayOfMonth c + 1)) as [Hhi|Hhi].
  - rewrite civil_overflow by lia. unfold setDate.
    cbn [fullYear monthIndex dayOfMonth].
    rewrite civil_underflow by (try apply carryMonth_range; lia).
    rewrite carryMonth_next_prev by done. cbn [fst snd].
    destruct c as [y m d]. cbn [fullYear monthIndex dayOfMonth] in *.
    f_equal. lia.
  - rewrite civil_day by lia. unfold setDate.
    cbn [fullYear monthIndex dayOfMonth].
    rewrite civil_day by lia. destruct c as [y m d].
    cbn [fullYear monthIndex dayOfMonth]. f_equal. lia.
Qed.

(** The date part of the ISO format, character by character, for a day
    of a four-digit year. *)
Lemma isoDate_chars c :
  validDay c = true -> 1000 <= fullYear c <= 9999 ->
  exists y1 y2 y3 y4 m1 m2 d1 d2,
    isoDate c
    = String y1 (String y2 (String y3 (String y4 (String "-"
        (String m1 (String m2 (String "-"
          (String d1 (String d2 EmptyString)))))))))
    /\ RealApi.digits4 y1 y2 y3 y4 = Some (fullYear c)
    /\ RealApi.digits2 m1 m2 = Some (monthIndex c + 1)
    /\ RealApi.digits2 d1 d2 = Some (dayOfMonth c).
Proof.
  intros Hv Hy. apply validDay_spec in Hv as (Hm & Hd).
  pose proof (daysInMonth_bounds (fullYear c) (monthIndex c)) as Hb.
  destruct (year_prints (fullYear c) Hy) as (y1 & y2 & y3 & y4 & Ey & Py).
  destruct (two_digits_print (monthIndex c + 1)) as (m1 & m2 & Em & Pm); [lia|].
  destruct (two_digits_print (dayOfMonth c)) as (d1 & d2 & Ed & Pd); [lia|].
  exists y1, y2, y3, y4, m1, m2, d1, d2. split; [|done].
  unfold isoDate, isoYear.
  rewrite (proj2 (Z.leb_le 0 (fullYear c))) by lia.
  rewrite (proj2 (Z.leb_le (fullYear c) 9999)) by lia. cbn [andb].
  rewrite Ey, Em, Ed. reflexivity.
Qed.

(** The selected date, with the time appended, is read as the local
    midnight of the day. *)
Lemma parse_selected c :
  validDay c = true -> 1000 <= fullYear c <= 9999 ->
  RealApi.parseLocalDateTime (isoDate c +:+ "T00:00:00")
  = Some {| RealApi.year := fullYear c; RealApi.month := monthIndex c;
            RealApi.day := dayOfMonth c; RealApi.hours := 0;
            RealApi.minutes := 0; RealApi.seconds := 0; RealApi.millis := 0 |}.
Proof.
  intros Hv Hy.
  destruct (isoDate_chars c Hv Hy)
    as (y1 & y2 & y3 & y4 & m1 & m2 & d1 & d2 & E & Py & Pm & Pd).
  apply validDay_spec in Hv as (Hm & Hd).
  rewrite E. cbv [String.append].
  unfold RealApi.parseLocalDateTime. cbn [chars_of_string].
  rewrite !bool_decide_eq_true_2 by reflexivity. cbn [andb].
  rewrite Py, Pm, Pd. cbn [mbind option_bind].
  change (RealApi.digits2 "0" "0") with (Some 0). cbn [mbind option_bind].
  unfold RealApi.parseSeconds. rewrite bool_decide_eq_true_2 by reflexivity.
  change (RealApi.digits2 "0" "0") with (Some 0). cbn [mbind option_bind fst snd].
  replace (monthIndex c + 1 - 1) with (monthIndex c) by lia.
  unfold RealApi.fieldsOk.
  cbn [RealApi.year RealApi.month RealApi.day RealApi.hours RealApi.minutes
       RealApi.seconds RealApi.millis].
  rewrite (proj2 (Z.leb_le 0 (monthIndex c))) by lia.
  rewrite (proj2 (Z.leb_le (monthIndex c) 11)) by lia.
  rewrite (proj2 (Z.leb_le 1 (dayOfMonth c))) by lia.
  rewrite (proj2 (Z.leb_le (dayOfMonth c) _)) by lia.
  reflexivity.
Qed.

(** The first ten characters of [toISOString] are the date. *)
Lemma isoDate_slice c (minute seconds millis : Z) :
  validDay c = true -> 1000 <= fullYear c <= 9999 ->
  String.substring 0 10 (toISOString c minute seconds millis) = isoDate c.
Proof.
  intros Hv Hy.
  destruct (isoDate_chars c Hv Hy)
    as (y1 & y2 & y3 & y4 & m1 & m2 & d1 & d2 & E & _).
  unfold toISOString. rewrite E. reflexivity.
Qed.

(** The handler, once the selected date has been read. *)
Lemma shiftSelectedDate_eq
    (zoneHas : RealApi.LocalTime -> bool)
    (zoneAdjust : RealApi.LocalTime -> RealApi.LocalTime)
    (platformParse : string -> RealApi.JsDate) c (delta offset : Z) :
  validDay c = true -> 1000 <= fullYear c <= 9999 ->
  zoneHas {| RealApi.year := fullYear c; RealApi.month := monthIndex c;
             RealApi.day := dayOfMonth c; RealApi.hours := 0;
             RealApi.minutes := 0; RealApi.seconds := 0;
             RealApi.millis := 0 |} = true ->
  shiftSelectedDate zoneHas zoneAdjust platformParse delta offset (isoDate c)
  = Some (String.substring 0 10
            (toISOString
               (setDate (dayOfMonth (setDate (dayOfMonth c + delta) c)
                         + (0 - offset) / 1440)
                        (setDate (dayOfMonth c + delta) c))
               ((0 - offset) mod 1440) 0 0)).
Proof.
  intros Hv Hy Hz. unfold shiftSelectedDate, RealApi.newDate.
  rewrite parse_selected, Hz by done.
  cbn [RealApi.year RealApi.month RealApi.day RealApi.hours RealApi.minutes
       RealApi.seconds RealApi.millis dayOfMonth].
  change (60 * 0 + 0) with 0. unfold utcOfLocal. by destruct c.
Qed.

End DayNavigator.

(** X9 (the chevrons of the day navigator, lines 309-326). The handler
    reads the selected date as local midnight, moves one day with
    [setDate], and writes back the first ten characters of
    [toISOString], which is the date in UTC. Where local time is not
    ahead of UTC the selected date moves by the one day. Where local
    time is ahead of UTC, local midnight still belongs to the day before
    in UTC, so the date written is one day earlier than the day aimed
    at: the forward chevron leaves the selected date as it was. *)
Theorem day_navigator_writes_the_utc_day
    (zoneHas : RealApi.LocalTime -> bool)
    (zoneAdjust : RealApi.LocalTime -> RealApi.LocalTime)
    (platformParse : string -> RealApi.JsDate)
    (c : DateObject.CivilDate) (delta offset : Z) :
  DateObject.validDay c = true ->
  1002 <= DateObject.fullYear c <= 9997 ->
  zoneHas {| RealApi.year := DateObject.fullYear c;
             RealApi.month := DateObject.monthIndex c;
             RealApi.day := DateObject.dayOfMonth c; RealApi.hours := 0;
             RealApi.minutes := 0; RealApi.seconds := 0;
             RealApi.millis := 0 |} = true ->
  -1 <= delta <= 1 ->
  let aimed := DateObject.setDate (DateObject.dayOfMonth c + delta) c in
  let written :=
    AppointmentsScreen.shiftSelectedDate zoneHas zoneAdjust platformParse
      delta offset (DateObject.isoDate c) in
  (-1440 < offset <= 0 -> written = Some (DateObject.isoDate aimed))
  /\ (0 < offset <= 1440 ->
      written
      = Some (DateObject.isoDate
                (DateObject.setDate (DateObject.dayOfMonth aimed - 1) aimed)))
  /\ (0 < offset <= 1440 -> delta = 1 ->
      written = Some (DateObject.isoDate c)).
Proof.
  intros Hv Hy Hz Hk aimed written.
  destruct (setDate_near c delta Hv Hk) as [Hva Hya]. fold aimed in Hva, Hya.
  assert (E : written
              = Some (String.substring 0 10
                        (DateObject.toISOString
                           (DateObject.setDate
                              (DateObject.dayOfMonth aimed + (0 - offset) / 1440)
                              aimed)
                           ((0 - offset) mod 1440) 0 0))).
  { unfold written. rewrite shiftSelectedDate_eq by (done || lia). done. }
  assert (H1 : -1440 < offset <= 0 -> written = Some (DateObject.isoDate aimed)).
  { intros Ho. rewrite E. rewrite Z.div_small by lia.
    destruct (setDate_near aimed 0 Hva ltac:(lia)) as [Hv0 _].
    assert (E0 : DateObject.setDate (DateObject.dayOfMonth aimed + 0) aimed = aimed).
    { unfold DateObject.setDate. rewrite Z.add_0_r. by apply civil_valid. }
    rewrite E0. by rewrite isoDate_slice by (done || lia). }
  assert (H2 : 0 < offset <= 1440 ->
               written
               = Some (DateObject.isoDate
                         (DateObject.setDate (DateObject.dayOfMonth aimed - 1)
                                             aimed))).
  { intros Ho. rewrite E.
    assert (Ediv : (0 - offset) / 1440 = -1)
      by (symmetry; apply (Z.div_unique (0 - offset) 1440 (-1) (1440 - offset));
          lia).
    rewrite Ediv.
    destruct (setDate_near aimed (-1) Hva ltac:(lia)) as [Hvb Hyb].
    change (DateObject.dayOfMonth aimed + -1)
      with (DateObject.dayOfMonth aimed - 1) in *.
    by rewrite isoDate_slice by (done || lia). }
  split; [exact H1|]. split; [exact H2|].
  intros Ho ->. rewrite H2 by done. unfold aimed.
  by rewrite setDate_succ_pred.
Qed.

Lemma day_navigator_writes_the_utc_day_witness :
  let june10 := {| DateObject.fullYear := 2024; DateObject.monthIndex := 5;
                   DateObject.dayOfMonth := 10 |} in
  let press delta offset :=
    AppointmentsScreen.shiftSelectedDate (fun _ => true) (fun t => t)
      (fun _ => RealApi.InvalidDate) delta offset "2024-06-10" in
  DateObject.isoDate june10 = "2024-06-10"%string
  /\ press 1 (-180) = Some "2024-06-11"%string
  /\ press 1 120 = Some "2024-06-10"%string
  /\ press (-1) 120 = Some "2024-06-08"%string.
Proof.
  intros june10 press.
  assert (Hv : DateObject.validDay june10 = true) by reflexivity.
  assert (Hy : 1002 <= DateObject.fullYear june10 <= 9997) by (cbn; lia).
  split; [reflexivity|]. split; [|split].
  - exact (proj1 (day_navigator_writes_the_utc_day (fun _ => true) (fun t => t)
                    (fun _ => RealApi.InvalidDate) june10 1 (-180) Hv Hy eq_refl
                    ltac:(lia)) ltac:(lia)).
  - exact (proj2 (proj2 (day_navigator_writes_the_utc_day (fun _ => true)
                    (fun t => t) (fun _ => RealApi.InvalidDate) june10 1 120
                    Hv Hy eq_refl ltac:(lia))) ltac:(lia) eq_refl).
  - exact (proj1 (proj2 (day_navigator_writes_the_utc_day (fun _ => true)
                    (fun t => t) (fun _ => RealApi.InvalidDate) june10 (-1) 120
                    Hv Hy eq_refl ltac:(lia))) ltac:(lia)).
Defined.

(** ** The API service: appointments and the avatar token *)

Section ApiFacts.

Import ApiService MyAppointmentsScreen.

Lemma upper_lower_char (c : ascii) : upperChar (lowerChar c) = upperChar c.
Proof. destruct c as [[] [] [] [] [] [] [] []]; reflexivity. Qed.

(** Lower case does not matter to a comparison in upper case. *)
Lemma toUpperCase_toLowerCase (s : string) :
  toUpperCase (toLowerCase s) = toUpperCase s.
Proof.
  induction s as [|c s IH]; [done|].
  cbn [toLowerCase toUpperCase]. by rewrite upper_lower_char, IH.
Qed.

Lemma getStatusText_scheduled (status : string) :
  getStatusText status = "Scheduled"%string
  <-> toUpperCase status = "SCHEDULED"%string.
Proof.
  unfold getStatusText. cbv zeta.
  assert (E : str_or status EmptyString = status) by (by destruct status).
  rewrite E. repeat case_bool_decide; split; try done.
  intros ->. exfalso.
  match goal with H : _ <> "SCHEDULED"%string |- _ => by apply H end.
Qed.

Lemma orDefault_truthy (value : option string) (fallback : string) :
  orDefault value fallback
  = match value with
    | Some (String c s) => String c s
    | _ => fallback
    end.
Proof. by destruct value as [[|c s]|]. Qed.

End ApiFacts.

(** X10 (bookAppointment, lines 690-709, with formatLocalISO and
    parseAsLocal). The request carries the start of the slot as local
    wall-clock time without a zone. When the server answers with the
    start time it was sent, with or without a trailing Z, the appointment
    that [bookAppointment] returns starts at the same local year, month,
    day, hour, minute and second as the slot; a missing status becomes
    scheduled and a missing type GENERAL. A rejected request, or a body
    without an appointment, makes the call throw. *)
Theorem booked_appointment_keeps_local_time
    (zoneHas : RealApi.LocalTime -> bool)
    (zoneAdjust : RealApi.LocalTime -> RealApi.LocalTime)
    (platformParse : string -> RealApi.JsDate)
    (doctor : string) (t : RealApi.LocalTime)
    (server : ApiService.BookingRequest
              -> ApiService.Http ApiService.AppointmentBody) :
  RealApi.fieldsOk t = true ->
  1000 <= RealApi.year t <= 9999 ->
  zoneHas (RealApi.wholeSecond t) = true ->
  let request :=
    ApiService.bookingRequest doctor (RealApi.DateOf t) None None in
  let answer :=
    ApiService.bookAppointment zoneHas zoneAdjust platformParse doctor
      (RealApi.DateOf t) None None server in
  ApiService.requestStartTime request = RealApi.formatLocalISO (RealApi.DateOf t)
  /\ ApiService.requestDurationMinutes request = 30
  /\ ApiService.requestAppointmentType request = "GENERAL"%string
  /\ (server request = ApiService.Rejects -> answer = ApiService.Throws)
  /\ (forall body,
        server request = ApiService.Resolves body ->
        ApiService.bodyData body = None -> answer = ApiService.Throws)
  /\ (forall body a,
        server request = ApiService.Resolves body ->
        ApiService.bodyData body = Some a ->
        exists appointment,
          answer
          = ApiService.Returns
              {| RealApi.success := ApiService.bodySuccess body;
                 RealApi.data := Some appointment;
                 RealApi.error := ApiService.bodyError body |}
          /\ (ApiService.backendStartTime a
              = Some (ApiService.requestStartTime request)
              \/ ApiService.backendStartTime a
                 = Some (ApiService.requestStartTime request +:+ "Z") ->
              ApiService.startTime appointment
              = Some (RealApi.DateOf (RealApi.wholeSecond t)))
          /\ (ApiService.backendStatus a = None ->
              ApiService.status appointment = "scheduled"%string)
          /\ (ApiService.backendAppointmentType a = None ->
              ApiService.appointmentType appointment = Some "GENERAL"%string)).
Proof.
  intros Hok Hy Hz request answer.
  destruct (parse_format t Hok Hy) as (Hp & He & Ht).
  split; [done|]. split; [done|]. split; [done|].
  split; [|split].
  - intros Hs. unfold answer, ApiService.bookAppointment. fold request.
    by rewrite Hs.
  - intros body Hs Hd. unfold answer, ApiService.bookAppointment. fold request.
    by rewrite Hs, Hd.
  - intros body a Hs Hd. eexists. split.
    { unfold answer, ApiService.bookAppointment. fold request.
      rewrite Hs, Hd. reflexivity. }
    cbn [ApiService.startTime ApiService.status ApiService.appointmentType
         ApiService.transformBooked].
    split; [|split].
    + change (ApiService.requestStartTime request)
        with (RealApi.formatLocalISO (RealApi.DateOf t)).
      intros [E|E]; rewrite E; cbn [ApiService.dateInput];
        unfold ApiService.parseAsLocal, RealApi.parseAsLocal, RealApi.newDate.
      * by rewrite Ht, He, Hp, Hz.
      * rewrite endsWithZ_snoc, dropLast_snoc, Hp, Hz.
        by destruct (RealApi.formatLocalISO (RealApi.DateOf t)).
    + by intros ->.
    + by intros ->.
Qed.

Lemma booked_appointment_keeps_local_time_witness :
  let t := {| RealApi.year := 2024; RealApi.month := 5; RealApi.day := 3;
              RealApi.hours := 9; RealApi.minutes := 30;
              RealApi.seconds := 0; RealApi.millis := 0 |} in
  let server (req : ApiService.BookingRequest) :=
    ApiService.Resolves
      {| ApiService.bodySuccess := true;
         ApiService.bodyData :=
           Some {| ApiService.backendId := "a1";
                   ApiService.backendPatientId := "p1";
                   ApiService.backendDoctorId := ApiService.requestDoctorId req;
                   ApiService.backendStartTime :=
                     Some (ApiService.requestStartTime req +:+ "Z");
                   ApiService.backendEndTime := None;
                   ApiService.backendStatus := None;
                   ApiService.backendCheckInAt := None;
                   ApiService.backendAppointmentType := None |};
         ApiService.bodyError := None |} in
  RealApi.fieldsOk t = true
  /\ 1000 <= RealApi.year t <= 9999
  /\ exists appointment,
       ApiService.bookAppointment (fun _ => true) (fun x => x)
         (fun _ => RealApi.InvalidDate) "d1" (RealApi.DateOf t) None None server
       = ApiService.Returns
           {| RealApi.success := true; RealApi.data := Some appointment;
              RealApi.error := None |}
       /\ ApiService.startTime appointment = Some (RealApi.DateOf t)
       /\ ApiService.status appointment = "scheduled"%string.
Proof.
  intros t server.
  assert (Hok : RealApi.fieldsOk t = true) by reflexivity.
  assert (Hy : 1000 <= RealApi.year t <= 9999) by (cbn; lia).
  split; [exact Hok|]. split; [exact Hy|].
  destruct (booked_appointment_keeps_local_time (fun _ => true) (fun x => x)
              (fun _ => RealApi.InvalidDate) "d1" t server Hok Hy eq_refl)
    as (_ & _ & _ & _ & _ & H).
  destruct (H _ _ eq_refl eq_refl) as (appointment & E & Hs & Hst & _).
  exists appointment. split; [exact E|].
  split; [exact (Hs (or_intror eq_refl))|exact (Hst eq_refl)].
Defined.

(** X11 (getMyAppointments lines 726-739, with getStatusText and
    canCheckIn of MyAppointmentsScreen). The Check In button is offered
    exactly for the appointments shown as Scheduled: those whose status
    from the backend is SCHEDULED in any mix of upper and lower case, and
    those the backend sent without a status or with an empty one. *)
Theorem check_in_is_offered_when_scheduled
    (zoneHas : RealApi.LocalTime -> bool)
    (zoneAdjust : RealApi.LocalTime -> RealApi.LocalTime)
    (platformParse : string -> RealApi.JsDate)
    (a : ApiService.BackendAppointment) :
  (forall s, ApiService.backendStatus a = Some s ->
             MyAppointmentsScreen.isAscii s = true) ->
  let appointment :=
    ApiService.transformMine zoneHas zoneAdjust platformParse a in
  (MyAppointmentsScreen.canCheckIn appointment = true
   <-> MyAppointmentsScreen.getStatusText (ApiService.status appointment)
       = "Scheduled"%string)
  /\ (MyAppointmentsScreen.canCheckIn appointment = true
      <-> ApiService.backendStatus a = None
          \/ ApiService.backendStatus a = Some EmptyString
          \/ exists s, ApiService.backendStatus a = Some s
                       /\ toUpperCase s = "SCHEDULED"%string).
Proof.
  intros _ appointment. split.
  - unfold MyAppointmentsScreen.canCheckIn. rewrite bool_decide_eq_true.
    symmetry. apply getStatusText_scheduled.
  - unfold MyAppointmentsScreen.canCheckIn. rewrite bool_decide_eq_true.
    cbn [ApiService.status appointment ApiService.transformMine].
    rewrite toUpperCase_toLowerCase, orDefault_truthy.
    destruct (ApiService.backendStatus a) as [[|c s]|].
    + split; [by right; left|done].
    + split.
      * intros H. right. right. by eexists.
      * intros [H|[H|(s' & [= <-] & H)]]; done.
    + split; [by left|done].
Qed.

Lemma check_in_is_offered_when_scheduled_witness :
  let a status :=
    {| ApiService.backendId := "a1"; ApiService.backendPatientId := "p1";
       ApiService.backendDoctorId := "d1";
       ApiService.backendStartTime := Some "2024-06-03T09:30:00Z"%string;
       ApiService.backendEndTime := Some "2024-06-03T10:00:00Z"%string;
       ApiService.backendStatus := status;
       ApiService.backendCheckInAt := None;
       ApiService.backendAppointmentType := None |} in
  let appointment status :=
    ApiService.transformMine (fun _ => true) (fun x => x)
      (fun _ => RealApi.InvalidDate) (a status) in
  MyAppointmentsScreen.canCheckIn (appointment (Some "Scheduled"%string)) = true
  /\ MyAppointmentsScreen.canCheckIn (appointment None) = true
  /\ MyAppointmentsScreen.canCheckIn (appointment (Some "CHECKED_IN"%string))
     = false.
Proof.
  intros a appointment.
  assert (H1 : forall s, ApiService.backendStatus (a (Some "Scheduled"%string))
                         = Some s -> MyAppointmentsScreen.isAscii s = true)
    by (intros s [= <-]; reflexivity).
  assert (H2 : forall s, ApiService.backendStatus (a None) = Some s ->
                         MyAppointmentsScreen.isAscii s = true)
    by (intros s H; discriminate H).
  split; [|split].
  - apply (proj2 (check_in_is_offered_when_scheduled (fun _ => true)
                    (fun x => x) (fun _ => RealApi.InvalidDate) _ H1)).
    right. right. eexists. split; reflexivity.
  - apply (proj2 (check_in_is_offered_when_scheduled (fun _ => true)
                    (fun x => x) (fun _ => RealApi.InvalidDate) _ H2)).
    by left.
  - reflexivity.
Defined.

Section TokenFacts.

Import AICheckInScreen.

(** What the flow does with a token that is not empty. *)
Lemma flowToken_truthy (tok : string) (now : Z) (s : Session) :
  truthy tok = true ->
  let s' := flowToken (TokenOk tok) now false s in
  heygenEnabledRef s' = true /\ heygenToken s' = Some tok
  /\ flow s' = FlowPolling now /\ effects s' = effects s
  /\ interviewStarted s' = interviewStarted s.
Proof.
  intros Ht. unfold flowToken. rewrite Ht. by destruct s.
Qed.

(** What the flow does without a token. *)
Lemma flowToken_off (r : TokenResult) (now : Z) (s : Session) :
  r = TokenMissing \/ r = TokenThrows ->
  let s' := flowToken r now false s in
  heygenEnabledRef s' = false /\ heygenToken s' = None
  /\ flow s' = FlowDone /\ interviewStarted s' = true
  /\ effects s' = effects s ++ (if socketRef s then [EmitStart] else []).
Proof.
  intros [-> | ->]; destruct s; destruct socketRef0; cbn;
    by rewrite ?app_nil_r.
Qed.

(** The answer of [getHeygenToken], as the flow reads it. *)
Lemma tokenResult_getHeygenToken (http : ApiService.Http ApiService.TokenBody) :
  tokenResult (ApiService.getHeygenToken http)
  = match http with
    | ApiService.Rejects => TokenThrows
    | ApiService.Resolves raw =>
        match ApiService.tokenOf raw with
        | Some (String c t) => TokenOk (String c t)
        | _ => TokenMissing
        end
    end.
Proof.
  destruct http as [raw|]; [|done].
  unfold ApiService.getHeygenToken, tokenResult. cbv zeta.
  cbn [RealApi.success RealApi.data].
  by destruct (ApiService.tokenOf raw) as [[|c t]|].
Qed.

End TokenFacts.

(** X12 (getHeygenToken, lines 882-891, and the start of
    startInterviewFlow, lines 468-490 and 507-512). The avatar is switched
    on exactly when the token request resolves with a token that is not
    empty: the one under [data] when there is one, otherwise the one at
    the top level of the body. The flow then keeps that token and waits
    for the avatar without sending anything. In every other case,
    a rejected request included, the avatar stays off, no token is kept
    and the interview is started at once. *)
Theorem avatar_is_on_iff_token_arrives
    (http : ApiService.Http ApiService.TokenBody) (now : Z)
    (s : AICheckInScreen.Session) :
  let s' :=
    AICheckInScreen.flowToken
      (AICheckInScreen.tokenResult (ApiService.getHeygenToken http))
      now false s in
  let arrived :=
    match http with
    | ApiService.Resolves raw =>
        match ApiService.rawDataToken raw with
        | Some (String c t) => Some (String c t)
        | _ => match ApiService.rawToken raw with
               | Some (String c t) => Some (String c t)
               | _ => None
               end
        end
    | ApiService.Rejects => None
    end in
  AICheckInScreen.heygenToken s' = arrived
  /\ match arrived with
     | Some _ =>
         AICheckInScreen.heygenEnabledRef s' = true
         /\ AICheckInScreen.flow s' = AICheckInScreen.FlowPolling now
         /\ AICheckInScreen.effects s' = AICheckInScreen.effects s
         /\ AICheckInScreen.interviewStarted s'
            = AICheckInScreen.interviewStarted s
     | None =>
         AICheckInScreen.heygenEnabledRef s' = false
         /\ AICheckInScreen.flow s' = AICheckInScreen.FlowDone
         /\ AICheckInScreen.interviewStarted s' = true
         /\ AICheckInScreen.effects s'
            = AICheckInScreen.effects s
              ++ (if AICheckInScreen.socketRef s
                  then [AICheckInScreen.EmitStart] else [])
     end.
Proof.
  intros s' arrived. unfold s'. rewrite tokenResult_getHeygenToken.
  assert (Ha : arrived
               = match http with
                 | ApiService.Resolves raw =>
                     match ApiService.tokenOf raw with
                     | Some (String c t) => Some (String c t)
                     | _ => None
                     end
                 | ApiService.Rejects => None
                 end).
  { unfold arrived, ApiService.tokenOf. destruct http as [raw|]; [|done].
    by destruct (ApiService.rawDataToken raw) as [[|c t]|]. }
  rewrite Ha. clear Ha arrived s'.
  destruct http as [raw|].
  - destruct (ApiService.tokenOf raw) as [[|c t]|].
    + destruct (flowToken_off AICheckInScreen.TokenMissing now s)
        as (H1 & H2 & H3 & H4 & H5); [by left|done].
    + destruct (flowToken_truthy (String c t) now s)
        as (H1 & H2 & H3 & H4 & H5); done.
    + destruct (flowToken_off AICheckInScreen.TokenMissing now s)
        as (H1 & H2 & H3 & H4 & H5); [by left|done].
  - destruct (flowToken_off AICheckInScreen.TokenThrows now s)
      as (H1 & H2 & H3 & H4 & H5); [by right|done].
Qed.

(** A body with an empty [data.token] and a token at the top level. *)
Example ex_avatar_token :
  let http :=
    ApiService.Resolves
      {| ApiService.rawDataToken := Some EmptyString;
         ApiService.rawToken := Some "tok-1"%string |} in
  let s' :=
    AICheckInScreen.flowToken
      (AICheckInScreen.tokenResult (ApiService.getHeygenToken http))
      7 false AICheckInScreen.initialSession in
  AICheckInScreen.heygenToken s' = Some "tok-1"%string
  /\ AICheckInScreen.heygenEnabledRef s' = true.
Proof. by vm_compute. Qed.

(** ** Facts about the authentication provider *)

Section AuthFacts.

Import AuthContext.

Context {User : Type}.
Variable stringify : User -> string.
Variable parse : string -> option User.
Variable truthyUser : User -> bool.

Lemma keys_differ : AUTH_TOKEN <> USER_DATA.
Proof. done. Qed.

(** A start on a device without a stored token signs nobody in. *)
Lemma mount_without_token (readable : bool) (stored : gmap string string) :
  stored !! AUTH_TOKEN = None ->
  state (mount parse readable (started stored)) 
  = {| user := None; token := None; isLoading := false |}.
Proof.
  intros H. unfold mount, checkAuthState, started. cbn. rewrite H.
  by destruct readable.
Qed.

End AuthFacts.

(** X13 (AuthContext.tsx: login lines 60-70, checkAuthState lines 44-58,
    the mount effect lines 36-42; realApi.ts request interceptor lines
    62-71). After a login whose two writes succeed the provider holds the
    token and the user, and the next start of the application, reading the
    storage that login left, restores the same token and the user as
    [JSON.parse] gives it back from [JSON.stringify]; requests carry the
    token as a Bearer header. *)
Theorem login_survives_restart {User : Type}
    (stringify : User -> string) (parse : string -> option User)
    (truthyUser : User -> bool)
    (newToken : string) (newUser restored : User)
    (w : AuthContext.World User) :
  truthy newToken = true ->
  truthy (stringify newUser) = true ->
  parse (stringify newUser) = Some restored ->
  let result := AuthContext.login stringify true true newToken newUser w in
  let again :=
    AuthContext.mount parse true (AuthContext.started (AuthContext.storage result.1)) in
  result.2 = false
  /\ AuthContext.token (AuthContext.state result.1) = Some newToken
  /\ AuthContext.user (AuthContext.state result.1) = Some newUser
  /\ AuthContext.state again
     = {| AuthContext.user := Some restored;
          AuthContext.token := Some newToken;
          AuthContext.isLoading := false |}
  /\ AuthContext.isAuthenticated truthyUser (AuthContext.state again)
     = truthyUser restored
  /\ AuthContext.authorization again = Some ("Bearer " +:+ newToken)%string.
Proof.
  intros Ht Hu Hp result again.
  assert (Ek : AuthContext.storage result.1 !! AuthContext.AUTH_TOKEN
               = Some newToken).
  { cbn. rewrite lookup_insert_ne by done. apply lookup_insert_eq. }
  assert (Eu : AuthContext.storage result.1 !! AuthContext.USER_DATA
               = Some (stringify newUser)).
  { cbn. apply lookup_insert_eq. }
  assert (Es : AuthContext.state again
               = {| AuthContext.user := Some restored;
                    AuthContext.token := Some newToken;
                    AuthContext.isLoading := false |}).
  { unfold again, AuthContext.mount, AuthContext.checkAuthState.
    cbn [AuthContext.state AuthContext.storage AuthContext.started].
    by rewrite Ek, Eu, Ht, Hu, Hp. }
  split; [done|]. split; [done|]. split; [done|]. split; [exact Es|].
  split.
  - rewrite Es. unfold AuthContext.isAuthenticated. cbn. by rewrite Ht.
  - unfold AuthContext.authorization.
    change (AuthContext.storage again) with (AuthContext.storage result.1).
    by rewrite Ek, Ht.
Qed.

Lemma login_survives_restart_witness :
  let w := AuthContext.started (User := string) ∅ in
  let result := AuthContext.login (fun u => u) true true "tok" "{}" w in
  let again :=
    AuthContext.mount (fun s => Some s) true
      (AuthContext.started (AuthContext.storage result.1)) in
  AuthContext.state again
  = {| AuthContext.user := Some "{}"%string;
       AuthContext.token := Some "tok"%string;
       AuthContext.isLoading := false |}.
Proof.
  intros w result again.
  exact (proj1 (proj2 (proj2 (proj2
           (login_survives_restart (fun u : string => u) (fun s => Some s)
              (fun _ => true) "tok" "{}" "{}" w eq_refl eq_refl eq_refl))))).
Defined.

(** X14 (AuthContext.tsx: login lines 60-70, signup lines 72-82;
    realApi.ts request interceptor lines 62-71). Login is not undone when
    its second write fails: the call throws and the provider still shows
    nobody signed in, but the new token stays in the storage, so the
    requests that follow carry it as a Bearer header. When the first write
    fails nothing changes. *)
Theorem failed_login_leaves_the_token {User : Type}
    (stringify : User -> string) (truthyUser : User -> bool)
    (newToken : string) (newUser : User) (w : AuthContext.World User) :
  truthy newToken = true ->
  let half := AuthContext.login stringify true false newToken newUser w in
  let none := AuthContext.signup stringify false true newToken newUser w in
  half.2 = true
  /\ AuthContext.state half.1 = AuthContext.state w
  /\ AuthContext.storage half.1 !! AuthContext.USER_DATA
     = AuthContext.storage w !! AuthContext.USER_DATA
  /\ AuthContext.authorization half.1 = Some ("Bearer " +:+ newToken)%string
  /\ none = (w, true).
Proof.
  intros Ht half none. split; [done|]. split; [done|]. split; [|split; [|done]].
  - cbn. by rewrite lookup_insert_ne.
  - unfold AuthContext.authorization. cbn. by rewrite lookup_insert_eq, Ht.
Qed.

Lemma failed_login_leaves_the_token_witness :
  let w := AuthContext.started (User := string) ∅ in
  let half := AuthContext.login (fun u => u) true false "tok" "{}" w in
  AuthContext.isAuthenticated (fun _ => true) (AuthContext.state half.1) = false
  /\ AuthContext.authorization half.1 = Some "Bearer tok"%string.
Proof.
  intros w half. split; [reflexivity|].
  exact (proj1 (proj2 (proj2 (proj2
           (failed_login_leaves_the_token (fun u : string => u) (fun _ => true)
              "tok" "{}" w eq_refl))))).
Defined.

(** X15 (realApi.ts response interceptor lines 74-83 with
    setLogoutHandler lines 19-23; AuthContext.tsx logout lines 84-96 and
    the mount effect). Once the provider is mounted, a response with
    status 401 or 403 signs the user out: token and user are cleared in
    the provider and in the storage, no Authorization header is sent any
    more, and the next start finds nobody signed in. A failure with
    another status, or without a response, changes nothing; neither does
    a 401 that arrives before the provider has mounted. *)
Theorem rejected_token_signs_out {User : Type}
    (parse : string -> option User) (truthyUser : User -> bool)
    (readable : bool) (status : option Z) (w : AuthContext.World User) :
  let mounted := AuthContext.mount parse readable w in
  let after := AuthContext.onResponseError status true mounted in
  (status = Some 401 \/ status = Some 403 ->
   AuthContext.user (AuthContext.state after) = None
   /\ AuthContext.token (AuthContext.state after) = None
   /\ AuthContext.isAuthenticated truthyUser (AuthContext.state after) = false
   /\ AuthContext.storage after !! AuthContext.AUTH_TOKEN = None
   /\ AuthContext.storage after !! AuthContext.USER_DATA = None
   /\ AuthContext.authorization after = None
   /\ forall readable',
        AuthContext.state
          (AuthContext.mount parse readable'
             (AuthContext.started (AuthContext.storage after)))
        = {| AuthContext.user := None; AuthContext.token := None;
             AuthContext.isLoading := false |})
  /\ (status <> Some 401 -> status <> Some 403 -> after = mounted)
  /\ (AuthContext.logoutHandlerSet w = false ->
      AuthContext.onResponseError status true w = w).
Proof.
  intros mounted after. split; [|split].
  - intros Hs.
    assert (E : after = (AuthContext.logout true mounted).1).
    { unfold after, AuthContext.onResponseError.
      by destruct Hs as [-> | ->]. }
    assert (Ek : AuthContext.storage after !! AuthContext.AUTH_TOKEN = None).
    { rewrite E. cbn. rewrite lookup_delete_ne by done.
      apply lookup_delete_eq. }
    assert (Eu : AuthContext.storage after !! AuthContext.USER_DATA = None).
    { rewrite E. cbn. apply lookup_delete_eq. }
    split; [by rewrite E|]. split; [by rewrite E|].
    split; [by rewrite E|]. split; [exact Ek|]. split; [exact Eu|].
    split.
    + unfold AuthContext.authorization. by rewrite Ek.
    + intros readable'. by apply mount_without_token.
  - intros H1 H3. unfold after, AuthContext.onResponseError.
    destruct status as [code|]; [|done].
    destruct (code =? 401) eqn:E1; [apply Z.eqb_eq in E1; by subst|].
    destruct (code =? 403) eqn:E3; [apply Z.eqb_eq in E3; by subst|].
    done.
  - intros Hn. unfold AuthContext.onResponseError. rewrite Hn.
    by rewrite andb_false_r.
Qed.

Lemma rejected_token_signs_out_witness :
  let stored : gmap string string :=
    <[AuthContext.USER_DATA := "{}"%string]>
      (<[AuthContext.AUTH_TOKEN := "tok"%string]> ∅) in
  let mounted :=
    AuthContext.mount (fun s => Some s) true (AuthContext.started stored) in
  let after := AuthContext.onResponseError (Some 401) true mounted in
  AuthContext.isAuthenticated (fun _ => true) (AuthContext.state mounted) = true
  /\ AuthContext.isAuthenticated (fun _ => true) (AuthContext.state after)
     = false
  /\ AuthContext.authorization after = None.
Proof.
  intros stored mounted after.
  pose proof (proj1 (rejected_token_signs_out (fun s : string => Some s)
                       (fun _ => true) true (Some 401)
                       (AuthContext.started stored)) (or_introl eq_refl))
    as (_ & _ & H & _ & _ & Ha & _).
  split; [by vm_compute|]. split; [exact H|exact Ha].
Defined.

(** ** Facts about the signature pad *)

Section SignaturePad.

Import DigitalSignature.

Context {Coordinate : Type}.
Variable show : Coordinate -> string.

Lemma fold_lineTo_head (points : list (Coordinate * Coordinate)) (rest : string) :
  exists rest',
    fold_left (fun p point => p +:+ lineTo show point) points (String "M" rest)
    = String "M" rest'.
Proof.
  revert rest. induction points as [|point points IH]; intros rest.
  - by exists rest.
  - cbn [fold_left]. apply IH.
Qed.

(** A stroke begins with its move-to command. *)
Lemma stroke_head start points :
  exists rest, stroke show start points = String "M" rest.
Proof. apply fold_lineTo_head. Qed.

Lemma stroke_truthy start points : truthy (stroke show start points) = true.
Proof. by destruct (stroke_head start points) as [rest ->]. Qed.

Lemma stroke_snoc start points point :
  stroke show start (points ++ [point])
  = stroke show start points +:+ lineTo show point.
Proof. unfold stroke. by rewrite fold_left_app. Qed.

Lemma padInvariant_initial : padInvariant show initialState.
Proof.
  split; [done|]. split; [by exists []|]. split; [by left|]. by split.
Qed.

Lemma padInvariant_handle e s :
  padInvariant show s -> padInvariant show (handle show e s).
Proof.
  intros (Hc & Hp & Hr & Hf & Ht). destruct e as [x y|state x y|processing].
  - cbn [handle]. unfold handleGestureEvent.
    destruct (truthy (pathRef s)) eqn:E; cbn [negb]; [|done].
    destruct Hr as [Hr|(start & points & Hr)]; [by rewrite Hr in E|].
    split; [done|]. split; [done|]. cbn [paths pathRef hasSignature].
    assert (En : pathRef s +:+ " L" +:+ show x +:+ "," +:+ show y
                 = stroke show start (points ++ [(x, y)])).
    { by rewrite stroke_snoc, Hr. }
    split; [right; by exists start, (points ++ [(x, y)])|].
    split.
    + intros Hs. destruct (Hf Hs) as [_ Hn]. by rewrite Hn in E.
    + intros _. right. rewrite En.
      by destruct (stroke_head start (points ++ [(x, y)])) as [rest ->].
  - cbn [handle]. unfold handleStateChange.
    assert (Hb : padInvariant show
                   {| paths := paths s;
                      currentPath := "M" +:+ show x +:+ "," +:+ show y;
                      hasSignature := if negb (hasSignature s) then true
                                      else hasSignature s;
                      pathRef := "M" +:+ show x +:+ "," +:+ show y |}).
    { split; [done|]. split; [done|].
      split; [right; by exists (x, y), []|]. cbn [paths pathRef hasSignature].
      split; [by destruct (hasSignature s)|]. intros _. by right. }
    assert (He : padInvariant show
                   (if truthy (pathRef s)
                    then {| paths := paths s ++ [pathRef s];
                            currentPath := EmptyString;
                            hasSignature := hasSignature s;
                            pathRef := EmptyString |}
                    else s)).
    { destruct (truthy (pathRef s)) eqn:E; [|done].
      destruct Hr as [Hr|(start & points & Hr)]; [by rewrite Hr in E|].
      split; [done|]. cbn [paths pathRef hasSignature]. split.
      - destruct Hp as [strokes Hp]. exists (strokes ++ [(start, points)]).
        by rewrite map_app, Hp, Hr.
      - split; [by left|]. split.
        + intros Hs. destruct (Hf Hs) as [_ Hn]. by rewrite Hn in E.
        + intros _. left. by destruct (paths s). }
    destruct state; cbv zeta; cbn [pathRef]; done.
  - cbn [handle].
    destruct (negb (hasSignature s) || processing); [done|].
    apply padInvariant_initial.
Qed.

Lemma padInvariant_fold events s :
  padInvariant show s ->
  padInvariant show (fold_left (fun s e => handle show e s) events s).
Proof.
  revert s. induction events as [|e events IH]; intros s Hs; [done|].
  cbn [fold_left]. apply IH. by apply padInvariant_handle.
Qed.

Lemma padInvariant_run events : padInvariant show (run show events).
Proof. apply padInvariant_fold, padInvariant_initial. Qed.

(** Paths that are strokes join to a string that is not empty. *)
Lemma concat_strokes (strokes : list _) :
  strokes <> [] ->
  String.concat " " (map (fun st => stroke show st.1 st.2) strokes)
  <> EmptyString.
Proof.
  destruct strokes as [|[start points] strokes]; [done|]. intros _.
  cbn [map String.concat fst snd].
  destruct (stroke_head start points) as [rest ->].
  by destruct (map _ strokes).
Qed.

(** What Save Signature does in a state the handlers can reach. *)
Lemma saveSignature_reachable (SIGNATURE_WIDTH : JsNumber) (now : string) (s : State) :
  padInvariant show s ->
  (hasSignature s = false ->
   saveSignature SIGNATURE_WIDTH now s
   = Alert "No Signature" "Please provide your signature before continuing.")
  /\ (hasSignature s = true ->
      exists strokes,
        strokes <> []
        /\ saveSignature SIGNATURE_WIDTH now s
           = Complete
               {| PdfGenerator.paths :=
                    map (fun st => stroke show st.1 st.2) strokes;
                  PdfGenerator.timestamp := now;
                  PdfGenerator.dimensions :=
                    {| PdfGenerator.width := SIGNATURE_WIDTH;
                       PdfGenerator.height := {| numberText := "200" |} |} |}).
Proof.
  intros (Hc & Hp & Hr & Hf & Ht). split.
  - intros Hs. unfold saveSignature. by rewrite Hs.
  - intros Hs. unfold saveSignature. rewrite Hs. cbn [negb].
    destruct Hp as [strokes Hp].
    destruct Hr as [Hr|(start & points & Hr)].
    + rewrite Hr. cbn [truthy]. exists strokes.
      destruct (Ht Hs) as [Hn|Hn]; [|done].
      assert (strokes <> []) by (intros ->; by rewrite Hp in Hn).
      split; [done|]. rewrite Hp. by destruct strokes.
    + assert (Et : truthy (pathRef s) = true)
        by (rewrite Hr; apply stroke_truthy).
      rewrite Et. exists (strokes ++ [(start, points)]).
      split; [by destruct strokes|].
      rewrite length_app. cbn [length].
      replace (length (paths s) + 1 =? 0)%nat with false
        by (symmetry; apply Nat.eqb_neq; lia).
      by rewrite map_app, Hp, Hr.
Qed.

End SignaturePad.

(** X16 (the DigitalSignature component: handleGestureEvent,
    handleStateChange, clearSignature and saveSignature, lines 140-208;
    pdfGenerator.ts generateSignatureSVG, lines 47-86). Whatever the user did on the pad, Save Signature either
    shows the alert that asks for a signature, when nothing has been
    drawn since the pad was last cleared, or hands over a list of paths
    that is not empty, each path one move-to command followed by line-to
    commands; the alert that asks to draw before saving is never shown.
    The signature handed over is always drawn as an svg in the consent
    document, never as the placeholder. The path on the screen is the one
    being recorded. *)
Theorem saved_signature_is_drawn {Coordinate : Type}
    (show : Coordinate -> string) (SIGNATURE_WIDTH : JsNumber)
    (events : list (DigitalSignature.Event Coordinate)) (now : string) :
  let s := DigitalSignature.run show events in
  let saved := DigitalSignature.saveSignature SIGNATURE_WIDTH now s in
  DigitalSignature.currentPath s = DigitalSignature.pathRef s
  /\ (DigitalSignature.hasSignature s = false ->
      DigitalSignature.paths s = [] /\ DigitalSignature.pathRef s = EmptyString
      /\ saved = DigitalSignature.Alert "No Signature"
                   "Please provide your signature before continuing.")
  /\ (DigitalSignature.hasSignature s = true ->
      exists strokes,
        strokes <> []
        /\ saved
           = DigitalSignature.Complete
               {| PdfGenerator.paths :=
                    map (fun st => DigitalSignature.stroke show st.1 st.2)
                        strokes;
                  PdfGenerator.timestamp := now;
                  PdfGenerator.dimensions :=
                    {| PdfGenerator.width := SIGNATURE_WIDTH;
                       PdfGenerator.height := {| numberText := "200" |} |} |})
  /\ (forall signatureData,
        saved = DigitalSignature.Complete signatureData ->
        PdfGenerator.generateSignatureSVG signatureData
        = PdfGenerator.signatureSvg
            (numberText SIGNATURE_WIDTH) "200"
            (PdfGenerator.viewBoxOf (numberText SIGNATURE_WIDTH) "200")
            (String.concat " " (PdfGenerator.paths signatureData))).
Proof.
  intros s saved.
  pose proof (padInvariant_run show events) as Hinv. fold s in Hinv.
  destruct (saveSignature_reachable show SIGNATURE_WIDTH now s Hinv)
    as [Hoff Hon]. fold saved in Hoff, Hon.
  destruct Hinv as (Hc & _ & _ & Hf & _).
  split; [exact Hc|]. split; [|split; [exact Hon|]].
  - intros Hs. destruct (Hf Hs) as [H1 H2]. by rewrite (Hoff Hs).
  - intros signatureData E.
    destruct (DigitalSignature.hasSignature s) eqn:Hs.
    + destruct (Hon eq_refl) as (strokes & Hne & E').
      rewrite E' in E. injection E as <-.
      exact (generateSignatureSVG_nonempty
               {| PdfGenerator.paths :=
                    map (fun st => DigitalSignature.stroke show st.1 st.2)
                        strokes;
                  PdfGenerator.timestamp := now;
                  PdfGenerator.dimensions :=
                    {| PdfGenerator.width := SIGNATURE_WIDTH;
                       PdfGenerator.height := {| numberText := "200" |} |} |}
               (concat_strokes show strokes Hne)).
    + by rewrite (Hoff eq_refl) in E.
Qed.

(** Two strokes, the second still under the finger when Save is pressed;
    and a pad that was cleared. *)
Example ex_saved_signature :
  let show (n : Z) := numberToString n in
  let events :=
    [DigitalSignature.StateChange DigitalSignature.BEGAN 1 2;
     DigitalSignature.Gesture 3 4;
     DigitalSignature.StateChange DigitalSignature.END 3 4;
     DigitalSignature.Gesture 9 9;
     DigitalSignature.StateChange DigitalSignature.BEGAN 5 6;
     DigitalSignature.Gesture 7 8] in
  DigitalSignature.saveSignature {| numberText := "327.27272727272725" |} "t" (DigitalSignature.run show events)
  = DigitalSignature.Complete
      {| PdfGenerator.paths := ["M1,2 L3,4"; "M5,6 L7,8"]%string;
         PdfGenerator.timestamp := "t";
         PdfGenerator.dimensions :=
           {| PdfGenerator.width := {| numberText := "327.27272727272725" |};
              PdfGenerator.height := {| numberText := "200" |} |} |}
  /\ DigitalSignature.saveSignature {| numberText := "327.27272727272725" |} "t"
       (DigitalSignature.run show (events ++ [DigitalSignature.PressClear false]))
     = DigitalSignature.Alert "No Signature"
         "Please provide your signature before continuing.".
Proof. by vm_compute. Qed.

(** ** Facts about the consent file and the signature screen *)

Section ConsentFile.

Import PdfGenerator.

Lemma append_String (a : ascii) (s t : string) :
  String a s +:+ t = String a (s +:+ t).
Proof. reflexivity. Qed.

Lemma append_Empty (t : string) : EmptyString +:+ t = t.
Proof. reflexivity. Qed.

(** A character that is not in the pattern ends every match before it. *)
Lemma isPrefix_app_sep (p x y : string) (c : ascii) :
  c ∉ chars_of_string p ->
  isPrefix p (x +:+ String c y) = isPrefix p x.
Proof.
  revert x. induction p as [|a p IH]; intros x Hc; [by destruct x|].
  cbn [chars_of_string] in Hc. apply not_elem_of_cons in Hc as [Hca Hc].
  destruct x as [|b x]; rewrite ?append_String, ?append_Empty; cbn [isPrefix].
  - by rewrite bool_decide_eq_false_2.
  - by rewrite IH.
Qed.

Lemma replaceFirst_app_sep (p r x y : string) (c : ascii) :
  p <> EmptyString -> c ∉ chars_of_string p -> contains p x = false ->
  replaceFirst p r (x +:+ String c y) = x +:+ String c (replaceFirst p r y).
Proof.
  intros Hp Hc. induction x as [|b x IH]; intros Hx.
  - rewrite !append_Empty. cbn [replaceFirst].
    destruct p as [|a p]; [done|]. cbn [isPrefix].
    cbn [chars_of_string] in Hc. apply not_elem_of_cons in Hc as [Hca _].
    by rewrite bool_decide_eq_false_2.
  - cbn [contains] in Hx. apply orb_false_elim in Hx as [Hx1 Hx2].
    pose proof (isPrefix_app_sep p (String b x) y c Hc) as E.
    rewrite Hx1, append_String in E.
    rewrite !append_String. cbn [replaceFirst]. by rewrite E, IH.
Qed.

(** The digits of a number hold no match of the extension. *)
Lemma replaceFirst_uint (d : Decimal.uint) (r tail : string) :
  replaceFirst ".pdf" r (DecimalString.NilEmpty.string_of_uint d +:+ tail)
  = DecimalString.NilEmpty.string_of_uint d +:+ replaceFirst ".pdf" r tail.
Proof.
  induction d as [|d IH|d IH|d IH|d IH|d IH|d IH|d IH|d IH|d IH|d IH];
    [done|..];
    cbn [DecimalString.NilEmpty.string_of_uint]; rewrite !append_String;
    cbn [replaceFirst isPrefix];
    rewrite bool_decide_eq_false_2 by done; cbn [andb]; by rewrite IH.
Qed.

Lemma replaceFirst_number (n : Z) (r tail : string) :
  replaceFirst ".pdf" r (numberToString n +:+ tail)
  = numberToString n +:+ replaceFirst ".pdf" r tail.
Proof.
  unfold numberToString, DecimalString.NilZero.string_of_int.
  destruct (Z.to_int n) as [d|d].
  - unfold DecimalString.NilZero.string_of_uint.
    destruct d; try apply replaceFirst_uint. done.
  - rewrite !append_String. cbn [replaceFirst isPrefix].
    rewrite bool_decide_eq_false_2 by done. cbn [andb]. f_equal.
    unfold DecimalString.NilZero.string_of_uint.
    destruct d; try apply replaceFirst_uint. done.
Qed.

(** The name of the file for an identifier without the extension. *)
Lemma replaceFirst_consentFileName (info : PatientInfo) (now : Z) :
  contains ".pdf" (patientId info) = false ->
  replaceFirst ".pdf" ".html" (consentFileName info now)
  = "consent_" +:+ patientId info +:+ "_" +:+ numberToString now +:+ ".html".
Proof.
  intros Hid. unfold consentFileName.
  change ("consent_" +:+ patientId info +:+ "_" +:+ numberToString now
          +:+ ".pdf")
    with ("consent" +:+ String "_" (patientId info +:+ String "_"
            (numberToString now +:+ ".pdf"))).
  assert (Hc : "_"%char ∉ chars_of_string ".pdf").
  { cbn [chars_of_string]. intros H.
    repeat (apply elem_of_cons in H as [H|H]; [done|]).
    by apply elem_of_nil in H. }
  rewrite replaceFirst_app_sep by done.
  rewrite replaceFirst_app_sep by done.
  by rewrite replaceFirst_number.
Qed.

Variable dateOf : string -> DateView.
Variable documentDirectory : string.

Lemma generateConsentPDF_file sd info now written :
  (generateConsentPDF dateOf documentDirectory sd info now written).1
  = {| writePath :=
         documentDirectory
         +:+ replaceFirst ".pdf" ".html" (consentFileName info now);
       writeContent := consentDocument dateOf sd info |}.
Proof. reflexivity. Qed.

Lemma generateConsentPDF_path sd info now written :
  (generateConsentPDF dateOf documentDirectory sd info now written).2
  = if written
    then Some (documentDirectory
               +:+ replaceFirst ".pdf" ".html" (consentFileName info now))
    else None.
Proof. reflexivity. Qed.

End ConsentFile.

(** X17 (pdfGenerator.ts generateConsentPDF, lines 17-45). The consent
    document is written to the document directory as
    consent_<patient id>_<time>.html, and that path is what the call
    resolves to, provided the patient id does not contain the text .pdf:
    the extension is changed by replacing the first .pdf of the whole
    file name. The content written is the consent document of the
    signature, and a failed write makes the call throw. *)
Theorem consent_file_is_html
    (dateOf : string -> PdfGenerator.DateView) (documentDirectory : string)
    (signatureData : PdfGenerator.SignatureData)
    (patientInfo : PdfGenerator.PatientInfo) (now : Z) (written : bool) :
  contains ".pdf" (PdfGenerator.patientId patientInfo) = false ->
  let generated :=
    PdfGenerator.generateConsentPDF dateOf documentDirectory signatureData
      patientInfo now written in
  let path :=
    (documentDirectory +:+ "consent_"
     +:+ PdfGenerator.patientId patientInfo +:+ "_" +:+ numberToString now
     +:+ ".html")%string in
  PdfGenerator.writePath generated.1 = path
  /\ PdfGenerator.writeContent generated.1
     = PdfGenerator.consentDocument dateOf signatureData patientInfo
  /\ generated.2 = (if written then Some path else None).
Proof.
  intros Hid generated path. unfold generated.
  rewrite generateConsentPDF_file, generateConsentPDF_path.
  cbn [PdfGenerator.writePath PdfGenerator.writeContent].
  by rewrite replaceFirst_consentFileName.
Qed.

Lemma consent_file_is_html_witness :
  let dateOf := fun _ : string =>
    {| PdfGenerator.formattedDate := "June 1, 2024";
       PdfGenerator.formattedTime := "10:00 AM";
       PdfGenerator.timeValue := "1717236000000";
       PdfGenerator.timeValueHex := "18fd2e8a100" |} in
  let sd := {| PdfGenerator.paths := ["M1,2 L3,4"%string];
               PdfGenerator.timestamp := "2024-06-01T10:00:00.000Z";
               PdfGenerator.dimensions :=
                 {| PdfGenerator.width := {| numberText := "300" |};
                    PdfGenerator.height := {| numberText := "200" |} |} |} in
  let info := {| PdfGenerator.name := "Ana Diaz";
                 PdfGenerator.dateOfBirth := "1/1/1990";
                 PdfGenerator.patientId := "p1" |} in
  (PdfGenerator.generateConsentPDF dateOf "file:///docs/" sd info
     1717236000123 true).2
  = Some "file:///docs/consent_p1_1717236000123.html"%string.
Proof.
  intros dateOf sd info.
  exact (proj2 (proj2 (consent_file_is_html dateOf "file:///docs/" sd info
                         1717236000123 true eq_refl))).
Defined.

(** A patient id that contains the extension takes the replacement: the
    file keeps the ending .pdf. *)
Example ex_consent_file_keeps_pdf :
  PdfGenerator.replaceFirst ".pdf" ".html"
    (PdfGenerator.consentFileName
       {| PdfGenerator.name := "Ana Diaz"; PdfGenerator.dateOfBirth := "1/1/1990";
          PdfGenerator.patientId := "a.pdf" |} 5)
  = "consent_a.html_5.pdf"%string.
Proof. reflexivity. Qed.

Section SignatureScreen.

Import DigitalSignatureScreen.

Variable dateOf : string -> PdfGenerator.DateView.
Variable documentDirectory : string.

(** What the last part of the handler does, case by case. *)
Lemma shareDocument_cases (patient : Patient)
    (sd : PdfGenerator.SignatureData) (env : Answers) :
  shareDocument dateOf documentDirectory patient sd env
  = match createdAt patient with
    | None => [unexpected]
    | Some dateOfBirth =>
        let info :=
          {| PdfGenerator.name := firstName patient +:+ " " +:+ lastName patient;
             PdfGenerator.dateOfBirth := dateOfBirth;
             PdfGenerator.patientId := id patient |} in
        let file :=
          (PdfGenerator.generateConsentPDF dateOf documentDirectory sd info
             (now env) true).1 in
        WriteFile file
        :: (if written env
            then match sharingAvailable env with
                 | Some true =>
                     [ShareFile (PdfGenerator.writePath file);
                      if shared env then submittedAlert else unexpected]
                 | Some false => [submittedAlert]
                 | None => [unexpected]
                 end
            else [unexpected])
    end.
Proof.
  unfold shareDocument. destruct (createdAt patient) as [dateOfBirth|]; [|done].
  cbv zeta. rewrite generateConsentPDF_path.
  f_equal. destruct (written env); [|done].
  unfold PdfGenerator.shareConsentDocument.
  destruct (sharingAvailable env) as [[]|]; [|done|done].
  by destruct (shared env).
Qed.

End SignatureScreen.

(** X18 (DigitalSignatureScreen.handleSignatureComplete, lines 58-109,
    with generateConsentPDF and shareConsentDocument of pdfGenerator.ts).
    Every press on Save Signature ends in exactly one alert, shown after
    everything else the handler does, and with patient data loaded the
    processing flag is cleared in the end. The signature is sent first;
    the consent status is updated only when the server accepted the
    signature; the consent document is written only when both requests
    succeeded, and it is the consent document of that signature and
    patient. The alert is the confirmation exactly when both requests
    succeeded, the creation date could be printed, the file was written
    and sharing did not throw. *)
Theorem signature_submission_ends_in_one_alert
    (dateOf : string -> PdfGenerator.DateView) (documentDirectory : string)
    (patientData : option DigitalSignatureScreen.Patient)
    (signatureData : PdfGenerator.SignatureData)
    (env : DigitalSignatureScreen.Answers) (isSubmitting : bool) :
  let result :=
    DigitalSignatureScreen.handleSignatureComplete dateOf documentDirectory
      patientData signatureData env isSubmitting in
  let effects := result.1 in
  let sent :=
    DigitalSignatureScreen.succeeded (DigitalSignatureScreen.submitted env) in
  let updated :=
    DigitalSignatureScreen.succeeded (DigitalSignatureScreen.updated env) in
  length (List.filter DigitalSignatureScreen.isAlert effects) = 1%nat
  /\ (exists title message,
        last effects = Some (DigitalSignatureScreen.AlertShown title message))
  /\ match patientData with
     | None =>
         effects
         = [DigitalSignatureScreen.AlertShown "Error"
              "Patient data is not loaded yet. Please try again in a moment."]
         /\ result.2 = isSubmitting
     | Some patient =>
         result.2 = false
         /\ head effects
            = Some (DigitalSignatureScreen.SubmitDigitalSignature signatureData)
         /\ (DigitalSignatureScreen.UpdateConsentStatus true
               (DigitalSignatureScreen.emailVerified patient) true ∈ effects
             <-> sent = true)
         /\ (forall file,
               DigitalSignatureScreen.WriteFile file ∈ effects ->
               sent = true /\ updated = true
               /\ exists dateOfBirth,
                    DigitalSignatureScreen.createdAt patient = Some dateOfBirth
                    /\ PdfGenerator.writeContent file
                       = PdfGenerator.consentDocument dateOf signatureData
                           {| PdfGenerator.name :=
                                DigitalSignatureScreen.firstName patient
                                +:+ " " +:+ DigitalSignatureScreen.lastName patient;
                              PdfGenerator.dateOfBirth := dateOfBirth;
                              PdfGenerator.patientId :=
                                DigitalSignatureScreen.id patient |})
         /\ (DigitalSignatureScreen.submittedAlert ∈ effects
             <-> sent = true /\ updated = true
                 /\ is_Some (DigitalSignatureScreen.createdAt patient)
                 /\ DigitalSignatureScreen.written env = true
                 /\ DigitalSignatureScreen.sharingPassed env = true)
     end.
Proof.
  intros result effects sent updated.
  unfold effects, result, sent, updated,
    DigitalSignatureScreen.handleSignatureComplete,
    DigitalSignatureScreen.succeeded, DigitalSignatureScreen.sharingPassed.
  destruct patientData as [patient|].
  2: { split; [done|]. split; [by eexists _, _|done]. }
  cbn [fst snd]. rewrite shareDocument_cases, orb_false_r.
  unfold DigitalSignatureScreen.submittedAlert,
    DigitalSignatureScreen.unexpected.
  destruct (DigitalSignatureScreen.submitted env) as [[[] sentError]|];
    cbn [DigitalSignatureScreen.success].
  2,3: split; [done|]; split; [by eexists _, _|];
       split; [done|]; split; [done|];
       split; [|split; [intros file|]]; DigitalSignatureScreen.listed.
  destruct (DigitalSignatureScreen.updated env) as [[[] updatedError]|];
    cbn [DigitalSignatureScreen.success].
  2,3: split; [done|]; split; [by eexists _, _|];
       split; [done|]; split; [done|];
       split; [|split; [intros file|]]; DigitalSignatureScreen.listed.
  destruct (DigitalSignatureScreen.createdAt patient) as [dateOfBirth|].
  2: { split; [done|]. split; [by eexists _, _|].
       split; [done|]. split; [done|].
       split; [DigitalSignatureScreen.listed|].
       split; [intros file; DigitalSignatureScreen.listed|].
       split; [DigitalSignatureScreen.listed|].
       intros (_ & _ & [x Hx] & _). discriminate Hx. }
  cbv zeta.
  set (file := (PdfGenerator.generateConsentPDF _ _ _ _ _ _).1).
  assert (Hfile : PdfGenerator.writeContent file
                  = PdfGenerator.consentDocument dateOf signatureData
                      {| PdfGenerator.name :=
                           DigitalSignatureScreen.firstName patient
                           +:+ " " +:+ DigitalSignatureScreen.lastName patient;
                         PdfGenerator.dateOfBirth := dateOfBirth;
                         PdfGenerator.patientId :=
                           DigitalSignatureScreen.id patient |})
    by reflexivity.
  clearbody file.
  assert (Hsome : is_Some (Some dateOfBirth)) by by eexists.
  destruct (DigitalSignatureScreen.written env),
           (DigitalSignatureScreen.sharingAvailable env) as [[]|],
           (DigitalSignatureScreen.shared env);
    (split; [done|]); (split; [by eexists _, _|]);
    (split; [done|]); (split; [done|]);
    (split; [DigitalSignatureScreen.listed|]);
    (split;
     [intros f Hf; split; [done|]; split; [done|]; exists dateOfBirth;
      split; [done|];
      assert (f = file) as -> by (revert Hf; DigitalSignatureScreen.listed);
      exact Hfile|]);
    DigitalSignatureScreen.listed.
Qed.

(** ** Facts about the stored signature *)

Section StoredSignatureFacts.

Import StoredSignature.

Lemma field_app_unrelated (k : string) (extra rest : list (string * Json)) :
  unrelated extra ->
  k = "svgPaths"%string \/ k = "paths"%string \/ k = "dimensions"%string
  \/ k = "timestamp"%string ->
  field k (extra ++ rest) = field k rest.
Proof.
  intros He Hk. induction He as [|[k' v] extra (H1 & H2 & H3 & H4) _ IH];
    [done|].
  cbn [app field]. cbn [fst] in *. rewrite bool_decide_eq_false_2; [done|].
  by destruct Hk as [->|[->|[->| ->]]].
Qed.

Lemma asStrings_map (l : list string) :
  asStrings (JArray (map JString l)) = Some l.
Proof.
  cbn [asStrings]. apply mapM_Some.
  induction l as [|x l IH]; [constructor|]. by constructor.
Qed.

Variable parseJson : string -> option Json.

Lemma parsedIfString_stored (sent stored : Json) :
  (forall s, sent <> JString s) ->
  storedAs parseJson sent stored -> parsedIfString parseJson stored = sent.
Proof.
  intros Hs [->|(text & -> & Hp)].
  - destruct sent; try done. by destruct (Hs s).
  - cbn. by rewrite Hp.
Qed.

Lemma formatSignatureData_record (signatureData : PdfGenerator.SignatureData)
    (extra : list (string * Json)) (svgPaths dimensions : Json)
    (stamp : option string) (nowText : string) :
  unrelated extra ->
  storedAs parseJson (svgPathsOf signatureData) svgPaths ->
  storedAs parseJson (dimensionsOf signatureData) dimensions ->
  stamp <> Some EmptyString ->
  formatSignatureData parseJson nowText
    (JObject
       (extra
        ++ [("svgPaths"%string, svgPaths); ("dimensions"%string, dimensions)]
        ++ match stamp with
           | Some t => [("timestamp"%string, JString t)]
           | None => []
           end))
  = Some {| formattedPaths :=
              JArray (map JString (PdfGenerator.paths signatureData));
            formattedDimensions := dimensionsOf signatureData;
            formattedTimestamp := JString (default nowText stamp) |}.
Proof.
  intros He Hs Hd Ht.
  set (fields := extra ++ _).
  assert (F1 : field "svgPaths" fields = svgPaths).
  { unfold fields. rewrite field_app_unrelated by tauto. reflexivity. }
  assert (F2 : field "paths" fields = JUndefined).
  { unfold fields. rewrite field_app_unrelated by tauto.
    by destruct stamp. }
  assert (F3 : field "dimensions" fields = dimensions).
  { unfold fields. rewrite field_app_unrelated by tauto. reflexivity. }
  assert (F4 : field "timestamp" fields
               = match stamp with Some t => JString t | None => JUndefined end).
  { unfold fields. rewrite field_app_unrelated by tauto.
    by destruct stamp. }
  clearbody fields.
  unfold formatSignatureData. cbn [get from_option id].
  rewrite F1, F2, F3, F4.
  rewrite (parsedIfString_stored (svgPathsOf signatureData) svgPaths
             ltac:(done) Hs).
  rewrite (parsedIfString_stored (dimensionsOf signatureData) dimensions
             ltac:(done) Hd).
  destruct stamp as [[|c t]|]; [by destruct Ht|reflexivity|reflexivity].
Qed.

End StoredSignatureFacts.

(** X19 (realApi.ts submitDigitalSignature, lines 146-160; pdfGenerator.ts
    generateConsentDocumentFromSignature, lines 337-426). A stored
    signature that holds the two fields [submitDigitalSignature] sends,
    each as sent or as its JSON text, beside fields the generator does
    not read, is drawn again from the same paths and dimensions; but the
    time of signing was sent inside [svgPaths], where the generator does
    not look, so the document is dated with the time of the download,
    unless the record has a [timestamp] of its own. The file is
    consent_<patient id>_<time>.html in the document directory. *)
Theorem stored_signature_is_redrawn_with_a_new_date
    (parseJson : string -> option StoredSignature.Json)
    (dateOf : string -> PdfGenerator.DateView) (documentDirectory : string)
    (signatureData : PdfGenerator.SignatureData)
    (extra : list (string * StoredSignature.Json))
    (svgPaths dimensions : StoredSignature.Json) (stamp : option string)
    (patientInfo : PdfGenerator.PatientInfo)
    (nowText : string) (now : Z) (written : bool) :
  StoredSignature.unrelated extra ->
  StoredSignature.storedAs parseJson
    (StoredSignature.svgPathsOf signatureData) svgPaths ->
  StoredSignature.storedAs parseJson
    (StoredSignature.dimensionsOf signatureData) dimensions ->
  stamp <> Some EmptyString ->
  let record :=
    StoredSignature.JObject
      (extra
       ++ [("svgPaths"%string, svgPaths); ("dimensions"%string, dimensions)]
       ++ match stamp with
          | Some t => [("timestamp"%string, StoredSignature.JString t)]
          | None => []
          end) in
  let redrawn :=
    {| PdfGenerator.paths := PdfGenerator.paths signatureData;
       PdfGenerator.timestamp := default nowText stamp;
       PdfGenerator.dimensions := PdfGenerator.dimensions signatureData |} in
  StoredSignature.generateConsentDocumentFromSignature parseJson dateOf
    documentDirectory record patientInfo nowText now written
  = StoredSignature.Writes
      {| PdfGenerator.writePath :=
           documentDirectory +:+ "consent_"
           +:+ PdfGenerator.patientId patientInfo +:+ "_"
           +:+ numberToString now +:+ ".html";
         PdfGenerator.writeContent :=
           PdfGenerator.consentDocument dateOf redrawn patientInfo |}
      written
  /\ PdfGenerator.generateSignatureSVG redrawn
     = PdfGenerator.generateSignatureSVG signatureData.
Proof.
  intros He Hs Hd Ht record redrawn. split; [|done].
  unfold StoredSignature.generateConsentDocumentFromSignature, record.
  rewrite (formatSignatureData_record parseJson signatureData extra svgPaths
             dimensions stamp nowText He Hs Hd Ht).
  unfold StoredSignature.asSignatureData.
  cbn [StoredSignature.formattedPaths StoredSignature.formattedTimestamp
       StoredSignature.formattedDimensions StoredSignature.asString].
  rewrite asStrings_map. reflexivity.
Qed.

Lemma stored_signature_is_redrawn_with_a_new_date_witness :
  let dateOf := fun _ : string =>
    {| PdfGenerator.formattedDate := "June 1, 2024";
       PdfGenerator.formattedTime := "10:00 AM";
       PdfGenerator.timeValue := "1717236000000";
       PdfGenerator.timeValueHex := "18fd2e8a100" |} in
  let sd := {| PdfGenerator.paths := ["M1,2 L3,4"%string];
               PdfGenerator.timestamp := "2024-06-01T10:00:00.000Z";
               PdfGenerator.dimensions :=
                 {| PdfGenerator.width := {| numberText := "327.27272727272725" |};
                    PdfGenerator.height := {| numberText := "200" |} |} |} in
  let info := {| PdfGenerator.name := "Ana Diaz";
                 PdfGenerator.dateOfBirth := "1/1/1990";
                 PdfGenerator.patientId := "p1" |} in
  let record :=
    StoredSignature.JObject
      [("id"%string, StoredSignature.JString "s1");
       ("svgPaths"%string, StoredSignature.svgPathsOf sd);
       ("dimensions"%string, StoredSignature.dimensionsOf sd)] in
  StoredSignature.generateConsentDocumentFromSignature (fun _ => None) dateOf
    "file:///docs/" record info "2025-01-15T08:00:00.000Z" 1736928000000 true
  = StoredSignature.Writes
      {| PdfGenerator.writePath :=
           "file:///docs/consent_p1_1736928000000.html";
         PdfGenerator.writeContent :=
           PdfGenerator.consentDocument dateOf
             {| PdfGenerator.paths := ["M1,2 L3,4"%string];
                PdfGenerator.timestamp := "2025-01-15T08:00:00.000Z";
                PdfGenerator.dimensions :=
                  {| PdfGenerator.width := {| numberText := "327.27272727272725" |};
                     PdfGenerator.height := {| numberText := "200" |} |} |} info |}
      true.
Proof.
  intros dateOf sd info record.
  assert (He : StoredSignature.unrelated
                 [("id"%string, StoredSignature.JString "s1")])
    by (by repeat constructor).
  exact (proj1 (stored_signature_is_redrawn_with_a_new_date (fun _ => None)
                  dateOf "file:///docs/" sd _ _ _ None info
                  "2025-01-15T08:00:00.000Z" 1736928000000 true He
                  (or_introl eq_refl) (or_introl eq_refl) ltac:(done))).
Defined.

(** ** The texts queued for the avatar *)

Section PendingSpeaks.

Import AICheckInScreen.

(** A blank text is dropped. *)
Lemma speakViaPlayer_blank text now webSdk s :
  truthy (trim text) = false -> (speakViaPlayer text now webSdk s).2 = s.
Proof. intros H. unfold speakViaPlayer. cbv zeta. by rewrite H. Qed.

Lemma speakViaPlayer_fresh text now s :
  truthy (trim text) = true -> trim text <> lastSpokenTextRef s ->
  let s' := (speakViaPlayer text now true s).2 in
  effects s' = effects s ++ [InjectSpeak (trim text)]
  /\ lastSpokenTextRef s' = trim text
  /\ pendingSpeakQueueRef s' = pendingSpeakQueueRef s.
Proof.
  intros Ht Hn. unfold speakViaPlayer. cbv zeta. rewrite Ht.
  rewrite bool_decide_eq_false_2 by done. by destruct s.
Qed.

Lemma speakViaPlayer_no_player text now s :
  let s' := (speakViaPlayer text now false s).2 in
  effects s' = effects s
  /\ pendingSpeakQueueRef s' = pendingSpeakQueueRef s.
Proof.
  unfold speakViaPlayer. cbv zeta.
  destruct (truthy (trim text)); [|done].
  destruct (bool_decide _ && _); by destruct s.
Qed.

Lemma speak_all_in_order now (items : list string) :
  forall s,
    (forall i a b,
        (lastSpokenTextRef s :: filter (fun t => truthy t = true) (map trim items))
          !! i = Some a ->
        (lastSpokenTextRef s :: filter (fun t => truthy t = true) (map trim items))
          !! S i = Some b ->
        a <> b) ->
    let s' := foldl (fun s t => (speakViaPlayer t now true s).2) s items in
    effects s'
    = effects s
      ++ map InjectSpeak (filter (fun t => truthy t = true) (map trim items))
    /\ pendingSpeakQueueRef s' = pendingSpeakQueueRef s.
Proof.
  induction items as [|t items IH]; intros s Hn.
  - cbn. by rewrite app_nil_r.
  - cbn [foldl map] in Hn |- *. destruct (truthy (trim t)) eqn:Et.
    + rewrite filter_cons_True in Hn |- * by done.
      destruct (speakViaPlayer_fresh t now s Et) as (He & Hl & Hq).
      { intros E. by apply (Hn 0%nat (lastSpokenTextRef s) (trim t)). }
      destruct (IH (speakViaPlayer t now true s).2) as [IHe IHq].
      { rewrite Hl. intros i a b Ha Hb. by apply (Hn (S i) a b). }
      cbv zeta. rewrite IHe, IHq, He, Hq. cbn [map].
      by rewrite <- app_assoc.
    + rewrite filter_cons_False in Hn |- * by (by rewrite Et).
      rewrite speakViaPlayer_blank by done. by apply IH.
Qed.

Lemma speak_all_no_player now (items : list string) :
  forall s,
    let s' := foldl (fun s t => (speakViaPlayer t now false s).2) s items in
    effects s' = effects s /\ pendingSpeakQueueRef s' = pendingSpeakQueueRef s.
Proof.
  induction items as [|t items IH]; intros s; [done|].
  cbn [foldl]. destruct (speakViaPlayer_no_player t now s) as [He Hq].
  destruct (IH (speakViaPlayer t now false s).2) as [IHe IHq].
  cbv zeta. by rewrite IHe, IHq, He, Hq.
Qed.

End PendingSpeaks.

(** X20 (flushPendingSpeaks lines 219-226 with speakViaPlayer lines
    228-247, called from the player's onMessage, lines 608-610 and
    638-640). When the avatar has become ready, the texts queued while it
    was not are handed to the player in the order they were queued, each
    trimmed, blank ones left out, provided no text equals the one
    before it (or the last one spoken), which the duplicate guard would
    skip; the queue is empty afterwards. Without a player the queue is
    emptied all the same and nothing is spoken. Before the avatar is
    ready the call does nothing. *)
Theorem queued_texts_are_spoken_in_order
    (now : Z) (s : AICheckInScreen.Session) :
  let items := AICheckInScreen.pendingSpeakQueueRef s in
  let spoken := filter (fun t => truthy t = true) (map trim items) in
  (forall i a b,
      (AICheckInScreen.lastSpokenTextRef s :: spoken) !! i = Some a ->
      (AICheckInScreen.lastSpokenTextRef s :: spoken) !! S i = Some b ->
      a <> b) ->
  (AICheckInScreen.avatarReadyRef s = true ->
   let s' := AICheckInScreen.flushPendingSpeaks now true s in
   AICheckInScreen.effects s'
   = AICheckInScreen.effects s ++ map AICheckInScreen.InjectSpeak spoken
   /\ AICheckInScreen.pendingSpeakQueueRef s' = [])
  /\ (AICheckInScreen.avatarReadyRef s = true ->
      let s' := AICheckInScreen.flushPendingSpeaks now false s in
      AICheckInScreen.effects s' = AICheckInScreen.effects s
      /\ AICheckInScreen.pendingSpeakQueueRef s' = [])
  /\ (AICheckInScreen.avatarReadyRef s = false ->
      forall webSdk, AICheckInScreen.flushPendingSpeaks now webSdk s = s).
Proof.
  intros items spoken. subst spoken items. intros Hn.
  unfold AICheckInScreen.flushPendingSpeaks.
  split; [|split].
  - intros Hr. rewrite Hr. cbn [negb]. cbv zeta.
    destruct (AICheckInScreen.pendingSpeakQueueRef s) as [|t rest] eqn:Eq.
    { cbn. by rewrite app_nil_r. }
    destruct (speak_all_in_order now (t :: rest)
                (AICheckInScreen.set_pendingSpeakQueueRef [] s))
      as [He Hq].
    { by destruct s. }
    cbv zeta in He, Hq. rewrite He, Hq. by destruct s.
  - intros Hr. rewrite Hr. cbn [negb]. cbv zeta.
    destruct (AICheckInScreen.pendingSpeakQueueRef s) as [|t rest] eqn:Eq;
      [done|].
    destruct (speak_all_no_player now (t :: rest)
                (AICheckInScreen.set_pendingSpeakQueueRef [] s))
      as [He Hq].
    cbv zeta in He, Hq. rewrite He, Hq. by destruct s.
  - intros Hr webSdk. by rewrite Hr.
Qed.

Lemma queued_texts_are_spoken_in_order_witness :
  let s :=
    AICheckInScreen.set_pendingSpeakQueueRef
      [" How are you? "; ""; "Any pain?"]%string
      (AICheckInScreen.set_avatarReadyRef true AICheckInScreen.initialSession) in
  AICheckInScreen.effects (AICheckInScreen.flushPendingSpeaks 5000 true s)
  = [AICheckInScreen.InjectSpeak "How are you?";
     AICheckInScreen.InjectSpeak "Any pain?"].
Proof.
  intros s.
  assert (Hn : forall i a b,
             (AICheckInScreen.lastSpokenTextRef s
              :: filter (fun t => truthy t = true)
                   (map trim (AICheckInScreen.pendingSpeakQueueRef s)))
               !! i = Some a ->
             (AICheckInScreen.lastSpokenTextRef s
              :: filter (fun t => truthy t = true)
                   (map trim (AICheckInScreen.pendingSpeakQueueRef s)))
               !! S i = Some b ->
             a <> b).
  { intros [|[|[|i]]] a b Ha Hb; vm_compute in Ha, Hb; congruence. }
  exact (proj1 (proj1 (queued_texts_are_spoken_in_order 5000 s Hn) eq_refl)).
Defined.

(** ** The check-in session: recordings and turns *)

Section Turns.

Import AICheckInScreen.

Implicit Types (s : Session).

Lemma quiet_refl s : quiet s s.
Proof. split; [done|]. exists []. by rewrite app_nil_r. Qed.

Lemma quiet_trans s1 s2 s3 : quiet s1 s2 -> quiet s2 s3 -> quiet s1 s3.
Proof.
  intros [H1 (a & Ea & Ha)] [H2 (b & Eb & Hb)]. split; [congruence|].
  exists (a ++ b). split; [by rewrite Eb, Ea, app_assoc|by apply Forall_app].
Qed.

(** How a quiet step is shown: the recording by stripping the updates,
    the log by normalising it. *)
Lemma quiet_same s s' :
  recording s' = recording s -> effects s' = effects s -> quiet s s'.
Proof. intros H E. split; [done|]. exists []. by rewrite app_nil_r. Qed.

Lemma quiet_one s s' e :
  recording s' = recording s -> effects s' = effects s ++ [e] -> offMic e ->
  quiet s s'.
Proof. intros H E He. split; [done|]. exists [e]. split; [done|by constructor]. Qed.

Lemma quiet_speakViaPlayer text now webSdk s :
  quiet s (speakViaPlayer text now webSdk s).2.
Proof.
  unfold speakViaPlayer. cbv zeta.
  repeat case_match; cbn [snd];
    first [ apply quiet_refl
          | apply quiet_same; [by strip_recording|by effects_norm]
          | eapply quiet_one; [by strip_recording|by effects_norm|done] ].
Qed.

Lemma quiet_speak_all now webSdk (items : list string) :
  forall s, quiet s (foldl (fun s t => (speakViaPlayer t now webSdk s).2) s items).
Proof.
  induction items as [|t items IH]; intros s; [apply quiet_refl|].
  cbn [foldl]. eapply quiet_trans; [apply quiet_speakViaPlayer|apply IH].
Qed.

Lemma quiet_flushPendingSpeaks now webSdk s :
  quiet s (flushPendingSpeaks now webSdk s).
Proof.
  unfold flushPendingSpeaks. repeat case_match; try apply quiet_refl.
  eapply quiet_trans; [|apply quiet_speak_all].
  apply quiet_same; [by strip_recording|by effects_norm].
Qed.

Lemma quiet_flushTTSBuffer s : quiet s (flushTTSBuffer s).
Proof.
  unfold flushTTSBuffer. cbv zeta.
  repeat case_match;
    first [ apply quiet_same; [by strip_recording|by effects_norm]
          | eapply quiet_one; [by strip_recording|by effects_norm|done] ].
Qed.

Lemma quiet_startTypewriter text dur now s :
  quiet s (startTypewriter text dur now s).
Proof.
  unfold startTypewriter. cbv zeta.
  repeat case_match; apply quiet_same;
    first [by strip_recording|by effects_norm].
Qed.

Lemma quiet_detachFromHeygen s : quiet s (detachFromHeygen s).
Proof. by apply quiet_same. Qed.

Lemma quiet_cleanupStreaming s : quiet s (cleanupStreaming s).
Proof. by apply quiet_same. Qed.

Lemma quiet_noteSessionId m s : quiet s (noteSessionId m s).
Proof.
  unfold noteSessionId. case_match; [|apply quiet_refl].
  apply quiet_same; [by strip_recording|by effects_norm].
Qed.

Lemma quiet_noteReady m now webSdk s : quiet s (noteReady m now webSdk s).
Proof.
  unfold noteReady. case_match; [|apply quiet_refl].
  eapply quiet_trans; [|apply quiet_flushPendingSpeaks].
  apply quiet_same; [by strip_recording|by effects_norm].
Qed.

Lemma quiet_taskLifecycle m now s : quiet s (taskLifecycle m now s).
Proof.
  unfold taskLifecycle.
  destruct (isTaskOk m).
  { eapply quiet_trans; [|apply quiet_startTypewriter].
    apply quiet_same; [by strip_recording|by effects_norm]. }
  destruct (isTaskDone m).
  { destruct (truthy (pendingAssistantTextRef s)); cbv beta;
      apply quiet_same; first [by strip_recording|by effects_norm]. }
  destruct (isTaskError m).
  { eapply quiet_trans; [apply quiet_detachFromHeygen|].
    apply quiet_same; [by strip_recording|by effects_norm]. }
  destruct (isConnectionError m); [|apply quiet_refl].
  eapply quiet_trans; [apply quiet_detachFromHeygen|].
  apply quiet_same; [by strip_recording|by effects_norm].
Qed.

Lemma quiet_flushOnSessionId m now webSdk s :
  quiet s (flushOnSessionId m now webSdk s).
Proof.
  unfold flushOnSessionId. case_match; [|apply quiet_refl].
  apply quiet_flushPendingSpeaks.
Qed.

Lemma quiet_onMessage m now webSdk s : quiet s (onMessage m now webSdk s).
Proof.
  unfold onMessage.
  eapply quiet_trans; [apply quiet_noteSessionId|].
  eapply quiet_trans; [apply quiet_noteReady|].
  eapply quiet_trans; [apply quiet_taskLifecycle|].
  apply quiet_flushOnSessionId.
Qed.

Lemma quiet_routeTranscript text now webSdk s :
  quiet s (routeTranscript text now webSdk s).
Proof.
  unfold routeTranscript. repeat case_match;
    try (apply quiet_same; [by strip_recording|by effects_norm]).
  eapply quiet_trans; [|apply quiet_speakViaPlayer].
  apply quiet_same; [by strip_recording|by effects_norm].
Qed.

Lemma quiet_onFinalTranscript text now webSdk s :
  quiet s (onFinalTranscript text now webSdk s).
Proof.
  unfold onFinalTranscript.
  eapply quiet_trans; [|apply quiet_routeTranscript].
  apply quiet_same; [by strip_recording|by effects_norm].
Qed.

Lemma quiet_onSocket (h : Session -> Session) s :
  quiet s (h s) -> quiet s (onSocket h s).
Proof. intros H. unfold onSocket. case_match; [exact H|apply quiet_refl]. Qed.

(** Outside the microphone no handler touches the recorder. *)
Lemma quiet_handle (e : External) s :
  match e with MicPressIn _ | MicPressOut _ => True | _ => quiet s (handle e s) end.
Proof.
  destruct e; try exact I; cbv beta iota delta [handle];
    try apply quiet_onSocket.
  - unfold mountEffect. repeat case_match;
      first [ apply quiet_refl
            | apply quiet_same; [by strip_recording|by effects_norm]
            | eapply quiet_one; [by strip_recording|by effects_norm|done] ].
  - by apply quiet_same.
  - by apply quiet_same.
  - by apply quiet_same.
  - unfold onAssistantTextDelta. case_match;
      apply quiet_same; first [by strip_recording|by effects_norm].
  - apply quiet_onFinalTranscript.
  - unfold onTurnReady. case_match; [|apply quiet_refl].
    by apply quiet_same.
  - unfold onAiAudioChunk. repeat case_match; try apply quiet_refl.
    by apply quiet_same.
  - unfold onAiAudioDone. case_match; [apply quiet_refl|].
    eapply quiet_trans; [|apply quiet_same; [by strip_recording|by effects_norm]].
    eapply quiet_trans; [|apply quiet_flushTTSBuffer].
    by apply quiet_same.
  - unfold onTts. cbv zeta. repeat case_match; try apply quiet_refl;
      apply quiet_same; first [by strip_recording|by effects_norm].
  - unfold onDone. eapply quiet_trans; [|apply quiet_cleanupStreaming].
    apply quiet_same; [by strip_recording|by effects_norm].
  - unfold onDisconnect.
    apply quiet_same; [by strip_recording|by effects_norm].
  - unfold onError.
    eapply quiet_one; [by strip_recording|by effects_norm|done].
  - unfold onTtsFlushTimer. case_match; [|apply quiet_refl].
    apply quiet_flushTTSBuffer.
  - unfold playWritten. case_match; [|apply quiet_refl].
    eapply quiet_one; [by strip_recording|by effects_norm|done].
  - unfold speakingTimeout. repeat case_match; try apply quiet_refl;
      apply quiet_same; first [by strip_recording|by effects_norm].
  - unfold typewriterTick. repeat case_match; try apply quiet_refl;
      apply quiet_same; first [by strip_recording|by effects_norm].
  - case_match; [|apply quiet_refl]. apply quiet_onMessage.
Qed.

Lemma quiet_startRecording s : quiet s (startRecording false s).
Proof.
  unfold startRecording, socketEmit. cbn [negb].
  change (socketRef (set_interviewStarted true s)) with (socketRef s).
  destruct (socketRef s).
  - eapply quiet_one; [by strip_recording|by effects_norm|done].
  - apply quiet_same; [by strip_recording|by effects_norm].
Qed.

Lemma quiet_flowToken (r : TokenResult) (now : Z) s :
  quiet s (flowToken r now false s).
Proof.
  unfold flowToken.
  destruct r as [tok| |]; [destruct (truthy tok)|..];
    first [ apply quiet_same; [by strip_recording|by effects_norm]
          | eapply quiet_trans;
            [|apply quiet_same; [by strip_recording|by effects_norm]];
            eapply quiet_trans; [|apply quiet_startRecording];
            apply quiet_same; [by strip_recording|by effects_norm] ].
Qed.

Lemma quiet_flowFinish s : quiet s (flowFinish false s).
Proof.
  unfold flowFinish.
  destruct (negb (avatarReadyRef s) || negb (hasSessionId s));
    (eapply quiet_trans;
     [|apply quiet_same; [by strip_recording|by effects_norm]]);
    (eapply quiet_trans; [|apply quiet_startRecording]);
    first [ apply quiet_refl
          | apply quiet_same; [by strip_recording|by effects_norm] ].
Qed.

(** A quiet step changes neither count. *)
Lemma quiet_counts s s' :
  quiet s s' ->
  recording s' = recording s
  /\ turnsSent s' = turnsSent s
  /\ recordingsStarted s' = recordingsStarted s.
Proof.
  intros [Hr (a & E & Ha)]. split; [done|].
  unfold turnsSent, audioChunks, recordingsStarted.
  rewrite E, !List.filter_app, !length_app.
  assert (List.filter isAudioChunk a = []
          /\ List.filter isRecorderRecord a = []) as [-> ->].
  { clear E. induction Ha as [|e l He _ [IH1 IH2]]; [done|].
    cbn [List.filter]. by destruct e. }
  cbn [length]. lia.
Qed.

Lemma turnInvariant_quiet s s' : quiet s s' -> turnInvariant s -> turnInvariant s'.
Proof.
  intros H Hi. destruct (quiet_counts s s' H) as (Hr & Ht & Hn).
  unfold turnInvariant. by rewrite Hr, Ht, Hn.
Qed.

(** A press that starts a recording counts one recording more. *)
Lemma turnInvariant_pressIn prepared s :
  turnInvariant s -> turnInvariant (pressIn prepared s).
Proof.
  intros Hi. unfold pressIn. cbv zeta.
  destruct (isAssistantSpeakingRef s || awaitingAvatarTaskRef s).
  { apply (turnInvariant_quiet s); [|done]. by apply quiet_same. }
  change (interviewStarted (set_isPressing true s)) with (interviewStarted s).
  change (recording (set_isPressing true s)) with (recording s).
  destruct (interviewStarted s); cbn [negb].
  2: { apply (turnInvariant_quiet s); [|done]. by apply quiet_same. }
  destruct (recording s) eqn:Er; cbn [negb].
  { apply (turnInvariant_quiet s); [|done]. by apply quiet_same. }
  destruct prepared.
  2: { apply (turnInvariant_quiet s); [|done]. by apply quiet_same. }
  unfold turnInvariant, turnsSent, audioChunks, recordingsStarted in *.
  rewrite Er in Hi.
  change (recording (set_streamingRef true (set_recording true
            (emit RecorderRecord (set_isPressing true s))))) with true.
  effects_norm. rewrite !List.filter_app, !length_app. cbn. lia.
Qed.

(** A release sends at most one turn and ends the recording. *)
Lemma turnInvariant_pressOut capture s :
  turnInvariant s -> turnInvariant (pressOut capture s).
Proof.
  intros Hi. unfold pressOut. cbv zeta.
  destruct (recording s) eqn:Er; cbn [negb]; [|done].
  unfold turnInvariant, turnsSent, audioChunks, recordingsStarted in *.
  rewrite Er in Hi.
  match goal with
  | |- context [recording (set_recording false ?x)] =>
      change (recording (set_recording false x)) with false
  end.
  effects_norm.
  destruct capture as [| | |bytes]; effects_norm.
  - lia.
  - rewrite emitTurn_empty. effects_norm.
    rewrite !List.filter_app, !length_app. cbn. lia.
  - rewrite !List.filter_app, !length_app. cbn. lia.
  - unfold emitTurn, socketEmit.
    destruct (truthy _ && _); [destruct (socketRef _)|]; effects_norm;
      rewrite !List.filter_app, !length_app; cbn; lia.
Qed.

Lemma turnInvariant_react (ev : Event) s :
  turnInvariant s -> turnInvariant (react ev s).
Proof.
  intros Hi. destruct ev as [e| | |r now|now]; cbv beta iota delta [react].
  - pose proof (quiet_handle e s) as Hq.
    destruct e; try (by apply (turnInvariant_quiet s)).
    + cbv beta iota delta [handle]. case_match; [|done].
      by apply turnInvariant_pressIn.
    + cbv beta iota delta [handle]. case_match; [|done].
      by apply turnInvariant_pressOut.
  - destruct (step s =? 1)%nat; [|done].
    apply (turnInvariant_quiet s); [|done]. by apply quiet_same.
  - destruct (startEnabled s); [|done].
    apply (turnInvariant_quiet s); [|done].
    unfold flowBegin. cbv zeta.
    apply quiet_same; [by case_match|by case_match].
  - destruct (flow s); try done.
    apply (turnInvariant_quiet s); [apply quiet_flowToken|done].
  - destruct (flow s); try done.
    destruct (stillWaiting start now s); [done|].
    apply (turnInvariant_quiet s); [apply quiet_flowFinish|done].
Qed.

Lemma turnInvariant_run (evs : list Event) :
  forall s, turnInvariant s -> turnInvariant (run evs s).
Proof.
  induction evs as [|ev evs IH]; intros s H; [done|].
  unfold run. cbn [foldl]. apply IH. by apply turnInvariant_react.
Qed.

End Turns.

(** X21 (pressIn lines 362-378, pressOut lines 380-401, and every other
    handler of the screen). In every run of the screen in which a press
    and a release are each handled to the end before the next event, the
    audio turns sent to the server are never more than the recordings
    started, and while a recording is in progress they are fewer: each
    turn belongs to a recording of its own that has been stopped. *)
Theorem one_turn_per_recording (evs : list AICheckInScreen.Event) :
  let s := AICheckInScreen.run evs AICheckInScreen.initialSession in
  (AICheckInScreen.turnsSent s <= AICheckInScreen.recordingsStarted s)%nat
  /\ (AICheckInScreen.recording s = true ->
      (AICheckInScreen.turnsSent s < AICheckInScreen.recordingsStarted s)%nat).
Proof.
  intros s.
  assert (H : AICheckInScreen.turnInvariant s).
  { apply turnInvariant_run. unfold AICheckInScreen.turnInvariant. cbn. lia. }
  unfold AICheckInScreen.turnInvariant in H. split; [|intros Hr].
  - destruct (AICheckInScreen.recording s); lia.
  - rewrite Hr in H. lia.
Qed.

(** ** Facts about the validation of an email address *)

Section EmailFacts.

Import Validation.

Lemma lang_seq_inv r1 r2 s :
  lang (Seq r1 r2) s <-> exists s1 s2, s = s1 ++ s2 /\ lang r1 s1 /\ lang r2 s2.
Proof.
  split.
  - intros H. inversion H; subst. by eexists _, _.
  - intros (s1 & s2 & -> & H1 & H2). by constructor.
Qed.

Lemma lang_class_inv p s :
  lang (Class p) s <-> exists c, s = [c] /\ p c = true.
Proof.
  split.
  - intros H. inversion H; subst. by eexists.
  - intros (c & -> & H). by constructor.
Qed.

Lemma nullable_lang r : nullable r = true <-> lang r [].
Proof.
  induction r as [| |p|r1 IH1 r2 IH2|r1 IH1 r2 IH2|r IH]; cbn [nullable].
  - split; [done|]. intros H. inversion H.
  - split; [constructor|done].
  - split; [done|]. intros H. inversion H.
  - rewrite andb_true_iff, IH1, IH2, lang_seq_inv. split.
    + intros [H1 H2]. by exists [], [].
    + intros (s1 & s2 & E & H1 & H2). symmetry in E.
      apply app_eq_nil in E as [-> ->]. done.
  - rewrite orb_true_iff, IH1, IH2. split.
    + intros [H|H]; [by apply lang_alt_l|by apply lang_alt_r].
    + intros H. inversion H; subst; [by left|by right].
  - split; [constructor|done].
Qed.

(** A repetition that begins with [c] begins with one match that does. *)
Lemma lang_star_cons_inv r c s :
  lang (Star r) (c :: s) ->
  exists s1 s2, s = s1 ++ s2 /\ lang r (c :: s1) /\ lang (Star r) s2.
Proof.
  intros H. remember (Star r) as r' eqn:Er. remember (c :: s) as l eqn:El.
  revert s El.
  induction H as [| | | | | |r0 s1 s2 H1 _ H2 IH2]; intros t El; try done.
  injection Er as ->. destruct s1 as [|c1 s1].
  - apply IH2; done.
  - cbn in El. injection El as -> <-. by exists s1, s2.
Qed.

Lemma derive_lang c r : forall s, lang (derive c r) s <-> lang r (c :: s).
Proof.
  induction r as [| |p|r1 IH1 r2 IH2|r1 IH1 r2 IH2|r IH]; intros s;
    cbn [derive].
  - split; intros H; inversion H.
  - split; intros H; inversion H.
  - rewrite lang_class_inv. destruct (p c) eqn:Ep.
    + split.
      * intros H. inversion H; subst. by exists c.
      * intros (c' & [= <- ->] & _). constructor.
    + split; [intros H; inversion H|].
      intros (c' & [= <- ->] & H). congruence.
  - assert (Hseq : lang (Seq (derive c r1) r2) s
                   <-> exists s1 s2, s = s1 ++ s2 /\ lang r1 (c :: s1)
                                     /\ lang r2 s2).
    { rewrite lang_seq_inv. split; intros (s1 & s2 & E & H1 & H2);
        exists s1, s2; by rewrite ?IH1 in *. }
    rewrite (lang_seq_inv r1 r2 (c :: s)).
    destruct (nullable r1) eqn:En.
    + split.
      * intros H. inversion H; subst.
        -- apply Hseq in H3 as (s1 & s2 & -> & H1 & H2).
           by exists (c :: s1), s2.
        -- exists [], (c :: s). split; [done|].
           split; [by apply nullable_lang|by apply IH2].
      * intros (s1 & s2 & E & H1 & H2). destruct s1 as [|c1 s1].
        -- cbn in E. subst s2. apply lang_alt_r. by apply IH2.
        -- cbn in E. injection E as <- ->. apply lang_alt_l, Hseq.
           by exists s1, s2.
    + rewrite Hseq. split.
      * intros (s1 & s2 & -> & H1 & H2). by exists (c :: s1), s2.
      * intros (s1 & s2 & E & H1 & H2). destruct s1 as [|c1 s1].
        -- apply nullable_lang in H1. congruence.
        -- cbn in E. injection E as <- ->. by exists s1, s2.
  - split.
    + intros H. inversion H; subst;
        [apply lang_alt_l; by apply IH1|apply lang_alt_r; by apply IH2].
    + intros H. inversion H; subst;
        [apply lang_alt_l; by apply IH1|apply lang_alt_r; by apply IH2].
  - rewrite lang_seq_inv. split.
    + intros (s1 & s2 & -> & H1 & H2). apply IH in H1.
      by apply (lang_star_cons r (c :: s1) s2).
    + intros H. apply lang_star_cons_inv in H as (s1 & s2 & -> & H1 & H2).
      exists s1, s2. by rewrite IH.
Qed.

(** The matcher decides the language. *)
Lemma matchesAll_lang s : forall r, matchesAll r s = true <-> lang r s.
Proof.
  induction s as [|c s IH]; intros r; cbn [matchesAll].
  - apply nullable_lang.
  - by rewrite IH, derive_lang.
Qed.

Lemma lang_star_class p s :
  lang (Star (Class p)) s <-> Forall (fun c => p c = true) s.
Proof.
  split.
  - intros H. remember (Star (Class p)) as r eqn:Er.
    induction H as [| | | | | |r0 s1 s2 H1 _ H2 IH2]; try done.
    injection Er as ->. apply Forall_app. split; [|by apply IH2].
    apply lang_class_inv in H1 as (c & -> & Hc). by constructor.
  - induction 1 as [|c s Hc _ IH]; [constructor|].
    apply (lang_star_cons (Class p) [c] s); [by constructor|done].
Qed.

Lemma lang_plus_class p s :
  lang (plus (Class p)) s <-> s <> [] /\ Forall (fun c => p c = true) s.
Proof.
  unfold plus. rewrite lang_seq_inv. split.
  - intros (s1 & s2 & -> & H1 & H2).
    apply lang_class_inv in H1 as (c & -> & Hc). split; [done|].
    constructor; [done|]. by apply lang_star_class.
  - intros [Hn H]. destruct H as [|c s Hc H]; [done|].
    exists [c], s. split; [done|]. split; [by constructor|].
    by apply lang_star_class.
Qed.

(** The three parts of an address the expression matches. *)
Lemma lang_email s :
  lang EMAIL_REGEX s
  <-> exists name host tld,
        s = name ++ "@"%char :: host ++ "."%char :: tld
        /\ (name <> [] /\ Forall (fun c => notSpaceOrAt c = true) name)
        /\ (host <> [] /\ Forall (fun c => notSpaceOrAt c = true) host)
        /\ (tld <> [] /\ Forall (fun c => notSpaceOrAt c = true) tld).
Proof.
  unfold EMAIL_REGEX. split.
  - intros H.
    apply lang_seq_inv in H as (name & r1 & -> & Hname & H).
    apply lang_seq_inv in H as (a & r2 & -> & Ha & H).
    apply lang_seq_inv in H as (host & r3 & -> & Hhost & H).
    apply lang_seq_inv in H as (d & tld & -> & Hd & Htld).
    apply lang_plus_class in Hname, Hhost, Htld.
    apply lang_class_inv in Ha as (c1 & -> & E1).
    apply lang_class_inv in Hd as (c2 & -> & E2).
    apply Ascii.eqb_eq in E1 as <-. apply Ascii.eqb_eq in E2 as <-.
    by exists name, host, tld.
  - intros (name & host & tld & -> & Hname & Hhost & Htld).
    apply lang_plus_class in Hname, Hhost, Htld.
    apply lang_seq; [done|].
    apply (lang_seq _ _ ["@"%char]); [by constructor|].
    apply lang_seq; [done|].
    apply (lang_seq _ _ ["."%char]); [by constructor|done].
Qed.

End EmailFacts.

(** X22 (VALIDATION.EMAIL_REGEX of the constants, tested by handleLogin,
    LoginScreen.tsx line 75, and handleSignup, SignupScreen.tsx line 46).
    An email address passes the test exactly when it has a part that is
    not empty, then an @, then a domain, with no white space and no other
    @ anywhere, and the domain has a dot that is neither its first nor
    its last character. *)
Theorem email_is_accepted_iff (email : string) :
  Validation.test Validation.EMAIL_REGEX email = true
  <-> exists name domain,
        chars_of_string email = name ++ "@"%char :: domain
        /\ name <> []
        /\ Forall (fun c => Validation.notSpaceOrAt c = true) name
        /\ Forall (fun c => Validation.notSpaceOrAt c = true) domain
        /\ exists i, (0 < i)%nat /\ (S i < length domain)%nat
                     /\ domain !! i = Some "."%char.
Proof.
  unfold Validation.test. rewrite matchesAll_lang, lang_email. split.
  - intros (name & host & tld & E & [Hn Hname] & [Hh Hhost] & [Ht Htld]).
    exists name, (host ++ "."%char :: tld).
    split; [done|]. split; [done|]. split; [done|]. split.
    { apply Forall_app. split; [done|]. by constructor. }
    exists (length host). split; [destruct host; [done|cbn; lia]|].
    split; [rewrite length_app; destruct tld; [done|cbn; lia]|].
    by rewrite list_lookup_middle.
  - intros (name & domain & E & Hn & Hname & Hdomain & i & Hi & Hlen & Hdot).
    pose proof (take_drop_middle domain i "."%char Hdot) as Ed.
    exists name, (take i domain), (drop (S i) domain).
    split; [by rewrite Ed|]. split; [done|]. split.
    { split; [|by apply Forall_take].
      destruct domain; [cbn in Hlen; lia|]. destruct i; [lia|done]. }
    split; [|by apply Forall_drop].
    intros En. apply (f_equal length) in En. rewrite length_drop in En.
    cbn in En. lia.
Qed.

(** Addresses the test accepts and refuses. *)
Example ex_email_test :
  Validation.test Validation.EMAIL_REGEX "ana@clinic.org" = true
  /\ Validation.test Validation.EMAIL_REGEX "a@b..c" = true
  /\ Validation.test Validation.EMAIL_REGEX "ana@clinic" = false
  /\ Validation.test Validation.EMAIL_REGEX "ana@.org" = false
  /\ Validation.test Validation.EMAIL_REGEX "ana@clinic." = false
  /\ Validation.test Validation.EMAIL_REGEX "ana diaz@clinic.org" = false
  /\ Validation.test Validation.EMAIL_REGEX "ana@@clinic.org" = false
  /\ Validation.test Validation.EMAIL_REGEX EmptyString = false.
Proof. by vm_compute. Qed.
